(* ===== verification/_CoqProject ===== *)
-Q . S2P
Prelude.v
Std.v
Overflow.v
Bytes.v
External.v
Instances.v
Decl.v
Artifact.v
ArtifactInv.v
ArtifactSpec.v
ArtifactOrder.v
Contents.v
Target.v
ElfBuild.v
ElfState.v
ElfWrite.v
ElfRepr.v
ElfLink.v
ElfObject.v
ElfLayout.v
ElfImage.v
ElfRead.v
ElfFacts.v
ElfTheorems.v
ElfRelocs.v
ElfClash.v
ElfChecked.v
ElfOverflow.v
Codec.v
ElfCodec.v
ElfTyped.v
ElfParse.v
MachBuild.v
MachState.v
MachWrite.v
Emit.v
MachSymtab.v
MachPlace.v
MachObject.v
MachLink.v
MachImage.v
MachFile.v
MachRead.v
MachTheorems.v
MachChecked.v
MachOverflow.v
MachRelocs.v
EmitTheorems.v
EmitOrder.v
MachWitnesses.v
EmitChecked.v
MachCodec.v
MachTyped.v
MachParse.v
Clients.v
ClientTheorems.v
ClientPrograms.v
Tests.v
TestsLarge.v
