(* ===== verification/Prelude.v ===== *)
(** * Faerie, a library that writes object files

    ** The program

    A client declares names ([artifact/decl.rs]), defines their bytes and links
    them in an [Artifact] ([artifact.rs]); a backend then turns the artifact
    into the bytes of an ELF file ([elf.rs]) or a Mach-O file ([mach.rs]) for
    a target ([target.rs]).  The artifact hands its contents to a backend
    through three iterators, [definitions], [imports] and [links]; the backend
    builds sections, symbols, relocations and a string table, computes the
    offset of every part of the file and writes the parts through a cursor,
    asserting after each that the cursor is where it should be.

    ** The files

    - [Prelude.v] (this file): outcomes of fallible code ([Ok], [Err], [Panic])
      with their monad, machine integers, lists indexed by [Z], association
      lists, strings as bytes, and the automation the other files share.
    - [Std.v]: what the sources use of the standard library: derived orders,
      [BTreeSet] and [BTreeMap] as sorted lists, [Vec::swap_remove], the write
      cursor, powers of two.
    - [Overflow.v]: arithmetic that wraps around or panics as the build says
      ([OverflowChecks], which may differ from operation to operation), and
      when a computation under any such setting follows the one that wraps
      ([follows]: it panics at the first checked operation that overflows).
    - [Bytes.v]: reading a file back: slices, C strings, entries of a table.
    - [External.v]: the crates the sources call, as classes of operations with
      classes of their documented laws: [string_interner], [indexmap],
      [target_lexicon], the ELF and Mach-O parts of [goblin], [scroll]'s
      writing of integers, files, and the build profile (whether
      [debug_assert!] is on).
    - [Instances.v]: concrete instances that satisfy the laws; every theorem
      that assumes the laws has a witness over them.
    - [Decl.v]: [src/artifact/decl.rs] whole, and [ArtifactError].
    - [Artifact.v]: the data types, [ArtifactBuilder] and every operation of
      [Artifact] but emission ([src/artifact.rs]).
    - [ArtifactInv.v]: the calls of the public interface ([op], [exec]), the
      reachable artifacts (by calls and by assignments to the public fields),
      the invariant [wf].
    - [ArtifactSpec.v]: the abstract specification (names to declarations and
      definitions, links between names) and the refinement.
    - [ArtifactOrder.v]: calls as sequences of steps on what the containers
      hold, which of them commute, and the equivalence of artifacts that no
      backend can tell apart.
    - [Contents.v]: what the iterators yield, and what a backend may rely on:
      the interface between the artifact and the backends.
    - [Target.v]: [src/target.rs].
    - [ElfBuild.v], [ElfState.v], [ElfWrite.v]: [src/elf.rs], in its order: the
      builders; the [Elf] value and the operations that change it; [write] and
      [to_bytes].
    - [ElfRepr.v]: objects without a string table ([AbsElf]) and the relation
      [repr] between them and [Elf] values; every operation simulates the
      abstract one.  [ElfLink.v]: the same for links.  [ElfObject.v]: the
      object an artifact stands for ([abs_object]) and that the backend builds
      it.  [ElfFacts.v]: that object position by position.
    - [ElfLayout.v]: the offsets without machine arithmetic.  [ElfImage.v]: the
      bytes of the file ([elf_image]) and that [write] produces them.
      [ElfRead.v]: reading the image back.
    - [ElfTheorems.v]: the theorems about [elf::to_bytes]: the image, the
      sections and the symbols.  [ElfRelocs.v]: the section header table and
      the symbol table as lists read from the bytes of the file, and what they
      say about relocations, local and undefined symbols, zero-initialised
      data.  [ElfClash.v]: sections of the same name.
    - [ElfChecked.v]: the functions of [src/elf.rs] again, with overflow
      checks, and that they follow the wrapping ones.  [ElfOverflow.v]:
      that none of their operations overflows.
    - [Codec.v]: decoding fixed-width fields.  [ElfCodec.v]: the readers of
      ELF structures (the class [GoblinElfRead] with its laws, and a concrete
      instance).  [ElfTyped.v]: that no field of an emitted file is cut off.
      [ElfParse.v]: a parser of whole files, and that it reads an emitted file
      back.
    - [MachBuild.v], [MachState.v], [MachWrite.v]: [src/mach.rs], in its order:
      the builders and the symbol table; [SegmentBuilder], [Mach::new] and
      [build_relocations]; [Mach::write] and [to_bytes].
    - [MachSymtab.v]: the symbol table as a list of names and symbols.
      [MachPlace.v]: where [build_section] puts each definition.
      [MachObject.v]: the sections and symbols of an artifact's contents
      ([mach_groups]) and that [SegmentBuilder::new] builds them.
      [MachLink.v]: the relocation of each link.  [MachImage.v]: the bytes of
      the file ([mach_image]) and the object [Mach::new] returns.
      [MachFile.v]: that [write] produces the image.  [MachRead.v]: reading
      the image back.
    - [MachTheorems.v], [MachRelocs.v]: the theorems about [mach::to_bytes];
      [MachWitnesses.v] applies them to an example.  [MachCodec.v],
      [MachTyped.v], [MachParse.v]: the readers of Mach-O structures, the
      widths of the fields, and a parser that reads an emitted file back.
      [MachChecked.v], [MachOverflow.v]: as for ELF, with the sums that can
      overflow as a condition.
    - [Emit.v]: [emit], [emit_as], [write] and [write_as] ([src/artifact.rs]);
      [EmitTheorems.v]: the theorems about them; [EmitOrder.v]: that the bytes
      do not depend on the order of the calls; [EmitChecked.v]: emission in
      builds with overflow checks.
    - [Clients.v]: the example programs [examples/simple.rs] and
      [examples/prototype.rs]; [ClientTheorems.v]: an executable condition
      under which emission succeeds; [ClientPrograms.v]: that both programs
      write their object, with any crates that obey their laws and any files.
    - [Tests.v]: the tests of the repository as programs over the model, read
      back with the parsers, and that their assertions hold.  [TestsLarge.v]:
      the two tests with 65536 symbols, which are too large to evaluate.

    ** The correspondence

    A method on [&mut self] becomes a function from the old value to the new
    one, with an [outcome] when the code can panic or fail; a field assignment
    is a [set_...] function.  [usize] and [u64] are [Z] with their wrap-around
    written out ([u64 (x + y)]), as in a release build, where overflow wraps.
    In a development build overflow panics: the functions named [..._ck] have
    every addition, subtraction and multiplication of the backends as an
    operation that wraps or panics as the instance of [OverflowChecks] says
    ([add_ck 64 x y]).  [unwrap], [expect], [assert!],
    [unreachable!] and [panic!] are [Panic]; [debug_assert!] is one when the
    profile says so.  Hash maps are [gmap]s, index maps the class [IndexMapOps]
    (a list of pairs in insertion order), sets and maps ordered by [Ord] sorted
    lists.  An iterator is the list of the outcomes of its steps.  Loops over a
    collection are folds or structural recursion.  The one loop without a
    collection, that of [align_to_align_exp], counts an exponent up from 0 to
    the logarithm of a [u64] asserted to be a power of two; its fuel is 64,
    which is shown to be enough for each of them.  [BufWriter] is transparent:
    the only seek that reads the position flushes it.

    ** What is proved

    - Declarations: [absorb] is the join of a partial order wherever it exists,
      so the order of declarations does not matter.
    - The artifact: every sequence of calls returns and stores what the abstract
      specification says; the invariant holds in every reachable artifact; no
      call panics; a failed call changes nothing; the iterators yield exactly
      the specification's contents.
    - The ELF backend: for an artifact that leaves nothing undefined, whose
      names do not clash and whose links are supported, [to_bytes] returns the
      image of the object the artifact stands for, as long as the file is
      smaller than 2^64 bytes and has fewer than 2^32 sections and symbols (the
      widths of the format's fields).  In that file: the header leads to the
      section headers, sections hold the client's bytes under their names,
      every definition and import has its symbol, the undefined symbols are
      exactly the imports, every link has its relocation, there are no other
      relocation sections, and the local symbols come first.  When the numbers the client passes fit
      the words of the target, the string table is below 2^32 bytes and the
      relocations can name all symbols (2^32, or 2^24 in 32-bit files), every
      field has its width, and parsing the file yields exactly the sections,
      symbols and relocations of the artifact.
    - The Mach-O backend: for an artifact that leaves nothing undefined, whose
      alignments are powers of two, whose sections have short names of their
      own and whose symbols are distinct, [to_bytes] returns the image of the
      object the artifact stands for, as long as the file is smaller than 2^32
      bytes (the width of most offsets of the format).  In that file: the load
      commands describe the file; definitions, imports and client sections have
      their symbols and bytes; the undefined symbols are exactly the imports;
      definitions are aligned; each section's table
      holds the relocations of its links, whose bit fields read back for fewer
      than 2^24 symbols (the width of that field).  The symbol table keeps the
      first symbol of each name.  With at most 255 sections (a symbol names its
      section in 8 bits) and addresses that fit the target's words, every field
      has its width, and reading the file yields exactly the sections, symbols
      and relocations of the artifact.
    - Emission: it refuses exactly the incomplete artifacts, otherwise returns
      the image of the target's format; unsupported formats are an error; only
      whole objects reach the file.  The bytes do not depend on how the client
      interleaves declarations, definitions and links, nor on the order of the
      definitions.
    - Overflow: whichever operations a build checks, it writes what one without
      checks writes, unless an operation it checks overflows: then it panics at
      the first of them.  No operation of the ELF backend overflows under the
      conditions above, and none of the Mach-O backend
      when the sums over numbers the client chose (zero-initialised sizes,
      offsets of symbols in sections and of links) fit 64 bits.
    - The clients: an executable check of target, name and contents after which
      [emit] is sure to succeed; with it, [simple.rs], and [prototype.rs] with
      any arguments, write an object with exactly what they mean to put there,
      in builds with overflow checks too, and report the errors of creating and
      writing the file.
    - Where the code falls short of this: in ELF, [to_bytes] panics when the
      bytes of a definition are lost to a later one whose section has the same
      name, and zero-initialised definitions lose their size and alignment; in
      Mach-O, the first definition of a section loses its alignment and zero-initialised
      definitions overlap; 2^64 bytes of zero-initialised data panic in a build
      with overflow checks and wrap in one without; [prototype.rs] ignores the
      exit status of [cc].

    ** What is not modelled

    The [Debug] output of [Elf], logging, error texts, the parsing of the
    command line of [prototype.rs] (by [structopt]), and the crate root
    (re-exports).  Creating files and running processes are parameters.  The
    bytes of the structures of both formats are those of [goblin]: parameters
    with the sizes and laws it documents; its parsers are not: those of
    [ElfParse.v] and [MachParse.v] read what the formats define. *)

From stdpp Require Import base numbers list gmap strings sorting.
From Stdlib Require Import ZArith Lia.
From Stdlib Require Import Strings.Byte.

#[global] Open Scope Z_scope.

(** ** Outcomes

    A Rust function that may fail returns [Ok] or [Err]; one that reaches a
    [panic!], [unreachable!], a failed [assert!], an [unwrap] or [expect] of
    [None], or an out-of-range index ends in [Panic].  The message is the one
    of the source, where it has one. *)
Inductive outcome (E A : Type) : Type :=
| Ok (a : A)
| Err (e : E)
| Panic (msg : string).
Arguments Ok {E A} a.
Arguments Err {E A} e.
Arguments Panic {E A} msg.

Definition obind {E A B} (m : outcome E A) (k : A → outcome E B) : outcome E B :=
  match m with
  | Ok a => k a
  | Err e => Err e
  | Panic s => Panic s
  end.

Definition omap_err {E F A} (f : E → F) (m : outcome E A) : outcome F A :=
  match m with
  | Ok a => Ok a
  | Err e => Err (f e)
  | Panic s => Panic s
  end.

(** [o.expect(msg)]: the value, or the panic of the source. *)
Definition expect {E A} (o : option A) (msg : string) : outcome E A :=
  match o with
  | Some a => Ok a
  | None => Panic msg
  end.

(** [assert!(b)] *)
Definition assert_ {E} (b : bool) (msg : string) : outcome E unit :=
  if b then Ok tt else Panic msg.

Declare Scope outcome_scope.
Delimit Scope outcome_scope with outcome.
Notation "'let!' x ':=' m 'in' k" := (obind m (fun x => k))
  (at level 10, x name, m at level 100, k at level 200) : outcome_scope.
Notation "'let!' ' p ':=' m 'in' k" := (obind m (fun x => match x with p => k end))
  (at level 10, p pattern, m at level 100, k at level 200) : outcome_scope.
Notation "'do!' m 'in' k" := (obind m (fun _ => k))
  (at level 10, m at level 100, k at level 200) : outcome_scope.
#[global] Open Scope outcome_scope.

Definition no_panic {E A} (m : outcome E A) : Prop :=
  match m with Panic _ => False | _ => True end.

Definition is_ok {E A} (m : outcome E A) : bool :=
  match m with Ok _ => true | _ => false end.

(** A loop [for x in l { acc = f(acc, x)?; }]. *)
Fixpoint ofold {E A S} (f : S → A → outcome E S) (s : S) (l : list A) : outcome E S :=
  match l with
  | [] => Ok s
  | x :: l => let! s' := f s x in ofold f s' l
  end.

(** A loop that maps every element and stops at the first failure. *)
Fixpoint omapM {E A B} (f : A → outcome E B) (l : list A) : outcome E (list B) :=
  match l with
  | [] => Ok []
  | x :: l => let! y := f x in let! ys := omapM f l in Ok (y :: ys)
  end.

Lemma ofold_app {E A S} (f : S → A → outcome E S) s l1 l2 :
  ofold f s (l1 ++ l2) = obind (ofold f s l1) (fun s' => ofold f s' l2).
Proof.
  revert s; induction l1 as [|x l1 IH]; intros s; cbn; [done|].
  destruct (f s x); cbn; auto.
Qed.

(** Rule for loops: an invariant that every iteration keeps, and under which
    no iteration fails, holds when the loop ends. *)
Lemma ofold_inv {E A S} (f : S → A → outcome E S) (I : list A → S → Prop) l s :
  I [] s →
  (∀ done x rest s, l = done ++ x :: rest → I done s →
     ∃ s', f s x = Ok s' ∧ I (done ++ [x]) s') →
  ∃ s', ofold f s l = Ok s' ∧ I l s'.
Proof.
  assert (∀ l1 l2 s, l = l1 ++ l2 → I l1 s →
    (∀ done x rest s, l = done ++ x :: rest → I done s →
       ∃ s', f s x = Ok s' ∧ I (done ++ [x]) s') →
    ∃ s', ofold f s l2 = Ok s' ∧ I l s') as H; [|intros; by apply (H [])].
  intros l1 l2; revert l1; induction l2 as [|x l2 IH]; intros l1 s0 -> Hi Hstep; cbn.
  - rewrite app_nil_r in *. eauto.
  - destruct (Hstep l1 x l2 s0 eq_refl Hi) as (s1 & Hf & Hi1). rewrite Hf; cbn.
    apply (IH (l1 ++ [x])); [by rewrite <- app_assoc | done | done].
Qed.

Lemma omapM_ok {E A B} (f : A → outcome E B) (l : list A) :
  (∀ x, x ∈ l → ∃ y, f x = Ok y) →
  ∃ ys, omapM f l = Ok ys ∧ Forall2 (fun x y => f x = Ok y) l ys.
Proof.
  induction l as [|x l IH]; intros H; cbn; [eauto|].
  destruct (H x) as [y Hy]; [set_solver|]. rewrite Hy; cbn.
  destruct IH as (ys & -> & HF); [set_solver|]. cbn. eauto.
Qed.

(** ** Machine integers

    A [w]-bit value is a [Z]; [wrap w] is the value an [as] cast keeps and the
    value an addition, subtraction or multiplication has when it overflows with
    overflow checks off. *)
Definition wrap (w : Z) (x : Z) : Z := x mod 2 ^ w.
Abbreviation u8 := (wrap 8).
Abbreviation u16 := (wrap 16).
Abbreviation u32 := (wrap 32).
Abbreviation u64 := (wrap 64).

(** [x as i32] for an unsigned [x]: the low 32 bits read in two's complement. *)
Definition i32 (x : Z) : Z :=
  let y := u32 x in if y <? 2 ^ 31 then y else y - 2 ^ 32.

Definition in_u (w : Z) (x : Z) : Prop := 0 ≤ x < 2 ^ w.

Lemma wrap_in_u w x : 0 ≤ w → in_u w (wrap w x).
Proof. intros; unfold in_u, wrap. apply Z.mod_pos_bound, Z.pow_pos_nonneg; lia. Qed.

Lemma wrap_small w x : in_u w x → wrap w x = x.
Proof. unfold in_u, wrap. intros; by apply Z.mod_small. Qed.

Lemma wrap_add_l w x y : wrap w (wrap w x + y) = wrap w (x + y).
Proof. unfold wrap. by rewrite Zplus_mod_idemp_l. Qed.

Lemma wrap_add_r w x y : wrap w (x + wrap w y) = wrap w (x + y).
Proof. unfold wrap. by rewrite Zplus_mod_idemp_r. Qed.

Lemma i32_small x : 0 ≤ x < 2 ^ 31 → i32 x = x.
Proof.
  intros H. unfold i32. rewrite wrap_small by (unfold in_u; lia).
  destruct (Z.ltb_spec x (2 ^ 31)); lia.
Qed.

(** Bit fields joined by [|]. *)
Lemma lor_field a b k : 0 ≤ k → 0 ≤ a < 2 ^ k → Z.lor a (b * 2 ^ k) = a + b * 2 ^ k.
Proof.
  intros Hk Ha. symmetry. apply Z.add_nocarry_lor. apply Z.bits_inj'. intros n Hn.
  rewrite Z.land_spec, Z.bits_0. destruct (Z.ltb_spec n k).
  - rewrite Z.mul_pow2_bits_low by lia. apply andb_false_r.
  - destruct (decide (a = 0)) as [->|]; [by rewrite Z.bits_0|].
    rewrite Z.bits_above_log2; [done|lia|].
    apply Z.lt_le_trans with k; [|done]. apply Z.log2_lt_pow2; lia.
Qed.

(** ** Vectors indexed by [usize] *)
Definition zlen {A} (l : list A) : Z := Z.of_nat (length l).

(** [l.get(i)] *)
Definition zget {A} (l : list A) (i : Z) : option A :=
  if (0 <=? i) && (i <? zlen l) then l !! Z.to_nat i else None.

Definition zalter {A} (f : A → A) (i : Z) (l : list A) : list A :=
  if (0 <=? i) && (i <? zlen l) then alter f (Z.to_nat i) l else l.

Lemma zlen_nonneg {A} (l : list A) : 0 ≤ zlen l.
Proof. unfold zlen; lia. Qed.

Lemma zlen_nil {A} : zlen (@nil A) = 0.
Proof. done. Qed.

Lemma zlen_cons {A} (x : A) l : zlen (x :: l) = 1 + zlen l.
Proof. unfold zlen; cbn; lia. Qed.

Lemma zlen_app {A} (l1 l2 : list A) : zlen (l1 ++ l2) = zlen l1 + zlen l2.
Proof. unfold zlen; rewrite length_app; lia. Qed.

Lemma zget_nat {A} (l : list A) (i : nat) : zget l (Z.of_nat i) = l !! i.
Proof.
  unfold zget, zlen. rewrite Nat2Z.id.
  destruct (Z.leb_spec 0 (Z.of_nat i)); [|lia]; cbn.
  destruct (Z.ltb_spec (Z.of_nat i) (Z.of_nat (length l))); [done|].
  symmetry; apply lookup_ge_None; lia.
Qed.

Lemma zget_Some {A} (l : list A) i x :
  zget l i = Some x ↔ 0 ≤ i ∧ l !! Z.to_nat i = Some x.
Proof.
  split.
  - unfold zget. intros H. destruct (Z.leb_spec 0 i); [|done]; cbn in H.
    destruct (i <? zlen l); done.
  - intros [H0 H]. rewrite <- (Z2Nat.id i) by done. by rewrite zget_nat.
Qed.

Lemma zget_range {A} (l : list A) i x : zget l i = Some x → 0 ≤ i < zlen l.
Proof.
  unfold zget. destruct (Z.leb_spec 0 i), (Z.ltb_spec i (zlen l)); cbn; try done; lia.
Qed.

Lemma zget_in_range {A} (l : list A) i : 0 ≤ i < zlen l → ∃ x, zget l i = Some x.
Proof.
  intros [H0 H1]. destruct (lookup_lt_is_Some_2 l (Z.to_nat i)) as [x Hx].
  { unfold zlen in H1; lia. }
  exists x. by apply zget_Some.
Qed.

Lemma zget_app_l {A} (l1 l2 : list A) i x : zget l1 i = Some x → zget (l1 ++ l2) i = Some x.
Proof. rewrite !zget_Some. intros [? ?]; split; [done|]. by apply lookup_app_l_Some. Qed.

Lemma zget_snoc {A} (l : list A) x : zget (l ++ [x]) (zlen l) = Some x.
Proof. unfold zlen. rewrite zget_nat. rewrite lookup_app_r by lia. by rewrite Nat.sub_diag. Qed.

Lemma zget_app_r {A} (l1 l2 : list A) i : 0 ≤ i → zget (l1 ++ l2) (zlen l1 + i) = zget l2 i.
Proof.
  intros H. unfold zlen. rewrite <- (Z2Nat.id i) by done. rewrite <- Nat2Z.inj_add, !zget_nat.
  rewrite lookup_app_r by lia. f_equal. lia.
Qed.

Lemma zget_fmap {A B} (f : A → B) l i : zget (f <$> l) i = f <$> zget l i.
Proof.
  destruct (zget l i) as [x|] eqn:E; cbn.
  - apply zget_Some in E as [H E]. apply zget_Some. split; [done|]. by rewrite list_lookup_fmap, E.
  - destruct (zget (f <$> l) i) as [y|] eqn:E'; [|done].
    apply zget_Some in E' as [H E']. rewrite list_lookup_fmap in E'.
    destruct (l !! Z.to_nat i) as [x|] eqn:El; [|done].
    assert (zget l i = Some x) by by apply zget_Some. congruence.
Qed.

Lemma zget_imap {A B} (f : nat → A → B) l i x :
  zget l i = Some x → zget (imap f l) i = Some (f (Z.to_nat i) x).
Proof. rewrite !zget_Some. intros [H E]. split; [done|]. by rewrite list_lookup_imap, E. Qed.

Lemma elem_zget {A} (l : list A) x : x ∈ l → ∃ i, zget l i = Some x.
Proof.
  intros [i Hi]%list_elem_of_lookup. exists (Z.of_nat i). by rewrite zget_nat.
Qed.

Lemma zget_elem {A} (l : list A) i x : zget l i = Some x → x ∈ l.
Proof. rewrite zget_Some. intros [_ H]. by eapply list_elem_of_lookup_2. Qed.

(** ** Positions of a value in a list *)
Section Index.
Context {A : Type} `{EqDecision A}.

(** The position of the first occurrence of [x]. *)
Fixpoint index_of (x : A) (l : list A) : option Z :=
  match l with
  | [] => None
  | y :: l => if decide (x = y) then Some 0 else Z.succ <$> index_of x l
  end.

Lemma index_of_None x l : index_of x l = None ↔ x ∉ l.
Proof.
  induction l as [|y l IH]; cbn; [set_solver|].
  case_decide; [set_solver|].
  destruct (index_of x l); cbn; split; try done; try set_solver.
Qed.

Lemma index_of_Some_get x l i : index_of x l = Some i → zget l i = Some x.
Proof.
  revert i; induction l as [|y l IH]; intros i; cbn; [done|].
  case_decide as Hd; [intros [= <-]; by subst|].
  destruct (index_of x l) as [j|] eqn:Hj; cbn; [|done]. intros [= <-].
  specialize (IH j eq_refl). apply zget_Some in IH as [? ?].
  apply zget_Some; split; [lia|]. by rewrite Z2Nat.inj_succ.
Qed.

Lemma index_of_elem x l : x ∈ l → ∃ i, index_of x l = Some i.
Proof.
  intros H. destruct (index_of x l) eqn:E; [eauto|]. by apply index_of_None in E.
Qed.

Lemma index_of_app_l x l1 l2 i : index_of x l1 = Some i → index_of x (l1 ++ l2) = Some i.
Proof.
  revert i; induction l1 as [|y l1 IH]; intros i; cbn; [done|].
  case_decide; [done|]. destruct (index_of x l1); cbn; [|done].
  intros [= <-]. by rewrite (IH z).
Qed.

Lemma index_of_app_r x l1 l2 :
  x ∉ l1 → index_of x (l1 ++ l2) = Z.add (zlen l1) <$> index_of x l2.
Proof.
  induction l1 as [|y l1 IH]; intros H; cbn [app index_of].
  - destruct (index_of x l2); done.
  - case_decide; [set_solver|]. rewrite IH by set_solver.
    destruct (index_of x l2); [|done]. cbn. f_equal. rewrite zlen_cons. lia.
Qed.

Lemma index_of_inj x y l i :
  index_of x l = Some i → index_of y l = Some i → x = y.
Proof.
  intros Hx%index_of_Some_get Hy%index_of_Some_get. congruence.
Qed.

Lemma index_of_get_NoDup x l i : NoDup l → zget l i = Some x → index_of x l = Some i.
Proof.
  intros Hnd Hg. destruct (index_of_elem x l) as [j Hj].
  { by eapply zget_elem. }
  rewrite Hj. f_equal. apply index_of_Some_get in Hj.
  apply zget_Some in Hg as [? Hg], Hj as [? Hj].
  assert (Z.to_nat i = Z.to_nat j) by (by eapply NoDup_lookup).
  lia.
Qed.
End Index.

(** ** Association lists in insertion order *)
Section Assoc.
Context {K V : Type} `{EqDecision K}.
Implicit Types (l : list (K * V)) (k : K) (v : V).

Fixpoint al_get l k : option V :=
  match l with
  | [] => None
  | (k', v) :: l => if decide (k = k') then Some v else al_get l k
  end.

(** Overwrite the value of a present key in place, or append a new pair. *)
Fixpoint al_insert k v l : list (K * V) :=
  match l with
  | [] => [(k, v)]
  | (k', v') :: l => if decide (k = k') then (k', v) :: l else (k', v') :: al_insert k v l
  end.

Fixpoint al_modify (f : V → V) k l : list (K * V) :=
  match l with
  | [] => []
  | (k', v) :: l => if decide (k = k') then (k', f v) :: l else (k', v) :: al_modify f k l
  end.

Lemma al_get_None l k : al_get l k = None ↔ k ∉ l.*1.
Proof.
  induction l as [|[k' v'] l IH]; cbn; [set_solver|].
  case_decide; set_solver.
Qed.

Lemma al_get_elem l k v : al_get l k = Some v → (k, v) ∈ l.
Proof.
  induction l as [|[k' v'] l IH]; cbn; [done|].
  case_decide; [intros [= <-]; subst; set_solver | set_solver].
Qed.

Lemma al_get_NoDup l k v : NoDup l.*1 → (k, v) ∈ l → al_get l k = Some v.
Proof.
  induction l as [|[k' v'] l IH]; cbn; [set_solver|].
  intros Hnd Hin. apply NoDup_cons in Hnd as [Hk Hnd].
  apply elem_of_cons in Hin as [[= <- <-] | Hin]; [by rewrite decide_True|].
  rewrite decide_False; [auto|]. intros ->. apply Hk. apply list_elem_of_fmap. by exists (k', v).
Qed.

Lemma al_get_is_Some l k : k ∈ l.*1 → ∃ v, al_get l k = Some v.
Proof. intros H. destruct (al_get l k) eqn:E; [eauto|]. by apply al_get_None in E. Qed.

Lemma al_insert_fresh l k v : k ∉ l.*1 → al_insert k v l = l ++ [(k, v)].
Proof.
  induction l as [|[k' v'] l IH]; cbn; [done|]. intros H.
  rewrite decide_False by set_solver. rewrite IH; set_solver.
Qed.

Lemma al_insert_keys_present l k v : k ∈ l.*1 → (al_insert k v l).*1 = l.*1.
Proof.
  induction l as [|[k' v'] l IH]; cbn; [set_solver|]. intros H.
  case_decide; cbn; [done|]. f_equal. apply IH. set_solver.
Qed.

Lemma al_insert_keys l k v :
  (al_insert k v l).*1 = if decide (k ∈ l.*1) then l.*1 else l.*1 ++ [k].
Proof.
  case_decide; [by apply al_insert_keys_present|].
  rewrite al_insert_fresh by done. by rewrite fmap_app.
Qed.

Lemma al_insert_NoDup l k v : NoDup l.*1 → NoDup (al_insert k v l).*1.
Proof.
  intros H. rewrite al_insert_keys. case_decide; [done|].
  apply NoDup_app; split; [done|]. split; [set_solver|]. apply NoDup_singleton.
Qed.

Lemma al_get_insert l k k' v :
  al_get (al_insert k v l) k' = if decide (k' = k) then Some v else al_get l k'.
Proof.
  induction l as [|[k2 v2] l IH]; cbn.
  - repeat case_decide; congruence.
  - repeat case_decide; subst; cbn; repeat case_decide; try congruence; done.
Qed.

Lemma al_get_modify f l k k' :
  al_get (al_modify f k l) k' = if decide (k' = k) then f <$> al_get l k' else al_get l k'.
Proof.
  induction l as [|[k2 v2] l IH]; cbn.
  - by case_decide.
  - repeat case_decide; subst; cbn; repeat case_decide; try congruence; done.
Qed.

Lemma al_modify_keys f l k : (al_modify f k l).*1 = l.*1.
Proof.
  induction l as [|[k2 v2] l IH]; cbn; [done|]. case_decide; cbn; congruence.
Qed.

Lemma al_get_fmap l k : al_get l k = None ∨ ∃ v, al_get l k = Some v.
Proof. destruct (al_get l k); eauto. Qed.
End Assoc.

(** ** Strings as byte sequences *)
Definition bytes_of (s : string) : list byte := String.list_byte_of_string s.

(** [s.len()]: the number of bytes. *)
Definition str_len (s : string) : Z := Z.of_nat (String.length s).

Lemma str_len_bytes s : zlen (bytes_of s) = str_len s.
Proof.
  unfold zlen, str_len, bytes_of. f_equal.
  unfold String.list_byte_of_string. rewrite length_map.
  induction s; cbn; congruence.
Qed.

Lemma str_len_nonneg s : 0 ≤ str_len s.
Proof. unfold str_len; lia. Qed.

Lemma bytes_of_inj s1 s2 : bytes_of s1 = bytes_of s2 → s1 = s2.
Proof.
  intros H. rewrite <- (String.string_of_list_byte_of_string s1).
  rewrite <- (String.string_of_list_byte_of_string s2). unfold bytes_of in H. by rewrite H.
Qed.

#[global] Instance byte_eq_dec : EqDecision byte := Byte.byte_eq_dec.

Lemma find_app_none {A} (f : A → bool) l1 l2 :
  Forall (fun x => f x = false) l1 → List.find f (l1 ++ l2) = List.find f l2.
Proof. induction 1 as [|x l Hx _ IH]; cbn; [done|]. by rewrite Hx. Qed.

Lemma filter_none {A} (f : A → bool) l : Forall (fun x => f x = false) l → List.filter f l = [].
Proof. induction 1 as [|x l Hx _ IH]; cbn; [done|]. by rewrite Hx. Qed.

Lemma filter_all {A} (f : A → bool) l : Forall (fun x => f x = true) l → List.filter f l = l.
Proof. induction 1 as [|x l Hx _ IH]; cbn; [done|]. by rewrite Hx, IH. Qed.

(** ** Sums of sizes *)
Fixpoint zsum (l : list Z) : Z :=
  match l with
  | [] => 0
  | x :: l => x + zsum l
  end.

Lemma zsum_app l1 l2 : zsum (l1 ++ l2) = zsum l1 + zsum l2.
Proof. induction l1; cbn; lia. Qed.

Lemma zlen_concat {A} (ls : list (list A)) : zlen (concat ls) = zsum (zlen <$> ls).
Proof. induction ls; cbn; [done|]. rewrite zlen_app. lia. Qed.

Lemma zsum_nonneg {A} (f : A → Z) l : (∀ x, 0 ≤ f x) → 0 ≤ zsum (f <$> l).
Proof. intros H. induction l as [|x l IH]; cbn; [lia|]. pose proof (H x). lia. Qed.

Lemma zlen_concat_const {A B} (f : A → list B) n l :
  (∀ x, x ∈ l → zlen (f x) = n) → zlen (concat (f <$> l)) = zlen l * n.
Proof.
  intros H. induction l as [|x l IH]; cbn; [done|].
  rewrite zlen_app, zlen_cons, IH, H by set_solver. lia.
Qed.

Lemma zlen_fmap {A B} (f : A → B) l : zlen (f <$> l) = zlen l.
Proof. unfold zlen. by rewrite length_fmap. Qed.

Lemma elem_of_concat {A} (x : A) (ls : list (list A)) :
  x ∈ concat ls ↔ ∃ l, x ∈ l ∧ l ∈ ls.
Proof.
  induction ls as [|l ls IH]; cbn; [set_solver|]. rewrite elem_of_app, IH. set_solver.
Qed.

(** ** Automation *)
Create HintDb faerie.
Create Rewrite HintDb zlen.
#[export] Hint Resolve zlen_nonneg str_len_nonneg : faerie.
#[export] Hint Rewrite @zlen_nil @zlen_cons @zlen_app @str_len_bytes : zlen.

Ltac zlen_simp := autorewrite with zlen in *.
