(* ===== verification/Std.v ===== *)
(** * The parts of Rust's standard library the sources use

    - derived [Ord]: field by field for structs, variant order first for
      enums, lexicographic for [Vec] and [String] ([Ord], [OrdLaws]);
    - [BTreeSet] and [BTreeMap] as strictly sorted lists;
    - [Vec::swap_remove];
    - [Cursor<Vec<u8>>] with [write_all], [seek(Start n)] and
      [seek(Current(0))]: writes past the end fill the gap with zeros;
    - [u64::checked_next_power_of_two] and [is_power_of_two]. *)

From stdpp Require Import base numbers list gmap strings sorting.
From Stdlib Require Import ZArith Lia.
From Stdlib Require Import Strings.Byte.
From S2P Require Import Prelude.

(** ** Derived ordering *)
Class Ord (A : Type) := cmp : A → A → comparison.

Class OrdLaws (A : Type) `{Ord A} := {
  cmp_eq : ∀ x y : A, cmp x y = Eq ↔ x = y;
  cmp_opp : ∀ x y : A, cmp y x = CompOpp (cmp x y);
  cmp_lt_trans : ∀ x y z : A, cmp x y = Lt → cmp y z = Lt → cmp x z = Lt
}.

#[export] Instance Z_ord : Ord Z := Z.compare.
#[export] Instance byte_ord : Ord byte := fun x y => N.compare (Byte.to_N x) (Byte.to_N y).
#[export] Instance bool_ord : Ord bool :=
  fun x y => match x, y with
             | false, true => Lt
             | true, false => Gt
             | _, _ => Eq
             end.

(** Structs and tuples: the first field that differs decides. *)
#[export] Instance prod_ord {A B} `{Ord A, Ord B} : Ord (A * B) :=
  fun x y => match cmp x.1 y.1 with
             | Eq => cmp x.2 y.2
             | c => c
             end.

(** Enums: an earlier variant is smaller. *)
#[export] Instance sum_ord {A B} `{Ord A, Ord B} : Ord (A + B) :=
  fun x y => match x, y with
             | inl a, inl b => cmp a b
             | inr a, inr b => cmp a b
             | inl _, inr _ => Lt
             | inr _, inl _ => Gt
             end.

#[export] Instance option_ord {A} `{Ord A} : Ord (option A) :=
  fun x y => match x, y with
             | None, None => Eq
             | None, Some _ => Lt
             | Some _, None => Gt
             | Some a, Some b => cmp a b
             end.

Fixpoint list_cmp {A} `{Ord A} (x y : list A) : comparison :=
  match x, y with
  | [], [] => Eq
  | [], _ :: _ => Lt
  | _ :: _, [] => Gt
  | a :: x, b :: y => match cmp a b with
                      | Eq => list_cmp x y
                      | c => c
                      end
  end.
#[export] Instance list_ord {A} `{Ord A} : Ord (list A) := list_cmp.

#[export] Instance string_ord : Ord string := fun x y => cmp (bytes_of x) (bytes_of y).

(** An ordering pulled back along an encoding. *)
Definition ord_via {A B} `{Ord B} (f : A → B) : Ord A := fun x y => cmp (f x) (f y).

Lemma ord_via_laws {A B} `{OrdLaws B} (f : A → B) :
  Inj (=) (=) f → @OrdLaws A (ord_via f).
Proof.
  intros Hinj. split; unfold cmp, ord_via.
  - intros x y. rewrite (cmp_eq (A:=B)). split; [apply Hinj | congruence].
  - intros x y. apply (cmp_opp (A:=B)).
  - intros x y z. apply (cmp_lt_trans (A:=B)).
Qed.

#[export] Instance Z_ord_laws : OrdLaws Z.
Proof.
  split; unfold cmp, Z_ord.
  - apply Z.compare_eq_iff.
  - apply Z.compare_antisym.
  - intros x y z. rewrite !Z.compare_lt_iff. lia.
Qed.

#[export] Instance byte_ord_laws : OrdLaws byte.
Proof.
  split; unfold cmp, byte_ord.
  - intros x y. rewrite N.compare_eq_iff. split; [|by intros ->].
    intros E. assert (Byte.of_N (Byte.to_N x) = Byte.of_N (Byte.to_N y)) as H by by rewrite E.
    rewrite !Byte.of_to_N in H. congruence.
  - intros x y. apply N.compare_antisym.
  - intros x y z. rewrite !N.compare_lt_iff. lia.
Qed.

#[export] Instance bool_ord_laws : OrdLaws bool.
Proof. split; intros [] []; try intros []; done. Qed.

#[export] Instance prod_ord_laws {A B} `{OrdLaws A, OrdLaws B} : OrdLaws (A * B).
Proof.
  split; unfold cmp, prod_ord.
  - intros [a b] [a' b']; cbn. destruct (cmp a a') eqn:E.
    + apply (cmp_eq (A:=A)) in E as ->. rewrite (cmp_eq (A:=B)). split; congruence.
    + split; [done|]. intros [= -> ->]. by rewrite (proj2 (cmp_eq a' a') eq_refl) in E.
    + split; [done|]. intros [= -> ->]. by rewrite (proj2 (cmp_eq a' a') eq_refl) in E.
  - intros [a b] [a' b']; cbn. rewrite (cmp_opp a a').
    destruct (cmp a a'); cbn; [apply cmp_opp | done | done].
  - intros [a b] [a' b'] [a'' b'']; cbn.
    destruct (cmp a a') eqn:E1; [|destruct (cmp a' a'') eqn:E2|done]; try done.
    + apply (cmp_eq (A:=A)) in E1 as ->. destruct (cmp a' a''); try done. apply cmp_lt_trans.
    + apply (cmp_eq (A:=A)) in E2 as <-. by rewrite E1.
    + by rewrite (cmp_lt_trans _ _ _ E1 E2).
Qed.

#[export] Instance sum_ord_laws {A B} `{OrdLaws A, OrdLaws B} : OrdLaws (A + B).
Proof.
  split; unfold cmp, sum_ord.
  - intros [a|a] [b|b]; try (split; congruence);
      [rewrite (cmp_eq (A:=A)) | rewrite (cmp_eq (A:=B))]; split; congruence.
  - intros [a|a] [b|b]; try done; apply cmp_opp.
  - intros [a|a] [b|b] [c|c]; try done; apply cmp_lt_trans.
Qed.

#[export] Instance option_ord_laws {A} `{OrdLaws A} : OrdLaws (option A).
Proof.
  split; unfold cmp, option_ord.
  - intros [a|] [b|]; try (split; congruence). rewrite (cmp_eq (A:=A)); split; congruence.
  - intros [a|] [b|]; try done; apply cmp_opp.
  - intros [a|] [b|] [c|]; try done; apply cmp_lt_trans.
Qed.

#[export] Instance list_ord_laws {A} `{OrdLaws A} : OrdLaws (list A).
Proof.
  split; unfold cmp, list_ord.
  - induction x as [|a x IH]; intros [|b y]; cbn; try (split; congruence).
    destruct (cmp a b) eqn:E.
    + apply (cmp_eq (A:=A)) in E as ->. rewrite IH. split; congruence.
    + split; [done|]. intros [= -> ->]. by rewrite (proj2 (cmp_eq b b) eq_refl) in E.
    + split; [done|]. intros [= -> ->]. by rewrite (proj2 (cmp_eq b b) eq_refl) in E.
  - induction x as [|a x IH]; intros [|b y]; cbn; try done.
    rewrite (cmp_opp a b). destruct (cmp a b); cbn; auto.
  - induction x as [|a x IH]; intros [|b y] [|c z]; cbn; try done.
    destruct (cmp a b) eqn:E1; [|destruct (cmp b c) eqn:E2|done]; try done.
    + apply (cmp_eq (A:=A)) in E1 as ->. destruct (cmp b c); try done. apply IH.
    + apply (cmp_eq (A:=A)) in E2 as <-. by rewrite E1.
    + by rewrite (cmp_lt_trans _ _ _ E1 E2).
Qed.

#[export] Instance string_ord_laws : OrdLaws string.
Proof. apply (ord_via_laws bytes_of). intros ? ?. apply bytes_of_inj. Qed.

(** Deriving [Ord] for a type: give its encoding [f]. *)
Lemma cmp_refl {A} `{OrdLaws A} (x : A) : cmp x x = Eq.
Proof. by apply cmp_eq. Qed.

Lemma cmp_gt_lt {A} `{OrdLaws A} (x y : A) : cmp x y = Gt → cmp y x = Lt.
Proof. intros E. by rewrite cmp_opp, E. Qed.

(** ** [BTreeSet] *)
Section BTree.
Context {A : Type} `{OrdLaws A}.

(** [BTreeSet::insert]: a value equal to a present one is not added. *)
Fixpoint bts_insert (x : A) (s : list A) : list A :=
  match s with
  | [] => [x]
  | y :: s' => match cmp x y with
               | Lt => x :: s
               | Eq => s
               | Gt => y :: bts_insert x s'
               end
  end.

(** The representation invariant: strictly increasing. *)
Definition bts_wf (s : list A) : Prop := StronglySorted (fun x y => cmp x y = Lt) s.

Lemma bts_insert_elem x y s : y ∈ bts_insert x s ↔ y = x ∨ y ∈ s.
Proof.
  induction s as [|z s IH]; cbn; [set_solver|].
  destruct (cmp x z) eqn:E; [apply (cmp_eq (A:=A)) in E; set_solver | set_solver | set_solver].
Qed.

Lemma bts_insert_wf x s : bts_wf s → bts_wf (bts_insert x s).
Proof.
  unfold bts_wf. induction 1 as [|y s Hs IH Hy]; cbn.
  - repeat constructor.
  - destruct (cmp x y) eqn:E.
    + by constructor.
    + constructor; [by constructor|]. constructor; [done|].
      eapply Forall_impl; [exact Hy|]. cbn. intros z. by apply cmp_lt_trans.
    + constructor; [done|]. apply Forall_forall. intros z Hz.
      apply bts_insert_elem in Hz as [->|Hz]; [by apply cmp_gt_lt|].
      by eapply Forall_forall in Hy.
Qed.

Lemma bts_wf_NoDup s : bts_wf s → NoDup s.
Proof.
  induction 1 as [|y s Hs IH Hy]; constructor; [|done].
  intros Hin. eapply Forall_forall in Hy; [|done]. cbn in Hy. by rewrite cmp_refl in Hy.
Qed.

Lemma bts_insert_fresh_perm x s : x ∉ s → bts_insert x s ≡ₚ x :: s.
Proof.
  induction s as [|y s IH]; intros Hx; cbn; [done|].
  destruct (cmp x y) eqn:E.
  - apply (cmp_eq (A:=A)) in E. set_solver.
  - done.
  - rewrite IH by set_solver. apply Permutation_swap.
Qed.
End BTree.

(** ** [BTreeMap]: pairs in increasing order of the keys *)
Abbreviation BTreeMap K V := (list (K * V)) (only parsing).

Definition btm_wf {K V} `{Ord K} (m : BTreeMap K V) : Prop :=
  StronglySorted (fun x y => cmp x.1 y.1 = Lt) m.

Lemma btm_wf_NoDup {K V} `{OrdLaws K} (m : BTreeMap K V) : btm_wf m → NoDup m.*1.
Proof.
  induction 1 as [|[k v] m Hs IH Hy]; cbn; constructor; [|done].
  intros Hin. apply list_elem_of_fmap in Hin as ([k' v'] & -> & Hin).
  eapply Forall_forall in Hy; [|done]. cbn in Hy. by rewrite cmp_refl in Hy.
Qed.

(** ** [Vec::swap_remove(i)]: the last element takes the place of element [i];
    out of range it panics, which is [None] here. *)
Definition swap_remove {A} (l : list A) (i : Z) : option (list A) :=
  match zget l i, list.last l with
  | Some _, Some z => Some (removelast (<[Z.to_nat i := z]> l))
  | _, _ => None
  end.

(** ** [Cursor<Vec<u8>>] *)
Record Cursor := mkCursor { cur_buf : list byte; cur_pos : Z }.

Definition Cursor_new : Cursor := mkCursor [] 0.

(** [write_all]: overwrite from the position on, after zero-filling a gap;
    an empty write does nothing. *)
Definition write_all (bs : list byte) (c : Cursor) : Cursor :=
  match bs with
  | [] => c
  | _ =>
      let p := Z.to_nat (cur_pos c) in
      let buf := cur_buf c ++ replicate (p - length (cur_buf c)) x00 in
      mkCursor (take p buf ++ bs ++ drop (p + length bs) buf) (cur_pos c + zlen bs)
  end.

(** [seek(SeekFrom::Start(n))] *)
Definition seek_start (n : Z) (c : Cursor) : Cursor := mkCursor (cur_buf c) n.

(** [seek(SeekFrom::Current(0))] returns the position. *)
Definition stream_position (c : Cursor) : Z := cur_pos c.

Definition zeros (n : Z) : list byte := replicate (Z.to_nat n) x00.

Lemma zlen_zeros n : 0 ≤ n → zlen (zeros n) = n.
Proof. intros. unfold zlen, zeros. rewrite length_replicate. lia. Qed.

(** A cursor that has not been moved back: [v] is what was written so far,
    a gap after the last write read as zeros. *)
Definition cur_is (c : Cursor) (v : list byte) : Prop :=
  cur_pos c = zlen v ∧ v = cur_buf c ++ zeros (cur_pos c - zlen (cur_buf c)).

Lemma cur_is_new : cur_is Cursor_new [].
Proof. done. Qed.

Lemma cur_is_len c v : cur_is c v → zlen (cur_buf c) ≤ cur_pos c.
Proof.
  intros [Hp Hv]. apply (f_equal zlen) in Hv. rewrite zlen_app in Hv.
  pose proof (zlen_nonneg (zeros (cur_pos c - zlen (cur_buf c)))). lia.
Qed.

Lemma cur_is_position c v : cur_is c v → stream_position c = zlen v.
Proof. by intros []. Qed.

Lemma write_all_buf bs c v :
  cur_is c v → bs ≠ [] → write_all bs c = mkCursor (v ++ bs) (zlen (v ++ bs)).
Proof.
  intros Hc Hbs. pose proof (cur_is_len _ _ Hc) as Hlen. destruct Hc as [Hp Hv].
  unfold write_all. destruct bs as [|b bs]; [done|].
  set (p := Z.to_nat (cur_pos c)).
  assert (cur_buf c ++ replicate (p - length (cur_buf c)) x00 = v) as ->.
  { rewrite Hv. unfold zeros. do 2 f_equal. unfold p, zlen in *. lia. }
  assert (p = length v) as -> by (unfold p; rewrite Hp; unfold zlen; lia).
  rewrite take_ge, drop_ge, app_nil_r by lia. by rewrite Hp, zlen_app.
Qed.

Lemma cur_is_write bs c v : cur_is c v → cur_is (write_all bs c) (v ++ bs).
Proof.
  intros Hc. destruct bs as [|b bs]; [by rewrite app_nil_r|].
  rewrite (write_all_buf _ _ v) by done. split; cbn; [done|].
  by rewrite Z.sub_diag, app_nil_r.
Qed.

Lemma cur_is_seek n c v :
  cur_is c v → zlen v ≤ n → cur_is (seek_start n c) (v ++ zeros (n - zlen v)).
Proof.
  intros Hc Hn. pose proof (cur_is_len _ _ Hc) as Hlen. destruct Hc as [Hp Hv]. split; cbn.
  - rewrite zlen_app, zlen_zeros by lia. lia.
  - rewrite Hv at 1. rewrite <- app_assoc. f_equal. unfold zeros. rewrite <- replicate_add.
    f_equal. lia.
Qed.

Lemma cur_is_fold {A} (f : A → list byte) (l : list A) c v :
  cur_is c v → cur_is (fold_left (fun c x => write_all (f x) c) l c) (v ++ concat (f <$> l)).
Proof.
  revert c v; induction l as [|x l IH]; intros c v Hc; cbn; [by rewrite app_nil_r|].
  rewrite app_assoc. by apply IH, cur_is_write.
Qed.

(** ** Powers of two *)
Definition checked_next_power_of_two (n : Z) : option Z :=
  let p := 2 ^ Z.log2_up n in if p <? 2 ^ 64 then Some p else None.

Definition is_power_of_two (n : Z) : bool := (0 <? n) && (2 ^ Z.log2 n =? n).

Lemma is_power_of_two_spec n : is_power_of_two n = true ↔ ∃ k, 0 ≤ k ∧ n = 2 ^ k.
Proof.
  unfold is_power_of_two. rewrite andb_true_iff, Z.ltb_lt, Z.eqb_eq. split.
  - intros [H E]. exists (Z.log2 n). split; [apply Z.log2_nonneg | done].
  - intros (k & Hk & ->). split; [apply Z.pow_pos_nonneg; lia|].
    by rewrite Z.log2_pow2.
Qed.

Lemma checked_next_power_of_two_fixed n :
  0 ≤ n < 2 ^ 64 → checked_next_power_of_two n = Some n ↔ is_power_of_two n = true.
Proof.
  intros Hn. rewrite is_power_of_two_spec. unfold checked_next_power_of_two. split.
  - destruct (Z.ltb_spec (2 ^ Z.log2_up n) (2 ^ 64)); [|done]. intros [= E].
    exists (Z.log2_up n). split; [apply Z.log2_up_nonneg | done].
  - intros (k & Hk & ->). rewrite Z.log2_up_pow2 by done.
    destruct (Z.ltb_spec (2 ^ k) (2 ^ 64)); [done | lia].
Qed.
