(* ===== verification/Overflow.v ===== *)
(** * Arithmetic with and without overflow checks

    Whether an addition, subtraction or multiplication that does not fit its
    type panics or wraps is a setting of the build ([overflow-checks], on in
    development builds and off in release builds).  [arith] is one such
    operation under any setting.  [follows] relates a computation, as a
    function of the setting, to the same computation with wrap-around: there is
    one list of operations that overflow, in the order in which they are
    performed, and under every setting the computation panics at the first of
    them that is checked and otherwise returns what the wrapping one returns. *)

From stdpp Require Import base numbers list strings.
From Stdlib Require Import ZArith Lia.
From S2P Require Import Prelude.

(** The operations and the message of their panic. *)
Inductive arith_op := OpAdd | OpSub | OpMul.

(** The setting of the build: whether an operation on [w]-bit integers whose
    exact result is [x], which does not fit, panics.  Development builds check
    every operation ([checks_on]), release builds none ([checks_off]). *)
Class OverflowChecks := overflow_checks : arith_op → Z → Z → bool.

Definition checks_on : OverflowChecks := fun _ _ _ => true.
Definition checks_off : OverflowChecks := fun _ _ _ => false.

Definition overflow_msg (op : arith_op) : string :=
  match op with
  | OpAdd => "attempt to add with overflow"
  | OpSub => "attempt to subtract with overflow"
  | OpMul => "attempt to multiply with overflow"
  end.

Definition in_ub (w x : Z) : bool := (0 <=? x) && (x <? 2 ^ w).

Lemma in_ub_spec w x : in_ub w x = true ↔ in_u w x.
Proof. unfold in_ub, in_u. rewrite andb_true_iff, Z.leb_le, Z.ltb_lt. done. Qed.

Section Arith.
Context {OC : OverflowChecks} {E : Type}.

(** An operation on [w]-bit unsigned integers whose exact result is [x]. *)
Definition arith (op : arith_op) (w x : Z) : outcome E Z :=
  if overflow_checks op w x && negb (in_ub w x) then Panic (overflow_msg op) else Ok (wrap w x).

Definition add_ck (w x y : Z) : outcome E Z := arith OpAdd w (x + y).
Definition sub_ck (w x y : Z) : outcome E Z := arith OpSub w (x - y).
Definition mul_ck (w x y : Z) : outcome E Z := arith OpMul w (x * y).

(** A result that fits is the exact one. *)
Lemma arith_fits op w x : in_u w x → arith op w x = Ok x.
Proof.
  intros H. unfold arith. apply in_ub_spec in H as Hb. rewrite Hb, andb_false_r. cbn.
  by rewrite wrap_small.
Qed.

Lemma add_fits w x y : in_u w (x + y) → add_ck w x y = Ok (x + y).
Proof. apply arith_fits. Qed.
Lemma sub_fits w x y : in_u w (x - y) → sub_ck w x y = Ok (x - y).
Proof. apply arith_fits. Qed.
Lemma mul_fits w x y : in_u w (x * y) → mul_ck w x y = Ok (x * y).
Proof. apply arith_fits. Qed.

(** In other words, it is what the wrapping operation returns. *)
Lemma add_exact w x y : in_u w (x + y) → add_ck w x y = Ok (wrap w (x + y)).
Proof. intros H. by rewrite add_fits, wrap_small. Qed.
Lemma sub_exact w x y : in_u w (x - y) → sub_ck w x y = Ok (wrap w (x - y)).
Proof. intros H. by rewrite sub_fits, wrap_small. Qed.
Lemma mul_exact w x y : in_u w (x * y) → mul_ck w x y = Ok (wrap w (x * y)).
Proof. intros H. by rewrite mul_fits, wrap_small. Qed.

(** A checked operation whose result does not fit is a panic. *)
Lemma arith_overflows op w x :
  overflow_checks op w x = true → ¬ in_u w x → arith op w x = Panic (overflow_msg op).
Proof.
  intros Hc Hx. unfold arith. rewrite Hc. destruct (in_ub w x) eqn:Eb; [|done].
  by apply in_ub_spec in Eb.
Qed.
End Arith.

(** ** The operations that overflow *)
Record overflow := mkOverflow { ov_op : arith_op; ov_width : Z; ov_exact : Z }.

Definition overflows (o : overflow) : Prop := ¬ in_u (ov_width o) (ov_exact o).

(** The first of them that the build checks. *)
Definition first_checked {OC : OverflowChecks} (os : list overflow) : option overflow :=
  List.find (fun o => overflow_checks (ov_op o) (ov_width o) (ov_exact o)) os.

(** The result of a build, given that of a wrapping one. *)
Definition trapped {OC : OverflowChecks} {E A} (os : list overflow) (y : outcome E A) : outcome E A :=
  match first_checked os with
  | None => y
  | Some o => Panic (overflow_msg (ov_op o))
  end.

Definition follows {E A} (F : OverflowChecks → outcome E A) (y : outcome E A) : Prop :=
  ∃ os, Forall overflows os ∧ ∀ OC, F OC = trapped os y.

Create HintDb follow.

Section Follow.
Context {E : Type}.

Lemma first_checked_app {OC : OverflowChecks} os1 os2 :
  first_checked (os1 ++ os2) =
  match first_checked os1 with Some o => Some o | None => first_checked os2 end.
Proof.
  unfold first_checked. induction os1 as [|o os1 IH]; cbn; [done|]. by destruct (overflow_checks _ _ _).
Qed.

(** A computation that returns has the result of the wrapping one. *)
Lemma follows_returns {OC : OverflowChecks} {A} (F : OverflowChecks → outcome E A) y :
  follows F y → (∃ a, F OC = Ok a) → F OC = y.
Proof.
  intros (os & _ & HF) [a Ha]. rewrite HF in Ha |- *. unfold trapped in *. by destruct (first_checked os).
Qed.

Lemma follows_same {A} (y : outcome E A) : follows (fun _ => y) y.
Proof. by exists []. Qed.

Lemma arith_follows op w x : follows (E:=E) (fun OC => arith op w x) (Ok (wrap w x)).
Proof.
  unfold arith. destruct (in_ub w x) eqn:Eb.
  - exists []. split; [done|]. intros OC. by rewrite andb_false_r.
  - exists [mkOverflow op w x]. split.
    + constructor; [|done]. intros Hx%in_ub_spec. cbn in Hx. congruence.
    + intros OC. unfold trapped. cbn. rewrite andb_true_r. by destruct (overflow_checks op w x).
Qed.

Lemma add_follows w x y : follows (E:=E) (fun OC => add_ck w x y) (Ok (wrap w (x + y))).
Proof. apply arith_follows. Qed.
Lemma sub_follows w x y : follows (E:=E) (fun OC => sub_ck w x y) (Ok (wrap w (x - y))).
Proof. apply arith_follows. Qed.
Lemma mul_follows w x y : follows (E:=E) (fun OC => mul_ck w x y) (Ok (wrap w (x * y))).
Proof. apply arith_follows. Qed.

(** ** Congruence *)
Lemma follows_bind {A B} (F : OverflowChecks → outcome E A) y
  (K : OverflowChecks → A → outcome E B) k :
  follows F y → (∀ a, follows (fun OC => K OC a) (k a)) →
  follows (fun OC => obind (F OC) (K OC)) (obind y k).
Proof.
  intros (os & Hos & HF) HK. destruct y as [a|e|m].
  - destruct (HK a) as (os' & Hos' & HK'). exists (os ++ os'). split; [by apply Forall_app|].
    intros OC. rewrite HF. unfold trapped. rewrite first_checked_app.
    destruct (first_checked os); [done|]. apply HK'.
  - exists os. split; [done|]. intros OC. rewrite HF. unfold trapped. by destruct (first_checked os).
  - exists os. split; [done|]. intros OC. rewrite HF. unfold trapped. by destruct (first_checked os).
Qed.

(** A step that the wrapping computation takes in passing. *)
Lemma follows_pure {A B} (F : OverflowChecks → outcome E A) a
  (K : OverflowChecks → A → outcome E B) z :
  follows F (Ok a) → follows (fun OC => K OC a) z → follows (fun OC => obind (F OC) (K OC)) z.
Proof.
  intros (os & Hos & HF) (os' & Hos' & HK). exists (os ++ os'). split; [by apply Forall_app|].
  intros OC. rewrite HF. unfold trapped. rewrite first_checked_app.
  destruct (first_checked os); [done|]. apply HK.
Qed.

Lemma follows_add {B} w x y (K : OverflowChecks → Z → outcome E B) z :
  follows (fun OC => K OC (wrap w (x + y))) z → follows (fun OC => obind (add_ck w x y) (K OC)) z.
Proof. apply follows_pure, add_follows. Qed.
Lemma follows_sub {B} w x y (K : OverflowChecks → Z → outcome E B) z :
  follows (fun OC => K OC (wrap w (x - y))) z → follows (fun OC => obind (sub_ck w x y) (K OC)) z.
Proof. apply follows_pure, sub_follows. Qed.
Lemma follows_mul {B} w x y (K : OverflowChecks → Z → outcome E B) z :
  follows (fun OC => K OC (wrap w (x * y))) z → follows (fun OC => obind (mul_ck w x y) (K OC)) z.
Proof. apply follows_pure, mul_follows. Qed.

Lemma follows_ofold {A S} (f : OverflowChecks → S → A → outcome E S) g l : ∀ s,
  (∀ s x, follows (fun OC => f OC s x) (g s x)) →
  follows (fun OC => ofold (f OC) s l) (ofold g s l).
Proof.
  induction l as [|x l IH]; intros s H; cbn [ofold]; [apply follows_same|].
  apply (follows_bind _ _ (fun OC s' => ofold (f OC) s' l)); [apply H|]. intros s'. by apply IH.
Qed.

Lemma ofold_pure {A S} (f : S → A → S) l : ∀ s,
  ofold (E:=E) (fun s x => Ok (f s x)) s l = Ok (fold_left f l s).
Proof. induction l as [|x l IH]; intros s; cbn; auto. Qed.

Lemma follows_fold {A S} (f : OverflowChecks → S → A → outcome E S) (g : S → A → S) s l :
  (∀ s x, follows (fun OC => f OC s x) (Ok (g s x))) →
  follows (fun OC => ofold (f OC) s l) (Ok (fold_left g l s)).
Proof. intros H. rewrite <- (ofold_pure g). by apply follows_ofold. Qed.
End Follow.

#[export] Hint Resolve follows_same arith_follows add_follows sub_follows mul_follows : follow.

(** ** The automation

    [follow] walks through both computations: steps they share, and operations
    of the first that the second takes in passing. *)
Ltac follow_step :=
  cbv beta;
  match goal with
  | |- follows (fun _ => ?x) ?x => apply follows_same
  | |- follows (fun o => obind (@?m o) (@?k o)) _ =>
      first
        [ apply follows_add | apply follows_sub | apply follows_mul
        | apply follows_bind; [apply follows_same | intros ?]
        | apply follows_bind; [solve [eauto with follow] | intros ?]
        | eapply follows_pure; [solve [eauto with follow]|] ]
  | |- follows (fun o => ofold (@?f o) _ _) (ofold _ _ _) => apply follows_ofold; intros ? ?
  | |- follows (fun _ => match ?x with _ => _ end) _ => destruct x
  end.
Ltac follow := repeat follow_step; eauto with follow.

(** Turns [f_ck x = f x] into [∃ a, f_ck x = Ok a]. *)
Tactic Notation "follows_to" uconstr(H) := refine (follows_returns _ _ H _).
