(* ===== verification/Bytes.v ===== *)
(** * Reading bytes back

    What a linker reads in a file: slices, C strings, entries of a table. *)

From stdpp Require Import base numbers list gmap strings.
From Stdlib Require Import ZArith Lia Strings.Byte.
From S2P Require Import Prelude.

(** [n] bytes from offset [off]. *)
Definition slice (off n : Z) (v : list byte) : list byte :=
  take (Z.to_nat n) (drop (Z.to_nat off) v).

(** The bytes up to the next zero. *)
Fixpoint until_nul (v : list byte) : list byte :=
  match v with
  | [] => []
  | b :: v => if decide (b = x00) then [] else b :: until_nul v
  end.

Definition cstring_at (off : Z) (v : list byte) : list byte := until_nul (drop (Z.to_nat off) v).

(** ** Slices *)
Lemma slice_middle v1 v2 v3 : slice (zlen v1) (zlen v2) (v1 ++ v2 ++ v3) = v2.
Proof.
  unfold slice, zlen. rewrite !Nat2Z.id, drop_app_length, take_app_length. done.
Qed.

(** [off] is where [w] is in [v]. *)
Definition at_off (off : Z) (w v : list byte) : Prop :=
  ∃ v1 v2, v = v1 ++ w ++ v2 ∧ zlen v1 = off.

Lemma at_off_slice off w v : at_off off w v → slice off (zlen w) v = w.
Proof. intros (v1 & v2 & -> & <-). apply slice_middle. Qed.

Lemma at_off_trans off1 off2 u w v :
  at_off off1 w v → at_off off2 u w → at_off (off1 + off2) u v.
Proof.
  intros (v1 & v2 & -> & <-) (w1 & w2 & -> & <-).
  exists (v1 ++ w1), (w2 ++ v2). split; [by rewrite <- !app_assoc | by rewrite zlen_app].
Qed.

Lemma at_off_app_l off w v v' : at_off off w v → at_off off w (v ++ v').
Proof.
  intros (v1 & v2 & -> & <-). exists v1, (v2 ++ v'). by rewrite <- !app_assoc.
Qed.

Lemma at_off_end v w : at_off (zlen v) w (v ++ w).
Proof. exists v, []. by rewrite app_nil_r. Qed.

Lemma slice_at off w v n : at_off off w v → zlen w = n → slice off n v = w.
Proof. intros H <-. by apply at_off_slice. Qed.

Lemma at_off_bound off w v : at_off off w v → 0 ≤ off ∧ off + zlen w ≤ zlen v.
Proof.
  intros (v1 & v2 & -> & <-). rewrite !zlen_app.
  pose proof (zlen_nonneg v1). pose proof (zlen_nonneg v2). lia.
Qed.

(** Entry [i] of a table of entries of equal size. *)
Lemma at_off_concat {A} (f : A → list byte) n (l : list A) i x :
  (∀ y, y ∈ l → zlen (f y) = n) → zget l i = Some x → at_off (i * n) (f x) (concat (f <$> l)).
Proof.
  intros Hn Hi. apply zget_Some in Hi as [H0 Hi].
  rewrite <- (take_drop_middle l _ _ Hi), fmap_app, concat_app. cbn.
  eexists _, _. split; [done|].
  rewrite (zlen_concat_const f n).
  - unfold zlen. rewrite length_take. apply lookup_lt_Some in Hi. f_equal. lia.
  - intros y Hy. apply Hn. rewrite <- (take_drop (Z.to_nat i) l). apply elem_of_app. by left.
Qed.

(** Entry [i] of a sequence of pieces. *)
Lemma at_off_pieces (l : list (list byte)) (i : nat) w :
  l !! i = Some w → at_off (zsum (zlen <$> take i l)) w (concat l).
Proof.
  intros Hi. rewrite <- (take_drop_middle l _ _ Hi) at 2. rewrite concat_app. cbn.
  eexists _, _. split; [done|]. by rewrite zlen_concat.
Qed.

(** ** C strings *)
Definition no_nul (s : string) : Prop := x00 ∉ bytes_of s.

Lemma until_nul_app v w : x00 ∉ v → until_nul (v ++ x00 :: w) = v.
Proof.
  induction v as [|b v IH]; intros H; cbn; [done|].
  rewrite decide_False by set_solver. f_equal. apply IH. set_solver.
Qed.

Lemma cstring_at_off off n v :
  at_off off (bytes_of n ++ [x00]) v → no_nul n → cstring_at off v = bytes_of n.
Proof.
  intros (v1 & v2 & -> & <-) Hn. unfold cstring_at, zlen.
  rewrite Nat2Z.id, drop_app_length, <- app_assoc. by apply until_nul_app.
Qed.
