(* ===== verification/External.v ===== *)
(** * The crates the sources call

    None of this code is part of the repository, so each crate is a class of
    operations the model is parametric in, and a class of laws that states the
    documented behaviour the sources rely on.  [Instances.v] gives concrete
    instances of every class.

    - [StringInterner] ([string_interner]): identifiers count up from 0;
    - [IndexMapOps] ([indexmap]): a map that remembers insertion order;
    - [TargetLexicon] ([target_lexicon]): what a target triple says;
    - [GoblinElf], [GoblinMach] ([goblin]): containers, constants, structures,
      their sizes and their encodings;
    - [Scroll] ([scroll]): writing into byte buffers.

    A structure of [goblin] that the sources build field by field is a record
    with the fields the sources name. *)

From stdpp Require Import base numbers list gmap strings.
From Stdlib Require Import ZArith Lia Strings.Byte.
From S2P Require Import Prelude Std.

(** ** Build profile: are [debug_assert!]s compiled in? *)
Class Profile := debug_assertions : bool.

(** [debug_assert!(b)] *)
Definition debug_assert {P : Profile} {E} (b : bool) (msg : string) : outcome E unit :=
  if debug_assertions then assert_ b msg else Ok tt.

(** ** [std::fs::File] and [std::io::Error]: the operating system's side *)
Class OsFile := {
  io_error : Type;
  File : Type;
  (** [write_all]: the file afterwards and the error, if any *)
  file_write_all : File → list byte → File * option io_error
}.

(** ** [string_interner::StringInterner<usize>] *)
Class StringInterner := {
  si_t : Type;
  si_new : si_t;
  si_get_or_intern : si_t → string → si_t * Z;
  si_get : si_t → string → option Z;
  si_resolve : si_t → Z → option string;
  si_len : si_t → Z;
  (** [into_iter]: the interned strings with their identifiers, in order *)
  si_iter : si_t → list (Z * string)
}.

(** The interned strings in identifier order. *)
Definition si_strings {SI : StringInterner} (t : si_t) : list string := (si_iter t).*2.

(** Interning [s] into a list of strings: append it unless it is there. *)
Definition intern (s : string) (l : list string) : list string :=
  if decide (s ∈ l) then l else l ++ [s].

(** [l] with the index of each element. *)
Fixpoint enumerate_from {A} (i : Z) (l : list A) : list (Z * A) :=
  match l with
  | [] => []
  | x :: l => (i, x) :: enumerate_from (Z.succ i) l
  end.
Abbreviation enumerate := (enumerate_from 0).

Class StringInternerLaws (SI : StringInterner) : Prop := {
  si_new_iter : si_iter si_new = [];
  si_iter_ids : ∀ t, si_iter t = enumerate (si_strings t);
  si_intern_strings : ∀ t s, si_strings (si_get_or_intern t s).1 = intern s (si_strings t);
  si_intern_id : ∀ t s,
    Some (si_get_or_intern t s).2 = index_of s (si_strings (si_get_or_intern t s).1);
  si_get_spec : ∀ t s, si_get t s = index_of s (si_strings t);
  si_resolve_spec : ∀ t i, si_resolve t i = zget (si_strings t) i;
  si_len_spec : ∀ t, si_len t = zlen (si_strings t)
}.

(** ** [indexmap::IndexMap] *)
Class IndexMapOps := {
  IndexMap : Type → Type → Type;
  im_new : ∀ {K V}, IndexMap K V;
  (** [iter], [into_iter], [drain(..)]: the pairs in insertion order *)
  im_iter : ∀ {K V}, IndexMap K V → list (K * V);
  im_len : ∀ {K V}, IndexMap K V → Z;
  im_get : ∀ {K V} `{EqDecision K}, IndexMap K V → K → option V;
  (** [insert(k, v)] *)
  im_insert : ∀ {K V} `{EqDecision K}, K → V → IndexMap K V → IndexMap K V;
  (** [entry(k).or_insert(v)]: the map after it and the value now at [k] *)
  im_or_insert : ∀ {K V} `{EqDecision K}, K → V → IndexMap K V → IndexMap K V * V;
  (** a write through the reference [get_mut(k)] or [or_insert] returns *)
  im_modify : ∀ {K V} `{EqDecision K}, (V → V) → K → IndexMap K V → IndexMap K V;
  (** [get_full(k)]: position, key and value *)
  im_get_full : ∀ {K V} `{EqDecision K}, IndexMap K V → K → option (Z * K * V);
  (** [get_index(i)] *)
  im_get_index : ∀ {K V}, IndexMap K V → Z → option (K * V);
  (** a write through the reference [get_index_mut(i)] returns *)
  im_modify_index : ∀ {K V}, (V → V) → Z → IndexMap K V → IndexMap K V
}.

Class IndexMapLaws (IM : IndexMapOps) : Prop := {
  im_new_iter : ∀ K V, im_iter (im_new (K:=K) (V:=V)) = [];
  im_len_spec : ∀ K V (m : IndexMap K V), im_len m = zlen (im_iter m);
  im_get_spec : ∀ K V `{EqDecision K} (m : IndexMap K V) k,
    im_get m k = al_get (im_iter m) k;
  im_insert_iter : ∀ K V `{EqDecision K} (m : IndexMap K V) k v,
    im_iter (im_insert k v m) = al_insert k v (im_iter m);
  im_or_insert_iter : ∀ K V `{EqDecision K} (m : IndexMap K V) k v,
    im_iter (im_or_insert k v m).1 =
    match al_get (im_iter m) k with Some _ => im_iter m | None => al_insert k v (im_iter m) end;
  im_or_insert_val : ∀ K V `{EqDecision K} (m : IndexMap K V) k v,
    (im_or_insert k v m).2 = default v (al_get (im_iter m) k);
  im_modify_iter : ∀ K V `{EqDecision K} (m : IndexMap K V) f k,
    im_iter (im_modify f k m) = al_modify f k (im_iter m);
  im_get_full_spec : ∀ K V `{EqDecision K} (m : IndexMap K V) k,
    im_get_full m k =
    match index_of k (im_iter m).*1, al_get (im_iter m) k with
    | Some i, Some v => Some (i, k, v)
    | _, _ => None
    end;
  im_get_index_spec : ∀ K V (m : IndexMap K V) i, im_get_index m i = zget (im_iter m) i;
  im_modify_index_iter : ∀ K V (m : IndexMap K V) f i,
    im_iter (im_modify_index f i m) = zalter (prod_map id f) i (im_iter m)
}.

(** ** [target_lexicon] *)
Inductive PointerWidth := PW_U16 | PW_U32 | PW_U64.
Inductive Endianness := E_Little | E_Big.

(** The variants the sources match on; the payload of the parametrised ones is
    never read, and [Arch_other] stands for the variants no pattern names. *)
Inductive Architecture :=
| X86_64 | X86_32 | Aarch64 | Arm | Mips32 | Mips64 | Powerpc | Powerpc64 | Powerpc64le
| Riscv32 | Riscv64 | S390x | Sparc | Sparc64 | Sparcv9 | Msp430 | Unknown_arch
| Hexagon | Nvptx64 | AmdGcn | Asmjs | Wasm32 | Arch_other (name : string).

(** [BF_other] stands for every format but the two the emitters exist for. *)
Inductive BinaryFormat := BF_Elf | BF_Macho | BF_other (name : string).

#[export] Instance BinaryFormat_eq_dec : EqDecision BinaryFormat.
Proof. solve_decision. Defined.

Class TargetLexicon := {
  Triple : Type;
  (** [None] is the [Err(())] of the crate *)
  pointer_width : Triple → option PointerWidth;
  endianness : Triple → option Endianness;
  architecture : Triple → Architecture;
  binary_format : Triple → BinaryFormat
}.

(** ** [goblin::container] *)
Inductive Container := C_Little | C_Big.
Record Ctx := mkCtx { container : Container; le : Endianness }.

(** ** Structures of [goblin::elf] *)
Record Header := mkHeader {
  e_type : Z; e_machine : Z; e_shoff : Z; e_shnum : Z; e_shstrndx : Z
}.

Record SectionHeader := mkShdr {
  sh_name : Z; sh_type : Z; sh_flags : Z; sh_offset : Z; sh_size : Z;
  sh_link : Z; sh_info : Z; sh_addralign : Z; sh_entsize : Z
}.

Record Sym := mkSym {
  st_name : Z; st_info : Z; st_other : Z; st_shndx : Z; st_value : Z; st_size : Z
}.

Record ElfReloc := mkElfReloc {
  r_offset : Z; r_addend : option Z; r_sym : Z; r_type : Z
}.

(** ** [goblin::elf] as the sources use it *)
Class GoblinElf := {
  goblin_error : Type;
  ctx_default : Ctx;                       (** [Ctx::default()] *)
  ctx_size : Ctx → Z;                      (** [ctx.size()] *)
  ctx_is_big : Ctx → bool;                 (** [ctx.is_big()] *)
  header_size : Ctx → Z;                   (** [Header::size] *)
  sym_size : Container → Z;                (** [Sym::size] *)
  reloc_size : bool → Ctx → Z;             (** [Reloc::size(is_rela, ctx)] *)
  shdr_size : Ctx → Z;                     (** [SectionHeader::size] *)
  shdr_default : SectionHeader;            (** [SectionHeader::default()] *)
  sym_default : Sym;                       (** [Sym::default()] *)
  (** what [iowrite_with] writes *)
  ser_header : Header → Ctx → list byte;
  ser_sym : Sym → Ctx → list byte;
  ser_reloc : ElfReloc → bool * Ctx → list byte;
  ser_shdr : SectionHeader → Ctx → list byte;
  (** [gwrite_with(x as u32, &mut offset, endian)] *)
  ser_u32 : Z → Endianness → list byte;
  EM_NONE : Z; EM_386 : Z; EM_X86_64 : Z; EM_AARCH64 : Z; EM_ARM : Z; EM_MIPS : Z;
  EM_PPC : Z; EM_PPC64 : Z; EM_RISCV : Z; EM_S390 : Z; EM_SPARC : Z; EM_SPARCV9 : Z;
  EM_MSP430 : Z; ET_REL : Z;
  STB_LOCAL : Z; STB_GLOBAL : Z; STB_WEAK : Z;
  STT_NOTYPE : Z; STT_OBJECT : Z; STT_FUNC : Z; STT_SECTION : Z; STT_FILE : Z;
  STV_DEFAULT : Z; STV_HIDDEN : Z; STV_PROTECTED : Z;
  SHN_ABS : Z; SHN_LORESERVE : Z; SHN_XINDEX : Z;
  SHT_NULL : Z; SHT_PROGBITS : Z; SHT_SYMTAB : Z; SHT_STRTAB : Z; SHT_RELA : Z;
  SHT_NOBITS : Z; SHT_SYMTAB_SHNDX : Z;
  SHF_WRITE : Z; SHF_ALLOC : Z; SHF_EXECINSTR : Z; SHF_MERGE : Z; SHF_STRINGS : Z;
  SHF_INFO_LINK : Z;
  R_X86_64_64 : Z; R_X86_64_PC32 : Z; R_X86_64_PLT32 : Z; R_X86_64_GOTPCREL : Z;
  R_X86_64_32 : Z
}.

(** The ELF specification's values, and the sizes the crate documents. *)
Class GoblinElfLaws (G : GoblinElf) : Prop := {
  ctx_size_spec : ∀ c, ctx_size c = match container c with C_Little => 4 | C_Big => 8 end;
  ctx_is_big_spec : ∀ c, ctx_is_big c = match container c with C_Little => false | C_Big => true end;
  header_size_spec : ∀ c, header_size c = match container c with C_Little => 52 | C_Big => 64 end;
  sym_size_spec : ∀ c, sym_size c = match c with C_Little => 16 | C_Big => 24 end;
  reloc_size_spec : ∀ b c, reloc_size b c =
    match b, container c with
    | false, C_Little => 8 | true, C_Little => 12 | false, C_Big => 16 | true, C_Big => 24
    end;
  shdr_size_spec : ∀ c, shdr_size c = match container c with C_Little => 40 | C_Big => 64 end;
  shdr_default_spec : shdr_default = mkShdr 0 0 0 0 0 0 0 0 0;
  sym_default_spec : sym_default = mkSym 0 0 0 0 0 0;
  ser_header_len : ∀ h c, zlen (ser_header h c) = header_size c;
  ser_sym_len : ∀ s c, zlen (ser_sym s c) = sym_size (container c);
  ser_reloc_len : ∀ r b c, zlen (ser_reloc r (b, c)) = reloc_size b c;
  ser_shdr_len : ∀ s c, zlen (ser_shdr s c) = shdr_size c;
  ser_u32_len : ∀ x e, zlen (ser_u32 x e) = 4;
  STB_values : STB_LOCAL = 0 ∧ STB_GLOBAL = 1 ∧ STB_WEAK = 2;
  STT_values : STT_NOTYPE = 0 ∧ STT_OBJECT = 1 ∧ STT_FUNC = 2 ∧ STT_SECTION = 3 ∧ STT_FILE = 4;
  STV_values : STV_DEFAULT = 0 ∧ STV_HIDDEN = 2 ∧ STV_PROTECTED = 3;
  SHN_values : SHN_ABS = 65521 ∧ SHN_LORESERVE = 65280 ∧ SHN_XINDEX = 65535;
  SHT_values : SHT_NULL = 0 ∧ SHT_PROGBITS = 1 ∧ SHT_SYMTAB = 2 ∧ SHT_STRTAB = 3 ∧
    SHT_RELA = 4 ∧ SHT_NOBITS = 8 ∧ SHT_SYMTAB_SHNDX = 18;
  SHF_values : SHF_WRITE = 1 ∧ SHF_ALLOC = 2 ∧ SHF_EXECINSTR = 4 ∧ SHF_MERGE = 16 ∧
    SHF_STRINGS = 32 ∧ SHF_INFO_LINK = 64
}.

(** ** [scroll]: writing into byte buffers *)
Class Scroll := {
  (** [buf.gwrite_with(x, &mut offset, endian)] for a value encoded as the given
      bytes: the buffer and the offset afterwards *)
  gwrite : list byte * Z → list byte → option (list byte * Z);
  (** [[0u8; n].pwrite(s, 0)]: the buffer afterwards *)
  pwrite_str : Z → string → option (list byte)
}.

(** A write that fits overwrites the bytes from the offset on and advances the
    offset; one that does not fit is an error. *)
Class ScrollLaws (SC : Scroll) : Prop := {
  gwrite_fits : ∀ buf off bs, 0 ≤ off → off + zlen bs ≤ zlen buf →
    gwrite (buf, off) bs =
    Some (take (Z.to_nat off) buf ++ bs ++ drop (Z.to_nat (off + zlen bs)) buf, off + zlen bs);
  gwrite_overflow : ∀ buf off bs, zlen buf < off + zlen bs → gwrite (buf, off) bs = None;
  pwrite_str_fits : ∀ n s, str_len s ≤ n →
    pwrite_str n s = Some (bytes_of s ++ zeros (n - str_len s));
  pwrite_str_overflow : ∀ n s, n < str_len s → pwrite_str n s = None
}.

(** ** Structures of [goblin::mach] *)
Record MachHeader := mkMachHeader {
  mh_filetype : Z; mh_flags : Z; mh_cputype : Z; mh_cpusubtype : Z; mh_ncmds : Z;
  mh_sizeofcmds : Z
}.

Record Segment := mkSegment {
  seg_cmdsize : Z; seg_vmsize : Z; seg_fileoff : Z; seg_filesize : Z; seg_maxprot : Z;
  seg_initprot : Z; seg_nsects : Z
}.

Record SymtabCommand := mkSymtabCommand {
  sc_cmdsize : Z; sc_symoff : Z; sc_nsyms : Z; sc_stroff : Z; sc_strsize : Z
}.

Record MachSection := mkMachSection {
  ms_sectname : list byte; ms_segname : list byte; ms_addr : Z; ms_size : Z; ms_offset : Z;
  ms_align : Z; ms_reloff : Z; ms_nreloc : Z; ms_flags : Z
}.

Record Nlist := mkNlist {
  n_strx : Z; n_type : Z; n_sect : Z; n_desc : Z; n_value : Z
}.

Record RelocationInfo := mkRelocationInfo { r_address : Z; r_info : Z }.

(** ** [goblin::mach] as the sources use it *)
Class GoblinMach := {
  mach_header_size : Container → Z;        (** [Header::size_with] *)
  segment_size : Ctx → Z;                  (** [Segment::size_with] *)
  mach_section_size : Ctx → Z;             (** [Section::size_with] *)
  nlist_size : Ctx → Z;                    (** [Nlist::size_with] *)
  SIZEOF_RELOCATION_INFO : Z;
  Segment_new : Ctx → list byte → Segment; (** [Segment::new(ctx, &raw_sections)] *)
  SymtabCommand_new : SymtabCommand;       (** [SymtabCommand::new()] *)
  (** what [iowrite_with] writes *)
  ser_mach_header : MachHeader → Ctx → list byte;
  ser_segment : Segment → Ctx → list byte;
  ser_mach_section : MachSection → Ctx → list byte;
  ser_symtab_command : SymtabCommand → Endianness → list byte;
  ser_nlist : Nlist → Ctx → list byte;
  ser_relocation : RelocationInfo → Endianness → list byte;
  S_REGULAR : Z; S_ZEROFILL : Z; S_CSTRING_LITERALS : Z; S_ATTR_DEBUG : Z;
  S_ATTR_PURE_INSTRUCTIONS : Z; S_ATTR_SOME_INSTRUCTIONS : Z;
  CPU_TYPE_X86_64 : Z; CPU_TYPE_X86 : Z; CPU_TYPE_ARM64 : Z; CPU_TYPE_ARM : Z;
  CPU_TYPE_SPARC : Z; CPU_TYPE_POWERPC : Z; CPU_TYPE_POWERPC64 : Z;
  MH_OBJECT : Z; MH_SUBSECTIONS_VIA_SYMBOLS : Z;
  N_UNDF : Z; N_EXT : Z; N_SECT : Z; NO_SECT : Z;
  R_ABS : Z; X86_64_RELOC_BRANCH : Z; X86_64_RELOC_GOT_LOAD : Z; X86_64_RELOC_SIGNED : Z;
  X86_64_RELOC_UNSIGNED : Z
}.

(** The values of [mach-o/loader.h], [nlist.h] and [reloc.h], and the sizes the
    crate documents. *)
Class GoblinMachLaws (GM : GoblinMach) : Prop := {
  mach_header_size_spec : ∀ c, mach_header_size c = match c with C_Little => 28 | C_Big => 32 end;
  segment_size_spec : ∀ c, segment_size c = match container c with C_Little => 56 | C_Big => 72 end;
  mach_section_size_spec : ∀ c,
    mach_section_size c = match container c with C_Little => 68 | C_Big => 80 end;
  nlist_size_spec : ∀ c, nlist_size c = match container c with C_Little => 12 | C_Big => 16 end;
  SIZEOF_RELOCATION_INFO_spec : SIZEOF_RELOCATION_INFO = 8;
  Segment_new_cmdsize : ∀ c raw, seg_cmdsize (Segment_new c raw) = u32 (segment_size c + zlen raw);
  SymtabCommand_new_cmdsize : sc_cmdsize SymtabCommand_new = 24;
  ser_mach_header_len : ∀ h c, zlen (ser_mach_header h c) = mach_header_size (container c);
  ser_segment_len : ∀ s c, zlen (ser_segment s c) = segment_size c;
  ser_mach_section_len : ∀ s c, zlen (ser_mach_section s c) = mach_section_size c;
  ser_symtab_command_len : ∀ s e, zlen (ser_symtab_command s e) = 24;
  ser_nlist_len : ∀ n c, zlen (ser_nlist n c) = nlist_size c;
  ser_relocation_len : ∀ r e, zlen (ser_relocation r e) = 8;
  N_values : N_UNDF = 0 ∧ N_EXT = 1 ∧ N_SECT = 14 ∧ NO_SECT = 0;
  X86_64_RELOC_values : R_ABS = 0 ∧ X86_64_RELOC_UNSIGNED = 0 ∧ X86_64_RELOC_SIGNED = 1 ∧
    X86_64_RELOC_BRANCH = 2 ∧ X86_64_RELOC_GOT_LOAD = 3
}.
