(* ===== verification/Instances.v ===== *)
(** * Concrete instances of the classes of [External.v]

    A list-backed interner, an association-list index map, a plain record for
    target triples, and ELF structures encoded as the ELF specification lays
    them out.  They show that the laws can hold together, and the theorems'
    instances on concrete inputs are evaluated with them. *)

From stdpp Require Import base numbers list gmap strings.
From Stdlib Require Import ZArith Lia Strings.Byte.
From S2P Require Import Prelude Std External.

(** ** Interner *)
Definition list_interner : StringInterner := {|
  si_t := list string;
  si_new := [];
  si_get_or_intern l s := (intern s l, default 0 (index_of s (intern s l)));
  si_get l s := index_of s l;
  si_resolve l i := zget l i;
  si_len l := zlen l;
  si_iter l := enumerate l
|}.

Lemma enumerate_from_snd {A} i (l : list A) : (enumerate_from i l).*2 = l.
Proof. revert i; induction l; intros; cbn; congruence. Qed.

Lemma list_interner_laws : StringInternerLaws list_interner.
Proof.
  split; unfold si_strings; cbn; intros; rewrite ?enumerate_from_snd; try done.
  destruct (index_of_elem s (intern s t)) as [i Hi].
  - unfold intern. case_decide; set_solver.
  - by rewrite Hi.
Qed.

(** ** Index map *)
Definition alist_indexmap : IndexMapOps := {|
  IndexMap K V := list (K * V);
  im_new _ _ := [];
  im_iter _ _ m := m;
  im_len _ _ m := zlen m;
  im_get _ _ _ m k := al_get m k;
  im_insert _ _ _ k v m := al_insert k v m;
  im_or_insert _ _ _ k v m :=
    match al_get m k with Some v' => (m, v') | None => (al_insert k v m, v) end;
  im_modify _ _ _ f k m := al_modify f k m;
  im_get_full _ _ _ m k :=
    match index_of k m.*1, al_get m k with Some i, Some v => Some (i, k, v) | _, _ => None end;
  im_get_index _ _ m i := zget m i;
  im_modify_index _ _ f i m := zalter (prod_map id f) i m
|}.

Lemma alist_indexmap_laws : IndexMapLaws alist_indexmap.
Proof. split; cbn; intros; try done; by destruct (al_get m k). Qed.

(** ** Target triples *)
Record SimpleTriple := mkTriple {
  tr_width : option PointerWidth; tr_endian : option Endianness;
  tr_arch : Architecture; tr_format : BinaryFormat
}.

Definition simple_lexicon : TargetLexicon := {|
  Triple := SimpleTriple;
  pointer_width := tr_width; endianness := tr_endian;
  architecture := tr_arch; binary_format := tr_format
|}.

Definition x86_64_elf : SimpleTriple :=
  mkTriple (Some PW_U64) (Some E_Little) X86_64 BF_Elf.
Definition x86_64_macho : SimpleTriple :=
  mkTriple (Some PW_U64) (Some E_Little) X86_64 BF_Macho.

(** ** Files: a file is its contents, writing always succeeds *)
Definition mem_file : OsFile := {|
  io_error := Empty_set;
  File := list byte;
  file_write_all f bs := (f ++ bs, None)
|}.

(** ** Fixed-width integers as bytes *)
Definition byte_of_Z (x : Z) : byte := default x00 (Byte.of_N (Z.to_N (x mod 256))).

Fixpoint le_bytes (n : nat) (x : Z) : list byte :=
  match n with
  | O => []
  | S n => byte_of_Z x :: le_bytes n (Z.shiftr x 8)
  end.

Definition enc (e : Endianness) (n : nat) (x : Z) : list byte :=
  match e with E_Little => le_bytes n x | E_Big => rev (le_bytes n x) end.

Lemma length_le_bytes n x : length (le_bytes n x) = n.
Proof. revert x; induction n; intros; cbn; auto. Qed.

Lemma zlen_enc e n x : zlen (enc e n x) = Z.of_nat n.
Proof. unfold zlen, enc. destruct e; rewrite ?length_rev, length_le_bytes; done. Qed.

(** A field of 4 or 8 bytes, by container. *)
Definition enc_word (c : Ctx) (x : Z) : list byte :=
  enc (le c) (match container c with C_Little => 4 | C_Big => 8 end) x.

Lemma zlen_enc_word c x : zlen (enc_word c x) = match container c with C_Little => 4 | C_Big => 8 end.
Proof. unfold enc_word. rewrite zlen_enc. by destruct (container c). Qed.

Create Rewrite HintDb enc.
#[export] Hint Rewrite zlen_enc zlen_enc_word : enc.

(** ** ELF structures *)
Definition elf_header_bytes (h : Header) (c : Ctx) : list byte :=
  let w := enc_word c in let h2 := enc (le c) 2 in
  let big := match container c with C_Little => false | C_Big => true end in
  [x7f; x45; x4c; x46] ++ enc (le c) 1 (if big then 2 else 1) ++
  enc (le c) 1 (match le c with E_Little => 1 | E_Big => 2 end) ++ enc (le c) 1 1 ++
  enc E_Little 9 0 ++
  h2 (e_type h) ++ h2 (e_machine h) ++ enc (le c) 4 1 ++ w 0 ++ w 0 ++ w (e_shoff h) ++
  enc (le c) 4 0 ++ h2 (if big then 64 else 52) ++ h2 (if big then 56 else 32) ++ h2 0 ++
  h2 (if big then 64 else 40) ++ h2 (e_shnum h) ++ h2 (e_shstrndx h).

Definition elf_sym_bytes (s : Sym) (c : Ctx) : list byte :=
  let w := enc_word c in let e := enc (le c) in
  match container c with
  | C_Big => e 4%nat (st_name s) ++ e 1%nat (st_info s) ++ e 1%nat (st_other s) ++
             e 2%nat (st_shndx s) ++ w (st_value s) ++ w (st_size s)
  | C_Little => e 4%nat (st_name s) ++ w (st_value s) ++ w (st_size s) ++
                e 1%nat (st_info s) ++ e 1%nat (st_other s) ++ e 2%nat (st_shndx s)
  end.

Definition elf_reloc_bytes (r : ElfReloc) (bc : bool * Ctx) : list byte :=
  let '(rela, c) := bc in let w := enc_word c in
  let info := match container c with
              | C_Big => Z.lor (Z.shiftl (r_sym r) 32) (r_type r)
              | C_Little => Z.lor (Z.shiftl (r_sym r) 8) (Z.land (r_type r) 255)
              end in
  w (r_offset r) ++ w info ++ (if rela then w (default 0 (r_addend r)) else []).

Definition elf_shdr_bytes (s : SectionHeader) (c : Ctx) : list byte :=
  let w := enc_word c in let e := enc (le c) in
  e 4%nat (sh_name s) ++ e 4%nat (sh_type s) ++ w (sh_flags s) ++ w 0 ++ w (sh_offset s) ++
  w (sh_size s) ++ e 4%nat (sh_link s) ++ e 4%nat (sh_info s) ++ w (sh_addralign s) ++
  w (sh_entsize s).

Definition elf_goblin : GoblinElf := {|
  goblin_error := Empty_set;
  ctx_default := mkCtx C_Big E_Little;
  ctx_size c := match container c with C_Little => 4 | C_Big => 8 end;
  ctx_is_big c := match container c with C_Little => false | C_Big => true end;
  header_size c := match container c with C_Little => 52 | C_Big => 64 end;
  sym_size c := match c with C_Little => 16 | C_Big => 24 end;
  reloc_size b c := match b, container c with
    | false, C_Little => 8 | true, C_Little => 12 | false, C_Big => 16 | true, C_Big => 24 end;
  shdr_size c := match container c with C_Little => 40 | C_Big => 64 end;
  shdr_default := mkShdr 0 0 0 0 0 0 0 0 0;
  sym_default := mkSym 0 0 0 0 0 0;
  ser_header := elf_header_bytes; ser_sym := elf_sym_bytes; ser_reloc := elf_reloc_bytes;
  ser_shdr := elf_shdr_bytes; ser_u32 x e := enc e 4 x;
  EM_NONE := 0; EM_386 := 3; EM_X86_64 := 62; EM_AARCH64 := 183; EM_ARM := 40; EM_MIPS := 8;
  EM_PPC := 20; EM_PPC64 := 21; EM_RISCV := 243; EM_S390 := 22; EM_SPARC := 2;
  EM_SPARCV9 := 43; EM_MSP430 := 105; ET_REL := 1;
  STB_LOCAL := 0; STB_GLOBAL := 1; STB_WEAK := 2;
  STT_NOTYPE := 0; STT_OBJECT := 1; STT_FUNC := 2; STT_SECTION := 3; STT_FILE := 4;
  STV_DEFAULT := 0; STV_HIDDEN := 2; STV_PROTECTED := 3;
  SHN_ABS := 65521; SHN_LORESERVE := 65280; SHN_XINDEX := 65535;
  SHT_NULL := 0; SHT_PROGBITS := 1; SHT_SYMTAB := 2; SHT_STRTAB := 3; SHT_RELA := 4;
  SHT_NOBITS := 8; SHT_SYMTAB_SHNDX := 18;
  SHF_WRITE := 1; SHF_ALLOC := 2; SHF_EXECINSTR := 4; SHF_MERGE := 16; SHF_STRINGS := 32;
  SHF_INFO_LINK := 64;
  R_X86_64_64 := 1; R_X86_64_PC32 := 2; R_X86_64_PLT32 := 4; R_X86_64_GOTPCREL := 9;
  R_X86_64_32 := 10
|}.

Lemma elf_goblin_laws : GoblinElfLaws elf_goblin.
Proof.
  split; try done; intros; cbn [header_size sym_size reloc_size shdr_size ser_header ser_sym
    ser_reloc ser_shdr ser_u32 elf_goblin].
  - unfold elf_header_bytes. rewrite !zlen_app. autorewrite with enc.
    by destruct (container c).
  - unfold elf_sym_bytes. destruct (container c) eqn:E; rewrite !zlen_app; autorewrite with enc;
      by rewrite E.
  - unfold elf_reloc_bytes. destruct b; rewrite !zlen_app; autorewrite with enc zlen;
      by destruct (container c).
  - unfold elf_shdr_bytes. rewrite !zlen_app. autorewrite with enc. by destruct (container c).
  - apply zlen_enc.
Qed.

(** ** Byte buffers *)
Definition vec_scroll : Scroll := {|
  gwrite st bs :=
    let '(buf, off) := st in
    if off + zlen bs <=? zlen buf then
      Some (take (Z.to_nat off) buf ++ bs ++ drop (Z.to_nat (off + zlen bs)) buf, off + zlen bs)
    else None;
  pwrite_str n s := if str_len s <=? n then Some (bytes_of s ++ zeros (n - str_len s)) else None
|}.

Lemma vec_scroll_laws : ScrollLaws vec_scroll.
Proof.
  split; cbn; intros; match goal with |- context [?x <=? ?y] => destruct (Z.leb_spec x y) end;
    done || lia.
Qed.

(** ** Mach-O structures *)
Definition mach_header_bytes (h : MachHeader) (c : Ctx) : list byte :=
  let e := enc (le c) 4 in
  e (match container c with C_Little => 4277009102 | C_Big => 4277009103 end) ++
  e (mh_cputype h) ++ e (mh_cpusubtype h) ++ e (mh_filetype h) ++ e (mh_ncmds h) ++
  e (mh_sizeofcmds h) ++ e (mh_flags h) ++
  match container c with C_Little => [] | C_Big => e 0 end.

Definition segment_bytes (s : Segment) (c : Ctx) : list byte :=
  let e := enc (le c) 4 in let w := enc_word c in
  e (match container c with C_Little => 1 | C_Big => 25 end) ++ e (seg_cmdsize s) ++
  enc E_Little 16 0 ++ w 0 ++ w (seg_vmsize s) ++ w (seg_fileoff s) ++ w (seg_filesize s) ++
  e (seg_maxprot s) ++ e (seg_initprot s) ++ e (seg_nsects s) ++ e 0.

Definition name16 (l : list byte) : list byte := take 16 (l ++ replicate 16 x00).

Lemma zlen_name16 l : zlen (name16 l) = 16.
Proof. unfold zlen, name16. rewrite length_take, length_app, length_replicate. lia. Qed.

Definition mach_section_bytes (s : MachSection) (c : Ctx) : list byte :=
  let e := enc (le c) 4 in let w := enc_word c in
  name16 (ms_sectname s) ++ name16 (ms_segname s) ++ w (ms_addr s) ++ w (ms_size s) ++
  e (ms_offset s) ++ e (ms_align s) ++ e (ms_reloff s) ++ e (ms_nreloc s) ++ e (ms_flags s) ++
  e 0 ++ e 0 ++ match container c with C_Little => [] | C_Big => e 0 end.

Definition symtab_command_bytes (s : SymtabCommand) (en : Endianness) : list byte :=
  let e := enc en 4 in
  e 2 ++ e (sc_cmdsize s) ++ e (sc_symoff s) ++ e (sc_nsyms s) ++ e (sc_stroff s) ++
  e (sc_strsize s).

Definition nlist_bytes (n : Nlist) (c : Ctx) : list byte :=
  enc (le c) 4 (n_strx n) ++ enc (le c) 1 (n_type n) ++ enc (le c) 1 (n_sect n) ++
  enc (le c) 2 (n_desc n) ++ enc_word c (n_value n).

Definition mach_goblin : GoblinMach := {|
  mach_header_size c := match c with C_Little => 28 | C_Big => 32 end;
  segment_size c := match container c with C_Little => 56 | C_Big => 72 end;
  mach_section_size c := match container c with C_Little => 68 | C_Big => 80 end;
  nlist_size c := match container c with C_Little => 12 | C_Big => 16 end;
  SIZEOF_RELOCATION_INFO := 8;
  Segment_new c raw := mkSegment (u32 (match container c with C_Little => 56 | C_Big => 72 end +
                                       zlen raw)) 0 0 0 0 0 0;
  SymtabCommand_new := mkSymtabCommand 24 0 0 0 0;
  ser_mach_header := mach_header_bytes; ser_segment := segment_bytes;
  ser_mach_section := mach_section_bytes; ser_symtab_command := symtab_command_bytes;
  ser_nlist := nlist_bytes;
  ser_relocation r e := enc e 4 (r_address r) ++ enc e 4 (r_info r);
  S_REGULAR := 0; S_ZEROFILL := 1; S_CSTRING_LITERALS := 2; S_ATTR_DEBUG := 33554432;
  S_ATTR_PURE_INSTRUCTIONS := 2147483648; S_ATTR_SOME_INSTRUCTIONS := 1024;
  CPU_TYPE_X86_64 := 16777223; CPU_TYPE_X86 := 7; CPU_TYPE_ARM64 := 16777228;
  CPU_TYPE_ARM := 12; CPU_TYPE_SPARC := 14; CPU_TYPE_POWERPC := 18;
  CPU_TYPE_POWERPC64 := 16777234;
  MH_OBJECT := 1; MH_SUBSECTIONS_VIA_SYMBOLS := 8192;
  N_UNDF := 0; N_EXT := 1; N_SECT := 14; NO_SECT := 0;
  R_ABS := 0; X86_64_RELOC_BRANCH := 2; X86_64_RELOC_GOT_LOAD := 3; X86_64_RELOC_SIGNED := 1;
  X86_64_RELOC_UNSIGNED := 0
|}.

Lemma mach_goblin_laws : GoblinMachLaws mach_goblin.
Proof.
  split; try done; intros; cbn [ser_mach_header ser_segment ser_mach_section ser_symtab_command
    ser_nlist ser_relocation mach_goblin mach_header_size segment_size mach_section_size nlist_size].
  - unfold mach_header_bytes. rewrite !zlen_app. autorewrite with enc.
    destruct (container c); autorewrite with enc; done.
  - unfold segment_bytes. rewrite !zlen_app. autorewrite with enc. by destruct (container c).
  - unfold mach_section_bytes. rewrite !zlen_app, !zlen_name16. autorewrite with enc.
    destruct (container c); autorewrite with enc; done.
  - unfold symtab_command_bytes. rewrite !zlen_app. by autorewrite with enc.
  - unfold nlist_bytes. rewrite !zlen_app. autorewrite with enc. by destruct (container c).
  - rewrite zlen_app. by autorewrite with enc.
Qed.

Module ConcreteInstances.
#[export] Existing Instance list_interner.
#[export] Existing Instance list_interner_laws.
#[export] Existing Instance alist_indexmap.
#[export] Existing Instance alist_indexmap_laws.
#[export] Existing Instance simple_lexicon.
#[export] Existing Instance mem_file.
#[export] Existing Instance elf_goblin.
#[export] Existing Instance elf_goblin_laws.
#[export] Existing Instance vec_scroll.
#[export] Existing Instance vec_scroll_laws.
#[export] Existing Instance mach_goblin.
#[export] Existing Instance mach_goblin_laws.
End ConcreteInstances.
