(* ===== verification/Decl.v ===== *)
(** * Declarations ([src/artifact/decl.rs]) and the error type of
    [src/artifact.rs]

    The declaration data types with their constructors, builders and
    accessors, and [absorb], the rule that merges a repeated declaration into
    the one on record.  The theorems show that [absorb] is exactly the four
    rules of its documentation and that it is a partial join: the outcome of a
    series of declarations of one name does not depend on their order. *)

From stdpp Require Import base numbers list gmap strings.
From Stdlib Require Import ZArith Lia.
From S2P Require Import Prelude Std External.

(** ** Data types *)
Inductive ImportKind := IK_Function | IK_Data.

Inductive Scope := Scope_Global | Scope_Local | Scope_Weak.

Inductive Visibility := Vis_Default | Vis_Protected | Vis_Hidden.

Inductive DataType := DT_Bytes | DT_String.

Inductive SectionKind := SK_Data | SK_Debug | SK_Text.

Record FunctionDecl := mkFunctionDecl {
  fd_scope : Scope; fd_visibility : Visibility; fd_align : option Z
}.

Record DataDecl := mkDataDecl {
  dd_scope : Scope; dd_visibility : Visibility; dd_writable : bool;
  dd_datatype : DataType; dd_align : option Z
}.

Record SectionDecl := mkSectionDecl {
  sd_kind : SectionKind; sd_datatype : DataType; sd_align : option Z
}.

Inductive DefinedDecl :=
| DD_Function (d : FunctionDecl)
| DD_Data (d : DataDecl)
| DD_Section (d : SectionDecl).

Inductive Decl :=
| Import (k : ImportKind)
| Defined (d : DefinedDecl).

(** The builders of import declarations carry no data. *)
Inductive FunctionImportDecl := mkFunctionImportDecl.
Inductive DataImportDecl := mkDataImportDecl.

#[export] Instance ImportKind_eq_dec : EqDecision ImportKind.
Proof. solve_decision. Defined.
#[export] Instance Scope_eq_dec : EqDecision Scope.
Proof. solve_decision. Defined.
#[export] Instance Visibility_eq_dec : EqDecision Visibility.
Proof. solve_decision. Defined.
#[export] Instance DataType_eq_dec : EqDecision DataType.
Proof. solve_decision. Defined.
#[export] Instance SectionKind_eq_dec : EqDecision SectionKind.
Proof. solve_decision. Defined.
#[export] Instance FunctionDecl_eq_dec : EqDecision FunctionDecl.
Proof. solve_decision. Defined.
#[export] Instance DataDecl_eq_dec : EqDecision DataDecl.
Proof. solve_decision. Defined.
#[export] Instance SectionDecl_eq_dec : EqDecision SectionDecl.
Proof. solve_decision. Defined.
#[export] Instance DefinedDecl_eq_dec : EqDecision DefinedDecl.
Proof. solve_decision. Defined.
#[export] Instance Decl_eq_dec : EqDecision Decl.
Proof. solve_decision. Defined.

(** ** Derived orderings, which decide the order of the definitions *)
Definition Scope_rank (s : Scope) : Z :=
  match s with Scope_Global => 0 | Scope_Local => 1 | Scope_Weak => 2 end.
Definition Visibility_rank (v : Visibility) : Z :=
  match v with Vis_Default => 0 | Vis_Protected => 1 | Vis_Hidden => 2 end.
Definition DataType_rank (d : DataType) : Z :=
  match d with DT_Bytes => 0 | DT_String => 1 end.
Definition SectionKind_rank (k : SectionKind) : Z :=
  match k with SK_Data => 0 | SK_Debug => 1 | SK_Text => 2 end.

Definition FunctionDecl_key (d : FunctionDecl) :=
  (Scope_rank (fd_scope d), (Visibility_rank (fd_visibility d), fd_align d)).
Definition DataDecl_key (d : DataDecl) :=
  (Scope_rank (dd_scope d), (Visibility_rank (dd_visibility d),
    (dd_writable d, (DataType_rank (dd_datatype d), dd_align d)))).
Definition SectionDecl_key (d : SectionDecl) :=
  (SectionKind_rank (sd_kind d), (DataType_rank (sd_datatype d), sd_align d)).
Definition DefinedDecl_key (d : DefinedDecl) :=
  match d with
  | DD_Function d => inl (FunctionDecl_key d)
  | DD_Data d => inr (inl (DataDecl_key d))
  | DD_Section d => inr (inr (SectionDecl_key d))
  end.

#[export] Instance DefinedDecl_ord : Ord DefinedDecl := ord_via DefinedDecl_key.

#[export] Instance DefinedDecl_ord_laws : OrdLaws DefinedDecl.
Proof.
  apply (ord_via_laws DefinedDecl_key).
  intros [[s v a]|[s v w t a]|[k t a]] [[s' v' a']|[s' v' w' t' a']|[k' t' a']];
    cbn; intros [=];
    try (destruct s, s'; try discriminate); try (destruct v, v'; try discriminate);
    try (destruct t, t'; try discriminate); try (destruct k, k'; try discriminate);
    by subst.
Qed.

(** ** Errors ([ArtifactError]) *)
Inductive ArtifactError {G : GoblinElf} {OS : OsFile} :=
| Undeclared (name : string)
| ImportDefined (name : string)
| RelocateImport (name : string)
| IncompatibleDeclaration (old new : Decl)
| DuplicateDefinition (name : string)
| InvalidZeroInit (d : DefinedDecl)
| NonSectionCustomSymbols (d : DefinedDecl) (symbols : BTreeMap string Z)
| UnsupportedBinaryFormat (f : BinaryFormat)
| UndefinedSymbols (names : list string)
| Goblin (e : goblin_error)
| Io (e : io_error).

(** ** The method macros

    [scope_methods!], [visibility_methods!], [datatype_methods!] and
    [align_methods!] add the same methods to several structs; each is a class
    of the struct's field and the methods are generic over it. *)
Class ScopeMethods (D : Type) := {
  get_scope : D → Scope;
  set_scope : Scope → D → D
}.

Section scope_methods.
Context {D : Type} `{ScopeMethods D}.
Definition with_scope (s : Scope) (d : D) : D := set_scope s d.
Definition global (d : D) : D := with_scope Scope_Global d.
Definition local (d : D) : D := with_scope Scope_Local d.
Definition weak (d : D) : D := with_scope Scope_Weak d.
Definition scope_is_global (d : D) : bool := bool_decide (get_scope d = Scope_Global).
End scope_methods.

Class VisibilityMethods (D : Type) := {
  get_visibility : D → Visibility;
  set_visibility : Visibility → D → D
}.

Section visibility_methods.
Context {D : Type} `{VisibilityMethods D}.
Definition with_visibility (v : Visibility) (d : D) : D := set_visibility v d.
Definition default_visibility (d : D) : D := with_visibility Vis_Default d.
Definition protected (d : D) : D := with_visibility Vis_Protected d.
Definition hidden (d : D) : D := with_visibility Vis_Hidden d.
End visibility_methods.

Class DatatypeMethods (D : Type) := {
  get_datatype : D → DataType;
  set_datatype : DataType → D → D
}.

Section datatype_methods.
Context {D : Type} `{DatatypeMethods D}.
Definition with_datatype (t : DataType) (d : D) : D := set_datatype t d.
End datatype_methods.

(** [put_align] is the assignment [self.align = align]. *)
Class AlignMethods (D : Type) := {
  get_align : D → option Z;
  put_align : option Z → D → D
}.

Section align_methods.
Context {D : Type} `{AlignMethods D} {P : Profile}.
Definition set_align {E} (align : option Z) (d : D) : outcome E D :=
  do! match align with
      | Some a => debug_assert (bool_decide (checked_next_power_of_two a = Some a)) "set_align"
      | None => Ok tt
      end in
  Ok (put_align align d).
Definition with_align {E} (align : option Z) (d : D) : outcome E D := set_align align d.
End align_methods.

#[export] Instance FunctionDecl_scope : ScopeMethods FunctionDecl := {|
  get_scope := fd_scope;
  set_scope s d := mkFunctionDecl s (fd_visibility d) (fd_align d)
|}.
#[export] Instance FunctionDecl_visibility : VisibilityMethods FunctionDecl := {|
  get_visibility := fd_visibility;
  set_visibility v d := mkFunctionDecl (fd_scope d) v (fd_align d)
|}.
#[export] Instance FunctionDecl_align : AlignMethods FunctionDecl := {|
  get_align := fd_align;
  put_align a d := mkFunctionDecl (fd_scope d) (fd_visibility d) a
|}.

#[export] Instance DataDecl_scope : ScopeMethods DataDecl := {|
  get_scope := dd_scope;
  set_scope s d := mkDataDecl s (dd_visibility d) (dd_writable d) (dd_datatype d) (dd_align d)
|}.
#[export] Instance DataDecl_visibility : VisibilityMethods DataDecl := {|
  get_visibility := dd_visibility;
  set_visibility v d := mkDataDecl (dd_scope d) v (dd_writable d) (dd_datatype d) (dd_align d)
|}.
#[export] Instance DataDecl_datatype : DatatypeMethods DataDecl := {|
  get_datatype := dd_datatype;
  set_datatype t d := mkDataDecl (dd_scope d) (dd_visibility d) (dd_writable d) t (dd_align d)
|}.
#[export] Instance DataDecl_align : AlignMethods DataDecl := {|
  get_align := dd_align;
  put_align a d := mkDataDecl (dd_scope d) (dd_visibility d) (dd_writable d) (dd_datatype d) a
|}.

#[export] Instance SectionDecl_datatype : DatatypeMethods SectionDecl := {|
  get_datatype := sd_datatype;
  set_datatype t d := mkSectionDecl (sd_kind d) t (sd_align d)
|}.
#[export] Instance SectionDecl_align : AlignMethods SectionDecl := {|
  get_align := sd_align;
  put_align a d := mkSectionDecl (sd_kind d) (sd_datatype d) a
|}.

(** ** Methods of the single structs *)
Definition FunctionDecl_default : FunctionDecl := mkFunctionDecl Scope_Local Vis_Default None.

Definition DataDecl_default : DataDecl :=
  mkDataDecl Scope_Local Vis_Default false DT_Bytes None.

Definition with_writable (w : bool) (d : DataDecl) : DataDecl :=
  mkDataDecl (dd_scope d) (dd_visibility d) w (dd_datatype d) (dd_align d).
Definition writable (d : DataDecl) : DataDecl := with_writable true d.
Definition read_only (d : DataDecl) : DataDecl := with_writable false d.
Definition set_writable (d : DataDecl) (w : bool) : DataDecl :=
  mkDataDecl (dd_scope d) (dd_visibility d) w (dd_datatype d) (dd_align d).
Definition DataDecl_is_writable (d : DataDecl) : bool := dd_writable d.

Definition SectionDecl_new (kind : SectionKind) : SectionDecl :=
  mkSectionDecl kind DT_Bytes None.
Definition SectionDecl_is_global (d : SectionDecl) : bool := false.
Definition SectionDecl_is_writable (d : SectionDecl) : bool :=
  match sd_kind d with
  | SK_Data => true
  | SK_Debug | SK_Text => false
  end.
Definition SectionDecl_kind (d : SectionDecl) : SectionKind := sd_kind d.

(** ** Conversions into [Decl] ([impl Into<Decl>]) *)
Class IntoDecl (D : Type) := into_decl : D → Decl.
#[export] Instance Decl_into : IntoDecl Decl := fun d => d.
#[export] Instance FunctionImportDecl_into : IntoDecl FunctionImportDecl :=
  fun _ => Import IK_Function.
#[export] Instance DataImportDecl_into : IntoDecl DataImportDecl := fun _ => Import IK_Data.
#[export] Instance FunctionDecl_into : IntoDecl FunctionDecl := fun d => Defined (DD_Function d).
#[export] Instance DataDecl_into : IntoDecl DataDecl := fun d => Defined (DD_Data d).
#[export] Instance SectionDecl_into : IntoDecl SectionDecl := fun d => Defined (DD_Section d).

(** ** [impl DefinedDecl] *)
Definition is_function (d : DefinedDecl) : bool :=
  match d with DD_Function _ => true | _ => false end.
Definition is_data (d : DefinedDecl) : bool :=
  match d with DD_Data _ => true | _ => false end.
Definition DefinedDecl_is_section (d : DefinedDecl) : bool :=
  match d with DD_Section _ => true | _ => false end.
Definition is_global (d : DefinedDecl) : bool :=
  match d with
  | DD_Function a => scope_is_global a
  | DD_Data a => scope_is_global a
  | DD_Section a => SectionDecl_is_global a
  end.
Definition is_writable (d : DefinedDecl) : bool :=
  match d with
  | DD_Data a => DataDecl_is_writable a
  | DD_Function _ => false
  | DD_Section a => SectionDecl_is_writable a
  end.
Definition DefinedDecl_get_align (d : DefinedDecl) : option Z :=
  match d with
  | DD_Data a => get_align a
  | DD_Function a => get_align a
  | DD_Section a => get_align a
  end.

(** ** [impl Decl] *)
Definition function_import : FunctionImportDecl := mkFunctionImportDecl.
Definition data_import : DataImportDecl := mkDataImportDecl.
Definition function : FunctionDecl := FunctionDecl_default.
Definition data : DataDecl := DataDecl_default.
Definition cstring : DataDecl := with_datatype DT_String DataDecl_default.
Definition section (kind : SectionKind) : SectionDecl := SectionDecl_new kind.

Definition is_import (d : Decl) : bool :=
  match d with Import _ => true | _ => false end.
Definition is_section (d : Decl) : bool :=
  match d with Defined (DD_Section _) => true | _ => false end.

(** [ImportKind::from_decl] *)
Definition from_decl (d : Decl) : option ImportKind :=
  match d with
  | Import ik => Some ik
  | _ => None
  end.

Section absorb.
Context {G : GoblinElf} {OS : OsFile}.

(** [absorb]: [Ok] carries the new value of [self]; on [Err], [self] is not
    written. *)
Definition absorb (self other : Decl) : outcome ArtifactError Decl :=
  match self with
  | Import IK_Data =>
      match other with
      | Defined (DD_Data _) => Ok other
      | Import IK_Data => Ok self
      | _ => Err (IncompatibleDeclaration self other)
      end
  | Import IK_Function =>
      match other with
      | Defined (DD_Function _) => Ok other
      | Import IK_Function => Ok self
      | _ => Err (IncompatibleDeclaration self other)
      end
  | Defined (DD_Data _) as decl =>
      match other with
      | Import IK_Data => Ok self
      | other =>
          if bool_decide (decl = other) then Ok self
          else Err (IncompatibleDeclaration self other)
      end
  | Defined (DD_Function _) as decl =>
      match other with
      | Import IK_Function => Ok self
      | other =>
          if bool_decide (decl = other) then Ok self
          else Err (IncompatibleDeclaration self other)
      end
  | decl =>
      if bool_decide (decl = other) then Ok self
      else Err (IncompatibleDeclaration self other)
  end.
End absorb.

(** ** Specification of [absorb]

    [decl_le a b]: [b] says all that [a] says.  An import says less than a
    definition of the same kind; no two other declarations are comparable. *)
Inductive decl_le : Decl → Decl → Prop :=
| decl_le_refl d : decl_le d d
| decl_le_function f : decl_le (Import IK_Function) (Defined (DD_Function f))
| decl_le_data d : decl_le (Import IK_Data) (Defined (DD_Data d)).
#[export] Hint Constructors decl_le : faerie.

#[export] Instance decl_le_po : PartialOrder decl_le.
Proof.
  split; [split|].
  - intros d. constructor.
  - intros x y z Hxy Hyz. destruct Hxy; inversion Hyz; subst; eauto with faerie.
  - intros x y Hxy Hyx. destruct Hxy; inversion Hyx; done.
Qed.

(** A series of declarations of one name, the first of which is put on record. *)
Definition absorb_all {G : GoblinElf} {OS : OsFile} (d : Decl) (ds : list Decl) :
  outcome ArtifactError Decl := ofold absorb d ds.

Section AbsorbTheorems.
Context {G : GoblinElf} {OS : OsFile}.

Lemma absorb_le a b : decl_le a b → absorb a b = Ok b.
Proof. intros []; [|done|done]. destruct d as [[]|[]]; cbn; try done; by rewrite bool_decide_true. Qed.

Lemma absorb_ge a b : decl_le b a → absorb a b = Ok a.
Proof. intros []; [|done|done]. by apply absorb_le. Qed.

Lemma absorb_err a b :
  ¬ decl_le a b → ¬ decl_le b a → absorb a b = Err (IncompatibleDeclaration a b).
Proof.
  intros Hab Hba. destruct a as [[]|[]], b as [[]|[]]; cbn; try done;
    try (case_bool_decide as E; [inversion E; subst|done]); exfalso; eauto with faerie.
Qed.

Lemma decl_le_dec a b : decl_le a b ∨ ¬ decl_le a b.
Proof.
  destruct (decide (a = b)) as [->|Hne]; [left; constructor|].
  destruct a as [[]|[]], b as [[]|[]];
    first [left; constructor; fail | right; intros H; inversion H; congruence | idtac];
    by left; constructor.
Qed.

Lemma decl_le_max a b c : decl_le a c → decl_le b c → decl_le a b ∨ decl_le b a.
Proof. intros H1 H2. destruct H1; inversion H2; subst; eauto with faerie. Qed.

Lemma absorb_Ok a b c :
  absorb a b = Ok c ↔ decl_le a c ∧ decl_le b c ∧ (c = a ∨ c = b).
Proof.
  destruct (decl_le_dec a b) as [Hab|Hab]; [|destruct (decl_le_dec b a) as [Hba|Hba]].
  - rewrite (absorb_le _ _ Hab). split.
    + intros [= <-]. repeat split; [done | constructor | by right].
    + intros (Hac & Hbc & [-> | ->]); [|done]. f_equal. by apply (anti_symm decl_le).
  - rewrite (absorb_ge _ _ Hba). split.
    + intros [= <-]. repeat split; [constructor | done | by left].
    + intros (Hac & Hbc & [-> | ->]); [done|]. f_equal. by apply (anti_symm decl_le).
  - rewrite absorb_err by done. split; [done|].
    intros (Hac & Hbc & _). destruct (decl_le_max _ _ _ Hac Hbc); done.
Qed.

Lemma absorb_no_panic a b m : absorb a b ≠ Panic m.
Proof.
  destruct (decl_le_dec a b) as [H|H]; [by rewrite (absorb_le _ _ H)|].
  destruct (decl_le_dec b a) as [H'|H']; [by rewrite (absorb_ge _ _ H')|].
  by rewrite (absorb_err _ _ H H').
Qed.

Lemma absorb_all_Ok d ds c :
  absorb_all d ds = Ok c ↔ c ∈ d :: ds ∧ Forall (fun x => decl_le x c) (d :: ds).
Proof.
  unfold absorb_all. revert d; induction ds as [|x ds IH]; intros d; cbn.
  - rewrite list_elem_of_singleton, Forall_singleton. split.
    + intros [= <-]. split; [done | constructor].
    + intros [-> _]. done.
  - destruct (absorb d x) as [e| |] eqn:E; cbn.
    + apply absorb_Ok in E as (H1 & H2 & H3). rewrite IH, !Forall_cons, !elem_of_cons. split.
      * intros (Hin & Hle & Hall). split; [destruct H3, Hin; subst; auto|].
        split; [by trans e|]. split; [by trans e | done].
      * intros (Hin & Hd & Hx & Hall).
        assert (decl_le e c) by (destruct H3; subst; done).
        split; [|done]. destruct Hin as [->|[->|?]]; [| |auto];
          left; by apply (anti_symm decl_le).
    + split; [done|]. rewrite !Forall_cons. intros (_ & Hd & Hx & _).
      destruct (decl_le_max _ _ _ Hd Hx) as [H|H];
        [rewrite (absorb_le _ _ H) in E | rewrite (absorb_ge _ _ H) in E]; done.
    + by apply absorb_no_panic in E.
Qed.

(** C2: [Decl::absorb] is a partial join for "says at least as much": it
    yields the larger of two comparable declarations, an import being below
    every definition of its kind, reports [IncompatibleDeclaration] with the
    two declarations exactly when none is above both, and never panics. *)
Theorem absorb_is_partial_join (a b : Decl) :
  match absorb a b with
  | Ok c => decl_le a c ∧ decl_le b c ∧ (c = a ∨ c = b)
  | Err e => e = IncompatibleDeclaration a b ∧ ¬ ∃ c, decl_le a c ∧ decl_le b c
  | Panic _ => False
  end.
Proof.
  destruct (decl_le_dec a b) as [H|H]; [|destruct (decl_le_dec b a) as [H'|H']].
  - rewrite (absorb_le _ _ H). eauto with faerie.
  - rewrite (absorb_ge _ _ H'). eauto with faerie.
  - rewrite absorb_err by done. split; [done|]. intros (c & Hac & Hbc).
    destruct (decl_le_max _ _ _ Hac Hbc); done.
Qed.

(** C3: the declaration a name ends up with, and whether its declarations are
    accepted at all, does not depend on the order in which they are made. *)
Theorem absorb_order_irrelevant (d d' : Decl) (ds ds' : list Decl) (c : Decl)
  (Hperm : d :: ds ≡ₚ d' :: ds') :
  absorb_all d ds = Ok c ↔ absorb_all d' ds' = Ok c.
Proof. rewrite !absorb_all_Ok. by rewrite Hperm. Qed.
End AbsorbTheorems.
