(* ===== verification/Artifact.v ===== *)
(** * The artifact ([src/artifact.rs])

    The state of an [Artifact] under construction and every operation on it.
    An operation that may fail returns the state it leaves behind together
    with its outcome, since an [Err] does not undo the interning of a name.
    Emission itself ([emit_as], [write_as]) is in [Emit.v], after the two
    backends. *)

From stdpp Require Import base numbers list gmap strings.
From Stdlib Require Import ZArith Lia Strings.Byte.
From S2P Require Import Prelude Std External Decl.

(** ** Data *)
Inductive Data := Blob (bytes : list byte) | ZeroInit (size : Z).

Inductive Reloc :=
| Auto
| Raw (reloc : Z) (addend : Z)
| Debug (size : Z) (addend : Z).

Abbreviation StringID := Z.
Abbreviation Relocation := (StringID * StringID * Z * Reloc)%type.

Record InternalDefinition := mkInternalDefinition {
  id_decl : DefinedDecl;
  id_name : StringID;
  id_symbols : BTreeMap string Z;
  id_data : Data
}.

Record InternalDecl := mkInternalDecl { idecl : Decl; defined : bool }.

Definition Data_key (d : Data) : list byte + Z :=
  match d with Blob b => inl b | ZeroInit n => inr n end.

Definition InternalDefinition_key (d : InternalDefinition) :=
  (id_decl d, (id_name d, (id_symbols d, Data_key (id_data d)))).

#[export] Instance InternalDefinition_ord : Ord InternalDefinition :=
  ord_via InternalDefinition_key.

#[export] Instance InternalDefinition_ord_laws : OrdLaws InternalDefinition.
Proof.
  apply (ord_via_laws InternalDefinition_key).
  intros [d n s [b|z]] [d' n' s' [b'|z']]; cbn; intros [=]; by subst.
Qed.

(** [impl Into<Data> for Vec<u8>] *)
Definition into_data (v : list byte) : Data := Blob v.

(** [impl Data] *)
Definition file_size (d : Data) : Z :=
  match d with
  | Blob blob => zlen blob
  | ZeroInit _ => 0
  end.
Definition Data_is_empty (d : Data) : bool :=
  match d with
  | Blob blob => match blob with [] => true | _ => false end
  | ZeroInit size => size =? 0
  end.
Definition is_zero_init (d : Data) : bool :=
  match d with
  | ZeroInit _ => true
  | Blob _ => false
  end.

(** [impl InternalDecl] *)
Definition InternalDecl_new (decl : Decl) : InternalDecl := mkInternalDecl decl false.
Definition InternalDecl_define (d : InternalDecl) : InternalDecl :=
  mkInternalDecl (idecl d) true.

(** A write to [previous.decl]. *)
Definition set_idecl (decl : Decl) (d : InternalDecl) : InternalDecl :=
  mkInternalDecl decl (defined d).

Record Binding := mkBinding { b_name : string; b_decl : Decl }.

Record LinkAndDecl := mkLinkAndDecl {
  l_from : Binding; l_to : Binding; l_at : Z; l_reloc : Reloc
}.

Record Definition_ := mkDefinition {
  d_name : string; d_data : Data; d_symbols : BTreeMap string Z; d_decl : DefinedDecl
}.

Record Link := mkLink { link_from : string; link_to : string; link_at : Z }.

Record ArtifactBuilder {TL : TargetLexicon} := mkArtifactBuilder {
  ab_target : Triple; ab_name : option string; ab_library : bool
}.

Record Artifact {TL : TargetLexicon} {SI : StringInterner} {IM : IndexMapOps} := mkArtifact {
  a_name : string;
  a_target : Triple;
  a_is_library : bool;
  a_imports : list (StringID * ImportKind);
  a_links : list Relocation;
  a_declarations : IndexMap StringID InternalDecl;
  a_local_definitions : list InternalDefinition;
  a_nonlocal_definitions : list InternalDefinition;
  a_strings : si_t
}.
Arguments mkArtifactBuilder {TL} _ _ _.
Arguments mkArtifact {TL SI IM} _ _ _ _ _ _ _ _ _.

Section Artifact.
Context {TL : TargetLexicon} {SI : StringInterner} {IM : IndexMapOps}.
Context {G : GoblinElf} {OS : OsFile}.
Implicit Types (a : Artifact).

(** Field updates *)
Definition set_imports x a := mkArtifact (a_name a) (a_target a) (a_is_library a) x (a_links a)
  (a_declarations a) (a_local_definitions a) (a_nonlocal_definitions a) (a_strings a).
Definition set_links x a := mkArtifact (a_name a) (a_target a) (a_is_library a) (a_imports a) x
  (a_declarations a) (a_local_definitions a) (a_nonlocal_definitions a) (a_strings a).
Definition set_declarations x a := mkArtifact (a_name a) (a_target a) (a_is_library a)
  (a_imports a) (a_links a) x (a_local_definitions a) (a_nonlocal_definitions a) (a_strings a).
Definition set_local_definitions x a := mkArtifact (a_name a) (a_target a) (a_is_library a)
  (a_imports a) (a_links a) (a_declarations a) x (a_nonlocal_definitions a) (a_strings a).
Definition set_nonlocal_definitions x a := mkArtifact (a_name a) (a_target a) (a_is_library a)
  (a_imports a) (a_links a) (a_declarations a) (a_local_definitions a) x (a_strings a).
Definition set_strings x a := mkArtifact (a_name a) (a_target a) (a_is_library a)
  (a_imports a) (a_links a) (a_declarations a) (a_local_definitions a)
  (a_nonlocal_definitions a) x.
Definition set_name x a := mkArtifact x (a_target a) (a_is_library a) (a_imports a) (a_links a)
  (a_declarations a) (a_local_definitions a) (a_nonlocal_definitions a) (a_strings a).
Definition set_target x a := mkArtifact (a_name a) x (a_is_library a) (a_imports a) (a_links a)
  (a_declarations a) (a_local_definitions a) (a_nonlocal_definitions a) (a_strings a).
Definition set_is_library x a := mkArtifact (a_name a) (a_target a) x
  (a_imports a) (a_links a) (a_declarations a) (a_local_definitions a)
  (a_nonlocal_definitions a) (a_strings a).

(** [Artifact::new] *)
Definition Artifact_new (target : Triple) (name : string) : Artifact :=
  mkArtifact name target false [] [] im_new [] [] si_new.

(** [impl ArtifactBuilder] *)
Definition ArtifactBuilder_new (target : Triple) : ArtifactBuilder :=
  mkArtifactBuilder target None false.
Definition ArtifactBuilder_name (self : ArtifactBuilder) (name : string) : ArtifactBuilder :=
  mkArtifactBuilder (ab_target self) (Some name) (ab_library self).
Definition ArtifactBuilder_library (self : ArtifactBuilder) (is_library : bool) :
  ArtifactBuilder :=
  mkArtifactBuilder (ab_target self) (ab_name self) is_library.
Definition finish (self : ArtifactBuilder) : Artifact :=
  let name := default "faerie.o"%string (ab_name self) in
  set_is_library (ab_library self) (Artifact_new (ab_target self) name).

(** ** Iterators

    An iterator yields the outcome of each step, since a step may panic. *)
Definition imports {E} a : list (outcome E (string * ImportKind)) :=
  (fun '(id, kind) =>
     let! s := expect (si_resolve (a_strings a) id) "unwrap" in Ok (s, kind)) <$> a_imports a.

(** [impl From<(&InternalDefinition, &StringInterner)> for Definition] *)
Definition Definition_from {E} (def : InternalDefinition) (strings : si_t) :
  outcome E Definition_ :=
  let! name := expect (si_resolve strings (id_name def)) "internal definition to have name" in
  Ok (mkDefinition name (id_data def) (id_symbols def) (id_decl def)).

Definition definitions {E} a : list (outcome E Definition_) :=
  (fun int_def => Definition_from int_def (a_strings a)) <$>
    (a_local_definitions a ++ a_nonlocal_definitions a).

Definition resolve_link {E} a (r : Relocation) : outcome E LinkAndDecl :=
  let '(from, to, at_, reloc) := r in
  let! from_decl := expect (im_get (a_declarations a) from) "declaration present" in
  let! to_decl := expect (im_get (a_declarations a) to) "unwrap" in
  let! from_name := expect (si_resolve (a_strings a) from) "from link" in
  let! to_name := expect (si_resolve (a_strings a) to) "to link" in
  Ok (mkLinkAndDecl (mkBinding from_name (idecl from_decl))
        (mkBinding to_name (idecl to_decl)) at_ reloc).

Definition links {E} a : list (outcome E LinkAndDecl) := resolve_link a <$> a_links a.

(** ** [declare] *)

(** [for &(ref name, _) in imports { if *name == decl_name { present = true } }] *)
Definition import_present (decl_name : StringID) (l : list (StringID * ImportKind)) : bool :=
  fold_left (fun present '(name, _) => if bool_decide (name = decl_name) then true else present)
    l false.

(** [for (i, &(ref name, _)) in imports.iter().enumerate() { .. index = Some(i) }]:
    the last match. *)
Definition import_index (decl_name : StringID) (l : list (StringID * ImportKind)) : option Z :=
  fold_left (fun index '(i, (name, _)) => if bool_decide (name = decl_name) then Some i else index)
    (enumerate l) None.

(** The [match new_idecl.decl] that keeps [imports] up to date. *)
Definition declare_imports a (decl_name : StringID) (previous_was_import : bool)
  (new_decl : Decl) : Artifact * outcome ArtifactError unit :=
  match new_decl with
  | Import _ =>
      if negb (import_present decl_name (a_imports a)) then
        match from_decl new_decl with
        | Some kind => (set_imports (a_imports a ++ [(decl_name, kind)]) a, Ok tt)
        | None => (a, Panic "can convert from explicitly matched decls to importkind")
        end
      else (a, Ok tt)
  | _ =>
      if previous_was_import then
        match import_index decl_name (a_imports a) with
        | None => (a, Panic "previous import was not in the imports array")
        | Some index =>
            match swap_remove (a_imports a) index with
            | None => (a, Panic "swap_remove index out of range")
            | Some l => (set_imports l a, Ok tt)
            end
        end
      else (a, Ok tt)
  end.

Definition declare a (name : string) (decl : Decl) : Artifact * outcome ArtifactError unit :=
  let '(strings, decl_name) := si_get_or_intern (a_strings a) name in
  let a := set_strings strings a in
  let '(decls, previous) :=
    im_or_insert decl_name (InternalDecl_new decl) (a_declarations a) in
  let previous_was_import := is_import (idecl previous) in
  match absorb (idecl previous) decl with
  | Err e => (set_declarations decls a, Err e)
  | Panic m => (set_declarations decls a, Panic m)
  | Ok new_decl =>
      declare_imports (set_declarations (im_modify (set_idecl new_decl) decl_name decls) a)
        decl_name previous_was_import new_decl
  end.

(** [declarations]: stops at the first error. *)
Fixpoint declarations a (ds : list (string * Decl)) : Artifact * outcome ArtifactError unit :=
  match ds with
  | [] => (a, Ok tt)
  | (name, decl) :: ds =>
      match declare a name decl with
      | (a, Ok _) => declarations a ds
      | (a, r) => (a, r)
      end
  end.

(** ** [define_with_symbols] and its wrappers *)
Definition define_with_symbols a (name : string) (data : Data) (symbols : BTreeMap string Z) :
  Artifact * outcome ArtifactError unit :=
  let '(strings, decl_name) := si_get_or_intern (a_strings a) name in
  let a := set_strings strings a in
  match im_get (a_declarations a) decl_name with
  | Some stype =>
      if defined stype then (a, Err (DuplicateDefinition name))
      else
        match idecl stype with
        | Import _ => (a, Err (ImportDefined name))
        | Defined decl =>
            if negb (DefinedDecl_is_section decl) && negb (bool_decide (symbols = [])) then
              (a, Err (NonSectionCustomSymbols decl symbols))
            else if negb (is_data decl) && is_zero_init data then
              (a, Err (InvalidZeroInit decl))
            else
              let def := mkInternalDefinition decl decl_name symbols data in
              let a :=
                if is_global decl then
                  set_nonlocal_definitions (bts_insert def (a_nonlocal_definitions a)) a
                else set_local_definitions (bts_insert def (a_local_definitions a)) a in
              (set_declarations (im_modify InternalDecl_define decl_name (a_declarations a)) a,
               Ok tt)
        end
  | None => (a, Err (Undeclared name))
  end.

Definition define a (name : string) (data : list byte) :=
  define_with_symbols a name (Blob data) [].

Definition define_zero_init a (name : string) (size : Z) :=
  define_with_symbols a name (ZeroInit size) [].

(** [declare_with]: sugar for [declare] and then [define]. *)
Definition declare_with a (name : string) (decl : Decl) (definition : list byte) :
  Artifact * outcome ArtifactError unit :=
  match declare a name decl with
  | (a, Ok _) => define a name definition
  | (a, r) => (a, r)
  end.

(** [import] *)
Definition import a (name : string) (kind : ImportKind) : Artifact * outcome ArtifactError unit :=
  declare a name (Import kind).

(** ** [link_with] and [link] *)
Definition link_with a (l : Link) (reloc : Reloc) : Artifact * outcome ArtifactError unit :=
  let '(strings, from) := si_get_or_intern (a_strings a) (link_from l) in
  let '(strings, to) := si_get_or_intern strings (link_to l) in
  let a := set_strings strings a in
  match im_get (a_declarations a) from, im_get (a_declarations a) to with
  | Some from_type, Some _ =>
      if is_import (idecl from_type) then (a, Err (RelocateImport (link_from l)))
      else (set_links (a_links a ++ [(from, to, link_at l, reloc)]) a, Ok tt)
  | None, _ => (a, Err (Undeclared (link_from l)))
  | _, None => (a, Err (Undeclared (link_to l)))
  end.

Definition link a (l : Link) := link_with a l Auto.

(** ** [undefined_symbols] *)
Definition undefined_symbols {E} a : outcome E (list string) :=
  omapM (fun '(name, _) => expect (si_resolve (a_strings a) name) "declaration has a name")
    (filter (fun d => negb (defined d.2) && negb (is_import (idecl d.2)) = true)
       (im_iter (a_declarations a))).
End Artifact.
#[global] Arguments import_present : simpl never.
#[global] Arguments import_index : simpl never.
#[global] Arguments swap_remove : simpl never.
