(* ===== verification/ArtifactInv.v ===== *)
(** * Invariant of the artifact

    [wf] is what every artifact that was built through the public interface
    satisfies.  [exec] runs one call of the public interface; [reachable] are
    the states a client can get to.  The theorems: every operation keeps [wf],
    none panics, and the iterators the backends consume never panic. *)

From stdpp Require Import base numbers list gmap strings.
From Stdlib Require Import ZArith Lia.
From S2P Require Import Prelude Std External Decl Artifact.

(** ** Facts on the standard-library pieces [declare] uses *)
Lemma swap_remove_perm {A} (l : list A) i x :
  zget l i = Some x → ∃ l', swap_remove l i = Some l' ∧ x :: l' ≡ₚ l.
Proof.
  intros Hi. unfold swap_remove. rewrite Hi. apply zget_Some in Hi as [_ Hi].
  induction l as [|z l0 _] using rev_ind; [by rewrite lookup_nil in Hi|].
  rewrite last_snoc. eexists; split; [done|].
  destruct (decide (Z.to_nat i < length l0)%nat) as [Hlt|Hge].
  - rewrite insert_app_l by done. rewrite removelast_last.
    rewrite lookup_app_l in Hi by done.
    rewrite (insert_take_drop l0 _ z) by done.
    rewrite <- (take_drop_middle l0 _ x Hi) at 3. solve_Permutation.
  - assert (Z.to_nat i = length l0) as E.
    { apply lookup_lt_Some in Hi. rewrite length_app in Hi; cbn in Hi; lia. }
    rewrite E in *. rewrite lookup_app_r, Nat.sub_diag in Hi by lia. cbn in Hi.
    injection Hi as ->. rewrite insert_app_r_alt, Nat.sub_diag by lia. cbn.
    rewrite removelast_last. solve_Permutation.
Qed.

Lemma import_present_spec k l : import_present k l = true ↔ k ∈ l.*1.
Proof.
  unfold import_present.
  assert (∀ b, fold_left (fun (present : bool) '(name, _) =>
      if bool_decide (name = k) then true else present) l b = true ↔ b = true ∨ k ∈ l.*1) as ->;
    [|naive_solver].
  induction l as [|[n ik] l IH]; intros b; cbn; [set_solver|].
  rewrite IH. case_bool_decide; set_solver.
Qed.

Lemma import_index_spec k l :
  k ∈ l.*1 → ∃ i ik, import_index k l = Some i ∧ zget l i = Some (k, ik).
Proof.
  unfold import_index.
  assert (∀ l0 l1 acc, l = l0 ++ l1 →
    (k ∈ l1.*1 ∨ ∃ i ik, acc = Some i ∧ zget l i = Some (k, ik)) →
    ∃ i ik, fold_left (fun index '(i, (name, _)) =>
        if bool_decide (name = k) then Some i else index) (enumerate_from (zlen l0) l1) acc = Some i
      ∧ zget l i = Some (k, ik)) as H.
  { intros l0 l1; revert l0; induction l1 as [|[n ik] l1 IH]; intros l0 acc El Hk; cbn.
    - destruct Hk as [Hk|Hk]; [set_solver | done].
    - replace (Z.succ (zlen l0)) with (zlen (l0 ++ [(n, ik)]))
        by (rewrite zlen_app, zlen_cons, zlen_nil; lia).
      apply IH; [by rewrite <- app_assoc|].
      case_bool_decide as Hn.
      + right. subst n. exists (zlen l0), ik. split; [done|]. rewrite El.
        rewrite (cons_middle _ l0 l1), app_assoc. apply zget_app_l, zget_snoc.
      + destruct Hk as [Hk|Hk]; [left; set_solver | by right]. }
  intros Hk. apply (H [] l None eq_refl). by left.
Qed.

(** ** Interning *)
Lemma intern_elem s l : s ∈ intern s l.
Proof. unfold intern. case_decide; set_solver. Qed.

Lemma intern_prefix s l : ∃ k, intern s l = l ++ k.
Proof. unfold intern. case_decide; [exists []; by rewrite app_nil_r | eauto]. Qed.

Lemma intern_NoDup s l : NoDup l → NoDup (intern s l).
Proof.
  unfold intern. case_decide; [done|]. intros. apply NoDup_app.
  repeat split; [done | set_solver | apply NoDup_singleton].
Qed.

Lemma intern_zget s l i n : zget l i = Some n → zget (intern s l) i = Some n.
Proof. destruct (intern_prefix s l) as [k ->]. apply zget_app_l. Qed.

Section Intern.
Context {SI : StringInterner} {SIL : StringInternerLaws SI}.

(** What a call of [get_or_intern] yields. *)
Lemma get_or_intern_spec t s t' id :
  si_get_or_intern t s = (t', id) →
  si_strings t' = intern s (si_strings t) ∧ zget (si_strings t') id = Some s.
Proof.
  intros E. pose proof (si_intern_strings t s) as H1. pose proof (si_intern_id t s) as H2.
  rewrite E in H1, H2. cbn in *. split; [done|].
  by apply index_of_Some_get.
Qed.

End Intern.

(** ** The invariant

    It speaks about what the containers of the artifact hold. *)
Record View := mkView {
  v_strs : list string;
  v_decls : list (StringID * InternalDecl);
  v_imports : list (StringID * ImportKind);
  v_links : list Relocation;
  v_local : list InternalDefinition;
  v_nonlocal : list InternalDefinition
}.

Definition v_defs (v : View) : list InternalDefinition := v_local v ++ v_nonlocal v.

Record wf_view (v : View) : Prop := {
  wf_strs : NoDup (v_strs v);
  (** every declared identifier has a name *)
  wf_keys : NoDup (v_decls v).*1;
  wf_named : ∀ k, k ∈ (v_decls v).*1 → ∃ s, zget (v_strs v) k = Some s;
  (** [imports] holds the import declarations, each once *)
  wf_imports_keys : NoDup (v_imports v).*1;
  wf_imports : ∀ k ik, (k, ik) ∈ v_imports v ↔
    ∃ b, al_get (v_decls v) k = Some (mkInternalDecl (Import ik) b);
  (** an import is never defined *)
  wf_import_undefined : ∀ k ik,
    al_get (v_decls v) k ≠ Some (mkInternalDecl (Import ik) true);
  (** both ends of a link are declared and the source is not an import *)
  wf_links : ∀ from to at_ r, (from, to, at_, r) ∈ v_links v →
    (∃ d b, al_get (v_decls v) from = Some (mkInternalDecl (Defined d) b)) ∧
    (∃ d, al_get (v_decls v) to = Some d);
  (** the definitions are those of the declarations marked as defined *)
  wf_defs_keys : NoDup (id_name <$> v_defs v);
  wf_defs : ∀ k d, al_get (v_decls v) k = Some (mkInternalDecl (Defined d) true) ↔
    ∃ def, def ∈ v_defs v ∧ id_name def = k ∧ id_decl def = d;
  (** globals are kept apart, both sets are sorted *)
  wf_local : Forall (fun def => is_global (id_decl def) = false) (v_local v);
  wf_nonlocal : Forall (fun def => is_global (id_decl def) = true) (v_nonlocal v);
  wf_local_sorted : bts_wf (v_local v);
  wf_nonlocal_sorted : bts_wf (v_nonlocal v);
  (** only sections have symbols of their own, only data is zero-initialised *)
  wf_contents : ∀ def, def ∈ v_defs v →
    (DefinedDecl_is_section (id_decl def) = true ∨ id_symbols def = []) ∧
    (is_data (id_decl def) = true ∨ is_zero_init (id_data def) = false)
}.

Lemma wf_view_empty : wf_view (mkView [] [] [] [] [] []).
Proof.
  split; cbn; try (constructor; fail); try set_solver; apply NoDup_nil_2.
Qed.

Lemma wf_strs_ext v s' :
  wf_view v → NoDup s' → (∀ i n, zget (v_strs v) i = Some n → zget s' i = Some n) →
  wf_view (mkView s' (v_decls v) (v_imports v) (v_links v) (v_local v) (v_nonlocal v)).
Proof.
  intros [] Hnd Hext. split; cbn; try done.
  intros k Hk. destruct (wf_named0 k Hk) as [s Hs]. eauto.
Qed.

(** The declarations as a function of the identifier. *)
Lemma wf_same_decls v D :
  wf_view v → D.*1 = (v_decls v).*1 → (∀ k, al_get D k = al_get (v_decls v) k) →
  wf_view (mkView (v_strs v) D (v_imports v) (v_links v) (v_local v) (v_nonlocal v)).
Proof.
  intros [] Hk Hg. split; cbn; try rewrite Hk; try done; intros *; rewrite ?Hg; eauto.
Qed.

Lemma wf_imports_declared v k : wf_view v → k ∈ (v_imports v).*1 → k ∈ (v_decls v).*1.
Proof.
  intros [] Hk. apply list_elem_of_fmap in Hk as ([k' ik] & -> & Hin).
  apply wf_imports0 in Hin as [b Hb]. apply al_get_elem in Hb.
  apply list_elem_of_fmap. eexists (_, _); eauto.
Qed.

Lemma NoDup_snoc {A} (l : list A) x : NoDup l → x ∉ l → NoDup (l ++ [x]).
Proof.
  intros. apply NoDup_app. repeat split; [done | set_solver | apply NoDup_singleton].
Qed.

(** A name declared for the first time. *)
Lemma wf_new_decl v id d :
  wf_view v → id ∉ (v_decls v).*1 → (∃ s, zget (v_strs v) id = Some s) →
  wf_view (mkView (v_strs v) (v_decls v ++ [(id, InternalDecl_new d)])
    (v_imports v ++ match d with Import ik => [(id, ik)] | _ => [] end)
    (v_links v) (v_local v) (v_nonlocal v)).
Proof.
  intros Hwf Hid Hs. pose proof (wf_imports_declared v id Hwf) as Hnoimp. destruct Hwf.
  assert (∀ k, al_get (v_decls v ++ [(id, InternalDecl_new d)]) k =
    if decide (k = id) then Some (InternalDecl_new d) else al_get (v_decls v) k) as Hg.
  { intros k. rewrite <- al_insert_fresh by done. apply al_get_insert. }
  assert (al_get (v_decls v) id = None) as Hnone by by apply al_get_None.
  split; cbn; try done; try (intros k *; rewrite Hg; case_decide; subst; done).
  - rewrite fmap_app. by apply NoDup_snoc.
  - intros k. rewrite fmap_app. set_solver.
  - rewrite fmap_app. destruct d; cbn; [apply NoDup_snoc; naive_solver | by rewrite app_nil_r].
  - intros k ik. rewrite Hg, elem_of_app, wf_imports0.
    unfold InternalDecl_new.
    case_decide; [subst; rewrite Hnone | ]; destruct d; rewrite ?list_elem_of_singleton, ?elem_of_nil;
      naive_solver.
  - intros from to at_ r Hl. rewrite !Hg. apply wf_links0 in Hl as ((d' & b & Hf) & d'' & Ht).
    rewrite !decide_False by congruence. eauto.
  - intros k d'. rewrite Hg. case_decide; [|by rewrite wf_defs0].
    subst. split; [done|]. intros Hdef. apply wf_defs0 in Hdef. congruence.
Qed.

(** An import upgraded to a definition: it leaves the imports. *)
Lemma wf_upgrade v id ik dd D I :
  wf_view v → al_get (v_decls v) id = Some (mkInternalDecl (Import ik) false) →
  D.*1 = (v_decls v).*1 →
  (∀ k, al_get D k =
    if decide (k = id) then Some (mkInternalDecl (Defined dd) false) else al_get (v_decls v) k) →
  (id, ik) :: I ≡ₚ v_imports v →
  wf_view (mkView (v_strs v) D I (v_links v) (v_local v) (v_nonlocal v)).
Proof.
  intros [] Hold Hk Hg HI.
  assert (NoDup ((id, ik) :: I).*1) as Hnd by by rewrite HI.
  cbn in Hnd. apply NoDup_cons in Hnd as [HidI HndI].
  split; cbn; try rewrite Hk; try done.
  - intros k ik'. rewrite Hg. case_decide as Hd.
    + subst. split; [|naive_solver]. intros Hin. exfalso. apply HidI.
      apply list_elem_of_fmap. by eexists (_, _).
    + rewrite <- wf_imports0, <- HI. set_solver.
  - intros k ik'. rewrite Hg. case_decide; [done|auto].
  - intros from to at_ r Hl. rewrite !Hg.
    apply wf_links0 in Hl as ((d' & b & Hf) & d'' & Ht).
    rewrite (decide_False (P := from = id)) by congruence. split; [eauto|].
    case_decide; eauto.
  - intros k d. rewrite Hg. case_decide; [|by rewrite wf_defs0].
    subst. split; [naive_solver|]. intros Hdef. apply wf_defs0 in Hdef. congruence.
Qed.

(** A first definition of a declared, not imported name. *)
Lemma wf_define v def D L N :
  wf_view v →
  al_get (v_decls v) (id_name def) = Some (mkInternalDecl (Defined (id_decl def)) false) →
  D.*1 = (v_decls v).*1 →
  (∀ k, al_get D k = if decide (k = id_name def)
    then Some (mkInternalDecl (Defined (id_decl def)) true) else al_get (v_decls v) k) →
  (L, N) = (if is_global (id_decl def) then (v_local v, bts_insert def (v_nonlocal v))
            else (bts_insert def (v_local v), v_nonlocal v)) →
  DefinedDecl_is_section (id_decl def) = true ∨ id_symbols def = [] →
  is_data (id_decl def) = true ∨ is_zero_init (id_data def) = false →
  wf_view (mkView (v_strs v) D (v_imports v) (v_links v) L N).
Proof.
  intros [] Hold Hk Hg HLN Hsym Hzi.
  assert ((def ∉ v_defs v) ∧ (id_name def ∉ id_name <$> v_defs v)) as [Hfresh Hfresh'].
  { assert (id_name def ∉ id_name <$> v_defs v).
    { intros Hin. apply list_elem_of_fmap in Hin as (def' & En & Hin).
      assert (al_get (v_decls v) (id_name def) =
        Some (mkInternalDecl (Defined (id_decl def')) true)) as E by (apply wf_defs0; eauto).
      congruence. }
    split; [|done]. intros Hin. apply H. by apply list_elem_of_fmap_2. }
  assert (L ++ N ≡ₚ def :: v_defs v) as Hperm.
  { unfold v_defs in *. destruct (is_global (id_decl def)); injection HLN as -> ->;
      rewrite bts_insert_fresh_perm by set_solver; [by rewrite <- Permutation_middle | done]. }
  split; cbn; try rewrite Hk; try done.
  - intros k ik. rewrite Hg, wf_imports0. case_decide; [subst; rewrite Hold; naive_solver | done].
  - intros k ik. rewrite Hg. case_decide; [done | auto].
  - intros from to at_ r Hl. rewrite !Hg.
    apply wf_links0 in Hl as ((d' & b & Hf) & d'' & Ht).
    split; case_decide; eauto.
  - unfold v_defs; cbn. rewrite Hperm. by apply NoDup_cons.
  - intros k d. rewrite Hg. setoid_rewrite Hperm.
    setoid_rewrite elem_of_cons. case_decide as Hd.
    + split; [intros [= <-]; naive_solver|]. intros (def' & [->|Hin] & En & <-); [done|].
      exfalso. apply Hfresh'. rewrite <- Hd, <- En. by apply list_elem_of_fmap_2.
    + rewrite wf_defs0. naive_solver.
  - destruct (is_global (id_decl def)) eqn:Eg; injection HLN as -> ->; [done|].
    apply Forall_forall. intros x [->|Hx]%bts_insert_elem; [done|].
    by eapply Forall_forall in wf_local0.
  - destruct (is_global (id_decl def)) eqn:Eg; injection HLN as -> ->; [|done].
    apply Forall_forall. intros x [->|Hx]%bts_insert_elem; [done|].
    by eapply Forall_forall in wf_nonlocal0.
  - destruct (is_global (id_decl def)); injection HLN as -> ->; [done|]. by apply bts_insert_wf.
  - destruct (is_global (id_decl def)); injection HLN as -> ->; [|done]. by apply bts_insert_wf.
  - intros def'. rewrite Hperm, elem_of_cons. intros [->|Hin]; auto.
Qed.

Lemma wf_link v from to at_ r :
  wf_view v →
  (∃ d b, al_get (v_decls v) from = Some (mkInternalDecl (Defined d) b)) →
  (∃ d, al_get (v_decls v) to = Some d) →
  wf_view (mkView (v_strs v) (v_decls v) (v_imports v) (v_links v ++ [(from, to, at_, r)])
    (v_local v) (v_nonlocal v)).
Proof.
  intros [] Hf Ht. split; cbn; try done.
  intros f t x y Hl. apply elem_of_app in Hl as [Hl|Hl]; [eauto|].
  apply list_elem_of_singleton in Hl as [= -> -> -> ->]. done.
Qed.

(** ** Calls of the public interface *)
Section Ops.
Context {TL : TargetLexicon} {SI : StringInterner} {IM : IndexMapOps}.
Context {G : GoblinElf} {OS : OsFile}.

Inductive op :=
| ODeclare (name : string) (d : Decl)
| ODeclarations (ds : list (string * Decl))
| ODeclareWith (name : string) (d : Decl) (bytes : list Byte.byte)
| OImport (name : string) (k : ImportKind)
| ODefine (name : string) (bytes : list Byte.byte)
| ODefineZeroInit (name : string) (size : Z)
| ODefineWithSymbols (name : string) (data : Data) (symbols : BTreeMap string Z)
| OLink (l : Link)
| OLinkWith (l : Link) (r : Reloc).

Definition exec (o : op) (a : Artifact) : Artifact * outcome ArtifactError unit :=
  match o with
  | ODeclare n d => declare a n d
  | ODeclarations ds => declarations a ds
  | ODeclareWith n d b => declare_with a n d b
  | OImport n k => import a n k
  | ODefine n b => define a n b
  | ODefineZeroInit n z => define_zero_init a n z
  | ODefineWithSymbols n d s => define_with_symbols a n d s
  | OLink l => link a l
  | OLinkWith l r => link_with a l r
  end.

(** The artifacts a client can build: from a builder or [new], by any calls,
    whatever their outcomes, and by assignments to the public fields. *)
Inductive reachable : Artifact → Prop :=
| reach_new target name : reachable (Artifact_new target name)
| reach_finish b : reachable (finish b)
| reach_op a o : reachable a → reachable (exec o a).1
| reach_name a name : reachable a → reachable (set_name name a)
| reach_target a target : reachable a → reachable (set_target target a)
| reach_library a b : reachable a → reachable (set_is_library b a).

Definition view (a : Artifact) : View :=
  mkView (si_strings (a_strings a)) (im_iter (a_declarations a)) (a_imports a) (a_links a)
    (a_local_definitions a) (a_nonlocal_definitions a).

Definition wf (a : Artifact) : Prop := wf_view (view a).
End Ops.

Section Preservation.
Context {TL : TargetLexicon} {SI : StringInterner} {IM : IndexMapOps}.
Context {G : GoblinElf} {OS : OsFile}.
Context {SIL : StringInternerLaws SI} {IML : IndexMapLaws IM}.
Implicit Types (a : Artifact).

Lemma wf_interned a t s :
  wf a → si_strings t = intern s (si_strings (a_strings a)) → wf (set_strings t a).
Proof.
  intros Hwf E. apply (wf_strs_ext (view a)); [done| |]; cbn; rewrite E.
  - apply intern_NoDup, (wf_strs _ Hwf).
  - intros i n. apply intern_zget.
Qed.

(** Declaring a name again: [old] is on record and [c] replaces it. *)
Lemma declare_imports_known a m id old b c :
  wf a → al_get (im_iter (a_declarations a)) id = Some (mkInternalDecl old b) →
  im_iter m = al_modify (set_idecl c) id (im_iter (a_declarations a)) →
  decl_le old c → c = old ∨ is_import old = true →
  ∃ I, declare_imports (set_declarations m a) id (is_import old) c =
         (set_imports I (set_declarations m a), Ok tt) ∧
       wf (set_imports I (set_declarations m a)).
Proof.
  intros Hwf Hold Em Hle Hc.
  set (D := im_iter (a_declarations a)) in *.
  assert (∀ k, al_get (im_iter m) k =
    if decide (k = id) then Some (mkInternalDecl c b) else al_get D k) as Hg.
  { intros k. rewrite Em, al_get_modify. case_decide; [|done]. subst. by rewrite Hold. }
  assert ((im_iter m).*1 = D.*1) as Hk by by rewrite Em, al_modify_keys.
  assert (c = old → wf (set_imports (a_imports a) (set_declarations m a))) as Hsame.
  { intros ->. apply (wf_same_decls (view a)); [done|done|].
    intros k. rewrite Hg. case_decide; [by subst | done]. }
  assert (∀ ik, old = Import ik → (id, ik) ∈ a_imports a) as Hin.
  { intros ik ->. apply (wf_imports _ Hwf). eauto. }
  unfold declare_imports; cbn. destruct c as [ik|dd].
  - assert (old = Import ik) as -> by (inversion Hle; done).
    assert (import_present id (a_imports a) = true) as ->.
    { apply import_present_spec. apply list_elem_of_fmap. exists (id, ik). auto. }
    exists (a_imports a). split; [by destruct a | auto].
  - destruct old as [ik|dd']; cbn.
    + assert (b = false) as ->.
      { destruct b; [|done]. by destruct (wf_import_undefined _ Hwf id ik). }
      destruct (import_index_spec id (a_imports a)) as (i & ik' & -> & Hz).
      { apply list_elem_of_fmap. exists (id, ik). auto. }
      destruct (swap_remove_perm _ _ _ Hz) as (I & -> & HI).
      assert (ik' = ik) as ->.
      { apply zget_elem in Hz. apply (wf_imports _ Hwf) in Hz as [b Hb]. cbn in Hb.
        fold D in Hb. congruence. }
      exists I. split; [done|]. by apply (wf_upgrade (view a) id ik dd).
    + exists (a_imports a). split; [by destruct a|]. apply Hsame. destruct Hc; done.
Qed.

(** Declaring a name for the first time. *)
Lemma declare_imports_new a m id d :
  wf a → al_get (im_iter (a_declarations a)) id = None →
  (∃ s, zget (si_strings (a_strings a)) id = Some s) →
  im_iter m = im_iter (a_declarations a) ++ [(id, InternalDecl_new d)] →
  ∃ I, declare_imports (set_declarations m a) id (is_import d) d =
         (set_imports I (set_declarations m a), Ok tt) ∧
       wf (set_imports I (set_declarations m a)).
Proof.
  intros Hwf Hnone Hs Em.
  pose proof (wf_new_decl (view a) id d Hwf (proj1 (al_get_None _ _) Hnone) Hs) as Hnew.
  cbn in Hnew. rewrite <- Em in Hnew.
  unfold declare_imports; cbn. destruct d as [ik|dd]; cbn.
  - assert (import_present id (a_imports a) = false) as ->.
    { apply not_true_iff_false. rewrite import_present_spec. intros Hin.
      apply (wf_imports_declared _ _ Hwf) in Hin. by apply al_get_None in Hnone. }
    exists (a_imports a ++ [(id, ik)]). done.
  - rewrite app_nil_r in Hnew. exists (a_imports a). split; [by destruct a | done].
Qed.

Lemma al_modify_fresh {K V} `{EqDecision K} (f : V → V) (l : list (K * V)) k v :
  k ∉ l.*1 → al_modify f k (l ++ [(k, v)]) = l ++ [(k, f v)].
Proof.
  induction l as [|[k' v'] l IH]; cbn; intros Hn; [by rewrite decide_True|].
  rewrite decide_False by set_solver. f_equal. apply IH. set_solver.
Qed.

(** What [declare] does on a well-formed artifact. *)
Lemma declare_spec a name d :
  wf a →
  ∃ t id, si_strings t = intern name (si_strings (a_strings a)) ∧
    zget (si_strings t) id = Some name ∧
    let prev := default (InternalDecl_new d) (al_get (im_iter (a_declarations a)) id) in
    match absorb (idecl prev) d with
    | Ok c => ∃ m I,
        declare a name d = (set_imports I (set_declarations m (set_strings t a)), Ok tt) ∧
        (∀ k, al_get (im_iter m) k = if decide (k = id) then Some (mkInternalDecl c (defined prev))
                                     else al_get (im_iter (a_declarations a)) k) ∧
        wf (set_imports I (set_declarations m (set_strings t a)))
    | Err e => ∃ m,
        declare a name d = (set_declarations m (set_strings t a), Err e) ∧
        im_iter m = im_iter (a_declarations a)
    | Panic _ => False
    end.
Proof.
  intros Hwf0. unfold declare.
  destruct (si_get_or_intern (a_strings a) name) as [t id] eqn:Ei.
  apply get_or_intern_spec in Ei as [Et Hid]. exists t, id. do 2 (split; [done|]).
  pose proof (wf_interned a t name Hwf0 Et) as Hwf.
  destruct (im_or_insert id (InternalDecl_new d) (a_declarations (set_strings t a)))
    as [m1 prev] eqn:Em.
  pose proof (im_or_insert_iter _ _ (a_declarations a) id (InternalDecl_new d)) as Hm1.
  pose proof (im_or_insert_val _ _ (a_declarations a) id (InternalDecl_new d)) as Hprev.
  cbn in Em. rewrite Em in Hm1, Hprev; cbn in Hm1, Hprev. clear Em. cbv zeta. rewrite <- Hprev.
  set (D := im_iter (a_declarations a)) in *.
  destruct (al_get D id) as [[old b]|] eqn:Eold; cbn in Hprev; subst prev; cbn [idecl defined].
  - destruct (absorb old d) as [c|e|] eqn:Ea; [|eauto|by apply absorb_no_panic in Ea].
    apply absorb_Ok in Ea as (HJ1 & HJ2 & HJ3).
    assert (im_iter (im_modify (set_idecl c) id m1) = al_modify (set_idecl c) id D) as Em.
    { by rewrite im_modify_iter, Hm1. }
    destruct (declare_imports_known (set_strings t a) _ id old b c Hwf Eold Em HJ1) as (I & HI & HIwf).
    { destruct HJ3 as [|<-]; [by left|]. inversion HJ1; auto. }
    eexists _, I. split; [done|]. split; [|done].
    intros k. rewrite Em, al_get_modify. case_decide; [|done]. subst. by rewrite Eold.
  - cbn [InternalDecl_new idecl defined]. rewrite absorb_le by constructor.
    rewrite al_insert_fresh in Hm1 by by apply al_get_None.
    assert (im_iter (im_modify (set_idecl d) id m1) = D ++ [(id, InternalDecl_new d)]) as Em.
    { rewrite im_modify_iter, Hm1, al_modify_fresh; [done|]. by apply al_get_None. }
    destruct (declare_imports_new (set_strings t a) _ id d Hwf Eold (ex_intro _ _ Hid) Em)
      as (I & HI & HIwf).
    eexists _, I. split; [done|]. split; [|done].
    intros k. rewrite Em, <- al_insert_fresh by by apply al_get_None. apply al_get_insert.
Qed.

(** The errors [define_with_symbols] reports on the declaration it finds, in
    the order of its checks. *)
Definition define_error (st : option InternalDecl) (name : string) (data : Data)
  (symbols : BTreeMap string Z) : option ArtifactError :=
  match st with
  | None => Some (Undeclared name)
  | Some st =>
      if defined st then Some (DuplicateDefinition name)
      else match idecl st with
           | Import _ => Some (ImportDefined name)
           | Defined decl =>
               if negb (DefinedDecl_is_section decl) && negb (bool_decide (symbols = [])) then
                 Some (NonSectionCustomSymbols decl symbols)
               else if negb (is_data decl) && is_zero_init data then Some (InvalidZeroInit decl)
               else None
           end
  end.

Lemma define_with_symbols_spec a name dat symbols :
  wf a →
  ∃ t id, si_strings t = intern name (si_strings (a_strings a)) ∧
    zget (si_strings t) id = Some name ∧
    match define_error (al_get (im_iter (a_declarations a)) id) name dat symbols with
    | Some e => define_with_symbols a name dat symbols = (set_strings t a, Err e)
    | None => ∃ a' decl,
        define_with_symbols a name dat symbols = (a', Ok tt) ∧
        al_get (im_iter (a_declarations a)) id = Some (mkInternalDecl (Defined decl) false) ∧
        (∀ k, al_get (im_iter (a_declarations a')) k =
          if decide (k = id) then Some (mkInternalDecl (Defined decl) true)
          else al_get (im_iter (a_declarations a)) k) ∧
        a_strings a' = t ∧ a_links a' = a_links a ∧
        v_defs (view a') ≡ₚ mkInternalDefinition decl id symbols dat :: v_defs (view a) ∧
        wf a'
    end.
Proof.
  intros Hwf0. unfold define_with_symbols.
  destruct (si_get_or_intern (a_strings a) name) as [t id] eqn:Ei.
  apply get_or_intern_spec in Ei as [Et Hid]. exists t, id. do 2 (split; [done|]).
  pose proof (wf_interned a t name Hwf0 Et) as Hwf. cbn [a_declarations set_strings].
  rewrite im_get_spec. set (D := im_iter (a_declarations a)) in *.
  destruct (al_get D id) as [[decl b]|] eqn:Est; cbn; [|done].
  destruct b; [done|]. destruct decl as [ik|decl]; [done|].
  destruct (negb (DefinedDecl_is_section decl) && negb (bool_decide (symbols = []))) eqn:E1; [done|].
  destruct (negb (is_data decl) && is_zero_init dat) eqn:E2; [done|].
  set (def := mkInternalDefinition decl id symbols dat).
  eexists _, decl. split; [reflexivity|]. split; [done|].
  assert (wf_view (mkView (si_strings t) (im_iter (im_modify InternalDecl_define id (a_declarations a)))
    (a_imports a) (a_links a)
    (if is_global decl then a_local_definitions a else bts_insert def (a_local_definitions a))
    (if is_global decl then bts_insert def (a_nonlocal_definitions a)
     else a_nonlocal_definitions a))) as Hwf'.
  { apply (wf_define (view (set_strings t a)) def); cbn; rewrite ?im_modify_iter; try done.
    - apply al_modify_keys.
    - intros k. rewrite al_get_modify. fold D. case_decide; [|done]. subst. by rewrite Est.
    - by destruct (is_global decl).
    - apply andb_false_iff in E1.  rewrite !negb_false_iff, bool_decide_eq_true in E1. done.
    - apply andb_false_iff in E2. by rewrite negb_false_iff in E2. }
  assert (def ∉ v_defs (view a)) as Hfresh.
  { intros Hin. assert (al_get D id = Some (mkInternalDecl (Defined decl) true)) as E; [|congruence].
    apply (wf_defs _ Hwf0). by exists def. }
  unfold v_defs in Hfresh; cbn in Hfresh.
  destruct (is_global decl); (split; [|split; [|split; [|split]]]); try done.
  - intros k. cbn. rewrite im_modify_iter, al_get_modify. fold D.
    case_decide; [subst; by rewrite Est | done].
  - unfold v_defs; cbn. rewrite bts_insert_fresh_perm by set_solver. by rewrite <- Permutation_middle.
  - intros k. cbn. rewrite im_modify_iter, al_get_modify. fold D.
    case_decide; [subst; by rewrite Est | done].
  - unfold v_defs; cbn. by rewrite bts_insert_fresh_perm by set_solver.
Qed.

(** The errors of [link_with], in the order of its checks. *)
Definition link_error (from to : option InternalDecl) (l : Link) : option ArtifactError :=
  match from, to with
  | Some f, Some _ => if is_import (idecl f) then Some (RelocateImport (link_from l)) else None
  | None, _ => Some (Undeclared (link_from l))
  | _, None => Some (Undeclared (link_to l))
  end.

Lemma link_with_spec a l r :
  wf a →
  ∃ t from to, si_strings t = intern (link_to l) (intern (link_from l) (si_strings (a_strings a))) ∧
    zget (si_strings t) from = Some (link_from l) ∧ zget (si_strings t) to = Some (link_to l) ∧
    wf (set_strings t a) ∧
    match link_error (al_get (im_iter (a_declarations a)) from)
            (al_get (im_iter (a_declarations a)) to) l with
    | Some e => link_with a l r = (set_strings t a, Err e)
    | None =>
        link_with a l r =
          (set_links (a_links a ++ [(from, to, link_at l, r)]) (set_strings t a), Ok tt) ∧
        wf (set_links (a_links a ++ [(from, to, link_at l, r)]) (set_strings t a))
    end.
Proof.
  intros Hwf0. unfold link_with.
  destruct (si_get_or_intern (a_strings a) (link_from l)) as [t1 from] eqn:E1.
  destruct (si_get_or_intern t1 (link_to l)) as [t to] eqn:E2.
  apply get_or_intern_spec in E1 as [E1 H1], E2 as [E2 H2].
  assert (wf (set_strings t a)) as Hwf.
  { apply (wf_interned (set_strings t1 a) t (link_to l)); [|done]. by apply (wf_interned a t1 (link_from l)). }
  exists t, from, to. split; [by rewrite E2, E1|]. split; [rewrite E2; by apply intern_zget|].
  do 2 (split; [done|]). cbn [a_declarations set_strings].
  rewrite !im_get_spec. set (D := im_iter (a_declarations a)) in *.
  destruct (al_get D from) as [[fd b]|] eqn:Ef; cbn; [|done].
  destruct (al_get D to) as [td|] eqn:Et; cbn; [|done].
  destruct fd as [ik|fd]; cbn; [done|]. split; [done|].
  apply (wf_link (view (set_strings t a))); cbn; eauto.
Qed.

(** ** Every call keeps the invariant and does not panic *)
Lemma declare_wf a name d : wf a → wf (declare a name d).1 ∧ no_panic (declare a name d).2.
Proof.
  intros Hwf. destruct (declare_spec a name d Hwf) as (t & id & Et & Hid & H). cbv zeta in H.
  destruct (absorb _ d) as [c|e|]; [| |done].
  - destruct H as (m & I & -> & _ & H). done.
  - destruct H as (m & -> & Em). split; [|done]. cbn.
    pose proof (wf_interned a t name Hwf Et) as H. unfold wf, view in *; cbn in *. by rewrite Em.
Qed.

Lemma define_with_symbols_wf a name dat symbols :
  wf a → wf (define_with_symbols a name dat symbols).1 ∧
         no_panic (define_with_symbols a name dat symbols).2.
Proof.
  intros Hwf. destruct (define_with_symbols_spec a name dat symbols Hwf)
    as (t & id & Et & Hid & H).
  destruct (define_error _ _ _ _).
  - rewrite H. split; [|done]. by apply (wf_interned a t name).
  - destruct H as (a' & decl & -> & ? & ? & ? & ? & ? & ?). done.
Qed.

Lemma link_with_wf a l r : wf a → wf (link_with a l r).1 ∧ no_panic (link_with a l r).2.
Proof.
  intros Hwf. destruct (link_with_spec a l r Hwf) as (t & from & to & Et & Hf & Ht & Hwf' & H).
  destruct (link_error _ _ _); [by rewrite H|]. destruct H as [-> H]. done.
Qed.

Lemma declarations_wf a ds : wf a → wf (declarations a ds).1 ∧ no_panic (declarations a ds).2.
Proof.
  revert a; induction ds as [|[n d] ds IH]; intros a Hwf; cbn; [done|].
  pose proof (declare_wf a n d Hwf) as [Hwf' Hnp].
  destruct (declare a n d) as [a' [[]|e|m]]; cbn in *; auto.
Qed.

Lemma exec_wf o a : wf a → wf (exec o a).1 ∧ no_panic (exec o a).2.
Proof.
  intros Hwf. destruct o; cbn.
  - by apply declare_wf.
  - by apply declarations_wf.
  - unfold declare_with. pose proof (declare_wf a name d Hwf) as [Hwf' Hnp].
    destruct (declare a name d) as [a' [[]|e|m]]; cbn in *; auto. by apply define_with_symbols_wf.
  - by apply declare_wf.
  - by apply define_with_symbols_wf.
  - by apply define_with_symbols_wf.
  - by apply define_with_symbols_wf.
  - by apply link_with_wf.
  - by apply link_with_wf.
Qed.

Lemma new_wf target name : wf (Artifact_new target name).
Proof.
  unfold wf, view, Artifact_new; cbn.
  replace (si_strings si_new) with (@nil string) by (unfold si_strings; by rewrite si_new_iter).
  rewrite im_new_iter. apply wf_view_empty.
Qed.

Lemma reachable_wf a : reachable a → wf a.
Proof.
  induction 1 as [target name|b|a o _ IH|a name _ IH|a target _ IH|a b _ IH];
    [apply new_wf | | by apply exec_wf | exact IH..].
  unfold finish. pose proof (new_wf (ab_target b) (default "faerie.o"%string (ab_name b))). done.
Qed.

(** ** The iterators of a well-formed artifact *)
Lemma decl_named a k d :
  wf a → al_get (im_iter (a_declarations a)) k = Some d →
  ∃ s, si_resolve (a_strings a) k = Some s.
Proof.
  intros Hwf Hd. rewrite si_resolve_spec. apply (wf_named _ Hwf).
  apply al_get_elem in Hd. apply list_elem_of_fmap. by exists (k, d).
Qed.

Lemma imports_ok {E} a :
  wf a → Forall (fun r : outcome E _ => is_ok r = true) (imports a).
Proof.
  intros Hwf. apply Forall_fmap, Forall_forall. intros [k ik] Hin. cbn.
  apply (wf_imports _ Hwf) in Hin as [b Hb]. destruct (decl_named a k _ Hwf Hb) as [s ->]. done.
Qed.

Lemma definitions_ok {E} a :
  wf a → Forall (fun r : outcome E _ => is_ok r = true) (definitions a).
Proof.
  intros Hwf. apply Forall_fmap, Forall_forall. intros def Hin.
  assert (al_get (im_iter (a_declarations a)) (id_name def) =
    Some (mkInternalDecl (Defined (id_decl def)) true)) as Hd by (apply (wf_defs _ Hwf); eauto).
  cbn. unfold Definition_from. destruct (decl_named a _ _ Hwf Hd) as [s ->]. done.
Qed.

Lemma links_ok {E} a :
  wf a → Forall (fun r : outcome E _ => is_ok r = true) (links a).
Proof.
  intros Hwf. apply Forall_fmap, Forall_forall. intros [[[from to] at_] r] Hin. cbn.
  apply (wf_links _ Hwf) in Hin as ((d & b & Hf) & td & Ht); cbn in Hf, Ht.
  rewrite !im_get_spec, Hf, Ht. cbn.
  destruct (decl_named a _ _ Hwf Hf) as [s ->]. cbn.
  by destruct (decl_named a _ _ Hwf Ht) as [s' ->].
Qed.

Lemma undefined_symbols_ok {E} a :
  wf a → ∃ l, undefined_symbols (E:=E) a = Ok l ∧
    ∀ s, s ∈ l ↔ ∃ k d, zget (si_strings (a_strings a)) k = Some s ∧
      al_get (im_iter (a_declarations a)) k = Some (mkInternalDecl (Defined d) false).
Proof.
  intros Hwf. unfold undefined_symbols.
  set (F := filter _ _).
  assert (∀ k d, (k, d) ∈ F ↔ al_get (im_iter (a_declarations a)) k = Some d ∧
    defined d = false ∧ is_import (idecl d) = false) as HF.
  { intros k d. unfold F. rewrite list_elem_of_filter, andb_true_iff, !negb_true_iff; cbn.
    split; [intros [? Hin%al_get_NoDup] | intros [?%al_get_elem ?]]; try done.
    apply (wf_keys _ Hwf). }
  destruct (omapM_ok (E:=E) (fun '(name, _) =>
    expect (si_resolve (a_strings a) name) "declaration has a name") F) as (l & -> & HFA).
  { intros [k d] Hin%HF. destruct (decl_named a k d Hwf) as [s ->]; [tauto|]. cbn. eauto. }
  exists l. split; [done|]. intros s. rewrite list_elem_of_lookup. split.
  - intros [i Hi]. destruct (Forall2_lookup_r _ _ _ _ _ HFA Hi) as ([k d] & Hk & E1).
    apply list_elem_of_lookup_2, HF in Hk as (Hk & Hd & Hi').
    rewrite si_resolve_spec in E1.
    destruct (zget (si_strings (a_strings a)) k) eqn:Ez; [|done]. injection E1 as ->.
    exists k. destruct d as [[|d] b]; [done|]. cbn in Hd; subst. eauto.
  - intros (k & d & Hz & Hg). assert ((k, mkInternalDecl (Defined d) false) ∈ F) as Hin by by apply HF.
    apply list_elem_of_lookup in Hin as [i Hi].
    destruct (Forall2_lookup_l _ _ _ _ _ HFA Hi) as (s' & Hs & E1).
    rewrite si_resolve_spec, Hz in E1. injection E1 as ->. eauto.
Qed.
End Preservation.
