(* ===== verification/ArtifactSpec.v ===== *)
(** * What an artifact promises

    [Spec] is the contract of the public interface without interning,
    identifiers, sorted sets or an import list: names map to declarations and
    to definitions, and links are between names.  [refines] relates an
    artifact to its specification; [exec] simulates [spec_exec], outcome by
    outcome, and the backends see exactly what the specification holds. *)

From stdpp Require Import base numbers list gmap strings.
From Stdlib Require Import ZArith Lia Strings.Byte.
From S2P Require Import Prelude Std External Instances Decl Artifact ArtifactInv.

Record Spec := mkSpec {
  sp_decls : gmap string Decl;
  sp_defs : gmap string (Data * BTreeMap string Z);
  sp_links : list (string * string * Z * Reloc)
}.

Definition spec_init : Spec := mkSpec ∅ ∅ [].

Section Spec.
Context {TL : TargetLexicon} {SI : StringInterner} {IM : IndexMapOps}.
Context {G : GoblinElf} {OS : OsFile}.

Definition spec_declare (s : Spec) (n : string) (d : Decl) : Spec * outcome ArtifactError unit :=
  match sp_decls s !! n with
  | None => (mkSpec (<[n := d]> (sp_decls s)) (sp_defs s) (sp_links s), Ok tt)
  | Some old =>
      match absorb old d with
      | Ok c => (mkSpec (<[n := c]> (sp_decls s)) (sp_defs s) (sp_links s), Ok tt)
      | Err e => (s, Err e)
      | Panic m => (s, Panic m)
      end
  end.

Fixpoint spec_declarations (s : Spec) (ds : list (string * Decl)) :
  Spec * outcome ArtifactError unit :=
  match ds with
  | [] => (s, Ok tt)
  | (n, d) :: ds =>
      match spec_declare s n d with
      | (s, Ok _) => spec_declarations s ds
      | (s, r) => (s, r)
      end
  end.

Definition spec_define (s : Spec) (n : string) (data : Data) (symbols : BTreeMap string Z) :
  Spec * outcome ArtifactError unit :=
  match define_error ((fun d => mkInternalDecl d (bool_decide (is_Some (sp_defs s !! n)))) <$>
          sp_decls s !! n) n data symbols with
  | Some e => (s, Err e)
  | None => (mkSpec (sp_decls s) (<[n := (data, symbols)]> (sp_defs s)) (sp_links s), Ok tt)
  end.

Definition spec_link (s : Spec) (l : Link) (r : Reloc) : Spec * outcome ArtifactError unit :=
  match sp_decls s !! link_from l, sp_decls s !! link_to l with
  | None, _ => (s, Err (Undeclared (link_from l)))
  | _, None => (s, Err (Undeclared (link_to l)))
  | Some (Import _), _ => (s, Err (RelocateImport (link_from l)))
  | Some _, Some _ =>
      (mkSpec (sp_decls s) (sp_defs s)
         (sp_links s ++ [(link_from l, link_to l, link_at l, r)]), Ok tt)
  end.

Definition spec_exec (o : op) (s : Spec) : Spec * outcome ArtifactError unit :=
  match o with
  | ODeclare n d => spec_declare s n d
  | ODeclarations ds => spec_declarations s ds
  | ODeclareWith n d b =>
      match spec_declare s n d with
      | (s, Ok _) => spec_define s n (Blob b) []
      | (s, r) => (s, r)
      end
  | OImport n k => spec_declare s n (Import k)
  | ODefine n b => spec_define s n (Blob b) []
  | ODefineZeroInit n z => spec_define s n (ZeroInit z) []
  | ODefineWithSymbols n d syms => spec_define s n d syms
  | OLink l => spec_link s l Auto
  | OLinkWith l r => spec_link s l r
  end.

(** A client's calls, with their outcomes. *)
Fixpoint run {S} (step : op → S → S * outcome ArtifactError unit) (os : list op) (s : S) :
  S * list (outcome ArtifactError unit) :=
  match os with
  | [] => (s, [])
  | o :: os => let '(s1, r) := step o s in let '(s2, rs) := run step os s1 in (s2, r :: rs)
  end.

(** Calls on a reachable artifact lead to a reachable one. *)
Lemma run_reachable os : ∀ a, reachable a → reachable (run exec os a).1.
Proof.
  induction os as [|o os IH]; intros a Ha; cbn [run]; [done|].
  pose proof (reach_op a o Ha) as H1. destruct (exec o a) as [a1 r]. cbn [fst] in H1.
  specialize (IH a1 H1). by destruct (run exec os a1).
Qed.

Record refines (a : Artifact) (s : Spec) : Prop := {
  ref_decls : ∀ id n, zget (si_strings (a_strings a)) id = Some n →
    sp_decls s !! n = idecl <$> al_get (im_iter (a_declarations a)) id;
  ref_decls_none : ∀ n, n ∉ si_strings (a_strings a) → sp_decls s !! n = None;
  ref_defs : ∀ id n, zget (si_strings (a_strings a)) id = Some n → ∀ data syms,
    sp_defs s !! n = Some (data, syms) ↔
    ∃ d, mkInternalDefinition d id syms data ∈ v_defs (view a);
  ref_defs_none : ∀ n, n ∉ si_strings (a_strings a) → sp_defs s !! n = None;
  ref_links : Forall2 (fun '(from, to, at_, r) '(fn, tn, at', r') =>
    zget (si_strings (a_strings a)) from = Some fn ∧
    zget (si_strings (a_strings a)) to = Some tn ∧ at_ = at' ∧ r = r')
    (a_links a) (sp_links s)
}.
End Spec.

Section Refinement.
Context {TL : TargetLexicon} {SI : StringInterner} {IM : IndexMapOps}.
Context {G : GoblinElf} {OS : OsFile}.
Context {SIL : StringInternerLaws SI} {IML : IndexMapLaws IM}.
Implicit Types (a : Artifact) (s : Spec).

Lemma refines_init target name : refines (Artifact_new target name) spec_init.
Proof.
  split; cbn; rewrite ?im_new_iter; try done; intros id n Hz;
    unfold si_strings in Hz; rewrite si_new_iter in Hz; by apply zget_elem in Hz; set_solver.
Qed.

(** Identifiers are stable: a longer string table names the old ones alike. *)
Lemma interned_name (l : list string) (nm : string) id n :
  NoDup l → zget (intern nm l) id = Some n → zget l id = Some n ∨ (n = nm ∧ n ∉ l).
Proof.
  intros Hnd Hz. destruct (decide (n ∈ l)) as [Hin|Hni].
  - left. destruct (index_of_elem n l Hin) as [j Hj]. apply index_of_Some_get in Hj.
    pose proof (intern_zget nm l j n Hj) as Hj'.
    assert (index_of n (intern nm l) = Some id) as E1
      by by apply index_of_get_NoDup; [apply intern_NoDup|].
    assert (index_of n (intern nm l) = Some j) as E2
      by by apply index_of_get_NoDup; [apply intern_NoDup|].
    congruence.
  - right. split; [|done]. apply zget_elem in Hz. unfold intern in Hz. case_decide; set_solver.
Qed.

Lemma fresh_id_undeclared a t nm id n :
  wf a → si_strings t = intern nm (si_strings (a_strings a)) →
  zget (si_strings t) id = Some n → n ∉ si_strings (a_strings a) →
  al_get (im_iter (a_declarations a)) id = None.
Proof.
  intros Hwf Et Hz Hn. apply al_get_None. intros Hk.
  destruct (wf_named _ Hwf id Hk) as [s0 Hs0]. cbn in Hs0.
  pose proof (intern_zget nm _ _ _ Hs0) as H1. rewrite <- Et in H1. apply zget_elem in Hs0.
  congruence.
Qed.

Lemma refines_interned a s t nm :
  wf a → refines a s → si_strings t = intern nm (si_strings (a_strings a)) →
  refines (set_strings t a) s.
Proof.
  intros Hwf [] Et. pose proof (wf_strs _ Hwf) as Hnd. cbn in Hnd.
  assert (∀ n, n ∉ si_strings t → n ∉ si_strings (a_strings a)) as Hsub.
  { intros n. rewrite Et. destruct (intern_prefix nm (si_strings (a_strings a))) as [k ->].
    set_solver. }
  split; cbn.
  - intros id n Hz. rewrite Et in Hz.
    destruct (interned_name _ _ _ _ Hnd Hz) as [Hz'|[-> Hn]]; [auto|].
    rewrite ref_decls_none0 by done. rewrite <- Et in Hz.
    by rewrite (fresh_id_undeclared a t nm id nm).
  - intros n Hn. by apply ref_decls_none0, Hsub.
  - intros id n Hz dat syms. rewrite Et in Hz.
    destruct (interned_name _ _ _ _ Hnd Hz) as [Hz'|[-> Hn]]; [by apply ref_defs0|].
    rewrite ref_defs_none0 by done. split; [done|]. intros [d Hd]. exfalso.
    assert (al_get (im_iter (a_declarations a)) id = Some (mkInternalDecl (Defined d) true)) as E.
    { apply (wf_defs _ Hwf). eexists; split; [exact Hd|done]. }
    rewrite <- Et in Hz. by rewrite (fresh_id_undeclared a t nm id nm) in E.
  - intros n Hn. by apply ref_defs_none0, Hsub.
  - eapply Forall2_impl; [done|]. intros [[[f t'] x] r] [[[fn tn] x'] r']. rewrite Et.
    intros (Hf & Ht & -> & ->). by rewrite !(intern_zget _ _ _ _ Hf), !(intern_zget _ _ _ _ Ht).
Qed.

(** [defined] is kept exactly for the names with a definition. *)
Lemma refines_defined a s id n d :
  wf a → refines a s → zget (si_strings (a_strings a)) id = Some n →
  al_get (im_iter (a_declarations a)) id = Some d →
  defined d = bool_decide (is_Some (sp_defs s !! n)).
Proof.
  intros Hwf [] Hz Hd. symmetry. destruct d as [d b]; cbn. destruct b.
  - apply bool_decide_eq_true. destruct d as [ik|d]; [by destruct (wf_import_undefined _ Hwf id ik)|].
    apply (wf_defs _ Hwf) in Hd as ([d' id' syms dat] & Hin & <- & <-). cbn in *.
    exists (dat, syms). apply (ref_defs0 id'); eauto.
  - apply bool_decide_eq_false. intros [[dat syms] Hs].
    apply (ref_defs0 id n Hz) in Hs as [d' Hin].
    assert (al_get (im_iter (a_declarations a)) id = Some (mkInternalDecl (Defined d') true)) as E.
    { apply (wf_defs _ Hwf). eexists; split; [exact Hin|done]. }
    congruence.
Qed.

(** ** Simulation, call by call *)
Lemma declare_refines a s n d :
  wf a → refines a s →
  (declare a n d).2 = (spec_declare s n d).2 ∧ refines (declare a n d).1 (spec_declare s n d).1.
Proof.
  intros Hwf Href. destruct (declare_spec a n d Hwf) as (t & id & Et & Hid & H).
  pose proof (refines_interned a s t n Hwf Href Et) as [].
  pose proof (wf_interned a t n Hwf Et) as Hwf1. pose proof (wf_strs _ Hwf1) as Hnd. cbn in *.
  unfold spec_declare. rewrite (ref_decls0 id n Hid). cbv zeta in H.
  assert (∀ c m I, (∀ k, al_get (im_iter m) k =
      if decide (k = id) then Some c else al_get (im_iter (a_declarations a)) k) →
    refines (set_imports I (set_declarations m (set_strings t a)))
      (mkSpec (<[n := idecl c]> (sp_decls s)) (sp_defs s) (sp_links s))) as Hupd.
  { intros c m I Hg. split; cbn; try done.
    - intros k nk Hk. rewrite Hg, lookup_insert. case_decide as Hd.
      + subst nk. rewrite decide_True; [done|].
        pose proof (index_of_get_NoDup _ _ _ Hnd Hk).
        pose proof (index_of_get_NoDup _ _ _ Hnd Hid). congruence.
      + rewrite decide_False by congruence. auto.
    - intros nk Hk. rewrite lookup_insert_ne; [auto|]. intros ->. apply zget_elem in Hid. done. }
  destruct (al_get (im_iter (a_declarations a)) id) as [[old b]|] eqn:Eold; cbn in *.
  - destruct (absorb old d) as [c|e|] eqn:Ea; [| |done].
    + destruct H as (m & I & -> & Hg & _). split; [done|]. by apply (Hupd (mkInternalDecl c b)).
    + destruct H as (m & -> & Em). split; [done|]. split; cbn; rewrite ?Em; done.
  - rewrite absorb_le in H by constructor. destruct H as (m & I & -> & Hg & _).
    split; [done|]. by apply (Hupd (InternalDecl_new d)).
Qed.

Lemma define_refines a s n dat syms :
  wf a → refines a s →
  (define_with_symbols a n dat syms).2 = (spec_define s n dat syms).2 ∧
  refines (define_with_symbols a n dat syms).1 (spec_define s n dat syms).1.
Proof.
  intros Hwf Href. destruct (define_with_symbols_spec a n dat syms Hwf) as (t & id & Et & Hid & H).
  pose proof (refines_interned a s t n Hwf Href Et) as Href1.
  pose proof (wf_interned a t n Hwf Et) as Hwf1. pose proof (wf_strs _ Hwf1) as Hnd. cbn in *.
  unfold spec_define. rewrite (ref_decls _ _ Href1 id n Hid). cbn [a_declarations set_strings].
  assert ((fun d => mkInternalDecl d (bool_decide (is_Some (sp_defs s !! n)))) <$>
    (idecl <$> al_get (im_iter (a_declarations a)) id) =
    al_get (im_iter (a_declarations a)) id) as ->.
  { destruct (al_get (im_iter (a_declarations a)) id) as [[d b]|] eqn:E; [|done]. cbn. do 2 f_equal.
    symmetry. by apply (refines_defined (set_strings t a) s id n (mkInternalDecl d b)). }
  destruct (define_error _ _ _ _) as [e|]; [by rewrite H|].
  destruct H as (a' & decl & -> & Hold & Hg & Et' & El & Hdefs & Hwf').
  split; [done|]. destruct Href1. cbn in *. split; cbn; rewrite ?Et', ?El; try done.
  - intros k nk Hk. rewrite Hg, (ref_decls0 k nk Hk). case_decide; [subst|done]. by rewrite Hold.
  - intros k nk Hk dat' syms'. rewrite lookup_insert. setoid_rewrite Hdefs.
    setoid_rewrite elem_of_cons. case_decide as Hd.
    + subst nk. assert (k = id) as ->.
      { pose proof (index_of_get_NoDup _ _ _ Hnd Hk).
        pose proof (index_of_get_NoDup _ _ _ Hnd Hid). congruence. }
      split; [intros [= <- <-]; eauto|]. intros [d [[= -> -> ->]|Hin]]; [done|].
      assert (al_get (im_iter (a_declarations a)) id = Some (mkInternalDecl (Defined d) true)) as E;
        [|congruence]. apply (wf_defs _ Hwf). eexists; split; [exact Hin|done].
    + rewrite (ref_defs0 k nk Hk). unfold v_defs; cbn. split; [naive_solver|].
      intros [d [[= -> -> -> ->]|Hin]]; [congruence | eauto].
  - intros nk Hk. rewrite lookup_insert_ne; [auto|]. intros ->. apply zget_elem in Hid. done.
Qed.

Lemma link_refines a s l r :
  wf a → refines a s →
  (link_with a l r).2 = (spec_link s l r).2 ∧ refines (link_with a l r).1 (spec_link s l r).1.
Proof.
  intros Hwf Href. destruct (link_with_spec a l r Hwf) as (t & from & to & Et & Hf & Ht & Hwf1 & H).
  assert (refines (set_strings t a) s) as Href1.
  { pose proof (si_intern_strings (a_strings a) (link_from l)) as E1.
    set (t1 := (si_get_or_intern (a_strings a) (link_from l)).1) in *.
    apply (refines_interned (set_strings t1 a) s t (link_to l)); cbn;
      [by apply (wf_interned a t1 (link_from l)) | by eapply refines_interned | by rewrite E1]. }
  unfold spec_link. destruct Href1; cbn in *.
  rewrite (ref_decls0 _ _ Hf), (ref_decls0 _ _ Ht).
  destruct (al_get _ from) as [[[ik|fd] b]|]; cbn in *;
    [destruct (al_get _ to) as [td|]; by rewrite H | | by rewrite H].
  destruct (al_get _ to) as [td|]; cbn in *; [|by rewrite H]. destruct H as [-> _].
  split; [done|]. split; cbn; try done. apply Forall2_app; [done|]. by constructor.
Qed.

Lemma declarations_refines ds : ∀ a s,
  wf a → refines a s →
  (declarations a ds).2 = (spec_declarations s ds).2 ∧
  refines (declarations a ds).1 (spec_declarations s ds).1.
Proof.
  induction ds as [|[n d] ds IH]; intros a s Hwf Href; cbn; [done|].
  pose proof (declare_refines a s n d Hwf Href) as [Hr Href'].
  pose proof (declare_wf a n d Hwf) as [Hwf' _].
  destruct (declare a n d) as [a1 r1], (spec_declare s n d) as [s1 r2]; cbn in *; subst.
  destruct r2; cbn; auto.
Qed.

Lemma exec_refines o a s :
  wf a → refines a s →
  (exec o a).2 = (spec_exec o s).2 ∧ refines (exec o a).1 (spec_exec o s).1.
Proof.
  intros Hwf Href.
  destruct o; cbn; try by (apply declare_refines || apply declarations_refines ||
    apply define_refines || apply link_refines).
  unfold declare_with. pose proof (declare_refines a s name d Hwf Href) as [Hr Href'].
  pose proof (declare_wf a name d Hwf) as [Hwf' _].
  destruct (declare a name d) as [a1 r1], (spec_declare s name d) as [s1 r2]; cbn in *; subst.
  destruct r2; cbn; auto. by apply define_refines.
Qed.

Lemma run_wf os a : wf a → wf (run exec os a).1.
Proof.
  revert a; induction os as [|o os IH]; intros a Hwf; cbn; [done|].
  pose proof (exec_wf o a Hwf) as [Hwf' _]. destruct (exec o a) as [a1 r1]; cbn in *.
  pose proof (IH a1 Hwf'). by destruct (run exec os a1).
Qed.

Lemma run_refines os : ∀ a s,
  wf a → refines a s →
  (run exec os a).2 = (run spec_exec os s).2 ∧
  refines (run exec os a).1 (run spec_exec os s).1.
Proof.
  induction os as [|o os IH]; intros a s Hwf Href; cbn; [done|].
  pose proof (exec_refines o a s Hwf Href) as [Hr Href'].
  pose proof (exec_wf o a Hwf) as [Hwf' _].
  destruct (exec o a) as [a1 r1], (spec_exec o s) as [s1 r2]; cbn in *; subst.
  pose proof (IH a1 s1 Hwf' Href') as [IH1 IH2].
  destruct (run exec os a1), (run spec_exec os s1); cbn in *. by subst.
Qed.

Lemma refines_finish b : refines (finish b) spec_init.
Proof.
  pose proof (refines_init (ab_target b) (default "faerie.o"%string (ab_name b))) as []. by split.
Qed.

(** C1: the artifact implements its contract.  Whatever sequence of calls a
    client makes on a freshly built artifact, each call returns what the
    specification says, and the artifact holds what the specification holds. *)
Theorem artifact_refines_spec (b : ArtifactBuilder) (os : list op) :
  (run exec os (finish b)).2 = (run spec_exec os spec_init).2 ∧
  refines (run exec os (finish b)).1 (run spec_exec os spec_init).1.
Proof. apply run_refines; [apply reachable_wf; constructor | apply refines_finish]. Qed.

(** ** What the backends read *)
Lemma refines_def_decl a s id n d dat syms :
  wf a → refines a s → zget (si_strings (a_strings a)) id = Some n →
  mkInternalDefinition d id syms dat ∈ v_defs (view a) ↔
  sp_defs s !! n = Some (dat, syms) ∧ sp_decls s !! n = Some (Defined d).
Proof.
  intros Hwf [] Hz. rewrite (ref_decls0 _ _ Hz), (ref_defs0 _ _ Hz). split.
  - intros Hin. split; [eauto|].
    assert (al_get (im_iter (a_declarations a)) id = Some (mkInternalDecl (Defined d) true)) as ->;
      [|done]. apply (wf_defs _ Hwf). eexists; split; [exact Hin|done].
  - intros [[d' Hin] Hd].
    assert (al_get (im_iter (a_declarations a)) id = Some (mkInternalDecl (Defined d') true)) as E.
    { apply (wf_defs _ Hwf). eexists; split; [exact Hin|done]. }
    rewrite E in Hd. cbn in Hd. congruence.
Qed.

Lemma definitions_elem {E} a (d : Definition_) :
  wf a → Ok d ∈ definitions (E:=E) a ↔
  ∃ id, zget (si_strings (a_strings a)) id = Some (d_name d) ∧
        mkInternalDefinition (d_decl d) id (d_symbols d) (d_data d) ∈ v_defs (view a).
Proof.
  intros Hwf. unfold definitions. rewrite list_elem_of_fmap. split.
  - intros ([decl id syms dat] & Hd & Hin). unfold Definition_from in Hd. cbn in Hd.
    rewrite si_resolve_spec in Hd.
    destruct (zget (si_strings (a_strings a)) id) eqn:Ez; [|done]. injection Hd as ->. cbn. eauto.
  - intros (id & Hz & Hin). eexists; split; [|exact Hin].
    unfold Definition_from; cbn. rewrite si_resolve_spec, Hz. by destruct d.
Qed.

Lemma named_of_spec a s n d :
  refines a s → sp_decls s !! n = Some d → ∃ id, zget (si_strings (a_strings a)) id = Some n.
Proof.
  intros [] Hn. destruct (decide (n ∈ si_strings (a_strings a))) as [Hin|Hni].
  - destruct (index_of_elem _ _ Hin) as [id Hid]. exists id. by apply index_of_Some_get.
  - by rewrite ref_decls_none0 in Hn.
Qed.

Lemma imports_elem {E} a s n ik :
  wf a → refines a s →
  Ok (n, ik) ∈ imports (E:=E) a ↔ sp_decls s !! n = Some (Import ik).
Proof.
  intros Hwf Href. unfold imports. rewrite list_elem_of_fmap. split.
  - intros ([id ik'] & Hd & Hin). rewrite si_resolve_spec in Hd.
    destruct (zget (si_strings (a_strings a)) id) eqn:Ez; [|done]. injection Hd as -> ->.
    apply (wf_imports _ Hwf) in Hin as [b Hb]. rewrite (ref_decls _ _ Href _ _ Ez). cbn in Hb.
    by rewrite Hb.
  - intros Hn. destruct (named_of_spec a s n _ Href Hn) as [id Hz]. exists (id, ik).
    split; [by rewrite si_resolve_spec, Hz|]. apply (wf_imports _ Hwf); cbn.
    rewrite (ref_decls _ _ Href _ _ Hz) in Hn.
    destruct (al_get (im_iter (a_declarations a)) id) as [[d b]|]; [|done].
    injection Hn as ->. eauto.
Qed.

(** A link of the specification as the backends see it. *)
Definition spec_link_view (s : Spec) (l : string * string * Z * Reloc) : option LinkAndDecl :=
  let '(from, to, at_, r) := l in
  match sp_decls s !! from, sp_decls s !! to with
  | Some fd, Some td => Some (mkLinkAndDecl (mkBinding from fd) (mkBinding to td) at_ r)
  | _, _ => None
  end.

Lemma links_view {E} a s :
  wf a → refines a s →
  Forall2 (fun (r : outcome E LinkAndDecl) l => ∃ v, r = Ok v ∧ spec_link_view s l = Some v)
    (links a) (sp_links s).
Proof.
  intros Hwf Href. pose proof (ref_links _ _ Href) as HF. unfold links.
  apply Forall2_fmap_l. apply Forall2_same_length_lookup_2.
  - by eapply Forall2_length.
  - intros i [[[from to] at_] r] [[[fn tn] at'] r'] H1 H2.
    destruct (Forall2_lookup_lr _ _ _ _ _ _ HF H1 H2) as (Hf & Ht & -> & ->).
    apply list_elem_of_lookup_2 in H1.
    destruct (wf_links _ Hwf _ _ _ _ H1) as ((d & b & Hfd) & [td b'] & Htd).
    cbn in Hfd, Htd. cbn.
    rewrite !im_get_spec, Hfd, Htd, !si_resolve_spec, Hf, Ht. cbn.
    rewrite (ref_decls _ _ Href _ _ Hf), (ref_decls _ _ Href _ _ Ht), Hfd, Htd. cbn. eauto.
Qed.

Lemma definitions_spec {E} a s (d : Definition_) :
  wf a → refines a s →
  Ok d ∈ definitions (E:=E) a ↔
  sp_defs s !! d_name d = Some (d_data d, d_symbols d) ∧
  sp_decls s !! d_name d = Some (Defined (d_decl d)).
Proof.
  intros Hwf Href. rewrite definitions_elem by done. split.
  - intros (id & Hz & Hin). by apply (refines_def_decl a s id).
  - intros [Hdef Hdecl]. destruct (named_of_spec a s _ _ Href Hdecl) as [id Hz].
    exists id. split; [done|]. by apply (refines_def_decl a s id (d_name d)).
Qed.

Lemma definitions_NoDup {E} a : wf a → NoDup (definitions (E:=E) a).
Proof.
  intros Hwf. pose proof (wf_defs_keys _ Hwf) as Hnd. pose proof (wf_strs _ Hwf) as Hs.
  apply NoDup_fmap_2_strong; [|by eapply NoDup_fmap_1].
  intros x y Hx Hy. unfold Definition_from. rewrite !si_resolve_spec.
  assert (∀ z, z ∈ v_defs (view a) → ∃ n, zget (si_strings (a_strings a)) (id_name z) = Some n)
    as Hnm.
  { intros z Hz. apply (wf_named _ Hwf). apply list_elem_of_fmap.
    exists (id_name z, mkInternalDecl (Defined (id_decl z)) true). split; [done|].
    apply al_get_elem. apply (wf_defs _ Hwf). eauto. }
  destruct (Hnm x Hx) as [nx Ex], (Hnm y Hy) as [ny Ey]. rewrite Ex, Ey. cbn.
  intros [= -> Ed Esy Ede]. cbn in Hs.
  pose proof (index_of_get_NoDup _ _ _ Hs Ex). pose proof (index_of_get_NoDup _ _ _ Hs Ey).
  destruct x, y; cbn in *. congruence.
Qed.

Lemma undefined_symbols_spec {E} a s :
  wf a → refines a s →
  ∃ l, undefined_symbols (E:=E) a = Ok l ∧
    ∀ n, n ∈ l ↔ sp_defs s !! n = None ∧ ∃ d, sp_decls s !! n = Some (Defined d).
Proof.
  intros Hwf Href. destruct (undefined_symbols_ok (E:=E) a Hwf) as (l & Hl & Hspec).
  exists l. split; [done|]. intros n. rewrite Hspec. split.
  - intros (k & d & Hz & Hg). rewrite (ref_decls _ _ Href _ _ Hz), Hg. split; [|by eexists].
    pose proof (refines_defined a s k n _ Hwf Href Hz Hg) as Hd. cbn in Hd.
    symmetry in Hd. apply bool_decide_eq_false in Hd. by apply eq_None_not_Some.
  - intros (Hn & d & Hd). destruct (named_of_spec a s n _ Href Hd) as [k Hz].
    rewrite (ref_decls _ _ Href _ _ Hz) in Hd.
    destruct (al_get (im_iter (a_declarations a)) k) as [[d' b]|] eqn:Hg; [|done].
    injection Hd as ->. exists k, d. split; [done|]. rewrite Hg.
    pose proof (refines_defined a s k n _ Hwf Href Hz Hg) as Hd. cbn in Hd. rewrite Hn in Hd.
    by rewrite Hd.
Qed.

(** C4: what the backends iterate over is what the client declared.  After any
    calls, [definitions()] yields exactly the defined names with their data,
    symbols and declaration, each once; [imports()] yields exactly the names
    whose declaration is an import; [links()] yields the links in the order
    they were made, with the current declarations of both ends; and
    [undefined_symbols()] lists exactly the declared names that are neither
    imported nor defined.  None of the iterators panics. *)
Theorem backends_see_spec {E} (b : ArtifactBuilder) (os : list op) :
  let a := (run exec os (finish b)).1 in
  let s := (run spec_exec os spec_init).1 in
  (∀ d, Ok d ∈ definitions (E:=E) a ↔
     sp_defs s !! d_name d = Some (d_data d, d_symbols d) ∧
     sp_decls s !! d_name d = Some (Defined (d_decl d))) ∧
  NoDup (definitions (E:=E) a) ∧
  (∀ n ik, Ok (n, ik) ∈ imports (E:=E) a ↔ sp_decls s !! n = Some (Import ik)) ∧
  Forall2 (fun (r : outcome E _) l => ∃ v, r = Ok v ∧ spec_link_view s l = Some v)
    (links a) (sp_links s) ∧
  (∃ l, undefined_symbols (E:=E) a = Ok l ∧
     ∀ n, n ∈ l ↔ sp_defs s !! n = None ∧ ∃ d, sp_decls s !! n = Some (Defined d)) ∧
  Forall (fun r => is_ok r = true) (definitions (E:=E) a) ∧
  Forall (fun r => is_ok r = true) (imports (E:=E) a).
Proof.
  intros a s.
  assert (wf a) as Hwf by (apply run_wf, reachable_wf; constructor).
  assert (refines a s) as Href.
  { apply run_refines; [apply reachable_wf; constructor | apply refines_finish]. }
  split; [|split; [|split; [|split; [|split; [|split]]]]].
  - intros d. by apply definitions_spec.
  - by apply definitions_NoDup.
  - intros n ik. by apply imports_elem.
  - by apply links_view.
  - by apply undefined_symbols_spec.
  - by apply definitions_ok.
  - by apply imports_ok.
Qed.

(** C5: the invariant of [ArtifactInv.wf_view] holds in every artifact a
    client can build, whatever calls it makes and however they end. *)
Theorem reachable_invariant (a : Artifact) (Hreach : reachable a) : wf a.
Proof. by apply reachable_wf. Qed.

(** C6: no call of the public interface panics: the [expect] on the position
    of an upgraded import never fails, and every outcome is [Ok] or [Err]. *)
Theorem no_call_panics (a : Artifact) (o : op) (Hreach : reachable a) :
  no_panic (exec o a).2.
Proof. apply exec_wf. by apply reachable_wf. Qed.

(** ** Failed calls *)
Definition same_contents (a a' : Artifact) : Prop :=
  im_iter (a_declarations a') = im_iter (a_declarations a) ∧
  a_imports a' = a_imports a ∧ a_links a' = a_links a ∧
  a_local_definitions a' = a_local_definitions a ∧
  a_nonlocal_definitions a' = a_nonlocal_definitions a ∧
  ∃ l, si_strings (a_strings a') = si_strings (a_strings a) ++ l.

Lemma declare_fails a a' n d e :
  wf a → declare a n d = (a', Err e) → same_contents a a'.
Proof.
  intros Hwf. destruct (declare_spec a n d Hwf) as (t & id & Et & Hid & H). cbv zeta in H.
  destruct (absorb _ d); [by destruct H as (? & ? & -> & ?) | | done].
  destruct H as (m & -> & Em). intros [= <- _]. repeat split; [done|].
  cbn. rewrite Et. apply intern_prefix.
Qed.

Lemma define_fails a a' n dat syms e :
  wf a → define_with_symbols a n dat syms = (a', Err e) → same_contents a a'.
Proof.
  intros Hwf. destruct (define_with_symbols_spec a n dat syms Hwf) as (t & id & Et & Hid & H).
  destruct (define_error _ _ _ _); [|by destruct H as (? & ? & -> & ?)].
  rewrite H. intros [= <- _]. repeat split. cbn. rewrite Et. apply intern_prefix.
Qed.

Lemma link_fails a a' l r e :
  wf a → link_with a l r = (a', Err e) → same_contents a a'.
Proof.
  intros Hwf. destruct (link_with_spec a l r Hwf) as (t & from & to & Et & Hf & Ht & _ & H).
  destruct (link_error _ _ _); [|by destruct H as [-> _]].
  rewrite H. intros [= <- _]. repeat split. cbn. rewrite Et.
  destruct (intern_prefix (link_from l) (si_strings (a_strings a))) as [k1 ->].
  destruct (intern_prefix (link_to l) (si_strings (a_strings a) ++ k1)) as [k2 ->].
  rewrite <- app_assoc. eauto.
Qed.

(** C7: a call that fails changes nothing a client or a backend can see: the
    declarations, imports, links and definitions are those before the call,
    and only the string table may have grown.  (The two calls that stand for
    several, [declarations] and [declare_with], keep the part that succeeded.) *)
Theorem failed_call_changes_nothing (a a' : Artifact) (o : op) (e : ArtifactError)
  (Hreach : reachable a)
  (Hsingle : match o with ODeclarations _ | ODeclareWith _ _ _ => False | _ => True end)
  (Hfail : exec o a = (a', Err e)) :
  same_contents a a'.
Proof.
  apply reachable_wf in Hreach as Hwf.
  destruct o; try done; cbn in Hfail; eauto using declare_fails, define_fails, link_fails.
Qed.
End Refinement.

(** ** The theorems on a concrete client *)
Section Witnesses.
Import ConcreteInstances.

Definition demo_builder : ArtifactBuilder :=
  ArtifactBuilder_name (ArtifactBuilder_new (x86_64_elf : Triple)) "test.o".

(** An import upgraded to a function, a definition, a failing redefinition. *)
Definition demo_ops : list op :=
  [ ODeclare "f" (Import IK_Function);
    ODeclare "printf" (Import IK_Function);
    ODeclare "f" (Defined (DD_Function (global function)));
    ODeclare "s" (Defined (DD_Data cstring));
    ODefine "f" [x55; xc3];
    OLink (mkLink "f" "printf" 1);
    ODefine "f" [] ].

Lemma absorb_order_irrelevant_witness :
  absorb_all (Import IK_Data) [Defined (DD_Data data)] = Ok (Defined (DD_Data data)) ∧
  (absorb_all (Import IK_Data) [Defined (DD_Data data)] = Ok (Defined (DD_Data data)) ↔
   absorb_all (Defined (DD_Data data)) [Import IK_Data] = Ok (Defined (DD_Data data))).
Proof.
  split; [reflexivity|]. apply (absorb_order_irrelevant _ _ _ _ _). apply Permutation_swap.
Defined.

Lemma artifact_refines_spec_witness :
  (run exec demo_ops (finish demo_builder)).2 =
    [Ok tt; Ok tt; Ok tt; Ok tt; Ok tt; Ok tt; Err (DuplicateDefinition "f")] ∧
  refines (run exec demo_ops (finish demo_builder)).1 (run spec_exec demo_ops spec_init).1.
Proof.
  split; [reflexivity|]. apply (artifact_refines_spec demo_builder demo_ops).
Defined.

Lemma backends_see_spec_witness :
  let a := (run exec demo_ops (finish demo_builder)).1 in
  definitions (E:=unit) a =
    [Ok (mkDefinition "f" (Blob [x55; xc3]) [] (DD_Function (global function)))] ∧
  imports (E:=unit) a = [Ok ("printf"%string, IK_Function)] ∧
  undefined_symbols (E:=unit) a = Ok ["s"%string] ∧
  NoDup (definitions (E:=unit) a).
Proof.
  do 3 (split; [reflexivity|]). apply (backends_see_spec (E:=unit) demo_builder demo_ops).
Defined.

Lemma reachable_invariant_witness : wf (exec (ODeclare "f" (Import IK_Data)) (finish demo_builder)).1.
Proof. apply reachable_invariant. apply reach_op, reach_finish. Defined.

Lemma no_call_panics_witness :
  no_panic (exec (ODeclare "f" (Defined (DD_Data data)))
    (exec (ODeclare "f" (Import IK_Data)) (finish demo_builder)).1).2.
Proof. apply no_call_panics. apply reach_op, reach_finish. Defined.

Lemma failed_call_changes_nothing_witness :
  let a := finish demo_builder in
  (exec (ODefine "f" []) a).2 = Err (Undeclared "f") ∧
  same_contents a (exec (ODefine "f" []) a).1.
Proof.
  split; [reflexivity|].
  apply (failed_call_changes_nothing _ _ (ODefine "f" []) (Undeclared "f"));
    [apply reach_finish | exact I | reflexivity].
Defined.
End Witnesses.
