(* ===== verification/ArtifactOrder.v ===== *)
(** * Interleaving the calls on an artifact

    A client may declare, define and link in many orders.  Every call is a
    sequence of [step]s; [v_step] says what a step does to what the containers
    of the artifact hold ([View]), or that it fails.  Steps of different
    streams commute as long as both succeed, so a successful sequence can be
    sorted: all declarations, then the definitions in any order, then the
    links.  Emission depends on the artifact only through [artifact_equiv]. *)

From stdpp Require Import base numbers list gmap strings.
From Stdlib Require Import ZArith Lia.
From S2P Require Import Prelude Std External Decl Artifact ArtifactInv.

(** ** Commutation of the container operations *)
Lemma bts_insert_lt_comm {A} `{OrdLaws A} (x y : A) s :
  cmp x y = Lt → bts_insert x (bts_insert y s) = bts_insert y (bts_insert x s).
Proof.
  intros Hxy. assert (cmp y x = Gt) as Hyx by by rewrite cmp_opp, Hxy.
  induction s as [|z s IH]; cbn; [by rewrite Hxy, Hyx|].
  assert (cmp y z = Lt → cmp x z = Lt) as Htr by (intros; by eapply cmp_lt_trans).
  assert (cmp y z = Eq → cmp x z = Lt) as Heq by (intros ->%(cmp_eq (A:=A)); done).
  destruct (cmp x z) eqn:Ex, (cmp y z) eqn:Ey; try (discriminate (Htr eq_refl));
    try (discriminate (Heq eq_refl)); cbn; rewrite ?Ex, ?Ey, ?Hxy, ?Hyx; cbn; rewrite ?Ey;
    [done..|by rewrite IH].
Qed.

Lemma bts_insert_comm {A} `{OrdLaws A} (x y : A) s :
  bts_insert x (bts_insert y s) = bts_insert y (bts_insert x s).
Proof.
  destruct (cmp x y) eqn:E; [by apply (cmp_eq (A:=A)) in E as -> | by apply bts_insert_lt_comm|].
  symmetry. by apply bts_insert_lt_comm, cmp_gt_lt.
Qed.

Lemma al_modify_comm {K V} `{EqDecision K} (f g : V → V) (l : list (K * V)) k k' :
  (∀ v, f (g v) = g (f v)) → al_modify f k (al_modify g k' l) = al_modify g k' (al_modify f k l).
Proof.
  intros Hfg. induction l as [|[k2 v2] l IH]; cbn; [done|].
  repeat (case_decide; cbn); subst; try done; [by rewrite Hfg | by rewrite IH].
Qed.

Lemma al_modify_insert {K V} `{EqDecision K} (f : V → V) (l : list (K * V)) k k' v :
  k ∈ l.*1 → k' ∉ l.*1 →
  al_modify f k (al_insert k' v l) = al_insert k' v (al_modify f k l).
Proof.
  intros Hk Hk'. assert (k ≠ k') as Hne by congruence.
  induction l as [|[k2 v2] l IH]; cbn in *; [set_solver|].
  rewrite (decide_False (P := k' = k2)) by set_solver. cbn. case_decide; cbn.
  - by rewrite decide_False by set_solver.
  - rewrite decide_False by set_solver. f_equal. apply IH; set_solver.
Qed.

Lemma intern_id n (l : list string) : n ∈ l → intern n l = l.
Proof. intros. unfold intern. by case_decide. Qed.

Lemma index_of_intern n m (l : list string) i :
  index_of n l = Some i → index_of n (intern m l) = Some i.
Proof. destruct (intern_prefix m l) as [k ->]. apply index_of_app_l. Qed.

(** ** Steps *)
Inductive step :=
| SDeclare (name : string) (d : Decl)
| SDefine (name : string) (data : Data) (symbols : BTreeMap string Z)
| SLink (l : Link) (r : Reloc).

(** The steps of a call. *)
Definition steps (o : op) : list step :=
  match o with
  | ODeclare n d => [SDeclare n d]
  | ODeclarations ds => (fun '(n, d) => SDeclare n d) <$> ds
  | ODeclareWith n d b => [SDeclare n d; SDefine n (Blob b) []]
  | OImport n k => [SDeclare n (Import k)]
  | ODefine n b => [SDefine n (Blob b) []]
  | ODefineZeroInit n z => [SDefine n (ZeroInit z) []]
  | ODefineWithSymbols n d syms => [SDefine n d syms]
  | OLink l => [SLink l Auto]
  | OLinkWith l r => [SLink l r]
  end.

Definition is_declare (s : step) : bool := match s with SDeclare _ _ => true | _ => false end.
Definition is_define (s : step) : bool := match s with SDefine _ _ _ => true | _ => false end.
Definition is_link (s : step) : bool := match s with SLink _ _ => true | _ => false end.

(** The three streams of a sequence of calls. *)
Definition stream (p : step → bool) (ss : list step) : list step := filter (fun s => p s = true) ss.
Definition call_steps (os : list op) : list step := concat (steps <$> os).
Definition declare_calls (os : list op) : list step := stream is_declare (call_steps os).
Definition define_calls (os : list op) : list step := stream is_define (call_steps os).
Definition link_calls (os : list op) : list step := stream is_link (call_steps os).

(** ** Steps on the contents of the containers *)
Definition v_declare_imports (I : list (StringID * ImportKind)) (id : StringID)
  (was_import : bool) (c : Decl) : option (list (StringID * ImportKind)) :=
  match c with
  | Import ik => Some (if import_present id I then I else I ++ [(id, ik)])
  | Defined _ => if was_import then i ← import_index id I; swap_remove I i else Some I
  end.

(** [entry(id).or_insert(..)] *)
Definition v_entry (id : StringID) (d : Decl) (D : list (StringID * InternalDecl)) :
  list (StringID * InternalDecl) :=
  match al_get D id with Some _ => D | None => al_insert id (InternalDecl_new d) D end.

Definition v_define (def : InternalDefinition) (strs : list string) (v : View) : View :=
  mkView strs (al_modify InternalDecl_define (id_name def) (v_decls v)) (v_imports v) (v_links v)
    (if is_global (id_decl def) then v_local v else bts_insert def (v_local v))
    (if is_global (id_decl def) then bts_insert def (v_nonlocal v) else v_nonlocal v).

Section ViewSteps.
Context {G : GoblinElf} {OS : OsFile}.
Implicit Types (v : View) (s : step).

Definition v_step (s : step) (v : View) : option View :=
  match s with
  | SDeclare n d =>
      let strs := intern n (v_strs v) in
      id ← index_of n strs;
      let prev := default (InternalDecl_new d) (al_get (v_decls v) id) in
      match absorb (idecl prev) d with
      | Ok c =>
          I ← v_declare_imports (v_imports v) id (is_import (idecl prev)) c;
          Some (mkView strs (al_modify (set_idecl c) id (v_entry id d (v_decls v))) I
                  (v_links v) (v_local v) (v_nonlocal v))
      | _ => None
      end
  | SDefine n data symbols =>
      let strs := intern n (v_strs v) in
      id ← index_of n strs;
      st ← al_get (v_decls v) id;
      match define_error (Some st) n data symbols, idecl st with
      | None, Defined decl => Some (v_define (mkInternalDefinition decl id symbols data) strs v)
      | _, _ => None
      end
  | SLink l r =>
      let strs := intern (link_to l) (intern (link_from l) (v_strs v)) in
      from ← index_of (link_from l) (intern (link_from l) (v_strs v));
      to ← index_of (link_to l) strs;
      match link_error (al_get (v_decls v) from) (al_get (v_decls v) to) l with
      | None => Some (mkView strs (v_decls v) (v_imports v)
                        (v_links v ++ [(from, to, link_at l, r)]) (v_local v) (v_nonlocal v))
      | Some _ => None
      end
  end.

Fixpoint v_run (ss : list step) (v : View) : option View :=
  match ss with [] => Some v | s :: ss => v ← v_step s v; v_run ss v end.

Lemma v_run_app ss1 ss2 v : v_run (ss1 ++ ss2) v = v' ← v_run ss1 v; v_run ss2 v'.
Proof.
  revert v; induction ss1 as [|s ss1 IH]; intros v; cbn; [done|].
  destruct (v_step s v); cbn; auto.
Qed.

(** Declared identifiers are named: what the steps need of the invariant. *)
Definition named v : Prop :=
  NoDup (v_strs v) ∧ ∀ k, k ∈ (v_decls v).*1 → ∃ n, zget (v_strs v) k = Some n.

Lemma known_id v n id st :
  named v → index_of n (intern n (v_strs v)) = Some id → al_get (v_decls v) id = Some st →
  index_of n (v_strs v) = Some id ∧ intern n (v_strs v) = v_strs v.
Proof.
  intros [Hnd Hnm] Hid Hst. destruct (Hnm id) as [m Hm].
  { apply list_elem_of_fmap. exists (id, st). split; [done|]. by apply al_get_elem. }
  assert (m = n) as ->.
  { pose proof (intern_zget n _ _ _ Hm) as H1. apply index_of_Some_get in Hid. congruence. }
  split; [by apply index_of_get_NoDup|]. apply intern_id. by apply zget_elem in Hm.
Qed.

(** A definition step, on known names. *)
Lemma define_step_inv v n dat syms v' :
  named v →
  v_step (SDefine n dat syms) v = Some v' ↔
  ∃ id decl, index_of n (v_strs v) = Some id ∧
    al_get (v_decls v) id = Some (mkInternalDecl (Defined decl) false) ∧
    define_error (Some (mkInternalDecl (Defined decl) false)) n dat syms = None ∧
    v' = v_define (mkInternalDefinition decl id syms dat) (v_strs v) v.
Proof.
  intros Hv. cbn [v_step]. split.
  - intros (id & Hid & (st & Hst & H)%bind_Some)%bind_Some.
    destruct (known_id _ _ _ _ Hv Hid Hst) as [Hid' Hin]. rewrite Hin in H.
    destruct st as [[ik|decl] [|]]; cbn [idecl] in H; try done.
    destruct (define_error _ _ _ _) eqn:Ee; [done|]. injection H as <-. eauto 10.
  - intros (id & decl & Hid & Hst & He & ->).
    rewrite (intern_id n) by (by eapply zget_elem, index_of_Some_get). rewrite Hid.
    cbn [mbind option_bind]. rewrite Hst. cbn [mbind option_bind idecl]. by rewrite He.
Qed.

Lemma link_step_inv v l r v' :
  named v →
  v_step (SLink l r) v = Some v' ↔
  ∃ from to fd td, index_of (link_from l) (v_strs v) = Some from ∧
    index_of (link_to l) (v_strs v) = Some to ∧
    al_get (v_decls v) from = Some fd ∧ al_get (v_decls v) to = Some td ∧
    is_import (idecl fd) = false ∧
    v' = mkView (v_strs v) (v_decls v) (v_imports v) (v_links v ++ [(from, to, link_at l, r)])
           (v_local v) (v_nonlocal v).
Proof.
  intros Hv. cbn [v_step]. split.
  - intros (from & Hf & (to & Ht & H)%bind_Some)%bind_Some.
    destruct (al_get (v_decls v) from) as [fd|] eqn:Efd; [|done].
    destruct (al_get (v_decls v) to) as [td|] eqn:Etd; [|done]. cbn in H.
    destruct (known_id _ _ _ _ Hv Hf Efd) as [Hf' Hin]. rewrite Hin in *.
    destruct (known_id _ _ _ _ Hv Ht Etd) as [Ht' Hin']. rewrite Hin' in *.
    destruct (is_import (idecl fd)) eqn:Ei; [done|]. injection H as <-. eauto 15.
  - intros (from & to & fd & td & Hf & Ht & Efd & Etd & Ei & ->).
    rewrite (intern_id (link_from l)) by (by eapply zget_elem, index_of_Some_get).
    rewrite (intern_id (link_to l)) by (by eapply zget_elem, index_of_Some_get).
    rewrite Hf, Ht. cbn. rewrite Efd, Etd. cbn. by rewrite Ei.
Qed.

(** [s] and then [t] can be exchanged when both succeed. *)
Definition commutes (s t : step) : Prop :=
  ∀ v v1 v2, named v → v_step s v = Some v1 → v_step t v1 = Some v2 →
  ∃ v1', v_step t v = Some v1' ∧ v_step s v1' = Some v2.

Lemma named_v_step s v v' : named v → v_step s v = Some v' → named v'.
Proof.
  intros Hv H. destruct s as [n d|n dat syms|l r].
  - cbn [v_step] in H. apply bind_Some in H as (id & Hid & H).
    destruct (absorb _ d) as [c| |]; [|done..].
    apply bind_Some in H as (I & _ & [= <-]). destruct Hv as [Hnd Hnm].
    split; cbn; [by apply intern_NoDup|]. intros k Hk. rewrite al_modify_keys in Hk.
    assert (k ∈ (v_decls v).*1 ∨ k = id) as [Hk'| ->].
    { unfold v_entry in Hk. destruct (al_get (v_decls v) id) eqn:E; [by left|].
      rewrite al_insert_keys in Hk. case_decide; set_solver. }
    + destruct (Hnm k Hk') as [m Hm]. exists m. by apply intern_zget.
    + exists n. by apply index_of_Some_get.
  - apply define_step_inv in H as (id & decl & _ & _ & _ & ->); [|done].
    destruct Hv. split; cbn; [done|]. by rewrite al_modify_keys.
  - by apply link_step_inv in H as (from & to & fd & td & _ & _ & _ & _ & _ & ->).
Qed.

Lemma define_define_commutes n dat syms n' dat' syms' :
  commutes (SDefine n dat syms) (SDefine n' dat' syms').
Proof.
  intros v v1 v2 Hv H1 H2. pose proof (named_v_step _ _ _ Hv H1) as Hv1.
  apply define_step_inv in H1 as (id & decl & Hid & Hst & He & ->); [|done].
  apply define_step_inv in H2 as (id' & decl' & Hid' & Hst' & He' & ->); [|done].
  cbn in Hid', Hst'. rewrite al_get_modify in Hst'. case_decide as Hd.
  { subst id'. by rewrite Hst in Hst'. }
  assert (v_step (SDefine n' dat' syms') v =
    Some (v_define (mkInternalDefinition decl' id' syms' dat') (v_strs v) v)) as Hs.
  { apply define_step_inv; eauto 10. }
  eexists; split; [exact Hs|]. apply define_step_inv; [exact (named_v_step _ _ _ Hv Hs)|].
  exists id, decl. cbn. rewrite al_get_modify, decide_False by congruence.
  do 3 (split; [done|]). unfold v_define; cbn. f_equal.
  - by apply al_modify_comm.
  - destruct (is_global decl), (is_global decl'); try done. apply bts_insert_comm.
  - destruct (is_global decl), (is_global decl'); try done. apply bts_insert_comm.
Qed.

Lemma link_define_commutes l r n dat syms : commutes (SLink l r) (SDefine n dat syms).
Proof.
  intros v v1 v2 Hv H1 H2. pose proof (named_v_step _ _ _ Hv H1) as Hv1.
  apply link_step_inv in H1 as (from & to & fd & td & Hf & Ht & Efd & Etd & Ei & ->); [|done].
  apply define_step_inv in H2 as (id & decl & Hid & Hst & He & ->); [|done].
  assert (v_step (SDefine n dat syms) v =
    Some (v_define (mkInternalDefinition decl id syms dat) (v_strs v) v)) as Hs.
  { apply define_step_inv; eauto 10. }
  eexists; split; [exact Hs|]. apply link_step_inv; [exact (named_v_step _ _ _ Hv Hs)|].
  exists from, to. cbn. rewrite !al_get_modify, Efd, Etd.
  eexists (if decide (from = id) then _ else fd), (if decide (to = id) then _ else td).
  split; [done|]. split; [done|].
  split; [by case_decide|]. split; [by case_decide|]. split; [by case_decide|done].
Qed.

Lemma al_get_entry id d D k st : al_get D k = Some st → al_get (v_entry id d D) k = Some st.
Proof.
  intros Hk. unfold v_entry. destruct (al_get D id) eqn:E; [done|].
  rewrite al_get_insert, decide_False; [done|congruence].
Qed.

Lemma entry_modify f id d D k st :
  al_get D k = Some st → v_entry id d (al_modify f k D) = al_modify f k (v_entry id d D).
Proof.
  intros Hk. unfold v_entry. rewrite al_get_modify. case_decide as Hd.
  - subst. by rewrite Hk.
  - destruct (al_get D id) eqn:E; [done|]. symmetry. apply al_modify_insert.
    + apply list_elem_of_fmap. exists (k, st). split; [done|]. by apply al_get_elem.
    + by apply al_get_None.
Qed.

(** A declaration step that succeeds. *)
Definition v_declared (id : StringID) (m : string) (d c : Decl)
  (I : list (StringID * ImportKind)) v : View :=
  mkView (intern m (v_strs v)) (al_modify (set_idecl c) id (v_entry id d (v_decls v))) I
    (v_links v) (v_local v) (v_nonlocal v).

Definition v_prev (id : StringID) (d : Decl) v : Decl :=
  idecl (default (InternalDecl_new d) (al_get (v_decls v) id)).

Lemma declare_step_inv v m d v' :
  v_step (SDeclare m d) v = Some v' ↔
  ∃ id c I, index_of m (intern m (v_strs v)) = Some id ∧ absorb (v_prev id d v) d = Ok c ∧
    v_declare_imports (v_imports v) id (is_import (v_prev id d v)) c = Some I ∧
    v' = v_declared id m d c I v.
Proof.
  cbn [v_step]. split.
  - intros (id & Hid & H)%bind_Some. destruct (absorb _ d) as [c| |] eqn:Ea; [|done..].
    apply bind_Some in H as (I & HI & [= <-]). by exists id, c, I.
  - intros (id & c & I & Hid & Ea & HI & ->). rewrite Hid. cbn [mbind option_bind].
    unfold v_prev in Ea, HI. by rewrite Ea, HI.
Qed.

(** The declaration of a defined name or of the source of a link is final. *)
Lemma declared_final id m d c I v k st :
  al_get (v_decls v) k = Some st → is_import (idecl st) = false →
  absorb (v_prev id d v) d = Ok c → al_get (v_decls (v_declared id m d c I v)) k = Some st.
Proof.
  intros Hk Hi Ha. cbn. rewrite al_get_modify, (al_get_entry _ _ _ _ _ Hk).
  case_decide as Hd; [|done]. subst id. unfold v_prev in Ha. rewrite Hk in Ha.
  apply absorb_Ok in Ha as (Hle & _ & _). destruct st as [[ik|dd] b]; [done|]. by inversion Hle.
Qed.

Lemma define_declare_commutes n dat syms m d : commutes (SDefine n dat syms) (SDeclare m d).
Proof.
  intros v v1 v2 Hv H1 H2.
  apply define_step_inv in H1 as (id0 & decl & Hid0 & Hst & He & ->); [|done].
  apply declare_step_inv in H2 as (id & c & I & Hid & Ea & HI & ->).
  set (def := mkInternalDefinition decl id0 syms dat) in *.
  assert (v_prev id d (v_define def (v_strs v) v) = v_prev id d v) as Ep.
  { unfold v_prev; cbn. rewrite al_get_modify. case_decide; [subst; by rewrite Hst | done]. }
  rewrite Ep in Ea, HI. assert (v_step (SDeclare m d) v = Some (v_declared id m d c I v)) as Hs.
  { apply declare_step_inv. by exists id, c, I. }
  eexists; split; [exact Hs|]. apply define_step_inv; [exact (named_v_step _ _ _ Hv Hs)|].
  exists id0, decl. split; [by apply index_of_intern|].
  split; [by eapply declared_final|]. split; [done|].
  unfold v_declared, v_define; cbn. rewrite (entry_modify _ _ _ _ _ _ Hst). f_equal.
  by apply al_modify_comm.
Qed.

Lemma link_declare_commutes l r m d : commutes (SLink l r) (SDeclare m d).
Proof.
  intros v v1 v2 Hv H1 H2.
  apply link_step_inv in H1 as (from & to & fd & td & Hf & Ht & Efd & Etd & Ei & ->); [|done].
  apply declare_step_inv in H2 as (id & c & I & Hid & Ea & HI & ->).
  assert (v_step (SDeclare m d) v = Some (v_declared id m d c I v)) as Hs.
  { apply declare_step_inv. by exists id, c, I. }
  eexists; split; [exact Hs|]. apply link_step_inv; [exact (named_v_step _ _ _ Hv Hs)|].
  exists from, to, fd, (if decide (to = id) then set_idecl c td else td).
  do 2 (split; [by apply index_of_intern|]). split; [by eapply declared_final|].
  split; [|done]. cbn. rewrite al_get_modify, (al_get_entry _ _ _ _ _ Etd). by case_decide.
Qed.

(** ** Sorting a successful sequence *)
Lemma v_run_named ss : ∀ v v', named v → v_run ss v = Some v' → named v'.
Proof.
  induction ss as [|s ss IH]; intros v v' Hv; cbn; [by intros [= <-]|].
  intros (v1 & H1 & H2)%bind_Some. eapply IH; [|done]. by eapply named_v_step.
Qed.

Lemma commutes_run s ts :
  Forall (commutes s) ts → ∀ v v1 v2, named v → v_step s v = Some v1 → v_run ts v1 = Some v2 →
  ∃ v1', v_run ts v = Some v1' ∧ v_step s v1' = Some v2.
Proof.
  induction 1 as [|t ts Ht Hts IH]; intros v v1 v2 Hv Hs Hr; cbn in *.
  - injection Hr as <-. eauto.
  - apply bind_Some in Hr as (v3 & H3 & Hr).
    destruct (Ht v v1 v3 Hv Hs H3) as (v1' & H1' & H3'). rewrite H1'. cbn.
    eapply IH; [|done..]. by eapply named_v_step.
Qed.

Lemma stream_forall p (P : step → Prop) ss : (∀ s, p s = true → P s) → Forall P (stream p ss).
Proof. intros H. apply Forall_forall. intros s [Hs _]%list_elem_of_filter. auto. Qed.

Lemma stream_cons p s ss :
  stream p (s :: ss) = if p s then s :: stream p ss else stream p ss.
Proof. unfold stream. rewrite filter_cons. by destruct (p s). Qed.

Definition sorted_steps (ss : list step) : list step :=
  stream is_declare ss ++ stream is_define ss ++ stream is_link ss.

Lemma v_run_sorted ss : ∀ v v',
  named v → v_run ss v = Some v' → v_run (sorted_steps ss) v = Some v'.
Proof.
  induction ss as [|s ss IH]; intros v v' Hv; [done|].
  cbn [v_run]. intros (v1 & Hs & Hr)%bind_Some.
  apply IH in Hr; [|by eapply named_v_step]. unfold sorted_steps in *. rewrite !stream_cons.
  destruct s as [n d|n dat syms|l r]; cbn [is_declare is_define is_link].
  - cbn [app v_run]. by rewrite Hs.
  - rewrite v_run_app in Hr. apply bind_Some in Hr as (v2 & Hd & Hr).
    edestruct (commutes_run (SDefine n dat syms)) as (v1' & H1' & H2);
      [|exact Hv|exact Hs|exact Hd|].
    { apply stream_forall. intros [] ?; try done. apply define_declare_commutes. }
    rewrite v_run_app, H1'. cbn [mbind option_bind app v_run]. by rewrite H2.
  - rewrite app_assoc, v_run_app in Hr. apply bind_Some in Hr as (v2 & Hd & Hr).
    assert (∀ t, is_link t = false → commutes (SLink l r) t) as Hc.
    { intros [] ?; try done; [apply link_declare_commutes | apply link_define_commutes]. }
    edestruct (commutes_run (SLink l r)) as (v1' & H1' & H2); [|exact Hv|exact Hs|exact Hd|].
    { apply Forall_app; split; apply stream_forall; intros [] ?; try done; by apply Hc. }
    rewrite app_assoc, v_run_app, H1'. cbn [mbind option_bind v_run]. by rewrite H2.
Qed.

Lemma v_run_defines ds ds' :
  ds ≡ₚ ds' → Forall (fun s => is_define s = true) ds → ∀ v v',
  named v → v_run ds v = Some v' → v_run ds' v = Some v'.
Proof.
  induction 1 as [|s ds ds' _ IH|s t ds|ds1 ds2 ds3 H12 IH1 H23 IH2]; intros Hf v v' Hv; [done|..].
  - cbn. inversion Hf; subst. intros (v1 & Hs & Hr)%bind_Some. rewrite Hs. cbn.
    apply IH; [done|exact (named_v_step _ _ _ Hv Hs)|done].
  - cbn. apply Forall_cons in Hf as [Ht Hf]. apply Forall_cons in Hf as [Hs _].
    intros (v1 & H1 & (v2 & H2 & Hr)%bind_Some)%bind_Some.
    destruct s as [| n dat syms |], t as [| n' dat' syms' |]; try done.
    destruct (define_define_commutes _ _ _ _ _ _ _ _ _ Hv H1 H2) as (v1' & -> & H1').
    cbn [mbind option_bind]. by rewrite H1'.
  - intros Hr. apply IH2; [by rewrite <- H12 | done | by apply IH1].
Qed.
End ViewSteps.

(** ** Steps on the artifact *)
Section ArtifactSteps.
Context {TL : TargetLexicon} {SI : StringInterner} {IM : IndexMapOps}.
Context {G : GoblinElf} {OS : OsFile}.
Implicit Types (a : Artifact) (s : step) (o : op).

Definition do_step s a : Artifact * outcome ArtifactError unit :=
  match s with
  | SDeclare n d => declare a n d
  | SDefine n data symbols => define_with_symbols a n data symbols
  | SLink l r => link_with a l r
  end.

(** A chain of calls with [?]: it stops at the first error. *)
Fixpoint chain {S} (f : S → Artifact → Artifact * outcome ArtifactError unit) (ss : list S) a :
  Artifact * outcome ArtifactError unit :=
  match ss with
  | [] => (a, Ok tt)
  | s :: ss => match f s a with (a, Ok _) => chain f ss a | (a, r) => (a, r) end
  end.

Lemma chain_app {S} (f : S → Artifact → Artifact * outcome ArtifactError unit) ss1 ss2 a :
  chain f (ss1 ++ ss2) a =
  match chain f ss1 a with (a, Ok _) => chain f ss2 a | (a, r) => (a, r) end.
Proof.
  revert a; induction ss1 as [|s ss1 IH]; intros a; cbn; [done|].
  destruct (f s a) as [a1 [[]|e|m]]; auto.
Qed.

(** Every call is the chain of its steps. *)
Lemma exec_steps o a : exec o a = chain do_step (steps o) a.
Proof.
  assert (∀ s, chain do_step [s] a = do_step s a) as H1.
  { intros s. cbn. by destruct (do_step s a) as [a1 [[]|e|m]]. }
  destruct o; cbn [exec steps]; rewrite ?H1; try done.
  - revert a H1. induction ds as [|[n d] ds IH]; intros a H1; cbn; [done|].
    destruct (declare a n d) as [a1 [[]|e|m]]; [|done..]. apply IH. intros s. cbn.
    by destruct (do_step s a1) as [a2 [[]|e|m]].
  - cbn. unfold declare_with, define. destruct (declare a name d) as [a1 [[]|e|m]]; [|done..].
    by destruct (define_with_symbols a1 name (Blob bytes) []) as [a2 [[]|e|m]].
Qed.

Lemma chain_calls os a : chain exec os a = chain do_step (call_steps os) a.
Proof.
  revert a; induction os as [|o os IH]; intros a; cbn [chain call_steps fmap list_fmap concat]; [done|].
  change (concat (list_fmap _ _ steps os)) with (call_steps os).
  rewrite chain_app, exec_steps. by destruct (chain do_step (steps o) a) as [a1 [[]|e|m]].
Qed.

Context {SIL : StringInternerLaws SI} {IML : IndexMapLaws IM}.

(** Name, target and kind of the artifact: no call changes them. *)
Definition labels a := (a_name a, a_target a, a_is_library a).

Definition step_view s a (r : Artifact * outcome ArtifactError unit) : Prop :=
  labels r.1 = labels a ∧
  v_step s (view a) = match r with (a', Ok _) => Some (view a') | _ => None end.

Lemma intern_split a n t id :
  si_get_or_intern (a_strings a) n = (t, id) →
  si_strings t = intern n (si_strings (a_strings a)) ∧
  index_of n (intern n (si_strings (a_strings a))) = Some id.
Proof.
  intros E. pose proof (si_intern_strings (a_strings a) n) as H1.
  pose proof (si_intern_id (a_strings a) n) as H2. rewrite E in H1, H2. cbn in *.
  by rewrite <- H1.
Qed.

Lemma declare_view a n d : step_view (SDeclare n d) a (declare a n d).
Proof.
  unfold step_view, declare. cbn [v_step]. destruct (si_get_or_intern (a_strings a) n) as [t id] eqn:Ei.
  apply intern_split in Ei as [Et Hid]. cbn [v_strs view]. rewrite Hid. cbn [mbind option_bind].
  cbn [a_declarations set_strings].
  destruct (im_or_insert id (InternalDecl_new d) (a_declarations a)) as [m prev] eqn:Em.
  pose proof (im_or_insert_iter _ _ (a_declarations a) id (InternalDecl_new d)) as Hm.
  pose proof (im_or_insert_val _ _ (a_declarations a) id (InternalDecl_new d)) as Hp.
  rewrite Em in Hm, Hp; cbn in Hm, Hp. cbn [v_decls view]. rewrite <- Hp.
  destruct (absorb (idecl prev) d) as [c|e|]; [|done..].
  unfold declare_imports, v_declare_imports. cbn [a_imports set_declarations set_strings v_imports view].
  assert (∀ I, mkView (intern n (si_strings (a_strings a)))
      (al_modify (set_idecl c) id (v_entry id d (im_iter (a_declarations a)))) I
      (a_links a) (a_local_definitions a) (a_nonlocal_definitions a) =
    view (set_imports I (set_declarations (im_modify (set_idecl c) id m) (set_strings t a)))) as HV.
  { intros I. unfold view; cbn. by rewrite im_modify_iter, Hm, Et. }
  destruct c as [ik|dd]; cbn.
  - destruct (import_present id (a_imports a)); cbn; (split; [done|]); by rewrite HV.
  - destruct (is_import (idecl prev)); [|cbn; split; [done|]; by rewrite HV].
    destruct (import_index id (a_imports a)) as [i|]; [|done]. cbn.
    destruct (swap_remove (a_imports a) i) as [I|]; [|done]. cbn. split; [done|]. by rewrite HV.
Qed.

Lemma define_view a n dat syms :
  step_view (SDefine n dat syms) a (define_with_symbols a n dat syms).
Proof.
  unfold step_view, define_with_symbols. cbn [v_step].
  destruct (si_get_or_intern (a_strings a) n) as [t id] eqn:Ei.
  apply intern_split in Ei as [Et Hid]. cbn [v_strs view]. rewrite Hid. cbn [mbind option_bind].
  cbn [a_declarations set_strings v_decls view]. rewrite im_get_spec.
  destruct (al_get (im_iter (a_declarations a)) id) as [[decl b]|]; cbn [mbind option_bind]; [|done].
  unfold define_error. cbn [defined idecl]. destruct b; [done|]. destruct decl as [ik|decl]; [done|].
  destruct (negb (DefinedDecl_is_section decl) && negb (bool_decide (syms = []))); [done|].
  destruct (negb (is_data decl) && is_zero_init dat); [done|].
  destruct (is_global decl) eqn:Eg; (split; [done|]); unfold v_define, view; cbn;
    by rewrite Eg, im_modify_iter, Et.
Qed.

Lemma link_view a l r : step_view (SLink l r) a (link_with a l r).
Proof.
  unfold step_view, link_with. cbn [v_step].
  destruct (si_get_or_intern (a_strings a) (link_from l)) as [t from] eqn:Ei.
  apply intern_split in Ei as [Et Hf].
  destruct (si_get_or_intern t (link_to l)) as [t' to] eqn:Ei'.
  apply (intern_split (set_strings t a)) in Ei' as [Et' Ht]. cbn [a_strings set_strings] in Et', Ht.
  rewrite Et in Et', Ht. cbn [v_strs view]. rewrite Hf. cbn [mbind option_bind]. rewrite Ht.
  cbn [mbind option_bind a_declarations set_strings v_decls view]. rewrite !im_get_spec.
  unfold link_error.
  destruct (al_get (im_iter (a_declarations a)) from) as [fd|]; [|done].
  destruct (al_get (im_iter (a_declarations a)) to) as [td|]; [|done].
  destruct (is_import (idecl fd)); [done|]. split; [done|]. unfold view; cbn. by rewrite Et'.
Qed.

Lemma do_step_view s a : step_view s a (do_step s a).
Proof. destruct s; [apply declare_view | apply define_view | apply link_view]. Qed.

Lemma chain_view ss : ∀ a,
  labels (chain do_step ss a).1 = labels a ∧
  v_run ss (view a) = match chain do_step ss a with (a', Ok _) => Some (view a') | _ => None end.
Proof.
  induction ss as [|s ss IH]; intros a; cbn [v_run chain]; [done|].
  destruct (do_step_view s a) as [Hl Hv]. rewrite Hv.
  destruct (do_step s a) as [a1 [[]|e|m]]; [|done..]. cbn [mbind option_bind fst] in *.
  rewrite <- Hl. apply IH.
Qed.

Lemma wf_named_view a : wf a → named (view a).
Proof. intros Hwf. split; [apply (wf_strs _ Hwf) | apply (wf_named _ Hwf)]. Qed.

(** ** Artifacts no client and no backend can tell apart *)
Definition artifact_equiv (a b : Artifact) : Prop := labels a = labels b ∧ view a = view b.

#[export] Instance artifact_equivalence : Equivalence artifact_equiv.
Proof.
  split; [done | intros a b []; by split |].
  intros a b c [] []. split; by etrans.
Qed.

(** A sequence of calls that succeeds does so with its declarations first,
    its definitions after them in any order and its links last, and leads to
    the same artifact. *)
Lemma chain_reorder os a a1 defs :
  wf a → chain exec os a = (a1, Ok tt) → defs ≡ₚ define_calls os →
  ∃ a2, chain do_step (declare_calls os ++ defs ++ link_calls os) a = (a2, Ok tt) ∧
    artifact_equiv a1 a2.
Proof.
  intros Hwf Hc Hdefs. rewrite chain_calls in Hc. pose proof (wf_named_view a Hwf) as Hn.
  destruct (chain_view (call_steps os) a) as [Hl1 Hv1]. rewrite Hc in Hl1, Hv1. cbn in Hl1.
  apply v_run_sorted in Hv1; [|done]. unfold sorted_steps in Hv1.
  fold (declare_calls os) (define_calls os) (link_calls os) in Hv1.
  rewrite v_run_app in Hv1. apply bind_Some in Hv1 as (v & Hd & Hv1).
  rewrite v_run_app in Hv1. apply bind_Some in Hv1 as (v' & Hd' & Hv1).
  apply (v_run_defines _ defs) in Hd';
    [|by rewrite Hdefs|by apply stream_forall|by eapply v_run_named].
  destruct (chain_view (declare_calls os ++ defs ++ link_calls os) a) as [Hl2 Hv2].
  rewrite v_run_app, Hd in Hv2. cbn [mbind option_bind] in Hv2.
  rewrite v_run_app, Hd' in Hv2. cbn [mbind option_bind] in Hv2. rewrite Hv1 in Hv2.
  destruct (chain do_step (_ ++ _) a) as [a2 [[]|e|m]]; [|done..]. apply (inj Some) in Hv2.
  exists a2. split; [done|]. split; [by rewrite Hl1, <- Hl2 | done].
Qed.
End ArtifactSteps.
