(* ===== verification/Contents.v ===== *)
(** * What an artifact hands to a backend

    [contents a] is what the iterators [definitions], [imports] and [links]
    of the artifact yield, as plain lists.  [contents_wf] is what a backend may
    rely on when no declared symbol is left undefined; both backends are
    verified against it, and [contents_complete] discharges it for every
    artifact built through the public interface. *)

From stdpp Require Import base numbers list gmap strings.
From Stdlib Require Import ZArith Lia.
From S2P Require Import Prelude Std External Decl Artifact ArtifactInv.

Record Contents := mkContents {
  c_defs : list Definition_;
  c_imports : list (string * ImportKind);
  c_links : list LinkAndDecl
}.

(** The declaration a name has: that of its definition, or its import. *)
Definition bound_in (c : Contents) (b : Binding) : Prop :=
  match b_decl b with
  | Defined d => ∃ def, def ∈ c_defs c ∧ d_name def = b_name b ∧ d_decl def = d
  | Import k => (b_name b, k) ∈ c_imports c
  end.

Record contents_wf (c : Contents) : Prop := {
  cw_defs : NoDup (d_name <$> c_defs c);
  cw_imports : NoDup (c_imports c).*1;
  cw_disjoint : ∀ n, n ∈ (c_imports c).*1 → n ∉ d_name <$> c_defs c;
  cw_symbols : ∀ d, d ∈ c_defs c → DefinedDecl_is_section (d_decl d) = true ∨ d_symbols d = [];
  cw_zero_init : ∀ d, d ∈ c_defs c → is_data (d_decl d) = true ∨ is_zero_init (d_data d) = false;
  cw_links_to : ∀ l, l ∈ c_links c → bound_in c (l_to l);
  cw_links_from : ∀ l, l ∈ c_links c → bound_in c (l_from l);
  cw_from_defined : ∀ l, l ∈ c_links c → ∃ d, b_decl (l_from l) = Defined d
}.

Section Contents.
Context {TL : TargetLexicon} {SI : StringInterner} {IM : IndexMapOps}.
Context {SIL : StringInternerLaws SI} {IML : IndexMapLaws IM}.
Implicit Types (a : Artifact).

Definition name_of a (id : StringID) : string := default ""%string (si_resolve (a_strings a) id).

Definition contents a : Contents :=
  mkContents
    ((fun d => mkDefinition (name_of a (id_name d)) (id_data d) (id_symbols d) (id_decl d)) <$>
       (a_local_definitions a ++ a_nonlocal_definitions a))
    (prod_map (name_of a) id <$> a_imports a)
    (omap (fun '(from, to, at_, r) =>
       fd ← im_get (a_declarations a) from; td ← im_get (a_declarations a) to;
       Some (mkLinkAndDecl (mkBinding (name_of a from) (idecl fd))
               (mkBinding (name_of a to) (idecl td)) at_ r)) (a_links a)).

Lemma name_of_spec a id n :
  zget (si_strings (a_strings a)) id = Some n → name_of a id = n.
Proof. unfold name_of. rewrite si_resolve_spec. by intros ->. Qed.

Lemma def_declared a d :
  wf a → d ∈ v_defs (view a) →
  al_get (im_iter (a_declarations a)) (id_name d) = Some (mkInternalDecl (Defined (id_decl d)) true).
Proof. intros Hwf Hd. apply (wf_defs _ Hwf). eauto. Qed.

(** Declared identifiers have distinct names. *)
Lemma name_of_inj a k1 k2 d1 d2 :
  wf a → al_get (im_iter (a_declarations a)) k1 = Some d1 →
  al_get (im_iter (a_declarations a)) k2 = Some d2 → name_of a k1 = name_of a k2 → k1 = k2.
Proof.
  intros Hwf H1 H2 Hn. destruct (decl_named a k1 d1 Hwf H1) as [n1 E1].
  destruct (decl_named a k2 d2 Hwf H2) as [n2 E2]. unfold name_of in Hn. rewrite E1, E2 in Hn.
  cbn in Hn. subst n2. rewrite si_resolve_spec in E1. rewrite si_resolve_spec in E2.
  pose proof (index_of_get_NoDup _ _ _ (wf_strs _ Hwf) E1).
  pose proof (index_of_get_NoDup _ _ _ (wf_strs _ Hwf) E2). congruence.
Qed.

Lemma definitions_contents {E} a : wf a → definitions (E:=E) a = Ok <$> c_defs (contents a).
Proof.
  intros Hwf. unfold definitions, contents. cbn. rewrite <- list_fmap_compose.
  apply list_fmap_ext. intros i d Hd. apply list_elem_of_lookup_2 in Hd. cbn.
  destruct (decl_named a _ _ Hwf (def_declared _ _ Hwf Hd)) as [n Hn].
  unfold Definition_from, name_of. by rewrite Hn.
Qed.

Lemma imports_contents {E} a : wf a → imports (E:=E) a = Ok <$> c_imports (contents a).
Proof.
  intros Hwf. unfold imports, contents. cbn. rewrite <- list_fmap_compose.
  apply list_fmap_ext. intros i [k ik] Hd. apply list_elem_of_lookup_2 in Hd. cbn.
  apply (wf_imports _ Hwf) in Hd as [b Hb].
  destruct (decl_named a _ _ Hwf Hb) as [n Hn]. unfold name_of. by rewrite Hn.
Qed.

Lemma links_contents {E} a : wf a → links (E:=E) a = Ok <$> c_links (contents a).
Proof.
  intros Hwf. unfold links, contents. cbn.
  assert (∀ r, r ∈ a_links a → r ∈ v_links (view a)) as Hsub by done. revert Hsub.
  induction (a_links a) as [|[[[from to] at_] r] ls IH]; intros Hsub; cbn; [done|].
  destruct (wf_links _ Hwf from to at_ r) as ((d & b & Hf) & td & Ht); [apply Hsub; set_solver|].
  cbn in Hf, Ht. destruct (decl_named a _ _ Hwf Hf) as [n1 Hn1], (decl_named a _ _ Hwf Ht) as [n2 Hn2].
  rewrite !im_get_spec, Hf, Ht. cbn. unfold name_of at 1 2. rewrite Hn1, Hn2. cbn.
  f_equal. apply IH. set_solver.
Qed.

Lemma contents_link a l :
  wf a → l ∈ c_links (contents a) →
  ∃ from to fd td, al_get (im_iter (a_declarations a)) from = Some fd ∧
    al_get (im_iter (a_declarations a)) to = Some td ∧
    l_from l = mkBinding (name_of a from) (idecl fd) ∧
    l_to l = mkBinding (name_of a to) (idecl td) ∧ ∃ d, idecl fd = Defined d.
Proof.
  intros Hwf Hl. cbn in Hl. apply list_elem_of_omap in Hl as ([[[from to] at_] r] & Hin & E).
  destruct (wf_links _ Hwf from to at_ r Hin) as ((d & b & Hf) & td & Ht). cbn in Hf, Ht.
  rewrite !im_get_spec, Hf, Ht in E. cbn in E. injection E as <-.
  exists from, to, (mkInternalDecl (Defined d) b), td. cbn. eauto 10.
Qed.

(** With nothing left undefined, every declared name is bound. *)
Lemma contents_bound {E} a k d :
  wf a → undefined_symbols (E:=E) a = Ok [] →
  al_get (im_iter (a_declarations a)) k = Some d →
  bound_in (contents a) (mkBinding (name_of a k) (idecl d)).
Proof.
  intros Hwf Hu Hd. destruct (undefined_symbols_ok (E:=E) a Hwf) as (l & Hl & Hspec).
  rewrite Hu in Hl. injection Hl as <-. destruct d as [[ik|dd] b]; unfold bound_in; cbn.
  - apply list_elem_of_fmap. exists (k, ik). split; [done|]. apply (wf_imports _ Hwf). eauto.
  - destruct b.
    + destruct (proj1 (wf_defs _ Hwf k dd) Hd) as (def & Hin & <- & <-).
      eexists. split; [apply list_elem_of_fmap; eauto|]. done.
    + destruct (decl_named a k _ Hwf Hd) as [n Hn]. rewrite si_resolve_spec in Hn.
      exfalso. apply (not_elem_of_nil n), Hspec. eauto.
Qed.

Lemma contents_complete {E} a :
  wf a → undefined_symbols (E:=E) a = Ok [] → contents_wf (contents a).
Proof.
  intros Hwf Hu. split.
  - cbn. rewrite <- list_fmap_compose. pose proof (wf_defs_keys _ Hwf) as Hnd.
    apply NoDup_fmap_2_strong; [|by eapply NoDup_fmap_1]. intros x y Hx Hy Hn. cbn in Hn.
    assert (id_name x = id_name y) as Ek by (eapply name_of_inj; eauto using def_declared).
    apply list_elem_of_lookup in Hx as [i Hi], Hy as [j Hj].
    assert (i = j) as ->; [|congruence].
    eapply (NoDup_lookup (id_name <$> v_defs (view a))); [done| |].
    + rewrite list_lookup_fmap. unfold v_defs, view in *. cbn. by rewrite Hi.
    + rewrite list_lookup_fmap. unfold v_defs, view in *. cbn. rewrite Hj. cbn. by rewrite Ek.
  - cbn. rewrite <- list_fmap_compose. pose proof (wf_imports_keys _ Hwf) as Hnd. cbn in Hnd.
    apply NoDup_fmap_2_strong; [|by eapply NoDup_fmap_1]. intros [k1 i1] [k2 i2] H1 H2 Hn. cbn in Hn.
    destruct (proj1 (wf_imports _ Hwf _ _) H1) as [b1 Hb1], (proj1 (wf_imports _ Hwf _ _) H2) as [b2 Hb2].
    assert (k1 = k2) as -> by (eapply name_of_inj; eauto). cbn in Hb1, Hb2. congruence.
  - intros n Hn Hd. cbn in Hn, Hd. rewrite <- list_fmap_compose in Hn. rewrite <- list_fmap_compose in Hd.
    apply list_elem_of_fmap in Hn as ([k ik] & -> & Hk), Hd as (d & Hn & Hd). cbn in Hn.
    destruct (proj1 (wf_imports _ Hwf _ _) Hk) as [b Hb]. cbn in Hb.
    pose proof (def_declared a d Hwf Hd) as Hdd.
    assert (k = id_name d) by (eapply name_of_inj; eauto). congruence.
  - intros d Hd. apply list_elem_of_fmap in Hd as (def & -> & Hd). cbn.
    apply (wf_contents _ Hwf _ Hd).
  - intros d Hd. apply list_elem_of_fmap in Hd as (def & -> & Hd). cbn.
    apply (wf_contents _ Hwf _ Hd).
  - intros l Hl. destruct (contents_link a l Hwf Hl) as (? & ? & ? & ? & _ & Ht & _ & -> & _).
    by eapply contents_bound.
  - intros l Hl. destruct (contents_link a l Hwf Hl) as (? & ? & ? & ? & Hf & _ & -> & _).
    by eapply contents_bound.
  - intros l Hl. destruct (contents_link a l Hwf Hl) as (? & ? & ? & ? & _ & _ & -> & _ & Hd). done.
Qed.
End Contents.
