(* ===== verification/Target.v ===== *)
(** * Target contexts ([src/target.rs]) *)

From stdpp Require Import base numbers list gmap strings.
From Stdlib Require Import ZArith Lia.
From S2P Require Import Prelude Std External.

Section Target.
Context {TL : TargetLexicon} {G : GoblinElf}.

(** [make_ctx]: a target whose pointer width or endianness is unknown, or
    whose pointers have 16 bits, gets the default context. *)
Definition make_ctx (target : Triple) : Ctx :=
  let with_size (container_size : Container) :=
    match endianness target with
    | None => ctx_default
    | Some E_Little => mkCtx container_size E_Little
    | Some E_Big => mkCtx container_size E_Big
    end in
  match pointer_width target with
  | None | Some PW_U16 => ctx_default
  | Some PW_U32 => with_size C_Little
  | Some PW_U64 => with_size C_Big
  end.
End Target.
