(* ===== verification/ElfBuild.v ===== *)
(** * Builders of the ELF backend ([src/elf.rs], first part)

    [MachineTag], [SymbolBuilder], [SectionBuilder] and [RelocationBuilder].
    The theorems read the built structures back the way a linker does: bind,
    type and visibility of a symbol, flags and alignment of a section. *)

From stdpp Require Import base numbers list gmap strings.
From Stdlib Require Import ZArith Lia.
From S2P Require Import Prelude Std External Instances Decl Artifact.

Section ElfBuild.
Context {G : GoblinElf} {P : Profile}.

(** [impl From<Architecture> for MachineTag] *)
Definition MachineTag_from {E} (a : Architecture) : outcome E Z :=
  match a with
  | X86_64 => Ok EM_X86_64
  | X86_32 => Ok EM_386
  | Aarch64 => Ok EM_AARCH64
  | Arm => Ok EM_ARM
  | Mips32 | Mips64 => Ok EM_MIPS
  | Powerpc => Ok EM_PPC
  | Powerpc64 | Powerpc64le => Ok EM_PPC64
  | Riscv32 | Riscv64 => Ok EM_RISCV
  | S390x => Ok EM_S390
  | Sparc => Ok EM_SPARC
  | Sparc64 | Sparcv9 => Ok EM_SPARCV9
  | Msp430 => Ok EM_MSP430
  | Unknown_arch => Ok EM_NONE
  | Hexagon => Panic "goblin does not have EM_HEXAGON yet"
  | Nvptx64 => Panic "nvptx64 does not exist in ELF"
  | AmdGcn => Panic "amdgcn does not exist in ELF"
  | Asmjs => Panic "asm.js does not exist in ELF"
  | Wasm32 => Panic "wasm32 does not exist in ELF"
  | Arch_other name => Panic ("Unknown architecture: " +:+ name)
  end.

(** ** Symbols *)
Inductive SymbolType :=
| ST_Decl (d : DefinedDecl)
| ST_Import
| ST_Section
| ST_File
| ST_None.

Record SymbolBuilder := mkSymbolBuilder {
  sb_name_offset : Z; sb_size : Z; sb_typ : SymbolType; sb_shndx : Z; sb_value : Z
}.

Definition SymbolBuilder_new (typ : SymbolType) : SymbolBuilder :=
  mkSymbolBuilder 0 0 typ 0 0.
Definition SymbolBuilder_from_decl (decl : DefinedDecl) : SymbolBuilder :=
  SymbolBuilder_new (ST_Decl decl).
Definition symbol_size (size : Z) (b : SymbolBuilder) : SymbolBuilder :=
  mkSymbolBuilder (sb_name_offset b) (u64 size) (sb_typ b) (sb_shndx b) (sb_value b).
Definition symbol_name_offset (name_offset : Z) (b : SymbolBuilder) : SymbolBuilder :=
  mkSymbolBuilder name_offset (sb_size b) (sb_typ b) (sb_shndx b) (sb_value b).
Definition section_index {E} (shndx : Z) (b : SymbolBuilder) : outcome E SymbolBuilder :=
  do! debug_assert (shndx <? 2 ^ 32 - 1) "shndx < u32::max_value()" in
  Ok (mkSymbolBuilder (sb_name_offset b) (sb_size b) (sb_typ b) shndx (sb_value b)).
Definition symbol_value (value : Z) (b : SymbolBuilder) : SymbolBuilder :=
  mkSymbolBuilder (sb_name_offset b) (sb_size b) (sb_typ b) (sb_shndx b) value.

Definition scope_stb_flags (s : Scope) : Z :=
  let flag := match s with
              | Scope_Local => STB_LOCAL
              | Scope_Global => STB_GLOBAL
              | Scope_Weak => STB_WEAK
              end in
  u8 (Z.shiftl flag 4).

Definition vis_stother_flags (v : Visibility) : Z :=
  match v with
  | Vis_Default => STV_DEFAULT
  | Vis_Hidden => STV_HIDDEN
  | Vis_Protected => STV_PROTECTED
  end.

(** [SymbolBuilder::create] *)
Definition SymbolBuilder_create (b : SymbolBuilder) : Sym :=
  let '(st_info, st_other, st_shndx) :=
    match sb_typ b with
    | ST_Decl (DD_Function d) =>
        (Z.lor (Z.lor 0 STT_FUNC) (scope_stb_flags (get_scope d)),
         Z.lor 0 (vis_stother_flags (get_visibility d)), sb_shndx b)
    | ST_Decl (DD_Data d) =>
        (Z.lor (Z.lor 0 STT_OBJECT) (scope_stb_flags (get_scope d)),
         Z.lor 0 (vis_stother_flags (get_visibility d)), sb_shndx b)
    | ST_Import => (Z.lor STT_NOTYPE (u8 (Z.shiftl STB_GLOBAL 4)), 0, sb_shndx b)
    | ST_Decl (DD_Section _) | ST_Section =>
        (Z.lor (Z.lor 0 STT_SECTION) (u8 (Z.shiftl STB_LOCAL 4)), 0, sb_shndx b)
    | ST_File => (STT_FILE, 0, SHN_ABS)
    | ST_None => (STT_NOTYPE, 0, sb_shndx b)
    end in
  mkSym (sb_name_offset b) st_info st_other st_shndx (sb_value b) (sb_size b).

(** ** Sections *)
Inductive SectionType :=
| SecNoBits | SecBits | SecData | SecString | SecStrTab | SecSymTab | SecRelocation
| SecSymTabShndx | SecNone.

Record SectionBuilder := mkSectionBuilder {
  sec_typ : SectionType; sec_exec : bool; sec_write : bool; sec_alloc : bool;
  sec_size : Z; sec_name_offset : Z; sec_align : option Z
}.

Definition SectionBuilder_new (size : Z) : SectionBuilder :=
  mkSectionBuilder SecNone false false false size 0 None.
Definition section_exec (x : bool) (b : SectionBuilder) : SectionBuilder :=
  mkSectionBuilder (sec_typ b) x (sec_write b) (sec_alloc b) (sec_size b) (sec_name_offset b)
    (sec_align b).
Definition section_alloc (b : SectionBuilder) : SectionBuilder :=
  mkSectionBuilder (sec_typ b) (sec_exec b) (sec_write b) true (sec_size b) (sec_name_offset b)
    (sec_align b).
Definition section_writable (x : bool) (b : SectionBuilder) : SectionBuilder :=
  mkSectionBuilder (sec_typ b) (sec_exec b) x (sec_alloc b) (sec_size b) (sec_name_offset b)
    (sec_align b).
Definition section_align (x : option Z) (b : SectionBuilder) : SectionBuilder :=
  mkSectionBuilder (sec_typ b) (sec_exec b) (sec_write b) (sec_alloc b) (sec_size b)
    (sec_name_offset b) x.
Definition section_name_offset (x : Z) (b : SectionBuilder) : SectionBuilder :=
  mkSectionBuilder (sec_typ b) (sec_exec b) (sec_write b) (sec_alloc b) (sec_size b) x
    (sec_align b).
Definition section_type (x : SectionType) (b : SectionBuilder) : SectionBuilder :=
  mkSectionBuilder x (sec_exec b) (sec_write b) (sec_alloc b) (sec_size b) (sec_name_offset b)
    (sec_align b).

(** Assignments to single fields of a section header *)
Definition shdr_set_flags x s := mkShdr (sh_name s) (sh_type s) x (sh_offset s) (sh_size s)
  (sh_link s) (sh_info s) (sh_addralign s) (sh_entsize s).
Definition shdr_set_offset x s := mkShdr (sh_name s) (sh_type s) (sh_flags s) x (sh_size s)
  (sh_link s) (sh_info s) (sh_addralign s) (sh_entsize s).
Definition shdr_set_size x s := mkShdr (sh_name s) (sh_type s) (sh_flags s) (sh_offset s) x
  (sh_link s) (sh_info s) (sh_addralign s) (sh_entsize s).
Definition shdr_set_link x s := mkShdr (sh_name s) (sh_type s) (sh_flags s) (sh_offset s)
  (sh_size s) x (sh_info s) (sh_addralign s) (sh_entsize s).
Definition shdr_set_info x s := mkShdr (sh_name s) (sh_type s) (sh_flags s) (sh_offset s)
  (sh_size s) (sh_link s) x (sh_addralign s) (sh_entsize s).
Definition shdr_set_name x s := mkShdr x (sh_type s) (sh_flags s) (sh_offset s)
  (sh_size s) (sh_link s) (sh_info s) (sh_addralign s) (sh_entsize s).
Definition shdr_set_type x s := mkShdr (sh_name s) x (sh_flags s) (sh_offset s)
  (sh_size s) (sh_link s) (sh_info s) (sh_addralign s) (sh_entsize s).
Definition shdr_set_addralign x s := mkShdr (sh_name s) (sh_type s) (sh_flags s) (sh_offset s)
  (sh_size s) (sh_link s) (sh_info s) x (sh_entsize s).
Definition shdr_set_entsize x s := mkShdr (sh_name s) (sh_type s) (sh_flags s) (sh_offset s)
  (sh_size s) (sh_link s) (sh_info s) (sh_addralign s) x.

(** [SectionBuilder::create] *)
Definition SectionBuilder_create (b : SectionBuilder) (ctx : Ctx) : SectionHeader :=
  let shdr := shdr_default in
  let shdr := shdr_set_flags 0 shdr in
  let shdr := shdr_set_size (sec_size b) shdr in
  let shdr := shdr_set_name (sec_name_offset b) shdr in
  let flag (c : bool) f s := if c then shdr_set_flags (Z.lor (sh_flags s) f) s else s in
  let shdr := flag (sec_exec b) SHF_EXECINSTR shdr in
  let shdr := flag (sec_write b) SHF_WRITE shdr in
  let shdr := flag (sec_alloc b) SHF_ALLOC shdr in
  let align := match sec_align b with
               | Some align => align
               | None => if sec_exec b then 16 else if sec_write b then 8 else 1
               end in
  match sec_typ b with
  | SecBits => shdr_set_type SHT_PROGBITS (shdr_set_addralign align shdr)
  | SecString =>
      flag true (Z.lor SHF_MERGE SHF_STRINGS)
        (shdr_set_type SHT_PROGBITS (shdr_set_addralign align shdr))
  | SecData => shdr_set_type SHT_PROGBITS (shdr_set_addralign align shdr)
  | SecStrTab => shdr_set_type SHT_STRTAB (shdr_set_addralign 1 shdr)
  | SecSymTab =>
      shdr_set_type SHT_SYMTAB (shdr_set_addralign 8
        (shdr_set_entsize (sym_size (container ctx)) shdr))
  | SecRelocation =>
      shdr_set_type SHT_RELA (shdr_set_flags 0 (shdr_set_addralign 8
        (shdr_set_entsize (reloc_size true ctx) shdr)))
  | SecSymTabShndx =>
      shdr_set_type SHT_SYMTAB_SHNDX (shdr_set_addralign 4 (shdr_set_entsize 4 shdr))
  | SecNoBits => flag true (Z.lor SHF_WRITE SHF_ALLOC) (shdr_set_type SHT_NOBITS shdr)
  | SecNone => shdr_set_type SHT_NULL shdr
  end.

(** ** Relocations *)
Record RelocationBuilder := mkRelocationBuilder {
  rb_addend : option Z; rb_sym_idx : Z; rb_offset : Z; rb_typ : Z
}.

Definition RelocationBuilder_new (typ : Z) : RelocationBuilder :=
  mkRelocationBuilder (Some 0) 0 0 typ.
Definition reloc_rel (b : RelocationBuilder) : RelocationBuilder :=
  mkRelocationBuilder None (rb_sym_idx b) (rb_offset b) (rb_typ b).
Definition reloc_addend (x : Z) (b : RelocationBuilder) : RelocationBuilder :=
  mkRelocationBuilder (Some x) (rb_sym_idx b) (rb_offset b) (rb_typ b).
Definition reloc_offset (x : Z) (b : RelocationBuilder) : RelocationBuilder :=
  mkRelocationBuilder (rb_addend b) (rb_sym_idx b) x (rb_typ b).
Definition reloc_sym (x : Z) (b : RelocationBuilder) : RelocationBuilder :=
  mkRelocationBuilder (rb_addend b) x (rb_offset b) (rb_typ b).
Definition RelocationBuilder_create (b : RelocationBuilder) : ElfReloc :=
  mkElfReloc (rb_offset b) (rb_addend b) (rb_sym_idx b) (rb_typ b).
End ElfBuild.
