(* ===== verification/ElfState.v ===== *)
(** * The ELF object under construction ([src/elf.rs], [struct Elf])

    [Elf_new], [add_definition], [import], [link] and the helpers they share.
    The name tables keep, for every string, its identifier in [e_strings] and
    its byte offset in the string table to be written. *)

From stdpp Require Import base numbers list gmap strings.
From Stdlib Require Import ZArith Lia Strings.Byte.
From S2P Require Import Prelude Std External Decl Artifact Target ElfBuild.

Record SectionInfo := mkSectionInfo {
  si_header : SectionHeader; si_symbol : Sym; si_name : Z
}.

Record Elf {SI : StringInterner} {IM : IndexMapOps} := mkElf {
  e_name : string;
  e_code : IndexMap Z (list byte);
  e_relocations : IndexMap Z (SectionHeader * list ElfReloc);
  e_symbols : IndexMap Z Sym;
  e_special_symbols : list Sym;
  e_imports : gmap Z ImportKind;
  e_sections : IndexMap Z SectionInfo;
  e_offsets : gmap Z Z;
  e_sizeof_strtab : Z;
  e_strings : si_t;
  e_sizeof_bits : Z;
  e_nsections : Z;
  e_ctx : Ctx;
  e_architecture : Architecture;
  e_nlocals : Z
}.
Arguments mkElf {SI IM} _ _ _ _ _ _ _ _ _ _ _ _ _ _ _.

Definition STRTAB_LINK : Z := 1.
Definition SYMTAB_LINK : Z := 2.

Section Elf.
Context {TL : TargetLexicon} {SI : StringInterner} {IM : IndexMapOps}.
Context {G : GoblinElf} {P : Profile}.
Implicit Types (e : Elf).

(** Field updates *)
Definition set_code x e := mkElf (e_name e) x (e_relocations e) (e_symbols e)
  (e_special_symbols e) (e_imports e) (e_sections e) (e_offsets e) (e_sizeof_strtab e)
  (e_strings e) (e_sizeof_bits e) (e_nsections e) (e_ctx e) (e_architecture e) (e_nlocals e).
Definition set_relocations x e := mkElf (e_name e) (e_code e) x (e_symbols e)
  (e_special_symbols e) (e_imports e) (e_sections e) (e_offsets e) (e_sizeof_strtab e)
  (e_strings e) (e_sizeof_bits e) (e_nsections e) (e_ctx e) (e_architecture e) (e_nlocals e).
Definition set_symbols x e := mkElf (e_name e) (e_code e) (e_relocations e) x
  (e_special_symbols e) (e_imports e) (e_sections e) (e_offsets e) (e_sizeof_strtab e)
  (e_strings e) (e_sizeof_bits e) (e_nsections e) (e_ctx e) (e_architecture e) (e_nlocals e).
Definition set_elf_imports x e := mkElf (e_name e) (e_code e) (e_relocations e) (e_symbols e)
  (e_special_symbols e) x (e_sections e) (e_offsets e) (e_sizeof_strtab e)
  (e_strings e) (e_sizeof_bits e) (e_nsections e) (e_ctx e) (e_architecture e) (e_nlocals e).
Definition set_sections x e := mkElf (e_name e) (e_code e) (e_relocations e) (e_symbols e)
  (e_special_symbols e) (e_imports e) x (e_offsets e) (e_sizeof_strtab e)
  (e_strings e) (e_sizeof_bits e) (e_nsections e) (e_ctx e) (e_architecture e) (e_nlocals e).
Definition set_strtab strings offsets size e := mkElf (e_name e) (e_code e) (e_relocations e)
  (e_symbols e) (e_special_symbols e) (e_imports e) (e_sections e) offsets size
  strings (e_sizeof_bits e) (e_nsections e) (e_ctx e) (e_architecture e) (e_nlocals e).
Definition set_sizeof_bits x e := mkElf (e_name e) (e_code e) (e_relocations e) (e_symbols e)
  (e_special_symbols e) (e_imports e) (e_sections e) (e_offsets e) (e_sizeof_strtab e)
  (e_strings e) x (e_nsections e) (e_ctx e) (e_architecture e) (e_nlocals e).
Definition set_nsections x e := mkElf (e_name e) (e_code e) (e_relocations e) (e_symbols e)
  (e_special_symbols e) (e_imports e) (e_sections e) (e_offsets e) (e_sizeof_strtab e)
  (e_strings e) (e_sizeof_bits e) x (e_ctx e) (e_architecture e) (e_nlocals e).
Definition set_nlocals x e := mkElf (e_name e) (e_code e) (e_relocations e) (e_symbols e)
  (e_special_symbols e) (e_imports e) (e_sections e) (e_offsets e) (e_sizeof_strtab e)
  (e_strings e) (e_sizeof_bits e) (e_nsections e) (e_ctx e) (e_architecture e) x.

(** ** [Elf::new] *)

(** The closure [push_strtab] of [Elf::new]: the tables after it and the
    offset.  It does not look whether the string is already there. *)
Definition push_strtab (st : si_t * gmap Z Z * Z) (name : string) : si_t * gmap Z Z * Z * Z :=
  let '(strings, offsets, sizeof_strtab) := st in
  let size := str_len name + 1 in
  let '(strings, idx) := si_get_or_intern strings name in
  let offset := sizeof_strtab in
  (strings, <[idx := offset]> offsets, u64 (sizeof_strtab + size), offset).

Definition Elf_new (artifact : Artifact) : Elf :=
  let ctx := make_ctx (a_target artifact) in
  let '(st, _) := push_strtab (si_new, ∅, 1) ".strtab" in
  let '(st, _) := push_strtab st ".symtab" in
  let '(st, offset) := push_strtab st (a_name artifact) in
  let '(strings, offsets, sizeof_strtab) := st in
  let special_symbols :=
    [sym_default;
     SymbolBuilder_create (symbol_name_offset offset (SymbolBuilder_new ST_File))] in
  mkElf (a_name artifact) im_new im_new im_new special_symbols ∅ im_new offsets sizeof_strtab
    strings (header_size ctx) 4 ctx (architecture (a_target artifact)) 0.

(** ** [new_string]: the identifier and the string-table offset of a name *)
Definition new_string e (name : string) : Elf * Z * Z :=
  let size := str_len name + 1 in
  let '(strings, idx) := si_get_or_intern (e_strings e) name in
  match e_offsets e !! idx with
  | Some offset => (set_strtab strings (e_offsets e) (e_sizeof_strtab e) e, idx, offset)
  | None =>
      let offset := e_sizeof_strtab e in
      (set_strtab strings (<[idx := offset]> (e_offsets e)) (u64 (e_sizeof_strtab e + size)) e,
       idx, offset)
  end.

Definition section_type_for_data (typ : DataType) (zero_init : bool) : SectionType :=
  if zero_init then SecNoBits
  else match typ with
       | DT_Bytes => SecData
       | DT_String => SecString
       end.

(** ** [add_section], [add_progbits] *)
Definition add_section {E} e (name : string) (section : SectionBuilder) :
  outcome E (Elf * Z * Z) :=
  let '(e, idx, offset) := new_string e name in
  let shndx := u64 (im_len (e_sections e) + 3) in
  let! sb := section_index shndx (SymbolBuilder_new ST_Section) in
  let section_symbol := SymbolBuilder_create sb in
  let section := SectionBuilder_create (section_name_offset offset section) (e_ctx e) in
  let section := shdr_set_offset (e_sizeof_bits e) section in
  let e := set_sections (im_insert idx (mkSectionInfo section section_symbol idx) (e_sections e)) e in
  let e := set_nsections (u32 (e_nsections e + 1)) e in
  Ok (e, idx, shndx).

Definition add_progbits {E} e (name : string) (section : SectionBuilder) (data : list byte) :
  outcome E (Elf * Z) :=
  let! '(e, idx, shndx) := add_section e name section in
  let e := set_sizeof_bits (u64 (e_sizeof_bits e + zlen data)) e in
  let e := set_code (im_insert idx data (e_code e)) e in
  Ok (e, shndx).

(** ** [add_definition] *)
Definition section_name {E} (def : Definition_) : outcome E string :=
  match d_data def, d_decl def with
  | Blob _, DD_Function _ => Ok (".text." +:+ d_name def)
  | ZeroInit _, DD_Function _ => Panic "cannot define function as zero-init"
  | Blob _, DD_Data decl =>
      Ok ("." +:+ (if DataDecl_is_writable decl then "data" else "rodata") +:+ "." +:+ d_name def)
  | ZeroInit _, DD_Data _ => Ok (".bss." +:+ d_name def)
  | _, DD_Section _ => Ok (d_name def)
  end.

Definition definition_section (def : Definition_) : SectionBuilder :=
  let def_size := u64 (file_size (d_data def)) in
  match d_decl def with
  | DD_Function d =>
      section_align (get_align d) (section_exec true (section_writable false (section_alloc
        (section_type SecBits (SectionBuilder_new def_size)))))
  | DD_Data d =>
      section_align (get_align d) (section_exec false (section_writable (DataDecl_is_writable d)
        (section_alloc (section_type
          (section_type_for_data (get_datatype d) (is_zero_init (d_data def)))
          (SectionBuilder_new def_size)))))
  | DD_Section d =>
      section_align (get_align d) (section_type
        (if bool_decide (d_name def = ".debug_str"%string) ||
            bool_decide (d_name def = ".debug_line_str"%string)
         then SecString
         else section_type_for_data (get_datatype d) (is_zero_init (d_data def)))
        (SectionBuilder_new def_size))
  end.

(** The loop over the custom symbols of a section. *)
Definition add_section_symbols {E} e (shndx : Z) (symbols : BTreeMap string Z) : outcome E Elf :=
  ofold (fun e '(symbol, symbol_dst_offset) =>
    let '(e, idx, offset) := new_string e symbol in
    let! sb := section_index shndx (symbol_name_offset offset (SymbolBuilder_new ST_None)) in
    let sym := SymbolBuilder_create (symbol_value symbol_dst_offset sb) in
    Ok (set_symbols (im_insert idx sym (e_symbols e)) e)) e symbols.

Definition add_definition {E} e (def : Definition_) : outcome E Elf :=
  let decl := d_decl def in
  let def_size := file_size (d_data def) in
  let! section_name := section_name def in
  let section := definition_section def in
  let! '(e, shndx) :=
    match d_data def with
    | Blob bytes => add_progbits e section_name section bytes
    | ZeroInit _ =>
        let! '(e, _, shndx) := add_section e section_name section in Ok (e, shndx)
    end in
  match decl with
  | DD_Function _ | DD_Data _ =>
      let '(e, idx, offset) := new_string e (d_name def) in
      let! sb := section_index shndx
        (symbol_name_offset offset (symbol_size def_size (SymbolBuilder_from_decl decl))) in
      let symbol := SymbolBuilder_create sb in
      let e := set_symbols (im_insert idx symbol (e_symbols e)) e in
      Ok (if negb (is_global decl) then set_nlocals (u64 (e_nlocals e + 1)) e else e)
  | DD_Section _ => add_section_symbols e shndx (d_symbols def)
  end.

(** ** [import] *)
Definition elf_import e (import : string) (kind : ImportKind) : Elf :=
  let '(e, idx, offset) := new_string e import in
  let symbol := SymbolBuilder_create (symbol_name_offset offset (SymbolBuilder_new ST_Import)) in
  let e := set_elf_imports (<[idx := kind]> (e_imports e)) e in
  set_symbols (im_insert idx symbol (e_symbols e)) e.

(** ** [link], [add_reloc] *)

(** Symbol-table index and section index of one end of a link. *)
Definition link_end {E} e (b : Binding) (in_sections in_symbols : string) :
  outcome E (Elf * Z * Z) :=
  let '(strings, idx) := si_get_or_intern (e_strings e) (b_name b) in
  let e := set_strtab strings (e_offsets e) (e_sizeof_strtab e) e in
  let nspecial := zlen (e_special_symbols e) in
  if is_section (b_decl b) then
    let! '(i, _, _) := expect (im_get_full (e_sections e) idx) in_sections in
    Ok (e, u64 (i + nspecial), u64 (i + 3))
  else
    let! '(i, _, symbol) := expect (im_get_full (e_symbols e) idx) in_symbols in
    Ok (e, u64 (i + nspecial + im_len (e_sections e)), st_shndx symbol).

(** The relocation type and addend of a link. *)
Definition link_reloc {E} (ctx : Ctx) (l : LinkAndDecl) : outcome E (Z * Z) :=
  match l_reloc l with
  | Auto =>
      match b_decl (l_from l) with
      | Defined (DD_Function _) =>
          match b_decl (l_to l) with
          | Defined (DD_Function _) | Import IK_Function => Ok (R_X86_64_PLT32, -4)
          | Defined (DD_Data _) => Ok (R_X86_64_PC32, -4)
          | Import IK_Data => Ok (R_X86_64_GOTPCREL, -4)
          | _ => Panic "unsupported relocation"
          end
      | Defined (DD_Data _) =>
          if ctx_is_big ctx then Ok (R_X86_64_64, 0) else Ok (R_X86_64_32, 0)
      | _ => Panic "unsupported relocation"
      end
  | Raw reloc addend => Ok (reloc, addend)
  | Debug size addend =>
      if size =? 4 then Ok (R_X86_64_32, addend)
      else if size =? 8 then Ok (R_X86_64_64, addend)
      else Panic "unsupported relocation"
  end.

Definition add_reloc {E} e (reloc : ElfReloc) (shndx : Z) : outcome E Elf :=
  let reloc_size := reloc_size (match r_addend reloc with Some _ => true | None => false end)
                      (e_ctx e) in
  match im_get (e_relocations e) shndx with
  | Some _ =>
      Ok (set_relocations (im_modify (fun '(section, relocs) =>
            (shdr_set_size (u64 (sh_size section + sh_entsize section)) section,
             relocs ++ [reloc])) shndx (e_relocations e)) e)
  | None =>
      let! '(_, section) := expect (im_get_index (e_sections e) (u64 (shndx - 3)))
                              "shndx present in sections" in
      let! section_name := expect (si_resolve (e_strings e) (si_name section))
                             "section name in strings" in
      let reloc_name := (".rela" +:+ section_name)%string in
      let '(e, _, reloc_section_offset) := new_string e reloc_name in
      let reloc_section := SectionBuilder_create (section_type SecRelocation
        (section_name_offset reloc_section_offset (SectionBuilder_new reloc_size))) (e_ctx e) in
      let reloc_section := shdr_set_link SYMTAB_LINK reloc_section in
      let reloc_section := shdr_set_info (u32 shndx) reloc_section in
      let reloc_section :=
        shdr_set_flags (Z.lor (sh_flags reloc_section) SHF_INFO_LINK) reloc_section in
      let e := set_relocations
                 (im_insert shndx (reloc_section, [reloc]) (e_relocations e)) e in
      Ok (set_nsections (u32 (e_nsections e + 1)) e)
  end.

Definition elf_link {E} e (l : LinkAndDecl) : outcome E Elf :=
  let! '(e, to_idx, to_shndx) :=
    link_end e (l_to l) "to_idx present in sections" "to_idx present in symbols" in
  let! '(e, from_idx, from_shndx) :=
    link_end e (l_from l) "from_idx present in sections" "from_idx present in symbols" in
  let! '(reloc, addend) := link_reloc (e_ctx e) l in
  let sym_idx := match b_decl (l_to l) with
                 | Defined _ => u64 (u64 (to_shndx - 3) + zlen (e_special_symbols e))
                 | Import _ => to_idx
                 end in
  let reloc := RelocationBuilder_create (reloc_addend addend (reloc_offset (l_at l)
                 (reloc_sym sym_idx (RelocationBuilder_new reloc)))) in
  add_reloc e reloc from_shndx.
End Elf.
