(* ===== verification/ElfWrite.v ===== *)
(** * Writing the ELF object ([src/elf.rs], [Elf::write] and [to_bytes])

    [write] is split where the source has its banner comments: the offsets,
    the header, the code, the string table, the symbol table, the relocations
    and the section headers.  Every [assert_eq!] on the position in the file is
    an [assert_] of the model. *)

From stdpp Require Import base numbers list gmap strings.
From Stdlib Require Import ZArith Lia Strings.Byte.
From S2P Require Import Prelude Std External Decl Artifact Target ElfBuild ElfState.

(** [Elf::align] *)
Definition align (offset sizeof_t : Z) : Z :=
  let alignment := offset mod sizeof_t in
  if negb (alignment =? 0) then u64 (offset + (sizeof_t - alignment)) else offset.

(** The values computed before anything is written. *)
Record Layout := mkLayout {
  lo_symbol_count : Z; lo_sizeof_symtab : Z;
  lo_need_shndx : bool; lo_sizeof_shndx : Z; lo_shndx_name : Z;
  lo_sizeof_relocs : Z; lo_note_name : Z;
  lo_strtab : Z; lo_symtab : Z; lo_shndx : Z; lo_reloc : Z; lo_sh : Z
}.

Section ElfWrite.
Context {TL : TargetLexicon} {SI : StringInterner} {IM : IndexMapOps}.
Context {G : GoblinElf} {SC : Scroll} {P : Profile}.
Implicit Types (e : Elf).

(** ** Compute offsets *)
Definition compute_offsets e : Elf * Layout :=
  let symbol_count :=
    u64 (im_len (e_symbols e) + zlen (e_special_symbols e) + im_len (e_sections e)) in
  let sizeof_symtab := u64 (symbol_count * sym_size (container (e_ctx e))) in
  let '(e, sizeof_symtab_shndx, symtab_shndx_name_offset, need_symtab_shndx) :=
    if SHN_LORESERVE <=? e_nsections e then
      let e := set_nsections (u32 (e_nsections e + 1)) e in
      let '(e, _, off) := new_string e ".symtab_shndx" in
      (e, u64 (symbol_count * 4), off, true)
    else (e, 0, 0, false) in
  let sizeof_relocs :=
    u64 (fold_left (fun acc '(_, (_, rels)) => zlen rels + acc) (im_iter (e_relocations e)) 0
         * reloc_size true (e_ctx e)) in
  let '(e, _, nonexec_stack_note_name_offset) := new_string e ".note.GNU-stack" in
  let strtab_offset := e_sizeof_bits e in
  let symtab_offset := u64 (strtab_offset + e_sizeof_strtab e) in
  let symtab_align := ctx_size (e_ctx e) in
  let symtab_offset := align symtab_offset symtab_align in
  let symtab_shndx_offset := u64 (symtab_offset + sizeof_symtab) in
  let symtab_shndx_offset :=
    if need_symtab_shndx then align symtab_shndx_offset 4 else symtab_shndx_offset in
  let reloc_offset := u64 (symtab_shndx_offset + sizeof_symtab_shndx) in
  let reloc_offset := align reloc_offset (ctx_size (e_ctx e)) in
  let sh_offset := u64 (reloc_offset + sizeof_relocs) in
  let sh_offset := align sh_offset (ctx_size (e_ctx e)) in
  (e, mkLayout symbol_count sizeof_symtab need_symtab_shndx sizeof_symtab_shndx
        symtab_shndx_name_offset sizeof_relocs nonexec_stack_note_name_offset
        strtab_offset symtab_offset symtab_shndx_offset reloc_offset sh_offset).

(** ** Header: [Header::new(ctx)] with the fields the record keeps, all of which
    are assigned; the others are a function of the context. *)
Definition build_header {E} e (lo : Layout) : outcome E Header :=
  let! machine := MachineTag_from (e_architecture e) in
  Ok (mkHeader ET_REL machine (lo_sh lo)
        (if SHN_LORESERVE <=? e_nsections e then 0 else u16 (e_nsections e)) STRTAB_LINK).

(** ** Init sections: the null section, [.strtab] and [.symtab] *)
Definition init_sections {E} e (lo : Layout) : outcome E (list SectionHeader) :=
  let null := if SHN_LORESERVE <=? e_nsections e
              then shdr_set_size (e_nsections e) shdr_default else shdr_default in
  let! offset := expect (e_offsets e !! 0) "unwrap" in
  let strtab := SectionBuilder_create (section_type SecStrTab (section_name_offset offset
                  (SectionBuilder_new (e_sizeof_strtab e)))) (e_ctx e) in
  let strtab := shdr_set_offset (lo_strtab lo) strtab in
  let! offset := expect (e_offsets e !! 1) "unwrap" in
  let symtab := SectionBuilder_create (section_type SecSymTab (section_name_offset offset
                  (SectionBuilder_new (lo_sizeof_symtab lo)))) (e_ctx e) in
  let symtab := shdr_set_offset (lo_symtab lo) symtab in
  let symtab := shdr_set_link 1 symtab in
  let symtab := shdr_set_info
    (u32 (u64 (zlen (e_special_symbols e) + im_len (e_sections e) + e_nlocals e))) symtab in
  Ok [null; strtab; symtab].

(** ** Strtab *)
Definition write_strtab e (c : Cursor) : Cursor :=
  fold_left (fun c '(_, string) => write_all [x00] (write_all (bytes_of string) c))
    (si_iter (e_strings e)) (write_all [x00] c).

(** ** Symtab *)

(** The section index as the symbol table can hold it. *)
Definition clamp_shndx (sym : Sym) : Sym :=
  if SHN_LORESERVE <=? st_shndx sym
  then mkSym (st_name sym) (st_info sym) (st_other sym) SHN_XINDEX (st_value sym) (st_size sym)
  else sym.

(** One symbol: its section index into [.symtab_shndx], the symbol, with the
    index clamped or not, into the file. *)
Definition write_symbol {E} e (need : bool) (clamp : bool) (msg : string)
  (st : Cursor * (list byte * Z)) (sym : Sym) : outcome E (Cursor * (list byte * Z)) :=
  let '(c, data) := st in
  let! data :=
    if need then expect (gwrite data (ser_u32 (u32 (st_shndx sym)) (le (e_ctx e)))) msg
    else Ok data in
  let sym := if clamp then clamp_shndx sym else sym in
  Ok (write_all (ser_sym sym (e_ctx e)) c, data).

(** The loops over the special symbols, the sections and the symbols. *)
Definition write_symbols {E} e (need : bool) (data : list byte) (c : Cursor) :
  outcome E (Cursor * list byte) :=
  let! st := ofold (write_symbol e need false
                      "preallocated shndx vector has enough space for special symbols")
               (c, (data, 0)) (e_special_symbols e) in
  let! st := ofold (fun st '(_, section) =>
                      write_symbol e need true
                        "preallocated shndx vector has enough space for sections"
                        st (si_symbol section))
               st (im_iter (e_sections e)) in
  let! '(c, (data, _)) := ofold (fun st '(_, symbol) =>
                      write_symbol e need true
                        "preallocated shndx vector has enough space for symbols" st symbol)
               st (im_iter (e_symbols e)) in
  Ok (c, data).

(** The header of [.symtab_shndx]. *)
Definition symtab_shndx_section e (lo : Layout) : SectionHeader :=
  let section := SectionBuilder_create (section_type SecSymTabShndx
    (section_name_offset (lo_shndx_name lo) (SectionBuilder_new (lo_sizeof_shndx lo)))) (e_ctx e) in
  shdr_set_offset (lo_shndx lo) (shdr_set_link 2 section).

Definition write_symtab {E} e (lo : Layout) (c : Cursor) (headers : list SectionHeader) :
  outcome E (Cursor * list SectionHeader) :=
  let need := lo_need_shndx lo in
  let data := if need then replicate (Z.to_nat (u64 (lo_symbol_count lo * 4))) x00 else [] in
  let c := seek_start (lo_symtab lo) c in
  let! '(c, data) := write_symbols e need data c in
  let headers := headers ++ ((fun '(_, section) => si_header section) <$> im_iter (e_sections e)) in
  if need then
    do! assert_ (align (stream_position c) 4 =? lo_shndx lo) "after_symtab" in
    let c := write_all data (seek_start (lo_shndx lo) c) in
    Ok (c, headers ++ [symtab_shndx_section e lo])
  else Ok (c, headers).

(** ** Relocations *)

(** The body of the loop over the relocation sections. *)
Definition write_reloc_section e (st : Cursor * Z * list SectionHeader)
  (entry : Z * (SectionHeader * list ElfReloc)) : Cursor * Z * list SectionHeader :=
  let '(c, roffset, headers) := st in
  let '(_, (section, relocations)) := entry in
  let section := shdr_set_offset roffset section in
  let roffset := u64 (roffset + sh_size section) in
  let c := fold_left (fun c relocation =>
             write_all (ser_reloc relocation
               (match r_addend relocation with Some _ => true | None => false end, e_ctx e)) c)
           relocations c in
  (c, roffset, headers ++ [section]).

Definition write_relocations e (lo : Layout) (c : Cursor) (headers : list SectionHeader) :
  Cursor * list SectionHeader :=
  let '(c, _, headers) :=
    fold_left (write_reloc_section e) (im_iter (e_relocations e))
      (seek_start (lo_reloc lo) c, lo_reloc lo, headers) in
  (c, headers).

(** ** Non-executable stack note *)
Definition nonexec_stack e (lo : Layout) : SectionHeader :=
  SectionBuilder_create (section_type SecBits
    (section_name_offset (lo_note_name lo) (SectionBuilder_new 0))) (e_ctx e).

(** ** Sections *)
Definition write_section_headers {E} e (lo : Layout) (c : Cursor) (headers : list SectionHeader) :
  outcome E Cursor :=
  let shdr_size_total := u64 (zlen headers * shdr_size (e_ctx e)) in
  let c := fold_left (fun c shdr => write_all (ser_shdr shdr (e_ctx e)) c) headers
             (seek_start (lo_sh lo) c) in
  do! assert_ (stream_position c =? u64 (lo_sh lo + shdr_size_total)) "after_shdrs" in
  Ok c.

(** What follows the symbol table. *)
Definition write_after_symtab {E} e (lo : Layout) (c : Cursor) (headers : list SectionHeader) :
  outcome E (list byte) :=
  do! assert_ (align (stream_position c) (ctx_size (e_ctx e)) =? lo_reloc lo)
        "after_symtab_shndx" in
  let '(c, headers) := write_relocations e lo c headers in
  do! assert_ (align (stream_position c) (ctx_size (e_ctx e)) =? lo_sh lo) "after_relocs" in
  let headers := headers ++ [nonexec_stack e lo] in
  let! c := write_section_headers e lo c headers in
  Ok (cur_buf c).

(** ** Code *)
Definition write_code e (c : Cursor) : Cursor :=
  fold_left (fun c '(_, bytes) => write_all bytes c) (im_iter (e_code e)) c.

(** ** [Elf::write] *)
Definition write {E} e : outcome E (list byte) :=
  let c := Cursor_new in
  let '(e, lo) := compute_offsets e in
  let! header := build_header e lo in
  let c := write_all (ser_header header (e_ctx e)) c in
  do! assert_ (stream_position c =? header_size (e_ctx e)) "after_header" in
  let c := write_code e c in
  do! assert_ (stream_position c =? lo_strtab lo) "after_code" in
  let! headers := init_sections e lo in
  let c := write_strtab e (seek_start (lo_strtab lo) c) in
  do! assert_ (align (stream_position c) (ctx_size (e_ctx e)) =? lo_symtab lo) "after_strtab" in
  let! '(c, headers) := write_symtab e lo c headers in
  write_after_symtab e lo c headers.

(** The object before it is written. *)
Definition build {E} (artifact : Artifact) : outcome E Elf :=
  let elf := Elf_new artifact in
  let! elf := ofold (fun elf def => let! def := def in add_definition elf def)
                elf (definitions artifact) in
  let! elf := ofold (fun elf import => let! '(import, kind) := import in
                                       Ok (elf_import elf import kind))
                elf (imports artifact) in
  ofold (fun elf link => let! link := link in elf_link elf link) elf (links artifact).

(** [elf::to_bytes] *)
Definition to_bytes (artifact : Artifact) : outcome goblin_error (list byte) :=
  let! elf := build artifact in
  write elf.
End ElfWrite.
