(* ===== verification/ElfRepr.v ===== *)
(** * What an [Elf] value stands for

    [AbsElf] is an object file without a string table: sections and symbols
    carry their names, relocations the index of the section they patch.
    [repr g e] says that the [Elf] value [e] stands for [g]: the string table
    of [e] holds every name once, at the recorded offset, and the sizes the
    backend keeps are those of the tables.  This file proves that each
    operation of [ElfState.v] does on [e] what it should do on [g]. *)

From stdpp Require Import base numbers list gmap strings.
From Stdlib Require Import ZArith Lia Strings.Byte.
From S2P Require Import Prelude Std External Decl Artifact ArtifactInv Target ElfBuild ElfState.

(** ** String tables *)

(** The table: a zero byte, then every string with a terminating zero. *)
Definition strtab_bytes (l : list string) : list byte :=
  x00 :: concat ((fun s => bytes_of s ++ [x00]) <$> l).

Definition strtab_len (l : list string) : Z := 1 + zsum ((fun s => str_len s + 1) <$> l).

(** Where string number [i] starts. *)
Definition strtab_pos (l : list string) (i : Z) : Z := strtab_len (take (Z.to_nat i) l).

Lemma strtab_bytes_len l : zlen (strtab_bytes l) = strtab_len l.
Proof.
  unfold strtab_bytes, strtab_len. rewrite zlen_cons, zlen_concat. f_equal.
  induction l as [|s l IH]; cbn; [done|]. rewrite zlen_app, str_len_bytes, IH. done.
Qed.

Lemma strtab_len_snoc l s : strtab_len (l ++ [s]) = strtab_len l + (str_len s + 1).
Proof. unfold strtab_len. rewrite fmap_app, zsum_app. cbn. lia. Qed.

Lemma strtab_pos_app l k i : 0 ≤ i < zlen l → strtab_pos (l ++ k) i = strtab_pos l i.
Proof. intros H. unfold strtab_pos. rewrite take_app_le; [done|]. unfold zlen in H. lia. Qed.

Lemma strtab_pos_end l k : strtab_pos (l ++ k) (zlen l) = strtab_len l.
Proof.
  unfold strtab_pos, zlen. rewrite Nat2Z.id, take_app_le by lia. by rewrite take_ge by lia.
Qed.

Record strtab_ok (strs : list string) (offsets : gmap Z Z) (size : Z) : Prop := {
  so_nodup : NoDup strs;
  so_offsets : ∀ i s, zget strs i = Some s → offsets !! i = Some (u64 (strtab_pos strs i));
  so_dom : ∀ i o, offsets !! i = Some o → 0 ≤ i < zlen strs;
  so_size : size = u64 (strtab_len strs)
}.

Lemma strtab_ok_push strs offsets size n :
  strtab_ok strs offsets size → n ∉ strs →
  strtab_ok (strs ++ [n]) (<[zlen strs := size]> offsets) (u64 (size + (str_len n + 1))).
Proof.
  intros [Hnd Hoff Hdom Hsz] Hn. split.
  - by apply NoDup_snoc.
  - intros i s Hi. apply zget_range in Hi as Hr. autorewrite with zlen in Hr.
    rewrite lookup_insert. case_decide as Hd.
    + subst i. by rewrite strtab_pos_end, Hsz.
    + rewrite strtab_pos_app by lia. apply Hoff with s.
      destruct (zget_in_range strs i) as [s' Hs']; [lia|].
      rewrite (zget_app_l _ [n] _ _ Hs') in Hi. congruence.
  - intros i o. rewrite lookup_insert. autorewrite with zlen. pose proof (zlen_nonneg strs).
    case_decide; [lia|]. intros Ho. apply Hdom in Ho. lia.
  - rewrite strtab_len_snoc, Hsz. apply wrap_add_l.
Qed.

(** [n] is in the table as string [k], at offset [off]. *)
Definition name_ref (strs : list string) (n : string) (k off : Z) : Prop :=
  zget strs k = Some n ∧ off = u64 (strtab_pos strs k).

Lemma name_ref_app strs l n k off : name_ref strs n k off → name_ref (strs ++ l) n k off.
Proof.
  intros [Hz ->]. split; [by apply zget_app_l|].
  apply zget_range in Hz. by rewrite strtab_pos_app.
Qed.

Lemma name_ref_inj strs n k k' off off' :
  NoDup strs → name_ref strs n k off → name_ref strs n k' off' → k = k' ∧ off = off'.
Proof.
  intros Hnd [H1 ->] [H2 ->]. pose proof (index_of_get_NoDup _ _ _ Hnd H1).
  pose proof (index_of_get_NoDup _ _ _ Hnd H2). split; congruence.
Qed.

(** ** Abstract objects *)
Record AbsSection := mkAbsSection {
  as_name : string; as_builder : SectionBuilder; as_offset : Z
}.

Record AbsElf := mkAbsElf {
  g_secs : list AbsSection;
  g_syms : list (string * SymbolBuilder);
  g_code : list (list byte);
  g_rels : list (Z * list ElfReloc);
  g_locals : Z
}.

Section Repr.
Context {SI : StringInterner} {IM : IndexMapOps} {G : GoblinElf}.

(** The header and section symbol of section number [i]. *)
Definition section_repr (ctx : Ctx) (strs : list string) (i : Z) (s : AbsSection)
  (p : Z * SectionInfo) : Prop :=
  ∃ off, name_ref strs (as_name s) p.1 off ∧
  p.2 = mkSectionInfo
    (shdr_set_offset (u64 (as_offset s))
       (SectionBuilder_create (section_name_offset off (as_builder s)) ctx))
    (SymbolBuilder_create (mkSymbolBuilder 0 0 ST_Section (i + 3) 0)) p.1.

Definition symbol_repr (strs : list string) (s : string * SymbolBuilder) (p : Z * Sym) : Prop :=
  ∃ off, name_ref strs s.1 p.1 off ∧ p.2 = SymbolBuilder_create (symbol_name_offset off s.2).

(** The null symbol and the symbol that names the source file. *)
Definition special_repr (strs : list string) (e : Elf) : Prop :=
  ∃ off, name_ref strs (e_name e) 2 off ∧
    e_special_symbols e =
      [sym_default; SymbolBuilder_create (mkSymbolBuilder off 0 ST_File 0 0)].

(** The header of the relocation section for section number [shndx - 3]. *)
Definition rela_header (ctx : Ctx) (off shndx n : Z) : SectionHeader :=
  mkShdr off SHT_RELA SHF_INFO_LINK 0 (u64 (n * reloc_size true ctx)) SYMTAB_LINK (u32 shndx) 8
    (reloc_size true ctx).

Definition rela_repr (ctx : Ctx) (strs : list string) (secs : list AbsSection)
  (r : Z * list ElfReloc) (p : Z * (SectionHeader * list ElfReloc)) : Prop :=
  p.1 = r.1 ∧ p.2.2 = r.2 ∧
  ∃ s k off, zget secs (r.1 - 3) = Some s ∧
    name_ref strs (".rela" +:+ as_name s) k off ∧
    p.2.1 = rela_header ctx off r.1 (zlen r.2).

Record repr (g : AbsElf) (e : Elf) : Prop := {
  re_strtab : strtab_ok (si_strings (e_strings e)) (e_offsets e) (e_sizeof_strtab e);
  re_strtab0 : zget (si_strings (e_strings e)) 0 = Some ".strtab"%string;
  re_symtab1 : zget (si_strings (e_strings e)) 1 = Some ".symtab"%string;
  re_special : special_repr (si_strings (e_strings e)) e;
  re_secs_len : zlen (im_iter (e_sections e)) = zlen (g_secs g);
  re_secs : ∀ i s p, zget (g_secs g) i = Some s → zget (im_iter (e_sections e)) i = Some p →
    section_repr (e_ctx e) (si_strings (e_strings e)) i s p;
  re_secs_names : NoDup (as_name <$> g_secs g);
  re_syms : Forall2 (symbol_repr (si_strings (e_strings e))) (g_syms g) (im_iter (e_symbols e));
  re_syms_names : NoDup (g_syms g).*1;
  re_code : (im_iter (e_code e)).*2 = g_code g;
  re_code_keys : ∀ k, k ∈ (im_iter (e_code e)).*1 → k ∈ (im_iter (e_sections e)).*1;
  re_bits : e_sizeof_bits e = u64 (header_size (e_ctx e) + zsum (zlen <$> g_code g));
  re_rels : Forall2 (rela_repr (e_ctx e) (si_strings (e_strings e)) (g_secs g))
    (g_rels g) (im_iter (e_relocations e));
  re_rels_keys : NoDup (g_rels g).*1;
  re_nsections : e_nsections e = u32 (4 + zlen (g_secs g) + zlen (g_rels g));
  re_nlocals : e_nlocals e = u64 (g_locals g)
}.
End Repr.

(** ** Abstract operations *)
Section AbsOps.
Context {G : GoblinElf}.

Definition abs_end (ctx : Ctx) (g : AbsElf) : Z := header_size ctx + zsum (zlen <$> g_code g).

Definition abs_add_section (ctx : Ctx) (g : AbsElf) (n : string) (b : SectionBuilder) : AbsElf :=
  mkAbsElf (g_secs g ++ [mkAbsSection n b (abs_end ctx g)]) (g_syms g) (g_code g) (g_rels g)
    (g_locals g).

Definition abs_add_code (g : AbsElf) (bs : list byte) : AbsElf :=
  mkAbsElf (g_secs g) (g_syms g) (g_code g ++ [bs]) (g_rels g) (g_locals g).

Definition abs_add_symbol (g : AbsElf) (n : string) (b : SymbolBuilder) : AbsElf :=
  mkAbsElf (g_secs g) (g_syms g ++ [(n, b)]) (g_code g) (g_rels g) (g_locals g).

(** The symbols a definition contributes. *)
Definition def_symbols (shndx : Z) (d : Definition_) : list (string * SymbolBuilder) :=
  match d_decl d with
  | DD_Section _ => (fun '(s, v) => (s, mkSymbolBuilder 0 0 ST_None shndx v)) <$> d_symbols d
  | decl => [(d_name d, mkSymbolBuilder 0 (u64 (file_size (d_data d))) (ST_Decl decl) shndx 0)]
  end.

Definition def_code (d : Definition_) : list (list byte) :=
  match d_data d with Blob b => [b] | ZeroInit _ => [] end.

Definition def_locals (d : Definition_) : Z :=
  match d_decl d with
  | DD_Section _ => 0
  | decl => if negb (is_global decl) then 1 else 0
  end.

Definition abs_add_definition (ctx : Ctx) (g : AbsElf) (n : string) (d : Definition_) : AbsElf :=
  mkAbsElf (g_secs g ++ [mkAbsSection n (definition_section d) (abs_end ctx g)])
    (g_syms g ++ def_symbols (zlen (g_secs g) + 3) d)
    (g_code g ++ def_code d) (g_rels g) (g_locals g + def_locals d).
End AbsOps.

(** ** Abstract links

    Sections and symbols are found by name; the symbol table has 2 special
    symbols, one per section, then the symbols. *)
Definition abs_link_end {G : GoblinElf} (g : AbsElf) (b : Binding) : option (Z * Z) :=
  if is_section (b_decl b) then
    i ← index_of (b_name b) (as_name <$> g_secs g); Some (i + 2, i + 3)
  else
    j ← index_of (b_name b) (g_syms g).*1;
    sb ← al_get (g_syms g) (b_name b);
    Some (j + 2 + zlen (g_secs g), st_shndx (SymbolBuilder_create sb)).

Definition abs_add_reloc (g : AbsElf) (shndx : Z) (r : ElfReloc) : AbsElf :=
  mkAbsElf (g_secs g) (g_syms g) (g_code g)
    (match al_get (g_rels g) shndx with
     | Some _ => al_modify (fun rs => rs ++ [r]) shndx (g_rels g)
     | None => g_rels g ++ [(shndx, [r])]
     end) (g_locals g).

Lemma custom_symbol_names shndx (l : BTreeMap string Z) :
  ((fun '(s, v) => (s, mkSymbolBuilder 0 0 ST_None shndx v)) <$> l).*1 = l.*1.
Proof. induction l as [|[s v] l IH]; cbn; congruence. Qed.

Section ReprOps.
Context {SI : StringInterner} {IM : IndexMapOps} {G : GoblinElf} {P : Profile}.
Context {SIL : StringInternerLaws SI} {IML : IndexMapLaws IM} {GL : GoblinElfLaws G}.
Implicit Types (g : AbsElf) (e : Elf).

Lemma repr_strtab g e t l offsets size :
  repr g e → si_strings t = si_strings (e_strings e) ++ l →
  strtab_ok (si_strings t) offsets size → repr g (set_strtab t offsets size e).
Proof.
  intros [] Et Hok. split; cbn; rewrite ?Et in *; try done.
  - by apply zget_app_l.
  - by apply zget_app_l.
  - destruct re_special0 as (off & Hn & E). exists off. split; [by apply name_ref_app | done].
  - intros i s p Hs Hp. destruct (re_secs0 i s p Hs Hp) as (off & Hn & E).
    exists off. split; [by apply name_ref_app | done].
  - eapply Forall2_impl; [done|]. intros s p (off & Hn & E).
    exists off. split; [by apply name_ref_app | done].
  - eapply Forall2_impl; [done|]. intros r p (E1 & E2 & s & k & off & Hs & Hn & E).
    split; [done|]. split; [done|]. exists s, k, off. split; [done|].
    split; [by apply name_ref_app | done].
Qed.

Lemma section_index_ok {E} shndx b :
  shndx < 2 ^ 32 - 1 →
  section_index (E:=E) shndx b =
  Ok (mkSymbolBuilder (sb_name_offset b) (sb_size b) (sb_typ b) shndx (sb_value b)).
Proof.
  intros H. unfold section_index, debug_assert, assert_.
  replace (shndx <? 2 ^ 32 - 1) with true by (symmetry; by apply Z.ltb_lt).
  by destruct (@debug_assertions P).
Qed.

Lemma new_string_strings e n :
  si_strings (e_strings (new_string e n).1.1) = intern n (si_strings (e_strings e)).
Proof.
  unfold new_string. pose proof (si_intern_strings (e_strings e) n) as Hi.
  destruct (si_get_or_intern _ _) as [t k]. by destruct (e_offsets e !! k).
Qed.

(** [new_string] finds or appends the name. *)
Lemma new_string_spec e n :
  strtab_ok (si_strings (e_strings e)) (e_offsets e) (e_sizeof_strtab e) →
  ∃ t o s k off l, new_string e n = (set_strtab t o s e, k, off) ∧
    si_strings t = si_strings (e_strings e) ++ l ∧ strtab_ok (si_strings t) o s ∧
    name_ref (si_strings t) n k off.
Proof.
  intros Hok. unfold new_string.
  destruct (si_get_or_intern (e_strings e) n) as [t k] eqn:Ei.
  apply get_or_intern_spec in Ei as [Et Hk]. unfold intern in Et. case_decide as Hin.
  - rewrite Et in Hk. rewrite (so_offsets _ _ _ Hok k n Hk).
    eexists t, _, _, k, _, []. split; [done|]. split; [by rewrite app_nil_r|].
    rewrite Et. by split.
  - assert (k = zlen (si_strings (e_strings e))) as ->.
    { rewrite Et in Hk. pose proof (zget_snoc (si_strings (e_strings e)) n) as Hl.
      assert (NoDup (si_strings (e_strings e) ++ [n])) as Hnd
        by (apply NoDup_snoc; [apply Hok | done]).
      pose proof (index_of_get_NoDup _ _ _ Hnd Hk). pose proof (index_of_get_NoDup _ _ _ Hnd Hl).
      congruence. }
    assert (e_offsets e !! zlen (si_strings (e_strings e)) = None) as ->.
    { destruct (e_offsets e !! _) eqn:E; [|done]. apply (so_dom _ _ _ Hok) in E. lia. }
    eexists t, _, _, _, _, [n]. split; [done|]. split; [done|]. rewrite Et. split.
    + by apply strtab_ok_push.
    + split; [apply zget_snoc|]. rewrite strtab_pos_end. apply (so_size _ _ _ Hok).
Qed.

(** The object stays the same. *)
Lemma new_string_repr g e n :
  repr g e →
  ∃ t o s k off, new_string e n = (set_strtab t o s e, k, off) ∧
    repr g (set_strtab t o s e) ∧ name_ref (si_strings t) n k off.
Proof.
  intros Hr. destruct (new_string_spec e n (re_strtab _ _ Hr)) as (t & o & s & k & off & l & H1 & H2 & H3 & H4).
  exists t, o, s, k, off. split; [done|]. split; [by eapply repr_strtab | done].
Qed.

Lemma secs_keys_named g e k :
  repr g e → k ∈ (im_iter (e_sections e)).*1 →
  ∃ s off, s ∈ g_secs g ∧ name_ref (si_strings (e_strings e)) (as_name s) k off.
Proof.
  intros [] Hk. apply list_elem_of_fmap in Hk as ([k' info] & -> & Hin).
  apply list_elem_of_lookup in Hin as [i Hi].
  assert (zget (im_iter (e_sections e)) (Z.of_nat i) = Some (k', info)) as Hz by by rewrite zget_nat.
  destruct (zget_in_range (g_secs g) (Z.of_nat i)) as [s Hs].
  { rewrite <- re_secs_len0. by eapply zget_range. }
  destruct (re_secs0 _ _ _ Hs Hz) as (off & Hn & _). exists s, off.
  split; [by eapply zget_elem | done].
Qed.

(** A section name that is new to the object has a new identifier. *)
Lemma section_fresh g e n k off :
  repr g e → name_ref (si_strings (e_strings e)) n k off → (n ∉ as_name <$> g_secs g) →
  k ∉ (im_iter (e_sections e)).*1.
Proof.
  intros Hr [Hz _] Hn Hk. destruct (secs_keys_named _ _ _ Hr Hk) as (s & off' & Hs & [Hz' _]).
  apply Hn. apply list_elem_of_fmap. exists s. split; [congruence | done].
Qed.

Lemma add_section_repr {E} g e n b :
  repr g e → (n ∉ as_name <$> g_secs g) → zlen (g_secs g) + 4 < 2 ^ 32 →
  ∃ e' k, add_section (E:=E) e n b = Ok (e', k, zlen (g_secs g) + 3) ∧
    repr (abs_add_section (e_ctx e) g n b) e' ∧ e_ctx e' = e_ctx e ∧
    (k ∉ (im_iter (e_code e')).*1) ∧ k ∈ (im_iter (e_sections e')).*1.
Proof.
  intros Hr0 Hn Hlen. unfold add_section.
  destruct (new_string_repr g e n Hr0) as (t & o & s & k & off & -> & Hr & Href).
  set (e1 := set_strtab t o s e) in *.
  pose proof (zlen_nonneg (g_secs g)) as Hnn.
  assert (u64 (im_len (e_sections e1) + 3) = zlen (g_secs g) + 3) as ->.
  { rewrite im_len_spec, (re_secs_len _ _ Hr). apply wrap_small. unfold in_u. lia. }
  rewrite section_index_ok by lia. cbn [obind]. eexists _, k. split; [done|].
  pose proof (section_fresh g e1 n k off Hr Href Hn) as Hfresh.
  destruct Hr. cbn in *.
  split; [|split; [done|split]].
  - split; cbn; try done.
    + rewrite im_insert_iter, al_insert_fresh by done. autorewrite with zlen. lia.
    + rewrite im_insert_iter, al_insert_fresh by done.
      intros i sec p Hs Hp. apply zget_range in Hs as Hi. autorewrite with zlen in Hi.
      destruct (decide (i = zlen (g_secs g))) as [->|Hne].
      * rewrite zget_snoc in Hs. injection Hs as <-.
        rewrite <- re_secs_len0, zget_snoc in Hp. injection Hp as <-.
        exists off. split; [done|]. cbn [as_offset as_builder fst snd]. unfold abs_end.
        rewrite <- re_bits0, <- re_secs_len0. reflexivity.
      * destruct (zget_in_range (g_secs g) i) as [sec' Hs']; [lia|].
        destruct (zget_in_range (im_iter (e_sections e)) i) as [p' Hp']; [lia|].
        rewrite (zget_app_l _ _ _ _ Hs') in Hs. injection Hs as <-.
        rewrite (zget_app_l _ _ _ _ Hp') in Hp. injection Hp as <-. by apply re_secs0.
    + rewrite fmap_app. by apply NoDup_snoc.
    + rewrite im_insert_iter, al_insert_fresh by done. intros k' Hk'.
      rewrite fmap_app. apply elem_of_app. left. auto.
    + eapply Forall2_impl; [done|]. intros r p (E1 & E2 & sec & k' & off' & Hs & Hnr & Eh).
      split; [done|]. split; [done|]. exists sec, k', off'. split; [by apply zget_app_l | done].
    + rewrite re_nsections0. autorewrite with zlen. rewrite wrap_add_l. f_equal. lia.
  - cbn. intros Hk. by apply Hfresh, re_code_keys0.
  - cbn. rewrite im_insert_iter, al_insert_fresh by done. rewrite fmap_app. set_solver.
Qed.

Lemma add_code_repr g e k bs :
  repr g e → k ∉ (im_iter (e_code e)).*1 → k ∈ (im_iter (e_sections e)).*1 →
  repr (abs_add_code g bs)
    (set_code (im_insert k bs (e_code e)) (set_sizeof_bits (u64 (e_sizeof_bits e + zlen bs)) e)).
Proof.
  intros [] Hk Hks. split; cbn; try done.
  - rewrite im_insert_iter, al_insert_fresh by done. by rewrite fmap_app, re_code0.
  - rewrite im_insert_iter, al_insert_fresh by done. intros k'. rewrite fmap_app. set_solver.
  - rewrite re_bits0, wrap_add_l, fmap_app, zsum_app. cbn. f_equal. lia.
Qed.

Lemma add_progbits_repr {E} g e n b bs :
  repr g e → (n ∉ as_name <$> g_secs g) → zlen (g_secs g) + 4 < 2 ^ 32 →
  ∃ e', add_progbits (E:=E) e n b bs = Ok (e', zlen (g_secs g) + 3) ∧
    repr (abs_add_code (abs_add_section (e_ctx e) g n b) bs) e' ∧ e_ctx e' = e_ctx e.
Proof.
  intros Hr Hn Hlen. unfold add_progbits.
  destruct (add_section_repr (E:=E) g e n b Hr Hn Hlen) as (e1 & k & -> & Hr1 & Hc & Hk & Hks).
  cbn [obind]. eexists. split; [done|]. split; [exact (add_code_repr _ _ _ _ Hr1 Hk Hks) | done].
Qed.

Lemma symbol_fresh g e n k off :
  repr g e → name_ref (si_strings (e_strings e)) n k off → n ∉ (g_syms g).*1 →
  k ∉ (im_iter (e_symbols e)).*1.
Proof.
  intros [] [Hz _] Hn Hk. apply list_elem_of_fmap in Hk as ([k' sym] & -> & Hin).
  apply list_elem_of_lookup in Hin as [i Hi].
  destruct (Forall2_lookup_r _ _ _ _ _ re_syms0 Hi) as ([n' b] & Hg & off' & [Hz' _] & _).
  apply Hn, list_elem_of_fmap. exists (n', b). cbn in *. split; [congruence|].
  by eapply list_elem_of_lookup_2.
Qed.

(** Inserting a symbol under a name new to the symbol table. *)
Lemma add_symbol_repr g e n k off b sym :
  repr g e → name_ref (si_strings (e_strings e)) n k off → n ∉ (g_syms g).*1 →
  sym = SymbolBuilder_create (symbol_name_offset off b) →
  repr (abs_add_symbol g n b) (set_symbols (im_insert k sym (e_symbols e)) e).
Proof.
  intros Hr Href Hn ->. pose proof (symbol_fresh g e n k off Hr Href Hn) as Hfresh.
  destruct Hr. split; cbn; try done.
  - rewrite im_insert_iter, al_insert_fresh by done. apply Forall2_app; [done|].
    constructor; [|constructor]. by exists off.
  - rewrite fmap_app. by apply NoDup_snoc.
Qed.

Lemma add_section_symbols_repr {E} syms : ∀ g e shndx,
  repr g e → shndx < 2 ^ 32 - 1 → NoDup ((g_syms g).*1 ++ syms.*1) →
  ∃ e', add_section_symbols (E:=E) e shndx syms = Ok e' ∧ e_ctx e' = e_ctx e ∧
    repr (mkAbsElf (g_secs g)
      (g_syms g ++ ((fun '(s, v) => (s, mkSymbolBuilder 0 0 ST_None shndx v)) <$> syms))
      (g_code g) (g_rels g) (g_locals g)) e'.
Proof.
  unfold add_section_symbols.
  induction syms as [|[s v] syms IH]; intros g e shndx Hr Hsh Hnd; cbn [ofold].
  - exists e. split; [done|]. split; [done|]. rewrite app_nil_r. by destruct g.
  - destruct (new_string_repr g e s Hr) as (t & o & sz & k & off & -> & Hr1 & Href).
    rewrite section_index_ok by done. cbn [obind].
    cbn in Hnd. apply NoDup_app in Hnd as (Hnd1 & Hdisj & Hnd2).
    assert (repr (abs_add_symbol g s (mkSymbolBuilder 0 0 ST_None shndx v))
      (set_symbols (im_insert k (SymbolBuilder_create (symbol_value v (mkSymbolBuilder off 0 ST_None shndx 0)))
        (e_symbols (set_strtab t o sz e))) (set_strtab t o sz e))) as Hr2.
    { eapply add_symbol_repr; [done|done|set_solver|done]. }
    destruct (IH _ _ shndx Hr2 Hsh) as (e' & He & Hc & Hr').
    { cbn. rewrite fmap_app, <- app_assoc. apply NoDup_app. done. }
    exists e'. split; [exact He|]. split; [by rewrite Hc|]. cbn in Hr'.
    by rewrite <- app_assoc in Hr'.
Qed.

Lemma set_nlocals_repr g e n :
  repr g e → e_nlocals e = u64 (g_locals g) →
  repr (mkAbsElf (g_secs g) (g_syms g) (g_code g) (g_rels g) (g_locals g + n))
    (set_nlocals (u64 (e_nlocals e + n)) e).
Proof.
  intros [] En. split; cbn; try done. rewrite En. apply wrap_add_l.
Qed.

(** The section of a definition, with its bytes if it has any. *)
Lemma add_definition_section_repr {E} g e d n :
  repr g e → (n ∉ as_name <$> g_secs g) → zlen (g_secs g) + 4 < 2 ^ 32 →
  ∃ e1, match d_data d with
    | Blob bytes => add_progbits (E:=E) e n (definition_section d) bytes
    | ZeroInit _ => let! '(e, _, shndx) := add_section e n (definition_section d) in Ok (e, shndx)
    end = Ok (e1, zlen (g_secs g) + 3) ∧ e_ctx e1 = e_ctx e ∧
    repr (mkAbsElf (g_secs g ++ [mkAbsSection n (definition_section d) (abs_end (e_ctx e) g)])
      (g_syms g) (g_code g ++ def_code d) (g_rels g) (g_locals g)) e1.
Proof.
  intros Hr Hn Hlen. unfold def_code. destruct (d_data d).
  - destruct (add_progbits_repr (E:=E) g e n (definition_section d) bytes Hr Hn Hlen)
      as (e1 & -> & Hr1 & Hc). eauto.
  - destruct (add_section_repr (E:=E) g e n (definition_section d) Hr Hn Hlen)
      as (e1 & k & -> & Hr1 & Hc & _). cbn [obind]. rewrite app_nil_r. eauto.
Qed.

(** [add_definition] adds the section, the code and the symbols of one
    definition, provided its section and symbol names are new. *)
Lemma add_definition_repr {E} g e d n :
  repr g e → section_name (E:=E) d = Ok n →
  (n ∉ as_name <$> g_secs g) → zlen (g_secs g) + 4 < 2 ^ 32 →
  NoDup ((g_syms g).*1 ++ (def_symbols (zlen (g_secs g) + 3) d).*1) →
  ∃ e', add_definition (E:=E) e d = Ok e' ∧ e_ctx e' = e_ctx e ∧
    repr (abs_add_definition (e_ctx e) g n d) e'.
Proof.
  intros Hr Hname Hn Hlen Hnd. unfold add_definition. rewrite Hname. cbn [obind].
  destruct (add_definition_section_repr (E:=E) g e d n Hr Hn Hlen) as (e1 & -> & Hc1 & Hr1).
  set (shndx := zlen (g_secs g) + 3) in *. pose proof (zlen_nonneg (g_secs g)).
  cbn [obind]. unfold abs_add_definition, def_locals, def_symbols in *.
  destruct (d_decl d) as [fd|dd|sd] eqn:Ed.
  1,2: destruct (new_string_repr _ e1 (d_name d) Hr1) as (t & o & sz & k & off & -> & Hr2 & Href);
    rewrite section_index_ok by lia; cbn [obind];
    eexists; split; [reflexivity|];
    (split; [by destruct (negb _)|]);
    apply NoDup_app in Hnd as (Hnd1 & Hdisj & _);
    (assert (d_name d ∉ (g_syms g).*1) as Hns by set_solver);
    match goal with |- repr (mkAbsElf _ (_ ++ [(_, ?b)]) _ _ _) _ =>
      pose proof (add_symbol_repr _ _ _ _ _ b _ Hr2 Href Hns eq_refl) as Hr3 end;
    (destruct (negb _); [|by rewrite Z.add_0_r]);
    by apply (set_nlocals_repr _ _ 1 Hr3), Hr3.
  destruct (add_section_symbols_repr (E:=E) (d_symbols d) _ e1 shndx Hr1) as (e2 & -> & Hc2 & Hr2).
  { lia. }
  { by rewrite custom_symbol_names in Hnd. }
  exists e2. split; [done|]. split; [congruence|]. by rewrite Z.add_0_r.
Qed.

(** ** Imports and the initial object *)
Definition abs_import (g : AbsElf) (n : string) : AbsElf :=
  abs_add_symbol g n (mkSymbolBuilder 0 0 ST_Import 0 0).

Lemma repr_set_imports g e m : repr g e → repr g (set_elf_imports m e).
Proof. by intros []; split. Qed.

Lemma elf_import_repr g e n kind :
  repr g e → n ∉ (g_syms g).*1 →
  repr (abs_import g n) (elf_import e n kind) ∧ e_ctx (elf_import e n kind) = e_ctx e.
Proof.
  intros Hr Hn. unfold elf_import.
  destruct (new_string_repr g e n Hr) as (t & o & sz & k & off & -> & Hr1 & Href).
  split; [|done]. eapply add_symbol_repr; [by apply repr_set_imports | done | done | done].
Qed.

Lemma push_strtab_ok t o sz n :
  strtab_ok (si_strings t) o sz → n ∉ si_strings t →
  ∃ t' o' sz', push_strtab (t, o, sz) n = (t', o', sz', sz) ∧
    si_strings t' = si_strings t ++ [n] ∧ strtab_ok (si_strings t') o' sz'.
Proof.
  intros Hok Hn. unfold push_strtab. destruct (si_get_or_intern t n) as [t' k] eqn:Ei.
  apply get_or_intern_spec in Ei as [Et Hk]. unfold intern in Et.
  rewrite decide_False in Et by done. eexists t', _, _. split; [done|]. split; [done|].
  assert (k = zlen (si_strings t)) as ->.
  { assert (NoDup (si_strings t')) as Hnd by (rewrite Et; apply NoDup_snoc; [apply Hok | done]).
    pose proof (index_of_get_NoDup _ _ _ Hnd Hk) as E1.
    assert (zget (si_strings t') (zlen (si_strings t)) = Some n) as Hl by (rewrite Et; apply zget_snoc).
    pose proof (index_of_get_NoDup _ _ _ Hnd Hl). congruence. }
  rewrite Et. by apply strtab_ok_push.
Qed.

Lemma Elf_new_repr {TL : TargetLexicon} (a : Artifact) :
  a_name a ≠ ".strtab"%string → a_name a ≠ ".symtab"%string →
  repr (mkAbsElf [] [] [] [] 0) (Elf_new a) ∧ e_ctx (Elf_new a) = make_ctx (a_target a).
Proof.
  intros H1 H2. unfold Elf_new.
  assert (si_strings si_new = []) as E0 by (unfold si_strings; by rewrite si_new_iter).
  assert (strtab_ok (si_strings si_new) ∅ 1) as Hok0.
  { rewrite E0. split; [apply NoDup_nil_2 | | |done].
    - intros i s Hi. apply zget_range in Hi. unfold zlen in Hi. cbn in Hi. lia.
    - intros i o Hi. by rewrite lookup_empty in Hi. }
  destruct (push_strtab_ok si_new ∅ 1 ".strtab" Hok0) as (t1 & o1 & s1 & -> & E1 & Hok1).
  { rewrite E0. set_solver. }
  rewrite E0 in E1. cbn in E1.
  destruct (push_strtab_ok t1 o1 s1 ".symtab" Hok1) as (t2 & o2 & s2 & -> & E2 & Hok2).
  { rewrite E1. by rewrite list_elem_of_singleton. }
  rewrite E1 in E2. cbn in E2.
  destruct (push_strtab_ok t2 o2 s2 (a_name a) Hok2) as (t3 & o3 & s3 & -> & E3 & Hok3).
  { rewrite E2. rewrite !elem_of_cons, elem_of_nil. naive_solver. }
  rewrite E2 in E3. cbn in E3.
  split; [|done]. split; cbn; rewrite ?im_new_iter, ?E3; try done;
    try (by rewrite E3 in Hok3); try apply NoDup_nil_2; try (by constructor).
  - exists s2. split; [|done]. split; [done|]. rewrite (so_size _ _ _ Hok2). by rewrite E2.
  - intros i s p Hi. apply zget_range in Hi. unfold zlen in Hi. cbn in Hi. lia.
  - rewrite Z.add_0_r. symmetry. apply wrap_small. rewrite header_size_spec.
    unfold in_u. destruct (container _); lia.
Qed.

Lemma special_len g e : repr g e → zlen (e_special_symbols e) = 2.
Proof. intros Hr. destruct (re_special _ _ Hr) as (off & _ & ->). done. Qed.
End ReprOps.
