(* ===== verification/ElfLink.v ===== *)
(** * Links on abstract ELF objects

    [link] looks both ends up by name, computes a symbol-table index and a
    section index, and files a relocation under the section it patches.  This
    file proves that it does on the [Elf] value what [abs_link] does on the
    abstract object. *)

From stdpp Require Import base numbers list gmap strings.
From Stdlib Require Import ZArith Lia Strings.Byte.
From S2P Require Import Prelude Std External Decl Artifact ArtifactInv Target ElfBuild ElfState.
From S2P Require Import ElfRepr.

(** The relocation a link stands for: a defined target is addressed through
    the symbol of its section, an import through its own symbol. *)
Definition abs_reloc (l : LinkAndDecl) (to_idx to_shndx reloc addend : Z) : ElfReloc :=
  mkElfReloc (l_at l) (Some addend)
    (match b_decl (l_to l) with Defined _ => to_shndx - 1 | Import _ => to_idx end) reloc.

Definition abs_link {G : GoblinElf} {E} (ctx : Ctx) (g : AbsElf) (l : LinkAndDecl) :
  outcome E AbsElf :=
  let! '(to_idx, to_shndx) := expect (abs_link_end g (l_to l)) "link target" in
  let! '(_, from_shndx) := expect (abs_link_end g (l_from l)) "link source" in
  let! '(reloc, addend) := link_reloc ctx l in
  Ok (abs_add_reloc g from_shndx (abs_reloc l to_idx to_shndx reloc addend)).

(** The name of the section of relocations for section number [shndx - 3]. *)
Definition rela_name (g : AbsElf) (shndx : Z) : string :=
  match zget (g_secs g) (shndx - 3) with
  | Some s => ".rela" +:+ as_name s
  | None => ""%string
  end.

(** The string table after a relocation was filed under a section. *)
Definition reloc_strings (g : AbsElf) (shndx : Z) (strs : list string) : list string :=
  match al_get (g_rels g) shndx with
  | Some _ => strs
  | None => intern (rela_name g shndx) strs
  end.

(** A symbol that a link can be followed to or from: a definition is in a
    section of the object, an import in none. *)
Definition sym_placed (g : AbsElf) (p : string * SymbolBuilder) : Prop :=
  sb_typ p.2 ≠ ST_File ∧
  (sb_typ p.2 = ST_Import ∧ sb_shndx p.2 = 0 ∨
   sb_typ p.2 ≠ ST_Import ∧ 3 ≤ sb_shndx p.2 < 3 + zlen (g_secs g)).

(** Modifying the entry of one key on both sides of a pointwise relation. *)
Lemma Forall2_al_modify {K A B} `{EqDecision K} (R : K * A → K * B → Prop) f g k l m :
  (∀ p q, R p q → p.1 = q.1) →
  (∀ a b, R (k, a) (k, b) → R (k, f a) (k, g b)) →
  Forall2 R l m → Forall2 R (al_modify f k l) (al_modify g k m).
Proof.
  intros Hkeys Hf. induction 1 as [|[k1 a] [k2 b] l m HR HF IH]; cbn; [constructor|].
  pose proof (Hkeys _ _ HR) as E. cbn in E. subst k2.
  case_decide; subst; constructor; auto.
Qed.

Section ElfLink.
Context {SI : StringInterner} {IM : IndexMapOps} {G : GoblinElf} {P : Profile}.
Context {SIL : StringInternerLaws SI} {IML : IndexMapLaws IM} {GL : GoblinElfLaws G}.
Implicit Types (g : AbsElf) (e : Elf).

Lemma rela_keys ctx strs secs l m :
  Forall2 (rela_repr ctx strs secs) l m → l.*1 = m.*1.
Proof. induction 1 as [|r p l m (E & _) _ IH]; cbn; congruence. Qed.

Lemma add_reloc_repr {E} g e r x shndx :
  repr g e → r_addend r = Some x → 3 ≤ shndx < 3 + zlen (g_secs g) →
  zlen (g_secs g) + 4 < 2 ^ 32 →
  ∃ e', add_reloc (E:=E) e r shndx = Ok e' ∧ e_ctx e' = e_ctx e ∧
    repr (abs_add_reloc g shndx r) e' ∧
    si_strings (e_strings e') = reloc_strings g shndx (si_strings (e_strings e)).
Proof.
  intros Hr Hx Hsh Hlen. unfold add_reloc. rewrite Hx, im_get_spec.
  pose proof (rela_keys _ _ _ _ _ (re_rels _ _ Hr)) as Hkeys.
  pose proof (re_nsections _ _ Hr) as Hns. unfold abs_add_reloc, reloc_strings.
  destruct (al_get (im_iter (e_relocations e)) shndx) as [v|] eqn:Eg.
  - assert (shndx ∈ (g_rels g).*1) as Hk.
    { rewrite Hkeys. apply al_get_elem in Eg. by apply (list_elem_of_fmap_2 fst) in Eg. }
    destruct (al_get_is_Some _ _ Hk) as [v' ->].
    eexists. split; [done|]. split; [done|]. split; [|done]. destruct Hr. split; cbn; try done.
    + rewrite im_modify_iter. apply Forall2_al_modify; [by intros p q (E1 & _)| |done].
      intros rs [h rs'] (_ & E2 & s & k & off & Hs & Hn & Eh). cbn in *. subst.
      split; [done|]. split; [done|]. exists s, k, off. split; [done|]. split; [done|].
      unfold rela_header, shdr_set_size. cbn. f_equal.
      rewrite wrap_add_l, zlen_app, zlen_cons, zlen_nil. f_equal. lia.
    + by rewrite al_modify_keys.
    + rewrite Hns. do 2 f_equal. unfold zlen. f_equal.
      rewrite <- (length_fmap fst (al_modify _ _ _)), al_modify_keys. by rewrite length_fmap.
  - assert (shndx ∉ (g_rels g).*1) as Hk by (rewrite Hkeys; by apply al_get_None).
    apply al_get_None in Hk as Hk'. rewrite Hk'.
    destruct (zget_in_range (g_secs g) (shndx - 3)) as [s Hs]; [lia|].
    destruct (zget_in_range (im_iter (e_sections e)) (shndx - 3)) as [p Hp].
    { rewrite (re_secs_len _ _ Hr). lia. }
    destruct (re_secs _ _ Hr _ _ _ Hs Hp) as (off & [Hz _] & Ep).
    assert (u64 (shndx - 3) = shndx - 3) as -> by (apply wrap_small; unfold in_u; lia).
    rewrite im_get_index_spec, Hp. cbn [obind expect]. destruct p as [pk info]. cbn in Ep, Hz.
    rewrite si_resolve_spec, Ep. cbn [si_name]. rewrite Hz. cbn [obind expect].
    pose proof (new_string_strings e (".rela" +:+ as_name s)) as Hst.
    destruct (new_string_repr g e (".rela" +:+ as_name s) Hr)
      as (t & o & sz & k & off' & En & Hr1 & Href). rewrite En in *. clear En.
    eexists. split; [done|]. split; [done|]. split; [|unfold rela_name; rewrite Hs; exact Hst].
    destruct Hr1. cbn in *.
    split; cbn; try done.
    + rewrite im_insert_iter, al_insert_fresh by (rewrite <- Hkeys; done).
      apply Forall2_app; [done|]. constructor; [|constructor].
      split; [done|]. split; [done|]. exists s, k, off'. split; [done|]. split; [done|].
      unfold rela_header. cbn [fst snd zlen length]. rewrite Z.mul_1_l.
      unfold SectionBuilder_create. cbn. rewrite shdr_default_spec. cbn.
      rewrite reloc_size_spec. f_equal. by destruct (container (e_ctx e)).
    + rewrite fmap_app. by apply NoDup_snoc.
    + rewrite Hns. autorewrite with zlen. rewrite wrap_add_l. f_equal. lia.
Qed.

(** ** Looking names up

    Identifiers and names correspond one to one, so a search by identifier in
    the backend's tables finds what a search by name finds in the object. *)
Lemma index_of_key (strs ns : list string) ks n k :
  NoDup strs → Forall2 (fun n k => zget strs k = Some n) ns ks → zget strs k = Some n →
  index_of k ks = index_of n ns.
Proof.
  intros Hnd HF Hk. induction HF as [|n' k' ns ks Hk' _ IH]; cbn; [done|].
  repeat case_decide; subst; try congruence.
  pose proof (index_of_get_NoDup _ _ _ Hnd Hk). pose proof (index_of_get_NoDup _ _ _ Hnd Hk').
  congruence.
Qed.

Lemma symbol_of_key strs l m n k :
  NoDup strs → Forall2 (symbol_repr strs) l m → zget strs k = Some n →
  ∀ sb, al_get l n = Some sb →
  ∃ off, al_get m k = Some (SymbolBuilder_create (symbol_name_offset off sb)).
Proof.
  intros Hnd HF Hk. induction HF as [|[n' sb'] [k' sym] l m (off & [Hk' _] & Es) _ IH]; cbn; [done|].
  cbn in Hk', Es. intros sb. repeat case_decide; subst; try congruence; [naive_solver| |by apply IH].
  pose proof (index_of_get_NoDup _ _ _ Hnd Hk). pose proof (index_of_get_NoDup _ _ _ Hnd Hk').
  congruence.
Qed.

Lemma secs_keys g e :
  repr g e → Forall2 (fun n k => zget (si_strings (e_strings e)) k = Some n)
    (as_name <$> g_secs g) (im_iter (e_sections e)).*1.
Proof.
  intros Hr. apply Forall2_fmap, Forall2_same_length_lookup_2.
  { pose proof (re_secs_len _ _ Hr) as Hl. unfold zlen in Hl. lia. }
  intros i s p Hs Hp. rewrite <- zget_nat in Hs. rewrite <- zget_nat in Hp.
  by destruct (re_secs _ _ Hr _ _ _ Hs Hp) as (off & [Hz _] & _).
Qed.

Lemma syms_keys g e :
  repr g e → Forall2 (fun n k => zget (si_strings (e_strings e)) k = Some n)
    (g_syms g).*1 (im_iter (e_symbols e)).*1.
Proof.
  intros []. apply Forall2_fmap. eapply Forall2_impl; [done|]. by intros s p (off & [Hz _] & _).
Qed.

Lemma key_of_name (strs ns : list string) ks n i :
  Forall2 (fun n k => zget strs k = Some n) ns ks → index_of n ns = Some i →
  ∃ k, zget strs k = Some n.
Proof.
  intros HF Hi. apply index_of_Some_get, zget_Some in Hi as [_ Hi].
  destruct (Forall2_lookup_l _ _ _ _ _ HF Hi) as (k & _ & Hk). eauto.
Qed.

Lemma intern_present g e n k :
  repr g e → zget (si_strings (e_strings e)) k = Some n →
  ∃ t, si_get_or_intern (e_strings e) n = (t, k) ∧
    si_strings t = si_strings (e_strings e) ∧
    repr g (set_strtab t (e_offsets e) (e_sizeof_strtab e) e).
Proof.
  intros Hr Hk. pose proof (so_nodup _ _ _ (re_strtab _ _ Hr)) as Hnd.
  destruct (si_get_or_intern (e_strings e) n) as [t k'] eqn:Ei.
  apply get_or_intern_spec in Ei as [Et Hk']. unfold intern in Et.
  rewrite decide_True in Et by (by eapply zget_elem). rewrite Et in Hk'.
  pose proof (index_of_get_NoDup _ _ _ Hnd Hk). pose proof (index_of_get_NoDup _ _ _ Hnd Hk').
  exists t. split; [congruence|]. split; [done|].
  eapply repr_strtab with (l := []); [done | by rewrite app_nil_r |].
  rewrite Et. apply (re_strtab _ _ Hr).
Qed.

Lemma shndx_name_offset off sb :
  st_shndx (SymbolBuilder_create (symbol_name_offset off sb)) = st_shndx (SymbolBuilder_create sb).
Proof. unfold SymbolBuilder_create. cbn. by destruct (sb_typ sb) as [[]| | | |]. Qed.

(** [link_end] finds the end of a link that the abstract object has. *)
Lemma link_end_repr {E} g e b m1 m2 i sh :
  repr g e → abs_link_end g b = Some (i, sh) →
  zlen (g_secs g) + 4 < 2 ^ 32 → zlen (g_syms g) < 2 ^ 32 →
  ∃ t, link_end (E:=E) e b m1 m2 =
         Ok (set_strtab t (e_offsets e) (e_sizeof_strtab e) e, i, sh) ∧
    si_strings t = si_strings (e_strings e) ∧
    repr g (set_strtab t (e_offsets e) (e_sizeof_strtab e) e).
Proof.
  intros Hr Hend Hl1 Hl2. pose proof (so_nodup _ _ _ (re_strtab _ _ Hr)) as Hnd.
  pose proof (zlen_nonneg (g_secs g)). pose proof (special_len _ _ Hr) as Hsp.
  unfold link_end, abs_link_end in *. destruct (is_section (b_decl b)).
  - destruct (index_of (b_name b) (as_name <$> g_secs g)) as [j|] eqn:Ej; [|done].
    injection Hend as <- <-. pose proof (secs_keys _ _ Hr) as HF.
    destruct (key_of_name _ _ _ _ _ HF Ej) as [k Hk].
    destruct (intern_present g e (b_name b) k Hr Hk) as (t & -> & Et & Hr1).
    exists t. split; [|by split]. cbn [e_special_symbols e_sections set_strtab].
    rewrite im_get_full_spec, (index_of_key _ _ _ _ _ Hnd HF Hk), Ej.
    destruct (al_get_is_Some (im_iter (e_sections e)) k) as [v ->].
    { eapply zget_elem, index_of_Some_get. rewrite (index_of_key _ _ _ _ _ Hnd HF Hk). done. }
    cbn [expect obind]. apply index_of_Some_get, zget_range in Ej. rewrite Hsp.
    assert (zlen (as_name <$> g_secs g) = zlen (g_secs g)) as El by (unfold zlen; by rewrite length_fmap).
    rewrite !wrap_small by (unfold in_u; lia). done.
  - destruct (index_of (b_name b) (g_syms g).*1) as [j|] eqn:Ej; [|done].
    destruct (al_get (g_syms g) (b_name b)) as [sb|] eqn:Esb; [|done].
    injection Hend as <- <-. pose proof (syms_keys _ _ Hr) as HF.
    destruct (key_of_name _ _ _ _ _ HF Ej) as [k Hk].
    destruct (intern_present g e (b_name b) k Hr Hk) as (t & -> & Et & Hr1).
    exists t. split; [|by split]. cbn [e_special_symbols e_sections e_symbols set_strtab].
    destruct (symbol_of_key _ _ _ _ _ Hnd (re_syms _ _ Hr) Hk _ Esb) as (off & Es).
    rewrite im_get_full_spec, (index_of_key _ _ _ _ _ Hnd HF Hk), Ej, Es.
    cbn [expect obind]. apply index_of_Some_get, zget_range in Ej.
    rewrite Hsp, im_len_spec, (re_secs_len _ _ Hr).
    assert (zlen (g_syms g).*1 = zlen (g_syms g)) as El by (unfold zlen; by rewrite length_fmap).
    rewrite shndx_name_offset, !wrap_small by (unfold in_u; lia). done.
Qed.

(** What a placed end of a link says about the section index. *)
Lemma link_end_placed g b i sh :
  Forall (sym_placed g) (g_syms g) → abs_link_end g b = Some (i, sh) →
  3 ≤ sh < 3 + zlen (g_secs g) ∨
  (∃ sb, al_get (g_syms g) (b_name b) = Some sb ∧ sb_typ sb = ST_Import).
Proof.
  intros HF Hend. unfold abs_link_end in Hend. destruct (is_section (b_decl b)).
  - destruct (index_of (b_name b) (as_name <$> g_secs g)) as [j|] eqn:Ej; [|done].
    injection Hend as <- <-. apply index_of_Some_get, zget_range in Ej.
    unfold zlen in *. rewrite length_fmap in Ej. lia.
  - destruct (index_of (b_name b) (g_syms g).*1) as [j|] eqn:Ej; [|done].
    destruct (al_get (g_syms g) (b_name b)) as [sb|] eqn:Esb; [|done].
    injection Hend as <- <-. apply al_get_elem in Esb as Hin.
    rewrite Forall_forall in HF. destruct (HF _ Hin) as [Hf [[Hi _]|[_ Hsh]]]; cbn in *.
    + right. by exists sb.
    + left. unfold SymbolBuilder_create. destruct (sb_typ sb) as [[]| | | |] eqn:Ety; cbn; congruence || lia.
Qed.

(** [link] does on [e] what [abs_link] does on [g]. *)
Lemma elf_link_repr {E} g e l g' :
  repr g e → Forall (sym_placed g) (g_syms g) →
  (∀ b, b = l_to l ∨ b = l_from l → ∀ d, b_decl b = Defined d →
     ∀ sb, al_get (g_syms g) (b_name b) = Some sb → sb_typ sb ≠ ST_Import) →
  (∃ d, b_decl (l_from l) = Defined d) →
  zlen (g_secs g) + 4 < 2 ^ 32 → zlen (g_syms g) < 2 ^ 32 →
  abs_link (E:=E) (e_ctx e) g l = Ok g' →
  ∃ e' sh r, elf_link (E:=E) e l = Ok e' ∧ e_ctx e' = e_ctx e ∧ repr g' e' ∧
    g' = abs_add_reloc g sh r ∧ is_Some (r_addend r) ∧
    si_strings (e_strings e') = reloc_strings g sh (si_strings (e_strings e)).
Proof.
  intros Hr Hpl Hdef [fd Hfd] Hl1 Hl2. unfold abs_link, elf_link.
  destruct (abs_link_end g (l_to l)) as [[ti tsh]|] eqn:Et; [|done].
  destruct (abs_link_end g (l_from l)) as [[fi fsh]|] eqn:Ef; [|done]. cbn [expect obind].
  destruct (link_end_repr (E:=E) g e (l_to l) "to_idx present in sections"
    "to_idx present in symbols" ti tsh Hr Et Hl1 Hl2) as (t1 & -> & Hs1 & Hr1).
  cbn [obind].
  destruct (link_end_repr (E:=E) g _ (l_from l) "from_idx present in sections"
    "from_idx present in symbols" fi fsh Hr1 Ef Hl1 Hl2) as (t2 & -> & Hs2 & Hr2).
  cbn [obind]. cbn [e_ctx set_strtab e_special_symbols].
  destruct (link_reloc (e_ctx e) l) as [[reloc addend]| |]; [|done..]. cbn [obind].
  intros [= <-].
  assert (3 ≤ fsh < 3 + zlen (g_secs g)) as Hfsh.
  { destruct (link_end_placed _ _ _ _ Hpl Ef) as [|(sb & Hsb & Hi)]; [done|].
    exfalso. by eapply (Hdef (l_from l)); eauto. }
  rewrite (special_len _ _ Hr).
  match goal with |- context [add_reloc ?e2 (RelocationBuilder_create ?rb) _] =>
    assert (RelocationBuilder_create rb = abs_reloc l ti tsh reloc addend) as -> end.
  { unfold abs_reloc, RelocationBuilder_create. cbn. f_equal.
    destruct (b_decl (l_to l)) as [ik|td] eqn:Etd; [done|].
    destruct (link_end_placed _ _ _ _ Hpl Et) as [Htsh|(sb & Hsb & Hi)].
    - rewrite wrap_add_l. rewrite wrap_small by (unfold in_u; lia). lia.
    - exfalso. by eapply (Hdef (l_to l)); eauto. }
  destruct (add_reloc_repr (E:=E) g _ (abs_reloc l ti tsh reloc addend) addend fsh Hr2)
    as (e' & -> & Hc & Hr' & Hst); [done..|].
  exists e', fsh, (abs_reloc l ti tsh reloc addend). do 4 (split; [done|]). split; [by eexists|].
  rewrite Hst. f_equal. cbn [e_strings set_strtab] in *. congruence.
Qed.
End ElfLink.
