(* ===== verification/ElfObject.v ===== *)
(** * The ELF object of an artifact

    [abs_object] says which object an artifact stands for: a section per
    definition, in the order of [definitions()], the symbols of the
    definitions and of the imports, and the relocations of the links.
    [build_ok] proves that the backend builds it, without a panic, provided
    the names do not clash and every link is of a supported kind. *)

From stdpp Require Import base numbers list gmap strings.
From Stdlib Require Import ZArith Lia Strings.Byte.
From S2P Require Import Prelude Std External Decl Artifact ArtifactInv Contents Target.
From S2P Require Import ElfBuild ElfState ElfWrite ElfRepr ElfLink.

(** The name of the section a definition is put into. *)
Definition sec_name (d : Definition_) : string :=
  match section_name (E:=unit) d with Ok n => n | _ => ""%string end.

(** The symbols a definition introduces. *)
Definition def_symbol_names (d : Definition_) : list string :=
  match d_decl d with
  | DD_Section _ => (d_symbols d).*1
  | _ => [d_name d]
  end.

Definition symbol_names (c : Contents) : list string :=
  concat (def_symbol_names <$> c_defs c) ++ (c_imports c).*1.

(** The names in the order in which the backend enters them into the string
    table, and the table: every name once. *)
Definition intern_all (ns strs : list string) : list string :=
  fold_left (fun l n => intern n l) ns strs.

Definition def_names (d : Definition_) : list string := sec_name d :: def_symbol_names d.

Definition object_strings (name : string) (c : Contents) (g : AbsElf) : list string :=
  intern_all ([".strtab"; ".symtab"; name]%string ++ concat (def_names <$> c_defs c) ++
              (c_imports c).*1 ++ (rela_name g <$> (g_rels g).*1)) [].

Lemma intern_all_app ns1 ns2 strs : intern_all (ns1 ++ ns2) strs = intern_all ns2 (intern_all ns1 strs).
Proof. apply fold_left_app. Qed.

Definition abs_empty : AbsElf := mkAbsElf [] [] [] [] 0.

Section AbsObject.
Context {G : GoblinElf}.

Definition abs_definitions (ctx : Ctx) (ds : list Definition_) (g : AbsElf) : AbsElf :=
  fold_left (fun g d => abs_add_definition ctx g (sec_name d) d) ds g.

Definition abs_imports (ims : list (string * ImportKind)) (g : AbsElf) : AbsElf :=
  fold_left (fun g i => abs_import g i.1) ims g.

Definition abs_object {E} (ctx : Ctx) (c : Contents) : outcome E AbsElf :=
  ofold (abs_link ctx) (abs_imports (c_imports c) (abs_definitions ctx (c_defs c) abs_empty))
    (c_links c).

(** What the ELF backend needs of an artifact beyond [contents_wf]. *)
Record elf_ready (ctx : Ctx) (name : string) (c : Contents) : Prop := {
  er_name : name ≠ ".strtab"%string ∧ name ≠ ".symtab"%string;
  er_sections : NoDup (sec_name <$> c_defs c);
  er_symbols : NoDup (symbol_names c);
  er_links : ∀ l, l ∈ c_links c → is_ok (link_reloc (E:=unit) ctx l) = true;
  er_few_sections : zlen (c_defs c) + 4 < 2 ^ 32;
  er_few_symbols : zlen (symbol_names c) < 2 ^ 32
}.

(** ** Facts about the abstract object *)
Record obj_inv (c : Contents) (g : AbsElf) : Prop := {
  oi_secs : as_name <$> g_secs g = sec_name <$> c_defs c;
  oi_syms : (g_syms g).*1 = symbol_names c;
  oi_placed : Forall (sym_placed g) (g_syms g);
  oi_imports : ∀ p, p ∈ g_syms g → sb_typ p.2 = ST_Import → p.1 ∈ (c_imports c).*1;
  oi_addends : ∀ r x, r ∈ g_rels g → x ∈ r.2 → is_Some (r_addend x)
}.

Lemma def_symbols_names shndx d : (def_symbols shndx d).*1 = def_symbol_names d.
Proof.
  unfold def_symbols, def_symbol_names. destruct (d_decl d); try done. apply custom_symbol_names.
Qed.

Lemma def_symbols_placed shndx d p :
  p ∈ def_symbols shndx d → sb_typ p.2 ≠ ST_Import ∧ sb_typ p.2 ≠ ST_File ∧ sb_shndx p.2 = shndx.
Proof.
  unfold def_symbols.
  destruct (d_decl d); intros Hp; [set_solver..|].
  by apply list_elem_of_fmap in Hp as ([s v] & -> & _).
Qed.

Lemma abs_definitions_spec ctx ds : ∀ g,
  let g' := abs_definitions ctx ds g in
  (as_name <$> g_secs g' = (as_name <$> g_secs g) ++ (sec_name <$> ds)) ∧
  (g_syms g').*1 = (g_syms g).*1 ++ concat (def_symbol_names <$> ds) ∧
  (Forall (fun p => sym_placed g p ∧ sb_typ p.2 ≠ ST_Import) (g_syms g) →
   Forall (fun p => sym_placed g' p ∧ sb_typ p.2 ≠ ST_Import) (g_syms g')).
Proof.
  induction ds as [|d ds IH]; intros g.
  { cbn. by rewrite !app_nil_r. }
  destruct (IH (abs_add_definition ctx g (sec_name d) d)) as (E1 & E2 & E3).
  change (abs_definitions ctx (d :: ds) g)
    with (abs_definitions ctx ds (abs_add_definition ctx g (sec_name d) d)).
  cbv zeta in *.
  split; [|split].
  - rewrite E1. cbn. rewrite fmap_app, <- app_assoc. done.
  - rewrite E2. cbn. rewrite fmap_app, <- app_assoc, def_symbols_names. done.
  - intros HF. apply E3. cbn. apply Forall_app. split.
    + eapply Forall_impl; [done|]. intros p [[Hf Hp] Hi]. split; [|done]. split; [done|]. cbn [g_secs abs_add_definition].
      rewrite zlen_app. change (zlen [_]) with 1. destruct Hp as [|[? ?]]; [by left | right; split; [done|lia]].
    + apply Forall_forall. intros p Hp. apply def_symbols_placed in Hp as (H1 & H2 & H3).
      split; [|done]. split; [done|]. right. split; [done|]. cbn [g_secs abs_add_definition].
      rewrite H3, zlen_app. change (zlen [_]) with 1. pose proof (zlen_nonneg (g_secs g)). lia.
Qed.

Lemma abs_imports_spec ims : ∀ g,
  abs_imports ims g = mkAbsElf (g_secs g)
    (g_syms g ++ ((fun i => (i.1, mkSymbolBuilder 0 0 ST_Import 0 0)) <$> ims))
    (g_code g) (g_rels g) (g_locals g).
Proof.
  induction ims as [|i ims IH]; intros g; cbn; [rewrite app_nil_r; by destruct g|].
  unfold abs_imports in IH. rewrite IH. cbn. by rewrite <- app_assoc.
Qed.

Lemma abs_definitions_rels ctx ds : ∀ g, g_rels (abs_definitions ctx ds g) = g_rels g.
Proof. induction ds as [|d ds IH]; intros g; [done|]. exact (IH (abs_add_definition ctx g _ d)). Qed.

Lemma abs_symbols_inv ctx c :
  obj_inv c (abs_imports (c_imports c) (abs_definitions ctx (c_defs c) abs_empty)).
Proof.
  destruct (abs_definitions_spec ctx (c_defs c) abs_empty) as (E1 & E2 & E3).
  specialize (E3 ltac:(constructor)). rewrite abs_imports_spec. rewrite Forall_forall in E3.
  set (g := abs_definitions _ _ _) in *. split; cbn.
  - by rewrite E1.
  - rewrite fmap_app, E2. unfold symbol_names. cbn. f_equal. rewrite <- list_fmap_compose. done.
  - apply Forall_app. split.
    + apply Forall_forall. intros p Hp. apply E3, Hp.
    + apply Forall_fmap, Forall_forall. intros i _. split; [done|]. by left.
  - intros p [Hp|Hp]%elem_of_app Hi; [by apply E3 in Hp as []|].
    apply list_elem_of_fmap in Hp as (i & -> & Hin). cbn. apply list_elem_of_fmap. eauto.
  - intros r x Hr. unfold g in Hr. rewrite abs_definitions_rels in Hr. by apply elem_of_nil in Hr.
Qed.

Lemma al_modify_elem {K V} `{EqDecision K} (f : V → V) k (l : list (K * V)) p :
  p ∈ al_modify f k l → p ∈ l ∨ ∃ v, (k, v) ∈ l ∧ p = (k, f v).
Proof.
  induction l as [|[k' v] l IH]; cbn; [by left|]. case_decide as Hk.
  - subst. intros [->|Hp]%elem_of_cons; [right; exists v; split; [left|done] | left; by right].
  - intros [->|Hp]%elem_of_cons; [left; left|].
    destruct (IH Hp) as [?|(v' & ? & ?)]; [left; by right | right; exists v'; split; [by right|done]].
Qed.

Lemma abs_add_reloc_inv c g shndx r :
  is_Some (r_addend r) → obj_inv c g → obj_inv c (abs_add_reloc g shndx r).
Proof.
  intros Hr []. split; cbn; try done. intros p x Hp Hx.
  destruct (al_get (g_rels g) shndx) as [v|].
  - apply al_modify_elem in Hp as [Hp|(v' & Hp & ->)]; [eauto|]. cbn in Hx.
    apply elem_of_app in Hx as [Hx|Hx]; [by eapply (oi_addends0 (shndx, v'))|].
    by apply list_elem_of_singleton in Hx as ->.
  - apply elem_of_app in Hp as [Hp|Hp]; [eauto|]. apply list_elem_of_singleton in Hp as ->.
    cbn in Hx. by apply list_elem_of_singleton in Hx as ->.
Qed.

Lemma abs_add_reloc_keys g shndx r strs :
  reloc_strings g shndx (intern_all (rela_name g <$> (g_rels g).*1) strs) =
  intern_all (rela_name g <$> (g_rels (abs_add_reloc g shndx r)).*1) strs.
Proof.
  unfold reloc_strings, abs_add_reloc. cbn. destruct (al_get (g_rels g) shndx).
  - by rewrite al_modify_keys.
  - rewrite !fmap_app, intern_all_app. done.
Qed.

(** A bound name is found in the object. *)
Lemma bound_found c g b :
  contents_wf c → obj_inv c g → bound_in c b → ∃ p, abs_link_end g b = Some p.
Proof.
  intros Hc Hi Hb. unfold abs_link_end, bound_in in *.
  assert (is_section (b_decl b) = false → b_name b ∈ (g_syms g).*1 →
    ∃ p, (j ← index_of (b_name b) (g_syms g).*1; sb ← al_get (g_syms g) (b_name b);
      Some (j + 2 + zlen (g_secs g), st_shndx (SymbolBuilder_create sb))) = Some p) as Hsym.
  { intros _ Hin. destruct (index_of_elem _ _ Hin) as [j ->].
    destruct (al_get_is_Some _ _ Hin) as [sb ->]. cbn. eauto. }
  destruct (b_decl b) as [k|d]; cbn.
  - apply Hsym; [done|]. rewrite (oi_syms _ _ Hi). unfold symbol_names.
    apply elem_of_app. right. apply list_elem_of_fmap. by exists (b_name b, k).
  - destruct Hb as (def & Hin & Hn & <-).
    assert (∀ s, s ∈ def_symbol_names def → s ∈ (g_syms g).*1) as Hsub.
    { intros s Hs. rewrite (oi_syms _ _ Hi). apply elem_of_app. left.
      apply elem_of_concat. exists (def_symbol_names def). split; [done|].
      apply list_elem_of_fmap. eauto. }
    unfold def_symbol_names in Hsub. destruct (d_decl def) as [fd|dd|sd] eqn:Ed; cbn.
    + apply Hsym; [done|]. apply Hsub. rewrite Hn. set_solver.
    + apply Hsym; [done|]. apply Hsub. rewrite Hn. set_solver.
    + assert (b_name b ∈ as_name <$> g_secs g) as Hs.
      { rewrite (oi_secs _ _ Hi). apply list_elem_of_fmap. exists def. split; [|done].
        unfold sec_name, section_name. rewrite Ed. by destruct (d_data def). }
      destruct (index_of_elem _ _ Hs) as [i ->]. cbn. eauto.
Qed.

(** A defined end of a link is not an import of the object. *)
Lemma link_ends_defined c g l :
  contents_wf c → obj_inv c g → l ∈ c_links c →
  ∀ b, b = l_to l ∨ b = l_from l → ∀ d, b_decl b = Defined d →
  ∀ sb, al_get (g_syms g) (b_name b) = Some sb → sb_typ sb ≠ ST_Import.
Proof.
  intros Hc Hi Hl b Hb d Hd sb Hsb Hti. apply al_get_elem in Hsb.
  pose proof (oi_imports _ _ Hi _ Hsb Hti) as Him. cbn in Him.
  assert (bound_in c b) as Hbd
    by (destruct Hb as [->| ->]; [apply (cw_links_to _ Hc) | apply (cw_links_from _ Hc)]; done).
  unfold bound_in in Hbd. rewrite Hd in Hbd. destruct Hbd as (def & Hin & Hn & _).
  apply (cw_disjoint _ Hc _ Him). apply list_elem_of_fmap. eauto.
Qed.

Lemma obj_inv_few ctx name c g :
  elf_ready ctx name c → obj_inv c g → zlen (g_secs g) + 4 < 2 ^ 32 ∧ zlen (g_syms g) < 2 ^ 32.
Proof.
  intros Hrd Hi. pose proof (er_few_sections _ _ _ Hrd). pose proof (er_few_symbols _ _ _ Hrd).
  pose proof (f_equal length (oi_secs _ _ Hi)) as E1. pose proof (f_equal length (oi_syms _ _ Hi)) as E2.
  rewrite !length_fmap in E1. rewrite !length_fmap in E2. unfold zlen in *. lia.
Qed.

Lemma abs_link_ok {E} ctx c g l :
  contents_wf c → obj_inv c g → l ∈ c_links c → is_ok (link_reloc (E:=unit) ctx l) = true →
  ∃ g', abs_link (E:=E) ctx g l = Ok g'.
Proof.
  intros Hc Hi Hl Hrel. unfold abs_link.
  destruct (bound_found c g (l_to l) Hc Hi (cw_links_to _ Hc _ Hl)) as [[ti ts] ->].
  destruct (bound_found c g (l_from l) Hc Hi (cw_links_from _ Hc _ Hl)) as [[fi fs] ->].
  cbn [expect obind]. unfold link_reloc in *.
  destruct (l_reloc l); [|cbn; eauto|].
  - destruct (b_decl (l_from l)) as [|[]]; try done;
      destruct (b_decl (l_to l)) as [[]|[]]; try done; try destruct (ctx_is_big ctx); cbn; eauto.
  - repeat (case_match; try done); cbn; eauto.
Qed.
End AbsObject.

(** ** Running the backend *)
Lemma ofold_fmap_Ok {E A S} (f : S → A → outcome E S) l : ∀ s,
  ofold (fun s x => let! y := x in f s y) s (Ok <$> l) = ofold f s l.
Proof. induction l as [|x l IH]; intros s; cbn; [done|]. destruct (f s x); cbn; auto. Qed.

Section Build.
Context {TL : TargetLexicon} {SI : StringInterner} {IM : IndexMapOps} {G : GoblinElf} {P : Profile}.
Context {SIL : StringInternerLaws SI} {IML : IndexMapLaws IM} {GL : GoblinElfLaws G}.
Implicit Types (g : AbsElf) (e : Elf).

(** *** Fields that no operation changes *)
Definition elf_const e : string * Ctx * Architecture := (e_name e, e_ctx e, e_architecture e).

Lemma new_string_const e n : elf_const (new_string e n).1.1 = elf_const e.
Proof. unfold new_string. destruct (si_get_or_intern _ _). by destruct (e_offsets e !! _). Qed.

Lemma add_section_const {E} e n b e' k i :
  add_section (E:=E) e n b = Ok (e', k, i) → elf_const e' = elf_const e.
Proof.
  unfold add_section. pose proof (new_string_const e n) as Hc.
  destruct (new_string e n) as [[e1 idx] off]. cbn in Hc. rewrite <- Hc.
  unfold section_index. destruct (debug_assert _ _); cbn; [|done..]. by intros [= <- _ _].
Qed.

Lemma add_progbits_const {E} e n b bs e' i :
  add_progbits (E:=E) e n b bs = Ok (e', i) → elf_const e' = elf_const e.
Proof.
  unfold add_progbits. destruct (add_section e n b) as [[[e1 k] sh]| |] eqn:E1; cbn; [|done..].
  intros [= <- _]. by apply add_section_const in E1 as <-.
Qed.

Lemma add_section_symbols_const {E} syms : ∀ e shndx e',
  add_section_symbols (E:=E) e shndx syms = Ok e' → elf_const e' = elf_const e.
Proof.
  unfold add_section_symbols.
  induction syms as [|[s v] syms IH]; intros e shndx e'; cbn [ofold]; [by intros [= ->]|].
  pose proof (new_string_const e s) as Hc. destruct (new_string e s) as [[e1 idx] off].
  cbn in Hc. unfold section_index at 1. destruct (debug_assert _ _); cbn [obind]; [|done..].
  intros H. apply IH in H. rewrite H, <- Hc. done.
Qed.

Lemma add_definition_const {E} e d e' :
  add_definition (E:=E) e d = Ok e' → elf_const e' = elf_const e.
Proof.
  unfold add_definition. destruct (section_name d) as [n| |]; cbn [obind]; [|done..].
  assert (∀ e1 sh, match d_data d with
    | Blob bytes => add_progbits (E:=E) e n (definition_section d) bytes
    | ZeroInit _ => let! '(e, _, shndx) := add_section e n (definition_section d) in Ok (e, shndx)
    end = Ok (e1, sh) → elf_const e1 = elf_const e) as Hs.
  { intros e1 sh. destruct (d_data d); [apply add_progbits_const|].
    destruct (add_section e n _) as [[[e2 k] sh2]| |] eqn:E1; cbn [obind]; [|done..].
    intros [= <- _]. by eapply add_section_const. }
  destruct (match d_data d with Blob _ => _ | ZeroInit _ => _ end) as [[e1 sh]| |]; [|done..].
  cbn [obind]. rewrite <- (Hs e1 sh eq_refl).
  pose proof (new_string_const e1 (d_name d)) as Hc.
  destruct (d_decl d) as [fd|dd|sd]; [| |apply add_section_symbols_const].
  all: destruct (new_string e1 (d_name d)) as [[e2 idx] off]; cbn in Hc; rewrite <- Hc;
    unfold section_index; destruct (debug_assert _ _); cbn [obind]; [|done..];
    intros [= <-]; by destruct (negb _).
Qed.

Lemma elf_import_const e n k : elf_const (elf_import e n k) = elf_const e.
Proof.
  unfold elf_import. pose proof (new_string_const e n) as Hc.
  by destruct (new_string e n) as [[e1 idx] off].
Qed.

Lemma add_reloc_const {E} e r sh e' :
  add_reloc (E:=E) e r sh = Ok e' → elf_const e' = elf_const e.
Proof.
  unfold add_reloc. destruct (im_get _ _); [by intros [= <-]|].
  destruct (im_get_index _ _) as [[k sec]|]; cbn [obind expect]; [|done].
  destruct (si_resolve _ _) as [n|]; cbn [obind expect]; [|done].
  pose proof (new_string_const e (".rela" +:+ n)) as Hc.
  destruct (new_string e _) as [[e1 idx] off]. by intros [= <-].
Qed.

Lemma link_end_const {E} e b m1 m2 e' i sh :
  link_end (E:=E) e b m1 m2 = Ok (e', i, sh) → elf_const e' = elf_const e.
Proof.
  unfold link_end. destruct (si_get_or_intern _ _) as [t k]. destruct (is_section _).
  - destruct (im_get_full _ _) as [[[]]|]; cbn; [|done]. by intros [= <- _ _].
  - destruct (im_get_full _ _) as [[[]]|]; cbn; [|done]. by intros [= <- _ _].
Qed.

Lemma elf_link_const {E} e l e' : elf_link (E:=E) e l = Ok e' → elf_const e' = elf_const e.
Proof.
  unfold elf_link. destruct (link_end e _ _ _) as [[[e1 i1] s1]| |] eqn:E1; cbn [obind]; [|done..].
  destruct (link_end e1 _ _ _) as [[[e2 i2] s2]| |] eqn:E2; cbn [obind]; [|done..].
  destruct (link_reloc _ _) as [[]| |]; cbn [obind]; [|done..].
  intros H%add_reloc_const. apply link_end_const in E1, E2. congruence.
Qed.

(** *** The three loops of [to_bytes] *)
Lemma section_name_ok {E} d :
  is_data (d_decl d) = true ∨ is_zero_init (d_data d) = false →
  section_name (E:=E) d = Ok (sec_name d).
Proof.
  unfold sec_name, section_name. destruct (d_data d), (d_decl d); cbn; try done.
  by intros [?|?].
Qed.

Lemma add_section_strings {E} e n b e' k i :
  add_section (E:=E) e n b = Ok (e', k, i) →
  si_strings (e_strings e') = intern n (si_strings (e_strings e)).
Proof.
  unfold add_section. pose proof (new_string_strings e n) as Hc.
  destruct (new_string e n) as [[e1 idx] off]. cbn [fst] in Hc. rewrite <- Hc.
  unfold section_index. destruct (debug_assert _ _); cbn [obind]; [|done..]. by intros [= <- _ _].
Qed.

Lemma add_section_symbols_strings {E} syms : ∀ e shndx e',
  add_section_symbols (E:=E) e shndx syms = Ok e' →
  si_strings (e_strings e') = intern_all syms.*1 (si_strings (e_strings e)).
Proof.
  unfold add_section_symbols.
  induction syms as [|[s v] syms IH]; intros e shndx e'; cbn [ofold]; [by intros [= ->]|].
  pose proof (new_string_strings e s) as Hc. destruct (new_string e s) as [[e1 idx] off].
  cbn [fst] in Hc. unfold section_index at 1. destruct (debug_assert _ _); cbn [obind]; [|done..].
  intros H. apply IH in H. cbn [e_strings set_symbols] in H. rewrite Hc in H. exact H.
Qed.

Lemma add_definition_section_strings {E} e d n e1 sh :
  match d_data d with
  | Blob bytes => add_progbits (E:=E) e n (definition_section d) bytes
  | ZeroInit _ => let! '(e, _, shndx) := add_section e n (definition_section d) in Ok (e, shndx)
  end = Ok (e1, sh) →
  si_strings (e_strings e1) = intern n (si_strings (e_strings e)).
Proof.
  unfold add_progbits.
  destruct (add_section e n _) as [[[e2 k] sh2]| |] eqn:E1; cbn [obind]; [|by destruct (d_data d)..].
  apply add_section_strings in E1. by destruct (d_data d); intros [= <- _].
Qed.

Lemma add_definition_strings {E} e d e' :
  add_definition (E:=E) e d = Ok e' →
  section_name (E:=E) d = Ok (sec_name d) →
  si_strings (e_strings e') = intern_all (def_names d) (si_strings (e_strings e)).
Proof.
  unfold add_definition. intros H Hn. rewrite Hn in H. cbn [obind] in H.
  pose proof (add_definition_section_strings (E:=E) e d (sec_name d)) as Hs.
  destruct (match d_data d with Blob _ => _ | ZeroInit _ => _ end) as [[e1 sh]| |]; [|done..].
  cbn [obind] in H. specialize (Hs e1 sh eq_refl). unfold def_names, def_symbol_names. cbn [intern_all fold_left].
  rewrite <- Hs. pose proof (new_string_strings e1 (d_name d)) as Hc.
  destruct (d_decl d) as [fd|dd|sd]; [| |by apply add_section_symbols_strings in H].
  all: destruct (new_string e1 (d_name d)) as [[e2 idx] off]; cbn [fst] in Hc; cbn [fold_left];
    rewrite <- Hc; revert H;
    unfold section_index; destruct (debug_assert _ _); cbn [obind]; [|done..];
    intros [= <-]; by destruct (negb _).
Qed.

Lemma elf_import_strings e n k :
  si_strings (e_strings (elf_import e n k)) = intern n (si_strings (e_strings e)).
Proof.
  unfold elf_import. pose proof (new_string_strings e n) as Hc.
  by destruct (new_string e n) as [[e1 idx] off].
Qed.

Lemma Elf_new_strings a :
  si_strings (e_strings (Elf_new a)) = intern_all [".strtab"; ".symtab"; a_name a]%string [].
Proof.
  unfold Elf_new, push_strtab.
  destruct (si_get_or_intern si_new _) as [t1 k1] eqn:E1.
  destruct (si_get_or_intern t1 _) as [t2 k2] eqn:E2.
  destruct (si_get_or_intern t2 _) as [t3 k3] eqn:E3. cbn [e_strings].
  apply get_or_intern_spec in E1 as [E1 _], E2 as [E2 _], E3 as [E3 _].
  rewrite E3, E2, E1. unfold si_strings. by rewrite si_new_iter.
Qed.

Lemma definitions_repr {E} ds : ∀ g e,
  repr g e → (∀ d, d ∈ ds → is_data (d_decl d) = true ∨ is_zero_init (d_data d) = false) →
  NoDup ((as_name <$> g_secs g) ++ (sec_name <$> ds)) →
  NoDup ((g_syms g).*1 ++ concat (def_symbol_names <$> ds)) →
  zlen (g_secs g) + zlen ds + 4 < 2 ^ 32 →
  ∃ e', ofold (add_definition (E:=E)) e ds = Ok e' ∧ elf_const e' = elf_const e ∧
    repr (abs_definitions (e_ctx e) ds g) e' ∧
    si_strings (e_strings e') = intern_all (concat (def_names <$> ds)) (si_strings (e_strings e)).
Proof.
  induction ds as [|d ds IH]; intros g e Hr Hz Hn1 Hn2 Hlen; cbn [ofold].
  { exists e. done. }
  cbn in Hn1, Hn2. rewrite zlen_cons in Hlen. pose proof (zlen_nonneg ds).
  assert (section_name (E:=E) d = Ok (sec_name d)) as Hsn by (apply section_name_ok, Hz; set_solver).
  destruct (add_definition_repr (E:=E) g e d (sec_name d) Hr) as (e1 & E1 & Hc & Hr1).
  - apply Hsn.
  - apply NoDup_app in Hn1 as (_ & Hd & _). intros Hin. apply (Hd _ Hin). set_solver.
  - lia.
  - rewrite def_symbols_names, app_assoc in *. by apply NoDup_app in Hn2 as (? & _).
  - rewrite E1. cbn [obind]. apply add_definition_const in E1 as Hk.
    apply add_definition_strings in E1 as Hst; [|done].
    destruct (IH _ e1 Hr1) as (e' & He & Hk' & Hr' & Hst').
    + intros d' Hd'. apply Hz. set_solver.
    + cbn. rewrite fmap_app. cbn. by rewrite <- app_assoc.
    + cbn. rewrite fmap_app, def_symbols_names. by rewrite <- app_assoc.
    + cbn [g_secs abs_add_definition]. rewrite zlen_app. change (zlen [_]) with 1. lia.
    + exists e'. split; [done|]. split; [congruence|]. rewrite Hc in Hr'. split; [exact Hr'|].
      rewrite Hst', Hst. cbn [fmap list_fmap concat]. by rewrite intern_all_app.
Qed.

Lemma imports_repr {E} ims : ∀ g e,
  repr g e → NoDup ((g_syms g).*1 ++ ims.*1) →
  ∃ e', ofold (E:=E) (fun e '(i, k) => Ok (elf_import e i k)) e ims = Ok e' ∧
    elf_const e' = elf_const e ∧ repr (abs_imports ims g) e' ∧
    si_strings (e_strings e') = intern_all ims.*1 (si_strings (e_strings e)).
Proof.
  induction ims as [|[n k] ims IH]; intros g e Hr Hnd; cbn [ofold obind]; [by exists e|].
  cbn in Hnd. apply NoDup_app in Hnd as Hnd'. destruct Hnd' as (_ & Hd & _).
  destruct (elf_import_repr g e n k Hr) as [Hr1 _].
  { intros Hin. apply (Hd _ Hin). set_solver. }
  destruct (IH _ _ Hr1) as (e' & He & Hk & Hr' & Hst).
  { cbn. rewrite fmap_app. cbn. by rewrite <- app_assoc. }
  exists e'. split; [done|]. split; [rewrite Hk; apply elf_import_const|]. split; [done|].
  by rewrite Hst, elf_import_strings.
Qed.

Lemma links_repr {E} c ctx base ls : ∀ g e,
  contents_wf c → elf_ready ctx (e_name e) c → e_ctx e = ctx →
  (∀ l, l ∈ ls → l ∈ c_links c) → obj_inv c g → repr g e →
  si_strings (e_strings e) = intern_all (rela_name g <$> (g_rels g).*1) base →
  ∃ g' e', ofold (abs_link (E:=E) ctx) g ls = Ok g' ∧ ofold (elf_link (E:=E)) e ls = Ok e' ∧
    elf_const e' = elf_const e ∧ obj_inv c g' ∧ repr g' e' ∧
    si_strings (e_strings e') = intern_all (rela_name g' <$> (g_rels g').*1) base.
Proof.
  induction ls as [|l ls IH]; intros g e Hc Hrd Hctx Hsub Hi Hr Hst; cbn [ofold]; [by eauto 10|].
  assert (l ∈ c_links c) as Hl by (apply Hsub; set_solver).
  destruct (abs_link_ok (E:=E) ctx c g l Hc Hi Hl (er_links _ _ _ Hrd l Hl)) as [g1 Hg1].
  destruct (elf_link_repr (E:=E) g e l g1 Hr (oi_placed _ _ Hi))
    as (e1 & sh & r & He1 & Hc1 & Hr1 & Hg & Hra & Hst1).
  - by eapply link_ends_defined.
  - by apply (cw_from_defined _ Hc).
  - apply (obj_inv_few ctx (e_name e) c g Hrd Hi).
  - apply (obj_inv_few ctx (e_name e) c g Hrd Hi).
  - by rewrite Hctx.
  - rewrite Hg1, He1. cbn [obind]. apply elf_link_const in He1 as Hk.
    destruct (IH g1 e1) as (g' & e' & Hg' & He' & Hk' & Hi' & Hr' & Hst'); try done.
    + assert (e_name e1 = e_name e) as -> by (unfold elf_const in Hk; congruence). done.
    + congruence.
    + intros l' Hl'. apply Hsub. set_solver.
    + rewrite Hg. by apply abs_add_reloc_inv.
    + rewrite Hst1, Hst, Hg. exact (abs_add_reloc_keys g sh r base).
    + exists g', e'. do 2 (split; [done|]). split; [congruence | by split].
Qed.

Lemma Elf_new_const a :
  elf_const (Elf_new a) = (a_name a, make_ctx (a_target a), architecture (a_target a)).
Proof. unfold Elf_new, push_strtab. by repeat destruct (si_get_or_intern _ _). Qed.

(** The backend builds the object of the artifact. *)
Lemma build_ok {E} a :
  wf a → contents_wf (contents a) → elf_ready (make_ctx (a_target a)) (a_name a) (contents a) →
  ∃ g e, abs_object (E:=E) (make_ctx (a_target a)) (contents a) = Ok g ∧
    build (E:=E) a = Ok e ∧ obj_inv (contents a) g ∧ repr g e ∧
    si_strings (e_strings e) = object_strings (a_name a) (contents a) g ∧
    elf_const e = (a_name a, make_ctx (a_target a), architecture (a_target a)).
Proof.
  intros Hwf Hc Hrd. destruct (er_name _ _ _ Hrd) as [Hn1 Hn2].
  destruct (Elf_new_repr a Hn1 Hn2) as [Hr0 Hctx].
  pose proof (Elf_new_const a) as Hk0.
  pose proof (er_symbols _ _ _ Hrd) as Hsy. unfold symbol_names in Hsy.
  pose proof (er_few_sections _ _ _ Hrd) as Hfew.
  destruct (definitions_repr (E:=E) (c_defs (contents a)) abs_empty (Elf_new a) Hr0)
    as (e1 & He1 & Hk1 & Hr1 & Hst1).
  { apply (cw_zero_init _ Hc). }
  { apply (er_sections _ _ _ Hrd). }
  { by apply NoDup_app in Hsy as (? & _). }
  { exact Hfew. }
  rewrite Hctx in Hr1.
  destruct (imports_repr (E:=E) (c_imports (contents a)) _ e1 Hr1)
    as (e2 & He2 & Hk2 & Hr2 & Hst2).
  { destruct (abs_definitions_spec (make_ctx (a_target a)) (c_defs (contents a)) abs_empty)
      as (_ & -> & _). exact Hsy. }
  assert (elf_const e2 = (a_name a, make_ctx (a_target a), architecture (a_target a))) as Hk2' by congruence.
  unfold elf_const in Hk2'. injection Hk2' as Hnm Hcx Har.
  destruct (links_repr (E:=E) (contents a) (make_ctx (a_target a)) (si_strings (e_strings e2))
    (c_links (contents a))
    (abs_imports (c_imports (contents a))
       (abs_definitions (make_ctx (a_target a)) (c_defs (contents a)) abs_empty)) e2 Hc)
    as (g & e & Hg & He & Hk & Hi & Hr & Hst); try done; [by rewrite Hnm | apply abs_symbols_inv | |].
  { rewrite abs_imports_spec. cbn [g_rels]. by rewrite abs_definitions_rels. }
  exists g, e. split; [exact Hg|].
  split; [|split; [done|split; [done|split; [|congruence]]]];
    [|by rewrite Hst, Hst2, Hst1, Elf_new_strings; unfold object_strings; rewrite !intern_all_app].
  unfold build. rewrite definitions_contents, ofold_fmap_Ok, He1 by done. cbn [obind].
  rewrite imports_contents by done.
  rewrite (ofold_fmap_Ok (E:=E) (fun e '(i, k) => Ok (elf_import e i k))), He2. cbn [obind].
  by rewrite links_contents, ofold_fmap_Ok by done.
Qed.
End Build.
