(* ===== verification/ElfLayout.v ===== *)
(** * The layout of the ELF file

    The pieces of the file and where they are, computed from the abstract
    object without machine arithmetic; [compute_offsets_ok] shows that the
    backend computes the same offsets whenever the file is smaller than
    2^64 bytes. *)

From stdpp Require Import base numbers list gmap strings.
From Stdlib Require Import ZArith Lia Strings.Byte.
From S2P Require Import Prelude Std External Decl Artifact ArtifactInv Target ElfBuild ElfState.
From S2P Require Import ElfWrite ElfRepr.

(** ** Alignment *)
Definition round_up (x k : Z) : Z := x + (- x) mod k.

Lemma round_up_spec x k :
  0 < k → x ≤ round_up x k < x + k ∧ round_up x k mod k = 0.
Proof.
  intros Hk. unfold round_up. pose proof (Z.mod_pos_bound (- x) k Hk). split; [lia|].
  rewrite Zplus_mod_idemp_r. by replace (x + - x) with 0 by lia.
Qed.

Lemma round_up_least x k y : 0 < k → x ≤ y → y mod k = 0 → round_up x k ≤ y.
Proof.
  intros Hk Hy Hm. destruct (round_up_spec x k Hk) as [Hr Hrm].
  apply Z.mod_divide in Hm as [q ->]; [|lia]. apply Z.mod_divide in Hrm as [r Hr']; [|lia].
  rewrite Hr' in *. assert (r < q + 1) by (apply (Z.mul_lt_mono_pos_r k); lia).
  apply Z.mul_le_mono_nonneg_r; lia.
Qed.

(** [Elf::align] rounds up, as long as the result fits. *)
Lemma align_round_up x k : 0 < k → 0 ≤ x → round_up x k < 2 ^ 64 → align x k = round_up x k.
Proof.
  intros Hk Hx Hlt. unfold align, round_up in *. destruct (Z.eqb_spec (x mod k) 0) as [E|E]; cbn.
  - rewrite Z.mod_opp_l_z by lia. lia.
  - rewrite Z.mod_opp_l_nz in * by lia. apply wrap_small. unfold in_u.
    pose proof (Z.mod_pos_bound x k Hk). lia.
Qed.

(** ** The pieces *)

(** Where a name is in the string table. *)
Definition name_off (strs : list string) (n : string) : Z :=
  match index_of n strs with Some i => strtab_pos strs i | None => 0 end.

Definition strtab_fits (strs : list string) : Prop := strtab_len strs < 2 ^ 64.

Lemma strtab_pos_bound strs i : 0 ≤ strtab_pos strs i ≤ strtab_len strs.
Proof.
  unfold strtab_pos. rewrite <- (take_drop (Z.to_nat i) strs) at 3.
  unfold strtab_len. rewrite fmap_app, zsum_app.
  assert (∀ l : list string, 0 ≤ zsum ((fun s => str_len s + 1) <$> l)) as H.
  { induction l as [|s l IH]; cbn; [lia|]. pose proof (str_len_nonneg s). lia. }
  pose proof (H (take (Z.to_nat i) strs)). pose proof (H (drop (Z.to_nat i) strs)). lia.
Qed.

Lemma name_ref_off strs n k off :
  NoDup strs → strtab_fits strs → name_ref strs n k off → off = name_off strs n.
Proof.
  intros Hnd Hfit [Hz ->]. unfold name_off. rewrite (index_of_get_NoDup _ _ _ Hnd Hz).
  apply wrap_small. pose proof (strtab_pos_bound strs k). unfold strtab_fits in Hfit.
  unfold in_u. lia.
Qed.

Section Layout.
Context {SI : StringInterner} {IM : IndexMapOps} {G : GoblinElf} {P : Profile}.

(** The symbol table: the null symbol, the file, the sections, the symbols. *)
Definition special_symbols (strs : list string) (name : string) : list Sym :=
  [sym_default; SymbolBuilder_create (mkSymbolBuilder (name_off strs name) 0 ST_File 0 0)].

Definition section_symbol (i : nat) : Sym :=
  SymbolBuilder_create (mkSymbolBuilder 0 0 ST_Section (Z.of_nat i + 3) 0).

Definition object_symbol (strs : list string) (p : string * SymbolBuilder) : Sym :=
  SymbolBuilder_create (symbol_name_offset (name_off strs p.1) p.2).

Definition local_and_other_symbols (strs : list string) (g : AbsElf) : list Sym :=
  imap (fun i _ => section_symbol i) (g_secs g) ++ (object_symbol strs <$> g_syms g).

Definition symbol_count (g : AbsElf) : Z := 2 + zlen (g_secs g) + zlen (g_syms g).

Definition reloc_count (g : AbsElf) : Z := zsum ((fun r => zlen r.2) <$> g_rels g).

(** Whether section indices may exceed what a symbol can hold. *)
Definition needs_shndx (g : AbsElf) : bool :=
  SHN_LORESERVE <=? 4 + zlen (g_secs g) + zlen (g_rels g).

Definition header_count (g : AbsElf) : Z :=
  4 + zlen (g_secs g) + zlen (g_rels g) + (if needs_shndx g then 1 else 0).

(** The offsets of the pieces. *)
Definition off_strtab (ctx : Ctx) (g : AbsElf) : Z := abs_end ctx g.
Definition off_symtab ctx strs g : Z := round_up (off_strtab ctx g + strtab_len strs) (ctx_size ctx).
Definition end_symtab ctx strs g : Z :=
  off_symtab ctx strs g + symbol_count g * sym_size (container ctx).
Definition off_shndx ctx strs g : Z :=
  if needs_shndx g then round_up (end_symtab ctx strs g) 4 else end_symtab ctx strs g.
Definition size_shndx g : Z := if needs_shndx g then symbol_count g * 4 else 0.
Definition off_reloc ctx strs g : Z :=
  round_up (off_shndx ctx strs g + size_shndx g) (ctx_size ctx).
Definition off_sh ctx strs g : Z :=
  round_up (off_reloc ctx strs g + reloc_count g * reloc_size true ctx) (ctx_size ctx).
Definition file_len ctx strs g : Z := off_sh ctx strs g + header_count g * shdr_size ctx.

Definition layout ctx strs g (note_name shndx_name : Z) : Layout :=
  mkLayout (symbol_count g) (symbol_count g * sym_size (container ctx)) (needs_shndx g)
    (size_shndx g) shndx_name (reloc_count g * reloc_size true ctx) note_name
    (off_strtab ctx g) (off_symtab ctx strs g) (off_shndx ctx strs g) (off_reloc ctx strs g)
    (off_sh ctx strs g).

Context {SIL : StringInternerLaws SI} {IML : IndexMapLaws IM} {GL : GoblinElfLaws G}.
Implicit Types (g : AbsElf) (e : Elf).

(** The pieces follow each other. *)
Lemma offsets_ordered ctx strs g :
  0 < ctx_size ctx ≤ 8 ∧ 0 < abs_end ctx g ∧
  0 ≤ off_strtab ctx g ∧ 1 ≤ strtab_len strs ∧
  off_strtab ctx g + strtab_len strs ≤ off_symtab ctx strs g ∧
  2 ≤ symbol_count g ≤ symbol_count g * sym_size (container ctx) ∧
  off_symtab ctx strs g + symbol_count g * sym_size (container ctx) = end_symtab ctx strs g ∧
  end_symtab ctx strs g ≤ off_shndx ctx strs g ∧ 0 ≤ size_shndx g ∧
  off_shndx ctx strs g + size_shndx g ≤ off_reloc ctx strs g ∧
  0 ≤ reloc_count g ≤ reloc_count g * reloc_size true ctx ∧
  off_reloc ctx strs g + reloc_count g * reloc_size true ctx ≤ off_sh ctx strs g ∧
  4 ≤ header_count g ≤ header_count g * shdr_size ctx.
Proof.
  pose proof (zlen_nonneg (g_secs g)). pose proof (zlen_nonneg (g_syms g)).
  pose proof (zlen_nonneg (g_rels g)).
  assert (0 < ctx_size ctx ≤ 8) as Hk by (rewrite ctx_size_spec; destruct (container ctx); lia).
  assert (0 < abs_end ctx g) as Ha.
  { unfold abs_end. pose proof (zsum_nonneg zlen (g_code g) zlen_nonneg).
    rewrite header_size_spec. destruct (container ctx); lia. }
  assert (0 ≤ reloc_count g) as Hrc by (apply zsum_nonneg; intros; apply zlen_nonneg).
  assert (1 ≤ strtab_len strs) as Hst.
  { unfold strtab_len. pose proof (zsum_nonneg (fun s => str_len s + 1) strs) as Hz.
    specialize (Hz (fun s => ltac:(pose proof (str_len_nonneg s); lia))). lia. }
  assert (1 ≤ sym_size (container ctx)) by (rewrite sym_size_spec; destruct (container ctx); lia).
  assert (1 ≤ reloc_size true ctx) by (rewrite reloc_size_spec; destruct (container ctx); lia).
  assert (1 ≤ shdr_size ctx) by (rewrite shdr_size_spec; destruct (container ctx); lia).
  assert (4 ≤ header_count g) by (unfold header_count; destruct (needs_shndx g); lia).
  assert (2 ≤ symbol_count g) by (unfold symbol_count; lia).
  pose proof (round_up_spec (off_strtab ctx g + strtab_len strs) (ctx_size ctx)).
  pose proof (round_up_spec (end_symtab ctx strs g) 4).
  pose proof (round_up_spec (off_shndx ctx strs g + size_shndx g) (ctx_size ctx)).
  pose proof (round_up_spec (off_reloc ctx strs g + reloc_count g * reloc_size true ctx) (ctx_size ctx)).
  assert (0 ≤ size_shndx g) by (unfold size_shndx; destruct (needs_shndx g); lia).
  assert (end_symtab ctx strs g ≤ off_shndx ctx strs g).
  { unfold off_shndx. destruct (needs_shndx g); lia. }
  change (round_up (off_strtab ctx g + strtab_len strs) (ctx_size ctx))
    with (off_symtab ctx strs g) in *.
  change (round_up (off_shndx ctx strs g + size_shndx g) (ctx_size ctx))
    with (off_reloc ctx strs g) in *.
  change (round_up (off_reloc ctx strs g + reloc_count g * reloc_size true ctx) (ctx_size ctx))
    with (off_sh ctx strs g) in *.
  change (off_strtab ctx g) with (abs_end ctx g) in *. unfold end_symtab in *.
  repeat split; try lia; nia.
Qed.

(** ** What [compute_offsets] computes *)

(** The string table after the names that [write] itself adds. *)
Definition final_strings (g : AbsElf) (strs : list string) : list string :=
  intern ".note.GNU-stack" (if needs_shndx g then intern ".symtab_shndx" strs else strs).

Lemma new_string_nsections x e n :
  new_string (set_nsections x e) n =
  (set_nsections x (new_string e n).1.1, (new_string e n).1.2, (new_string e n).2).
Proof.
  unfold new_string. cbn. destruct (si_get_or_intern _ _) as [t k]. by destruct (e_offsets e !! k).
Qed.

Lemma reloc_total_acc ctx strs secs l m : ∀ acc,
  Forall2 (rela_repr ctx strs secs) l m →
  fold_left (fun acc '(_, (_, rels)) => zlen rels + acc) m acc =
  acc + zsum ((fun r => zlen r.2) <$> l).
Proof.
  intros acc HF. revert acc.
  induction HF as [|r [k [h rs]] l m (_ & E & _) _ IH]; intros acc; cbn; [lia|].
  rewrite IH. cbn in E. subst rs. lia.
Qed.

(** The offsets, given the string table the names ended up in. *)
Lemma offsets_ok g e strs note shn :
  repr g e → strs = si_strings (e_strings e) → file_len (e_ctx e) strs g < 2 ^ 64 →
  let symtab_offset := align (u64 (e_sizeof_bits e + e_sizeof_strtab e)) (ctx_size (e_ctx e)) in
  let count := u64 (im_len (e_symbols e) + zlen (e_special_symbols e) + im_len (e_sections e)) in
  let sizeof_symtab := u64 (count * sym_size (container (e_ctx e))) in
  let sizeof_shndx := if needs_shndx g then u64 (count * 4) else 0 in
  let sizeof_relocs := u64 (fold_left (fun acc '(_, (_, rels)) => zlen rels + acc)
    (im_iter (e_relocations e)) 0 * reloc_size true (e_ctx e)) in
  let shndx_offset := u64 (symtab_offset + sizeof_symtab) in
  let shndx_offset := if needs_shndx g then align shndx_offset 4 else shndx_offset in
  let reloc_offset := align (u64 (shndx_offset + sizeof_shndx)) (ctx_size (e_ctx e)) in
  let sh_offset := align (u64 (reloc_offset + sizeof_relocs)) (ctx_size (e_ctx e)) in
  mkLayout count sizeof_symtab (needs_shndx g) sizeof_shndx shn sizeof_relocs note
    (e_sizeof_bits e) symtab_offset shndx_offset reloc_offset sh_offset =
  layout (e_ctx e) strs g note shn.
Proof.
  intros Hr -> Hlt.
  pose proof (offsets_ordered (e_ctx e) (si_strings (e_strings e)) g) as
    (Hw & Ha & H0 & H1 & H2 & H3 & H4 & H5 & H6 & H7 & H8 & H9 & H10).
  unfold file_len in Hlt. set (strs := si_strings (e_strings e)) in *.
  set (ctx := e_ctx e) in *.
  assert (Forall2 (symbol_repr strs) (g_syms g) (im_iter (e_symbols e))) as Hsy by apply Hr.
  apply Forall2_length in Hsy.
  assert (u64 (im_len (e_symbols e) + zlen (e_special_symbols e) + im_len (e_sections e))
          = symbol_count g) as ->.
  { rewrite !im_len_spec, (special_len _ _ Hr), (re_secs_len _ _ Hr). unfold symbol_count, zlen in *.
    rewrite wrap_small by (unfold in_u; lia). lia. }
  rewrite (reloc_total_acc _ _ _ _ _ 0 (re_rels _ _ Hr)), Z.add_0_l.
  change (zsum _) with (reloc_count g).
  rewrite (re_bits _ _ Hr), (so_size _ _ _ (re_strtab _ _ Hr)). fold strs ctx.
  change (header_size ctx + zsum (zlen <$> g_code g)) with (off_strtab ctx g).
  cbv zeta. rewrite (wrap_add_l 64), wrap_add_r.
  assert (∀ x, 0 ≤ x ≤ file_len ctx strs g → u64 x = x) as Hu.
  { intros x Hx. apply wrap_small. unfold file_len, in_u in *. lia. }
  unfold file_len in Hu.
  rewrite (Hu (off_strtab ctx g + strtab_len strs)), (Hu (off_strtab ctx g)) by lia.
  rewrite align_round_up by (try lia; change (round_up _ _) with (off_symtab ctx strs g); lia).
  change (round_up (off_strtab ctx g + strtab_len strs) _) with (off_symtab ctx strs g).
  rewrite (Hu (symbol_count g * sym_size (container ctx))) by lia. rewrite H4.
  rewrite (Hu (end_symtab ctx strs g)) by lia.
  assert ((if needs_shndx g then align (end_symtab ctx strs g) 4 else end_symtab ctx strs g)
          = off_shndx ctx strs g) as ->.
  { unfold off_shndx in *. destruct (needs_shndx g); [|done]. apply align_round_up; lia. }
  assert ((if needs_shndx g then u64 (symbol_count g * 4) else 0) = size_shndx g) as ->.
  { unfold size_shndx in *. destruct (needs_shndx g); [|done]. apply Hu. lia. }
  rewrite (Hu (off_shndx ctx strs g + size_shndx g)) by lia.
  rewrite (align_round_up (off_shndx ctx strs g + size_shndx g))
    by (try lia; change (round_up _ _) with (off_reloc ctx strs g); lia).
  change (round_up (off_shndx ctx strs g + size_shndx g) _) with (off_reloc ctx strs g).
  rewrite (Hu (reloc_count g * reloc_size true ctx)) by lia.
  rewrite (Hu (off_reloc ctx strs g + reloc_count g * reloc_size true ctx)) by lia.
  rewrite align_round_up by (try lia; change (round_up _ _) with (off_sh ctx strs g); lia).
  reflexivity.
Qed.

Lemma compute_offsets_ok g e :
  repr g e → header_count g < 2 ^ 32 →
  let strs := final_strings g (si_strings (e_strings e)) in
  ∃ t o s k note k' shn,
    si_strings t = strs ∧ repr g (set_strtab t o s e) ∧
    name_ref strs ".note.GNU-stack" k note ∧
    (if needs_shndx g then name_ref strs ".symtab_shndx" k' shn else shn = 0) ∧
    (file_len (e_ctx e) strs g < 2 ^ 64 →
     compute_offsets e =
       (set_nsections (header_count g) (set_strtab t o s e), layout (e_ctx e) strs g note shn)).
Proof.
  intros Hr Hc strs. pose proof (zlen_nonneg (g_secs g)). pose proof (zlen_nonneg (g_rels g)).
  assert (e_nsections e = 4 + zlen (g_secs g) + zlen (g_rels g)) as Hns.
  { rewrite (re_nsections _ _ Hr). apply wrap_small. unfold in_u, header_count in *.
    destruct (needs_shndx g); lia. }
  assert ((SHN_LORESERVE <=? e_nsections e) = needs_shndx g) as Hneed by by rewrite Hns.
  unfold compute_offsets, strs, final_strings, header_count in *. rewrite Hneed.
  destruct (needs_shndx g) eqn:En.
  - rewrite new_string_nsections.
    pose proof (new_string_strings e ".symtab_shndx") as Es1.
    destruct (new_string_repr g e ".symtab_shndx" Hr) as (t1 & o1 & s1 & k1 & f1 & E1 & Hr1 & Hn1).
    rewrite E1 in *. cbn [fst snd] in *. rewrite new_string_nsections.
    pose proof (new_string_strings (set_strtab t1 o1 s1 e) ".note.GNU-stack") as Es2.
    destruct (new_string_repr g _ ".note.GNU-stack" Hr1) as (t2 & o2 & s2 & k2 & f2 & E2 & Hr2 & Hn2).
    rewrite E2 in *. cbn [fst snd] in *. cbn [e_strings set_strtab] in Es1, Es2. rewrite Es1 in Es2.
    exists t2, o2, s2, k2, f2, k1, f1. split; [done|]. split; [done|]. rewrite <- Es2.
    split; [done|]. split.
    { rewrite Es2. destruct (intern_prefix ".note.GNU-stack" (intern ".symtab_shndx" (si_strings (e_strings e)))) as [l ->].
      apply name_ref_app. by rewrite <- Es1. }
    intros Hlt. pose proof (offsets_ok g _ _ f2 f1 Hr2 eq_refl Hlt) as Ho.
    rewrite En in Ho. f_equal; [|exact Ho]. f_equal. rewrite Hns. apply wrap_small. unfold in_u. lia.
  - pose proof (new_string_strings e ".note.GNU-stack") as Es2.
    destruct (new_string_repr g e ".note.GNU-stack" Hr) as (t2 & o2 & s2 & k2 & f2 & E2 & Hr2 & Hn2).
    rewrite E2 in *. cbn [fst snd] in *. cbn [e_strings set_strtab] in Es2.
    exists t2, o2, s2, k2, f2, 0, 0. split; [done|]. split; [done|]. rewrite <- Es2.
    split; [done|]. split; [done|].
    intros Hlt. pose proof (offsets_ok g _ _ f2 0 Hr2 eq_refl Hlt) as Ho.
    rewrite En in Ho. f_equal; [|exact Ho]. rewrite Z.add_0_r, <- Hns. by destruct e.
Qed.
End Layout.
