(* ===== verification/ElfImage.v ===== *)
(** * The bytes of the ELF file

    [elf_image] is the file an abstract object stands for: the header, the
    contents of the sections, the string table, the symbol table, the extended
    section indices when there are more sections than a symbol can name, the
    relocations and the section headers, each at its offset.  [write_ok]
    proves that [Elf::write] produces exactly these bytes: no assertion of
    [write] fails. *)

From stdpp Require Import base numbers list gmap strings.
From Stdlib Require Import ZArith Lia Strings.Byte.
From S2P Require Import Prelude Std External Decl Artifact ArtifactInv Target ElfBuild ElfState.
From S2P Require Import ElfWrite ElfRepr ElfLink ElfLayout.

(** Bytes up to an offset, filled with zeros. *)
Definition pad_to (n : Z) (v : list byte) : list byte := v ++ zeros (n - zlen v).

Lemma pad_to_len n v : zlen v ≤ n → zlen (pad_to n v) = n.
Proof. intros H. unfold pad_to. rewrite zlen_app, zlen_zeros by lia. lia. Qed.

Section Image.
Context {TL : TargetLexicon} {SI : StringInterner} {IM : IndexMapOps} {G : GoblinElf} {P : Profile}.
Context {SC : Scroll} {SCL : ScrollLaws SC}.

(** ** Section headers *)
Definition section_header (ctx : Ctx) (strs : list string) (s : AbsSection) : SectionHeader :=
  shdr_set_offset (u64 (as_offset s))
    (SectionBuilder_create (section_name_offset (name_off strs (as_name s)) (as_builder s)) ctx).

Definition null_header (g : AbsElf) : SectionHeader :=
  if needs_shndx g then shdr_set_size (header_count g) shdr_default else shdr_default.

Definition strtab_header (ctx : Ctx) (strs : list string) (g : AbsElf) : SectionHeader :=
  shdr_set_offset (off_strtab ctx g)
    (SectionBuilder_create (mkSectionBuilder SecStrTab false false false (strtab_len strs)
       (name_off strs ".strtab") None) ctx).

Definition symtab_header (ctx : Ctx) (strs : list string) (g : AbsElf) : SectionHeader :=
  shdr_set_info (u32 (u64 (2 + zlen (g_secs g) + u64 (g_locals g))))
   (shdr_set_link 1 (shdr_set_offset (off_symtab ctx strs g)
    (SectionBuilder_create (mkSectionBuilder SecSymTab false false false
       (symbol_count g * sym_size (container ctx)) (name_off strs ".symtab") None) ctx))).

Definition shndx_header (ctx : Ctx) (strs : list string) (g : AbsElf) : SectionHeader :=
  shdr_set_offset (off_shndx ctx strs g) (shdr_set_link 2
    (SectionBuilder_create (mkSectionBuilder SecSymTabShndx false false false
       (size_shndx g) (name_off strs ".symtab_shndx") None) ctx)).

Definition note_header (ctx : Ctx) (strs : list string) : SectionHeader :=
  SectionBuilder_create (mkSectionBuilder SecBits false false false 0
    (name_off strs ".note.GNU-stack") None) ctx.

Fixpoint rela_headers (ctx : Ctx) (strs : list string) (g : AbsElf) (off : Z)
  (rels : list (Z * list ElfReloc)) : list SectionHeader :=
  match rels with
  | [] => []
  | (shndx, rs) :: rels =>
      shdr_set_offset off (rela_header ctx (name_off strs (rela_name g shndx)) shndx (zlen rs)) ::
      rela_headers ctx strs g (off + zlen rs * reloc_size true ctx) rels
  end.

Definition object_headers (ctx : Ctx) (strs : list string) (g : AbsElf) : list SectionHeader :=
  [null_header g; strtab_header ctx strs g; symtab_header ctx strs g] ++
  (section_header ctx strs <$> g_secs g) ++
  (if needs_shndx g then [shndx_header ctx strs g] else []) ++
  rela_headers ctx strs g (off_reloc ctx strs g) (g_rels g) ++ [note_header ctx strs].

(** ** The file *)
Definition file_header (ctx : Ctx) (machine : Z) (strs : list string) (g : AbsElf) : Header :=
  mkHeader ET_REL machine (off_sh ctx strs g)
    (if needs_shndx g then 0 else u16 (header_count g)) STRTAB_LINK.

Definition all_symbols (strs : list string) (name : string) (g : AbsElf) : list Sym :=
  special_symbols strs name ++ local_and_other_symbols strs g.

Definition symtab_bytes (ctx : Ctx) (strs : list string) (name : string) (g : AbsElf) : list byte :=
  concat ((fun s => ser_sym s ctx) <$> special_symbols strs name) ++
  concat ((fun s => ser_sym (clamp_shndx s) ctx) <$> local_and_other_symbols strs g).

Definition shndx_bytes (ctx : Ctx) (strs : list string) (name : string) (g : AbsElf) : list byte :=
  concat ((fun s => ser_u32 (u32 (st_shndx s)) (le ctx)) <$> all_symbols strs name g).

Definition reloc_bytes (ctx : Ctx) (g : AbsElf) : list byte :=
  concat ((fun r => concat ((fun x => ser_reloc x (true, ctx)) <$> r.2)) <$> g_rels g).

Definition headers_bytes (ctx : Ctx) (strs : list string) (g : AbsElf) : list byte :=
  concat ((fun h => ser_shdr h ctx) <$> object_headers ctx strs g).

(** The file, up to each of its pieces. *)
Definition image_strtab ctx machine strs g : list byte :=
  ser_header (file_header ctx machine strs g) ctx ++ concat (g_code g) ++ strtab_bytes strs.
Definition image_symtab ctx machine strs name g : list byte :=
  pad_to (off_symtab ctx strs g) (image_strtab ctx machine strs g) ++ symtab_bytes ctx strs name g.
Definition image_shndx ctx machine strs name g : list byte :=
  if needs_shndx g then
    pad_to (off_shndx ctx strs g) (image_symtab ctx machine strs name g) ++
    shndx_bytes ctx strs name g
  else image_symtab ctx machine strs name g.
Definition image_reloc ctx machine strs name g : list byte :=
  pad_to (off_reloc ctx strs g) (image_shndx ctx machine strs name g) ++ reloc_bytes ctx g.
Definition elf_image ctx machine strs name g : list byte :=
  pad_to (off_sh ctx strs g) (image_reloc ctx machine strs name g) ++ headers_bytes ctx strs g.

Context {SIL : StringInternerLaws SI} {IML : IndexMapLaws IM} {GL : GoblinElfLaws G}.
Implicit Types (g : AbsElf) (e : Elf).

(** ** Lengths *)
Lemma zlen_other strs g : zlen (local_and_other_symbols strs g) = zlen (g_secs g) + zlen (g_syms g).
Proof.
  unfold local_and_other_symbols. rewrite zlen_app, zlen_fmap. f_equal.
  unfold zlen. by rewrite length_imap.
Qed.

Lemma symtab_bytes_len ctx strs name g :
  zlen (symtab_bytes ctx strs name g) = symbol_count g * sym_size (container ctx).
Proof.
  unfold symtab_bytes. rewrite zlen_app, !(zlen_concat_const _ (sym_size (container ctx))), zlen_other.
  - unfold symbol_count. change (zlen (special_symbols strs name)) with 2. lia.
  - intros. apply ser_sym_len.
  - intros. apply ser_sym_len.
Qed.

Lemma shndx_bytes_len ctx strs name g : zlen (shndx_bytes ctx strs name g) = symbol_count g * 4.
Proof.
  unfold shndx_bytes. rewrite (zlen_concat_const _ 4) by (intros; apply ser_u32_len).
  unfold all_symbols. rewrite zlen_app, zlen_other. unfold symbol_count.
  change (zlen (special_symbols strs name)) with 2. lia.
Qed.

Lemma reloc_bytes_len ctx g : zlen (reloc_bytes ctx g) = reloc_count g * reloc_size true ctx.
Proof.
  unfold reloc_bytes, reloc_count. induction (g_rels g) as [|r l IH]; cbn; [done|].
  rewrite zlen_app, IH, (zlen_concat_const _ (reloc_size true ctx)); [lia|].
  intros. apply ser_reloc_len.
Qed.

Lemma rela_headers_len ctx strs g rels : ∀ off,
  zlen (rela_headers ctx strs g off rels) = zlen rels.
Proof. induction rels as [|[sh rs] rels IH]; intros off; cbn; [done|]. by rewrite !zlen_cons, IH. Qed.

Lemma object_headers_len ctx strs g : zlen (object_headers ctx strs g) = header_count g.
Proof.
  unfold object_headers, header_count. rewrite !zlen_app, zlen_fmap, rela_headers_len.
  change (zlen [_; _; _]) with 3. change (zlen [note_header ctx strs]) with 1.
  destruct (needs_shndx g); [change (zlen [_]) with 1 | rewrite zlen_nil]; lia.
Qed.

Lemma image_strtab_len ctx machine strs g :
  zlen (image_strtab ctx machine strs g) = off_strtab ctx g + strtab_len strs.
Proof.
  unfold image_strtab. rewrite !zlen_app, ser_header_len, strtab_bytes_len, zlen_concat.
  unfold off_strtab, abs_end. lia.
Qed.

Lemma image_symtab_len ctx machine strs name g :
  zlen (image_symtab ctx machine strs name g) = end_symtab ctx strs g.
Proof.
  pose proof (offsets_ordered ctx strs g) as H. unfold image_symtab.
  rewrite zlen_app, pad_to_len, symtab_bytes_len by (rewrite image_strtab_len; lia). lia.
Qed.

Lemma image_shndx_len ctx machine strs name g :
  zlen (image_shndx ctx machine strs name g) = off_shndx ctx strs g + size_shndx g.
Proof.
  pose proof (offsets_ordered ctx strs g) as H.
  unfold image_shndx, size_shndx. destruct (needs_shndx g) eqn:En.
  - rewrite zlen_app, pad_to_len, shndx_bytes_len by (rewrite image_symtab_len; lia). lia.
  - rewrite image_symtab_len. unfold off_shndx. rewrite En. lia.
Qed.

Lemma image_reloc_len ctx machine strs name g :
  zlen (image_reloc ctx machine strs name g) =
  off_reloc ctx strs g + reloc_count g * reloc_size true ctx.
Proof.
  pose proof (offsets_ordered ctx strs g) as H. unfold image_reloc.
  rewrite zlen_app, pad_to_len, reloc_bytes_len by (rewrite image_shndx_len; lia). lia.
Qed.

Lemma elf_image_len ctx machine strs name g :
  zlen (elf_image ctx machine strs name g) = file_len ctx strs g.
Proof.
  pose proof (offsets_ordered ctx strs g) as H. unfold elf_image, file_len, headers_bytes.
  rewrite zlen_app, pad_to_len by (rewrite image_reloc_len; lia).
  rewrite (zlen_concat_const _ (shdr_size ctx)) by (intros; apply ser_shdr_len).
  by rewrite object_headers_len.
Qed.

(** ** The loops of [write] *)
Lemma cur_is_loop {A} (step : Cursor → A → Cursor) (f : A → list byte) l : ∀ c v,
  (∀ c x, step c x = write_all (f x) c) → cur_is c v →
  cur_is (fold_left step l c) (v ++ concat (f <$> l)).
Proof.
  intros c v Hs. revert c v. induction l as [|x l IH]; intros c v Hc; cbn; [by rewrite app_nil_r|].
  rewrite app_assoc. apply IH. rewrite Hs. by apply cur_is_write.
Qed.

Lemma write_strtab_ok e c v :
  cur_is c v → cur_is (write_strtab e c) (v ++ strtab_bytes (si_strings (e_strings e))).
Proof.
  intros Hc. unfold write_strtab, strtab_bytes, si_strings.
  rewrite (cons_middle x00 v), app_assoc.
  apply (cur_is_write [x00]) in Hc. revert Hc.
  generalize (v ++ [x00]) as v'. generalize (write_all [x00] c) as c'.
  induction (si_iter (e_strings e)) as [|[k s] l IH]; intros c' v' Hc; cbn [fold_left fmap list_fmap concat].
  { by rewrite app_nil_r. }
  rewrite app_assoc. apply IH. rewrite app_assoc. by do 2 apply cur_is_write.
Qed.

(** The preallocated [.symtab_shndx] bytes after [done] was written. *)
Definition shndx_state (need : bool) (total : Z) (done : list byte) (st : list byte * Z) : Prop :=
  if need then zlen done ≤ total ∧ st = (pad_to total done, zlen done) else st = ([], 0).

Lemma gwrite_ok total done bs :
  zlen done + zlen bs ≤ total →
  gwrite (pad_to total done, zlen done) bs = Some (pad_to total (done ++ bs), zlen (done ++ bs)).
Proof.
  intros H. pose proof (zlen_nonneg done). pose proof (zlen_nonneg bs).
  rewrite gwrite_fits by (rewrite ?pad_to_len; lia).
  f_equal. f_equal; [|by rewrite zlen_app]. unfold pad_to at 1.
  rewrite take_app_le, take_ge by (unfold zlen in *; lia). unfold pad_to at 2.
  rewrite <- !app_assoc. f_equal. f_equal. unfold pad_to.
  rewrite drop_app, drop_ge by (unfold zlen in *; lia). cbn. unfold zeros.
  rewrite drop_replicate, zlen_app. f_equal. unfold zlen in *. lia.
Qed.

Lemma write_symbols_ok {E} e need (clamp : bool) msg total syms : ∀ c v done st,
  cur_is c v → shndx_state need total done st →
  zlen done + 4 * zlen syms ≤ total →
  ∃ c' st', ofold (write_symbol (E:=E) e need clamp msg) (c, st) syms = Ok (c', st') ∧
    cur_is c' (v ++ concat ((fun s => ser_sym (if clamp then clamp_shndx s else s) (e_ctx e)) <$> syms)) ∧
    shndx_state need total
      (done ++ concat ((fun s => ser_u32 (u32 (st_shndx s)) (le (e_ctx e))) <$> syms)) st'.
Proof.
  induction syms as [|s syms IH]; intros c v done st Hc Hst Hlen; cbn [ofold].
  { exists c, st. cbn. rewrite !app_nil_r. done. }
  rewrite zlen_cons in Hlen. pose proof (zlen_nonneg syms).
  assert (∃ st1, write_symbol (E:=E) e need clamp msg (c, st) s =
      Ok (write_all (ser_sym (if clamp then clamp_shndx s else s) (e_ctx e)) c, st1) ∧
    shndx_state need total (done ++ ser_u32 (u32 (st_shndx s)) (le (e_ctx e))) st1)
    as (st1 & -> & Hst1).
  { unfold write_symbol, shndx_state in *. destruct need.
    - destruct Hst as [Hd ->]. rewrite gwrite_ok by (rewrite ser_u32_len; lia). cbn [expect obind].
      eexists. split; [done|]. split; [|done]. rewrite zlen_app, ser_u32_len. lia.
    - subst st. cbn. eauto. }
  cbn [obind].
  destruct (IH _ _ _ st1 (cur_is_write (ser_sym (if clamp then clamp_shndx s else s) (e_ctx e)) _ _ Hc) Hst1)
    as (c' & st' & -> & Hc' & Hst').
  { rewrite zlen_app, ser_u32_len. lia. }
  exists c', st'. split; [done|]. cbn. rewrite !app_assoc. done.
Qed.

Lemma ofold_map {E A B S} (f : S → B → outcome E S) (h : A → B) step l : ∀ s,
  (∀ s x, step s x = f s (h x)) → ofold step s l = ofold f s (h <$> l).
Proof.
  intros s H. revert s. induction l as [|x l IH]; intros s; cbn; [done|].
  rewrite H. destruct (f s (h x)); cbn; auto.
Qed.

(** ** The tables of an [Elf] value that stands for [g] *)
Lemma repr_special g e strs :
  repr g e → strs = si_strings (e_strings e) → strtab_fits strs →
  e_special_symbols e = special_symbols strs (e_name e).
Proof.
  intros Hr -> Hfit. destruct (re_special _ _ Hr) as (off & Hn & ->).
  unfold special_symbols. do 3 f_equal. f_equal.
  eapply name_ref_off; [apply (re_strtab _ _ Hr) | done | done].
Qed.

Lemma repr_sections g e strs :
  repr g e → strs = si_strings (e_strings e) → strtab_fits strs →
  ((fun p => si_symbol p.2) <$> im_iter (e_sections e)) =
    imap (fun i _ => section_symbol i) (g_secs g) ∧
  ((fun p => si_header p.2) <$> im_iter (e_sections e)) =
    section_header (e_ctx e) strs <$> g_secs g.
Proof.
  intros Hr -> Hfit. pose proof (so_nodup _ _ _ (re_strtab _ _ Hr)) as Hnd.
  assert (∀ i : nat, match im_iter (e_sections e) !! i, g_secs g !! i with
    | Some p, Some s => si_symbol p.2 = section_symbol i ∧
        si_header p.2 = section_header (e_ctx e) (si_strings (e_strings e)) s
    | None, None => True
    | _, _ => False
    end) as H.
  { intros i. pose proof (re_secs_len _ _ Hr) as Hl. unfold zlen in Hl.
    destruct (im_iter (e_sections e) !! i) as [p|] eqn:Ep, (g_secs g !! i) as [s|] eqn:Es; try done.
    - rewrite <- zget_nat in Ep. rewrite <- zget_nat in Es.
      destruct (re_secs _ _ Hr _ _ _ Es Ep) as (off & Hn & ->). cbn. split; [done|].
      unfold section_header. by rewrite (name_ref_off _ _ _ _ Hnd Hfit Hn).
    - apply lookup_lt_Some in Ep. apply lookup_ge_None in Es. lia.
    - apply lookup_lt_Some in Es. apply lookup_ge_None in Ep. lia. }
  split; apply list_eq; intros i; rewrite ?list_lookup_imap, !list_lookup_fmap; specialize (H i);
    destruct (im_iter (e_sections e) !! i), (g_secs g !! i); try done; destruct H as [H1 H2]; cbn;
    by rewrite ?H1, ?H2.
Qed.

Lemma repr_symbols g e strs :
  repr g e → strs = si_strings (e_strings e) → strtab_fits strs →
  (im_iter (e_symbols e)).*2 = object_symbol strs <$> g_syms g.
Proof.
  intros Hr -> Hfit. pose proof (so_nodup _ _ _ (re_strtab _ _ Hr)) as Hnd.
  induction (re_syms _ _ Hr) as [|s p l m (off & Hn & Ep) _ IH]; cbn; [done|].
  rewrite IH, Ep. f_equal. unfold object_symbol. by rewrite (name_ref_off _ _ _ _ Hnd Hfit Hn).
Qed.

Lemma repr_offset g e strs n k :
  repr g e → strs = si_strings (e_strings e) → strtab_fits strs → zget strs k = Some n →
  e_offsets e !! k = Some (name_off strs n).
Proof.
  intros Hr -> Hfit Hk. rewrite (so_offsets _ _ _ (re_strtab _ _ Hr) _ _ Hk). f_equal.
  eapply name_ref_off; [apply (re_strtab _ _ Hr) | done | by split].
Qed.

(** Every relocation carries an addend, as those [link] makes do. *)
Definition rels_addends (g : AbsElf) : Prop :=
  ∀ r x, r ∈ g_rels g → x ∈ r.2 → is_Some (r_addend x).

Lemma write_reloc_section_ok e strs g off c v hs k rs s k' o :
  zget (g_secs g) (k - 3) = Some s → name_ref strs (".rela" +:+ as_name s) k' o →
  NoDup strs → strtab_fits strs → (∀ x, x ∈ rs → is_Some (r_addend x)) →
  0 ≤ off → off + zlen rs * reloc_size true (e_ctx e) < 2 ^ 64 → cur_is c v →
  ∃ c', write_reloc_section e (c, off, hs) (k, (rela_header (e_ctx e) o k (zlen rs), rs)) =
    (c', off + zlen rs * reloc_size true (e_ctx e),
     hs ++ [shdr_set_offset off
              (rela_header (e_ctx e) (name_off strs (rela_name g k)) k (zlen rs))]) ∧
    cur_is c' (v ++ concat ((fun x => ser_reloc x (true, e_ctx e)) <$> rs)).
Proof.
  intros Hs Hn Hnd Hfit Hadd Hoff Hlt Hc. pose proof (zlen_nonneg rs).
  assert (0 ≤ zlen rs * reloc_size true (e_ctx e))
    by (rewrite reloc_size_spec; destruct (container (e_ctx e)); lia).
  eexists. split.
  - unfold write_reloc_section, rela_name. rewrite Hs, <- (name_ref_off _ _ _ _ Hnd Hfit Hn).
    do 2 f_equal. cbn. rewrite wrap_add_r. apply wrap_small. unfold in_u. lia.
  - replace ((fun x => ser_reloc x (true, e_ctx e)) <$> rs) with ((fun x => ser_reloc x
      (match r_addend x with Some _ => true | None => false end, e_ctx e)) <$> rs); [by apply cur_is_loop|].
    apply list_fmap_ext. intros i x Hx. apply list_elem_of_lookup_2 in Hx.
    by destruct (Hadd x Hx) as [a ->].
Qed.

Lemma write_relocs_loop e strs g l m : ∀ c v off hs,
  Forall2 (rela_repr (e_ctx e) strs (g_secs g)) l m → NoDup strs → strtab_fits strs →
  (∀ r x, r ∈ l → x ∈ r.2 → is_Some (r_addend x)) →
  0 ≤ off → off + zsum ((fun r => zlen r.2) <$> l) * reloc_size true (e_ctx e) < 2 ^ 64 →
  cur_is c v →
  ∃ c' off', fold_left (write_reloc_section e) m (c, off, hs) =
    (c', off', hs ++ rela_headers (e_ctx e) strs g off l) ∧
  cur_is c' (v ++ concat ((fun r => concat ((fun x => ser_reloc x (true, e_ctx e)) <$> r.2)) <$> l)).
Proof.
  intros c v off hs HF Hnd Hfit. revert c v off hs.
  induction HF as [|[sh rs] [k [h rs']] l m (E1 & E2 & s & k' & o & Hs & Hn & Eh) _ IH];
    intros c v off hs Hadd Hoff Hlt Hc; cbn [fold_left].
  { exists c, off. cbn. by rewrite !app_nil_r. }
  cbn in E1, E2, Hs, Hn, Eh. subst k rs' h. cbn in Hlt. pose proof (zlen_nonneg rs).
  pose proof (zsum_nonneg (fun r : Z * list ElfReloc => zlen r.2) l (fun r => zlen_nonneg _)).
  assert (1 ≤ reloc_size true (e_ctx e)) by (rewrite reloc_size_spec; destruct (container _); lia).
  destruct (write_reloc_section_ok e strs g off c v hs sh rs s k' o) as (c1 & -> & Hc1); try done.
  { intros x Hx. apply (Hadd (sh, rs)); [left | done]. }
  { nia. }
  destruct (IH c1 _ (off + zlen rs * reloc_size true (e_ctx e)) (hs ++ [shdr_set_offset off
      (rela_header (e_ctx e) (name_off strs (rela_name g sh)) sh (zlen rs))])
    (fun r x Hr => Hadd r x ltac:(by right)) ltac:(nia) ltac:(nia) Hc1) as (c' & off' & -> & Hc').
  exists c', off'. split.
  - cbn [rela_headers]. by rewrite <- app_assoc.
  - cbn [fmap list_fmap concat snd]. by rewrite app_assoc.
Qed.

(** ** [write] *)

(** All of the preallocated bytes are used. *)
Lemma shndx_filled e strs g total :
  total = symbol_count g * 4 →
  let idx := fun s => ser_u32 (u32 (st_shndx s)) (le (e_ctx e)) in
  pad_to total ((([] ++ concat (idx <$> special_symbols strs (e_name e))) ++
     concat (idx <$> imap (fun i _ => section_symbol i) (g_secs g))) ++
     concat (idx <$> (object_symbol strs <$> g_syms g))) =
  shndx_bytes (e_ctx e) strs (e_name e) g.
Proof.
  intros -> idx. unfold shndx_bytes, all_symbols, local_and_other_symbols.
  unfold pad_to. rewrite !fmap_app, !concat_app, !app_assoc, app_nil_l. fold idx.
  match goal with |- ?d ++ zeros (?total - zlen ?d) = _ =>
    assert (zlen d = total) as -> end; [|by rewrite Z.sub_diag, app_nil_r].
  rewrite !zlen_app, !(zlen_concat_const _ 4) by (intros; apply ser_u32_len).
  rewrite zlen_fmap. unfold zlen at 2. rewrite length_imap. fold (zlen (g_secs g)).
  unfold symbol_count. change (zlen (special_symbols _ _)) with 2. lia.
Qed.

(** The three loops write the symbol table and fill the bytes preallocated for
    the extended section indices. *)
Lemma write_symbols_loops {E} g e strs c v :
  repr g e → strs = si_strings (e_strings e) → strtab_fits strs → cur_is c v →
  let need := needs_shndx g in
  ∃ c', write_symbols (E:=E) e need
      (if need then replicate (Z.to_nat (symbol_count g * 4)) x00 else []) c =
    Ok (c', if need then shndx_bytes (e_ctx e) strs (e_name e) g else []) ∧
    cur_is c' (v ++ symtab_bytes (e_ctx e) strs (e_name e) g).
Proof.
  intros Hr Hstrs Hfit Hc need. unfold write_symbols.
  pose proof (zlen_nonneg (g_secs g)). pose proof (zlen_nonneg (g_syms g)).
  destruct (repr_sections g e strs Hr Hstrs Hfit) as [Esym _].
  set (total := symbol_count g * 4).
  assert (shndx_state need total []
    (if need then replicate (Z.to_nat total) x00 else [], 0)) as Hst0.
  { unfold shndx_state. destruct need; [|done].
    split; [rewrite zlen_nil; unfold total, symbol_count; lia|].
    unfold pad_to, zeros. change (zlen []) with 0. by rewrite Z.sub_0_r. }
  rewrite (repr_special g e strs Hr Hstrs Hfit).
  destruct (write_symbols_ok (E:=E) e need false
    "preallocated shndx vector has enough space for special symbols" total
    (special_symbols strs (e_name e)) _ _ [] _ Hc Hst0) as (c1 & st1 & -> & Hc1 & Hst1).
  { rewrite zlen_nil. unfold total, symbol_count. change (zlen (special_symbols _ _)) with 2. lia. }
  cbn [obind].
  rewrite (ofold_map (write_symbol e need true
    "preallocated shndx vector has enough space for sections") (fun p => si_symbol p.2)) by (by intros ? []).
  rewrite Esym.
  destruct (write_symbols_ok (E:=E) e need true
    "preallocated shndx vector has enough space for sections" total
    (imap (fun i _ => section_symbol i) (g_secs g)) _ _ _ _ Hc1 Hst1) as (c2 & st2 & -> & Hc2 & Hst2).
  { rewrite zlen_app, zlen_nil. rewrite (zlen_concat_const _ 4) by (intros; apply ser_u32_len).
    unfold total, symbol_count. change (zlen (special_symbols _ _)) with 2.
    unfold zlen at 1. rewrite length_imap. fold (zlen (g_secs g)). lia. }
  cbn [obind].
  rewrite (ofold_map (write_symbol e need true
    "preallocated shndx vector has enough space for symbols") snd) by (by intros ? []).
  rewrite (repr_symbols g e strs Hr Hstrs Hfit).
  destruct (write_symbols_ok (E:=E) e need true
    "preallocated shndx vector has enough space for symbols" total
    (object_symbol strs <$> g_syms g) _ _ _ _ Hc2 Hst2) as (c3 & [data off] & -> & Hc3 & Hst3).
  { rewrite !zlen_app, zlen_nil. rewrite !(zlen_concat_const _ 4) by (intros; apply ser_u32_len).
    unfold total, symbol_count. change (zlen (special_symbols _ _)) with 2. rewrite zlen_fmap.
    unfold zlen at 1. rewrite length_imap. fold (zlen (g_secs g)). lia. }
  cbn [obind]. exists c3. split.
  - do 2 f_equal. unfold shndx_state in Hst3. destruct need; [|congruence].
    destruct Hst3 as [_ [= -> _]]. by apply shndx_filled.
  - unfold symtab_bytes, local_and_other_symbols. rewrite fmap_app, concat_app, !app_assoc. exact Hc3.
Qed.

(** The symbol table and, if needed, the extended section indices. *)
Lemma write_symtab_ok {E} g e strs note shn k c v hs :
  repr g e → strs = si_strings (e_strings e) →
  file_len (e_ctx e) strs g < 2 ^ 64 →
  (if needs_shndx g then name_ref strs ".symtab_shndx" k shn else shn = 0) →
  cur_is c v → zlen v = off_strtab (e_ctx e) g + strtab_len strs →
  let v1 := pad_to (off_symtab (e_ctx e) strs g) v ++ symtab_bytes (e_ctx e) strs (e_name e) g in
  ∃ c', write_symtab (E:=E) e (layout (e_ctx e) strs g note shn) c hs =
      Ok (c', hs ++ (section_header (e_ctx e) strs <$> g_secs g) ++
          (if needs_shndx g then [shndx_header (e_ctx e) strs g] else [])) ∧
    cur_is c' (if needs_shndx g
      then pad_to (off_shndx (e_ctx e) strs g) v1 ++ shndx_bytes (e_ctx e) strs (e_name e) g
      else v1).
Proof.
  intros Hr Hstrs Hlt Hshn Hc Hv v1. unfold write_symtab.
  pose proof (offsets_ordered (e_ctx e) strs g) as Ho. unfold file_len in Hlt.
  assert (strtab_fits strs) as Hfit by (unfold strtab_fits; lia).
  destruct (repr_sections g e strs Hr Hstrs Hfit) as [_ Ehdr].
  cbn [layout lo_need_shndx lo_symbol_count lo_symtab lo_shndx].
  apply (cur_is_seek (off_symtab (e_ctx e) strs g)) in Hc; [|lia].
  fold (pad_to (off_symtab (e_ctx e) strs g) v) in Hc.
  assert ((if needs_shndx g then replicate (Z.to_nat (u64 (symbol_count g * 4))) x00 else []) =
    (if needs_shndx g then replicate (Z.to_nat (symbol_count g * 4)) x00 else [])) as ->.
  { unfold size_shndx in Ho. destruct (needs_shndx g); [|done]. rewrite wrap_small; [done|].
    unfold in_u. lia. }
  destruct (write_symbols_loops (E:=E) g e strs _ _ Hr Hstrs Hfit Hc) as (c3 & -> & Hc3).
  fold v1 in Hc3. cbn [obind].
  assert (∀ l, ((fun '(_, section) => si_header section) <$> l) =
    (fun p : Z * SectionInfo => si_header p.2) <$> l) as ->.
  { intros l. apply list_fmap_ext. by intros ? []. }
  rewrite Ehdr. destruct (needs_shndx g) eqn:En; [|eexists; split; [by rewrite app_nil_r | exact Hc3]].
  assert (zlen v1 = end_symtab (e_ctx e) strs g) as Hv1.
  { unfold v1. rewrite zlen_app, pad_to_len, symtab_bytes_len by lia. lia. }
  rewrite (cur_is_position _ _ Hc3), Hv1.
  assert (off_shndx (e_ctx e) strs g = round_up (end_symtab (e_ctx e) strs g) 4) as Eoff
    by (unfold off_shndx; by rewrite En).
  rewrite align_round_up, <- Eoff, Z.eqb_refl by (rewrite <- ?Eoff; lia). cbn [assert_ obind].
  eexists. split; [|apply cur_is_write, cur_is_seek; [done | lia]].
  assert (shn = name_off strs ".symtab_shndx") as ->.
  { eapply name_ref_off; [|done|exact Hshn]. rewrite Hstrs. apply (re_strtab _ _ Hr). }
  rewrite (app_assoc hs). reflexivity.
Qed.

Lemma init_sections_ok {E} g e strs note shn :
  repr g e → strs = si_strings (e_strings e) → strtab_fits strs →
  init_sections (E:=E) (set_nsections (header_count g) e) (layout (e_ctx e) strs g note shn) =
  Ok [if SHN_LORESERVE <=? header_count g
      then shdr_set_size (header_count g) shdr_default else shdr_default;
      strtab_header (e_ctx e) strs g; symtab_header (e_ctx e) strs g].
Proof.
  intros Hr Hstrs Hfit. unfold init_sections.
  cbn [e_offsets e_nsections e_sizeof_strtab e_ctx e_special_symbols e_sections e_nlocals set_nsections].
  rewrite (repr_offset g e strs ".strtab" 0 Hr Hstrs Hfit) by (rewrite Hstrs; apply (re_strtab0 _ _ Hr)).
  rewrite (repr_offset g e strs ".symtab" 1 Hr Hstrs Hfit) by (rewrite Hstrs; apply (re_symtab1 _ _ Hr)).
  cbn [expect obind]. rewrite (so_size _ _ _ (re_strtab _ _ Hr)), <- Hstrs.
  assert (u64 (strtab_len strs) = strtab_len strs) as ->.
  { apply wrap_small. pose proof (strtab_pos_bound strs 0). unfold strtab_fits in Hfit. unfold in_u. lia. }
  rewrite (special_len _ _ Hr), im_len_spec, (re_secs_len _ _ Hr), (re_nlocals _ _ Hr).
  reflexivity.
Qed.

Lemma needs_shndx_count g : (SHN_LORESERVE <=? header_count g) = needs_shndx g.
Proof.
  unfold header_count. destruct (needs_shndx g) eqn:En; unfold needs_shndx in En.
  - apply Z.leb_le. apply Z.leb_le in En. lia.
  - by rewrite Z.add_0_r.
Qed.

(** The header, the code and the string table. *)
Lemma write_code_ok g e ctx machine strs :
  repr g e → e_ctx e = ctx →
  cur_is (fold_left (fun c '(_, bytes) => write_all bytes c) (im_iter (e_code e))
            (write_all (ser_header (file_header ctx machine strs g) ctx) Cursor_new))
    (ser_header (file_header ctx machine strs g) ctx ++ concat (g_code g)) ∧
  zlen (ser_header (file_header ctx machine strs g) ctx ++ concat (g_code g)) = off_strtab ctx g.
Proof.
  intros Hr Hctx. split.
  - rewrite <- (re_code _ _ Hr). apply cur_is_loop; [by intros ? []|].
    apply (cur_is_write _ _ [] cur_is_new).
  - rewrite zlen_app, ser_header_len, zlen_concat. done.
Qed.

Lemma write_strtab_image g e ctx machine strs c :
  repr g e → e_ctx e = ctx → strs = si_strings (e_strings e) →
  cur_is c (ser_header (file_header ctx machine strs g) ctx ++ concat (g_code g)) →
  cur_is (write_strtab e (seek_start (off_strtab ctx g) c)) (image_strtab ctx machine strs g).
Proof.
  intros Hr Hctx Hstrs Hc. destruct (write_code_ok g e ctx machine strs Hr Hctx) as [_ Hl].
  unfold image_strtab. rewrite app_assoc, Hstrs. apply write_strtab_ok. rewrite <- Hstrs.
  pose proof (cur_is_seek (off_strtab ctx g) _ _ Hc) as Hs.
  rewrite Hl, Z.sub_diag, app_nil_r in Hs. apply Hs. lia.
Qed.

(** The relocations. *)
Lemma write_relocations_ok g e strs note shn c v hs :
  repr g e → strs = si_strings (e_strings e) → rels_addends g →
  file_len (e_ctx e) strs g < 2 ^ 64 →
  cur_is c v → zlen v ≤ off_reloc (e_ctx e) strs g →
  ∃ c', write_relocations e (layout (e_ctx e) strs g note shn) c hs =
    (c', hs ++ rela_headers (e_ctx e) strs g (off_reloc (e_ctx e) strs g) (g_rels g)) ∧
    cur_is c' (pad_to (off_reloc (e_ctx e) strs g) v ++ reloc_bytes (e_ctx e) g).
Proof.
  intros Hr Hstrs Hadd Hlt Hc Hv. pose proof (offsets_ordered (e_ctx e) strs g) as Ho.
  unfold file_len in Hlt. pose proof (re_rels _ _ Hr) as HF. rewrite <- Hstrs in HF.
  assert (NoDup strs) as Hnd by (rewrite Hstrs; apply (re_strtab _ _ Hr)).
  assert (strtab_fits strs) as Hfit by (unfold strtab_fits; lia).
  apply (cur_is_seek (off_reloc (e_ctx e) strs g)) in Hc; [|done].
  unfold write_relocations. cbn [lo_reloc layout].
  assert (0 ≤ off_reloc (e_ctx e) strs g) as Hnn by lia.
  assert (off_reloc (e_ctx e) strs g +
    zsum ((fun r => zlen r.2) <$> g_rels g) * reloc_size true (e_ctx e) < 2 ^ 64) as Hb.
  { change (zsum _) with (reloc_count g). lia. }
  destruct (write_relocs_loop e strs g _ _ _ _ _ hs HF Hnd Hfit Hadd Hnn Hb Hc)
    as (c4 & off4 & -> & Hc4).
  eauto.
Qed.

(** The section headers, the last thing written. *)
Lemma write_headers_ok ctx hs c v n :
  hs ≠ [] → cur_is c v → zlen v ≤ n →
  let c' := fold_left (fun c h => write_all (ser_shdr h ctx) c) hs (seek_start n c) in
  cur_buf c' = pad_to n v ++ concat ((fun h => ser_shdr h ctx) <$> hs) ∧
  stream_position c' = n + zlen hs * shdr_size ctx.
Proof.
  intros Hne Hc Hv c'. apply (cur_is_seek n) in Hc; [|done].
  assert (zlen (concat ((fun h => ser_shdr h ctx) <$> hs)) = zlen hs * shdr_size ctx) as Hl.
  { apply zlen_concat_const. intros. apply ser_shdr_len. }
  pose proof (cur_is_fold (fun h => ser_shdr h ctx) hs _ _ Hc : cur_is c' _) as Hc'.
  split; [|rewrite (cur_is_position c' _ Hc'), zlen_app, Hl;
    f_equal; apply (pad_to_len n v Hv)].
  unfold c' in *. clear c' Hc' Hl. destruct hs as [|h hs _] using rev_ind; [done|].
  pose proof (cur_is_fold (fun h => ser_shdr h ctx) hs _ _ Hc) as Hc'.
  rewrite fold_left_app. cbn [fold_left].
  assert (ser_shdr h ctx ≠ []) as Hs.
  { intros E0. pose proof (ser_shdr_len h ctx) as Hl. rewrite E0, shdr_size_spec in Hl.
    change (zlen []) with 0 in Hl. destruct (container ctx); lia. }
  rewrite (write_all_buf _ _ _ Hc' Hs). cbn [cur_buf].
  rewrite fmap_app, concat_app. cbn. by rewrite app_nil_r, app_assoc.
Qed.

(** What follows the symbol table. *)
Lemma write_after_symtab_ok {E} g e machine strs note shn k n c :
  repr g e → rels_addends g → strs = si_strings (e_strings e) → strtab_fits strs →
  file_len (e_ctx e) strs g < 2 ^ 64 → name_ref strs ".note.GNU-stack" k note →
  cur_is c (image_shndx (e_ctx e) machine strs (e_name e) g) →
  write_after_symtab (E:=E) (set_nsections n e) (layout (e_ctx e) strs g note shn) c
    ([null_header g; strtab_header (e_ctx e) strs g; symtab_header (e_ctx e) strs g] ++
     (section_header (e_ctx e) strs <$> g_secs g) ++
     (if needs_shndx g then [shndx_header (e_ctx e) strs g] else [])) =
  Ok (elf_image (e_ctx e) machine strs (e_name e) g).
Proof.
  intros Hr Hadd Hstrs Hfit Hlt Hnote Hc3. unfold write_after_symtab.
  pose proof (offsets_ordered (e_ctx e) strs g) as Ho.
  pose proof Hlt as Hlt'. unfold file_len in Hlt'.
  cbn [e_ctx set_nsections].
  rewrite (cur_is_position _ _ Hc3), image_shndx_len. cbn [lo_reloc layout].
  rewrite align_round_up, Z.eqb_refl by (try lia; change (round_up _ _) with (off_reloc (e_ctx e) strs g); lia).
  cbn [assert_ obind]. change (write_relocations (set_nsections _ e)) with (write_relocations e).
  edestruct (write_relocations_ok g e strs note shn c) as (c4 & -> & Hc4); [done..| |].
  { rewrite image_shndx_len. lia. }
  change (_ ++ reloc_bytes _ _) with (image_reloc (e_ctx e) machine strs (e_name e) g) in Hc4.
  rewrite (cur_is_position _ _ Hc4), image_reloc_len. cbn [lo_sh layout].
  rewrite align_round_up, Z.eqb_refl by (try lia; change (round_up _ _) with (off_sh (e_ctx e) strs g); lia).
  cbn [assert_ obind]. unfold nonexec_stack, write_section_headers.
  cbn [e_ctx set_nsections lo_note_name lo_sh layout].
  rewrite (name_ref_off strs ".note.GNU-stack" k note) by
    (done || (rewrite Hstrs; apply (re_strtab _ _ Hr))).
  change (SectionBuilder_create (section_type SecBits _) _) with (note_header (e_ctx e) strs).
  rewrite <- !app_assoc. fold (object_headers (e_ctx e) strs g).
  destruct (write_headers_ok (e_ctx e) (object_headers (e_ctx e) strs g) c4 _ (off_sh (e_ctx e) strs g)
    ltac:(done) Hc4) as [Hb Hp]; [rewrite image_reloc_len; lia|].
  rewrite Hp, object_headers_len, (wrap_small 64 (header_count g * _)) by (unfold in_u; lia).
  rewrite (wrap_small 64 (off_sh (e_ctx e) strs g + _)), Z.eqb_refl by (unfold in_u; lia).
  cbn [assert_ obind]. by rewrite Hb.
Qed.

(** [Elf::write] writes the image of the object, and no assertion fails. *)
Lemma write_ok {E} g e machine :
  repr g e → rels_addends g → header_count g < 2 ^ 32 →
  MachineTag_from (E:=E) (e_architecture e) = Ok machine →
  let strs := final_strings g (si_strings (e_strings e)) in
  file_len (e_ctx e) strs g < 2 ^ 64 →
  write (E:=E) e = Ok (elf_image (e_ctx e) machine strs (e_name e) g).
Proof.
  intros Hr0 Hadd Hcount Hmach strs Hlt. unfold write, write_code.
  destruct (compute_offsets_ok g e Hr0 Hcount)
    as (t & o & s & k & note & k' & shn & Et & Hr & Hnote & Hshn & Hco).
  rewrite (Hco Hlt). clear Hco. fold strs in Et, Hnote, Hshn |- *.
  change (e_ctx e) with (e_ctx (set_strtab t o s e)) in *.
  change (e_name e) with (e_name (set_strtab t o s e)).
  change (e_architecture e) with (e_architecture (set_strtab t o s e)) in Hmach.
  assert (strs = si_strings (e_strings (set_strtab t o s e))) as Hstrs by done.
  generalize dependent (set_strtab t o s e). clearbody strs. clear e Hr0 t o s Et.
  intros e Hmach Hlt Hr Hstrs.
  pose proof (offsets_ordered (e_ctx e) strs g) as Ho.
  pose proof Hlt as Hlt'. unfold file_len in Hlt'.
  assert (strtab_fits strs) as Hfit by (unfold strtab_fits; lia).
  unfold build_header. cbn [e_architecture set_nsections e_nsections e_ctx e_code].
  rewrite Hmach, needs_shndx_count. cbn [obind lo_sh layout].
  change (mkHeader _ _ _ _ _) with (file_header (e_ctx e) machine strs g).
  rewrite (cur_is_position _ _ (cur_is_write _ _ [] cur_is_new)), app_nil_l, ser_header_len, Z.eqb_refl.
  cbn [assert_ obind]. destruct (write_code_ok g e (e_ctx e) machine strs Hr eq_refl) as [Hc1 Hl1].
  rewrite (cur_is_position _ _ Hc1), Hl1. cbn [lo_strtab layout]. rewrite Z.eqb_refl. cbn [assert_ obind].
  rewrite (init_sections_ok g e strs note shn Hr Hstrs Hfit), needs_shndx_count. cbn [obind].
  fold (null_header g). apply (write_strtab_image g e (e_ctx e) machine strs _ Hr eq_refl Hstrs) in Hc1.
  change (write_strtab (set_nsections _ e)) with (write_strtab e).
  rewrite (cur_is_position _ _ Hc1), image_strtab_len. cbn [lo_symtab layout].
  rewrite align_round_up, Z.eqb_refl by (try lia; change (round_up _ _) with (off_symtab (e_ctx e) strs g); lia).
  cbn [assert_ obind]. change (write_symtab (set_nsections _ e)) with (write_symtab (E:=E) e).
  destruct (write_symtab_ok (E:=E) g e strs note shn k' _ _
    [null_header g; strtab_header (e_ctx e) strs g; symtab_header (e_ctx e) strs g]
    Hr Hstrs Hlt Hshn Hc1 (image_strtab_len _ _ _ _)) as (c3 & -> & Hc3).
  cbn [obind]. change (if needs_shndx g then _ else _) with (image_shndx (e_ctx e) machine strs (e_name e) g) in Hc3.
  by apply (write_after_symtab_ok g e machine strs note shn k).
Qed.
End Image.
