(* ===== verification/ElfRead.v ===== *)
(** * Reading the ELF file

    The lemmas locate every piece of [elf_image]. *)

From stdpp Require Import base numbers list gmap strings.
From Stdlib Require Import ZArith Lia Strings.Byte.
From S2P Require Import Prelude Std Bytes External Decl Artifact ArtifactInv Contents Target.
From S2P Require Import ElfBuild ElfState ElfWrite ElfRepr ElfLink ElfObject ElfLayout ElfImage.

(** Every name of a string table is at its offset. *)
Lemma strtab_at strs i n :
  zget strs i = Some n → at_off (strtab_pos strs i) (bytes_of n ++ [x00]) (strtab_bytes strs).
Proof.
  intros Hi. apply zget_Some in Hi as [H0 Hi]. unfold strtab_pos.
  rewrite <- strtab_bytes_len. unfold strtab_bytes.
  rewrite <- (take_drop_middle strs _ _ Hi) at 2. rewrite fmap_app, concat_app. cbn.
  eexists (x00 :: concat _), _. cbn. split; done.
Qed.

Lemma name_off_at strs n :
  n ∈ strs → at_off (name_off strs n) (bytes_of n ++ [x00]) (strtab_bytes strs).
Proof.
  intros Hn. destruct (index_of_elem n strs Hn) as [i Hi]. unfold name_off. rewrite Hi.
  by apply strtab_at, index_of_Some_get.
Qed.

(** ** The pieces of the image *)
Section Pieces.
Context {SI : StringInterner} {IM : IndexMapOps} {G : GoblinElf} {P : Profile} {TL : TargetLexicon}.
Context {SIL : StringInternerLaws SI} {IML : IndexMapLaws IM} {GL : GoblinElfLaws G}.
Variables (ctx : Ctx) (machine : Z) (strs : list string) (name : string) (g : AbsElf).

Notation image := (elf_image ctx machine strs name g).

Lemma in_symtab_image off w :
  at_off off w (image_symtab ctx machine strs name g) → at_off off w image.
Proof.
  intros H. unfold elf_image, image_reloc, image_shndx, pad_to.
  do 4 apply at_off_app_l. destruct (needs_shndx g); [|done]. by do 2 apply at_off_app_l.
Qed.

Lemma in_strtab_image off w :
  at_off off w (image_strtab ctx machine strs g) → at_off off w image.
Proof.
  intros H. apply in_symtab_image. unfold image_symtab, pad_to. by do 2 apply at_off_app_l.
Qed.

Lemma header_at : at_off 0 (ser_header (file_header ctx machine strs g) ctx) image.
Proof. apply in_strtab_image. unfold image_strtab. by eexists [], _. Qed.

Lemma code_at : at_off (header_size ctx) (concat (g_code g)) image.
Proof.
  apply in_strtab_image. unfold image_strtab. eexists _, _. split; [done|]. apply ser_header_len.
Qed.

Lemma strtab_piece_at : at_off (off_strtab ctx g) (strtab_bytes strs) image.
Proof.
  apply in_strtab_image. unfold image_strtab. rewrite app_assoc.
  replace (off_strtab ctx g) with (zlen (ser_header (file_header ctx machine strs g) ctx ++ concat (g_code g))).
  - apply at_off_end.
  - by rewrite zlen_app, ser_header_len, zlen_concat.
Qed.

Lemma symtab_at : at_off (off_symtab ctx strs g) (symtab_bytes ctx strs name g) image.
Proof.
  apply in_symtab_image. unfold image_symtab. pose proof (offsets_ordered ctx strs g) as H.
  rewrite <- (pad_to_len (off_symtab ctx strs g) (image_strtab ctx machine strs g)) at 1
    by (rewrite image_strtab_len; lia).
  apply at_off_end.
Qed.

Lemma shndx_at : needs_shndx g = true →
  at_off (off_shndx ctx strs g) (shndx_bytes ctx strs name g) image.
Proof.
  intros En. unfold elf_image, image_reloc, pad_to at 1. do 2 apply at_off_app_l.
  unfold pad_to at 1. apply at_off_app_l. apply at_off_app_l. unfold image_shndx. rewrite En.
  pose proof (offsets_ordered ctx strs g) as H.
  rewrite <- (pad_to_len (off_shndx ctx strs g) (image_symtab ctx machine strs name g)) at 1
    by (rewrite image_symtab_len; lia).
  apply at_off_end.
Qed.

Lemma relocs_at : at_off (off_reloc ctx strs g) (reloc_bytes ctx g) image.
Proof.
  unfold elf_image, pad_to. do 2 apply at_off_app_l. unfold image_reloc.
  pose proof (offsets_ordered ctx strs g) as H.
  rewrite <- (pad_to_len (off_reloc ctx strs g) (image_shndx ctx machine strs name g)) at 1
    by (rewrite image_shndx_len; lia).
  apply at_off_end.
Qed.

Lemma headers_at : at_off (off_sh ctx strs g) (headers_bytes ctx strs g) image.
Proof.
  unfold elf_image. pose proof (offsets_ordered ctx strs g) as H.
  rewrite <- (pad_to_len (off_sh ctx strs g) (image_reloc ctx machine strs name g)) at 1
    by (rewrite image_reloc_len; lia).
  apply at_off_end.
Qed.

(** Entry [i] of the section header table. *)
Lemma section_header_at i h :
  zget (object_headers ctx strs g) i = Some h →
  at_off (off_sh ctx strs g + i * shdr_size ctx) (ser_shdr h ctx) image.
Proof.
  intros Hi. eapply at_off_trans; [apply headers_at|].
  apply (at_off_concat (fun h => ser_shdr h ctx)); [|done]. intros. apply ser_shdr_len.
Qed.

(** The symbols as they are written. *)
Definition written_symbols : list Sym :=
  special_symbols strs name ++ (clamp_shndx <$> local_and_other_symbols strs g).

Lemma symbol_at i s :
  zget written_symbols i = Some s →
  at_off (off_symtab ctx strs g + i * sym_size (container ctx)) (ser_sym s ctx) image.
Proof.
  intros Hi. eapply at_off_trans; [apply symtab_at|].
  replace (symtab_bytes ctx strs name g) with (concat ((fun s => ser_sym s ctx) <$> written_symbols)).
  - apply (at_off_concat (fun s => ser_sym s ctx)); [|done]. intros. apply ser_sym_len.
  - unfold written_symbols, symtab_bytes. rewrite fmap_app, concat_app, <- list_fmap_compose. done.
Qed.

(** A name of the string table. *)
Lemma name_at n : n ∈ strs →
  at_off (off_strtab ctx g + name_off strs n) (bytes_of n ++ [x00]) image.
Proof. intros Hn. eapply at_off_trans; [apply strtab_piece_at | by apply name_off_at]. Qed.
End Pieces.
