(* ===== verification/ElfFacts.v ===== *)
(** * The abstract ELF object in closed form

    [abs_object] is a fold over the definitions, imports and links; this file
    gives its tables position by position, which is what the theorems about
    the emitted file are stated with. *)

From stdpp Require Import base numbers list gmap strings.
From Stdlib Require Import ZArith Lia Strings.Byte.
From S2P Require Import Prelude Std External Decl Artifact ArtifactInv Contents Target.
From S2P Require Import ElfBuild ElfState ElfRepr ElfLink ElfObject.

Section Facts.
Context {G : GoblinElf}.

(** Where the contents of definition number [i] start. *)
Definition code_offset (ctx : Ctx) (ds : list Definition_) (i : nat) : Z :=
  header_size ctx + zsum (zlen <$> concat (def_code <$> take i ds)).

Definition section_at (ctx : Ctx) (ds : list Definition_) (i : nat) (d : Definition_) : AbsSection :=
  mkAbsSection (sec_name d) (definition_section d) (code_offset ctx ds i).

Definition import_symbol (i : string * ImportKind) : string * SymbolBuilder :=
  (i.1, mkSymbolBuilder 0 0 ST_Import 0 0).

Record obj_spec (ctx : Ctx) (c : Contents) (g : AbsElf) : Prop := {
  os_secs : g_secs g = imap (section_at ctx (c_defs c)) (c_defs c);
  os_code : g_code g = concat (def_code <$> c_defs c);
  os_syms : g_syms g = concat (imap (fun i d => def_symbols (Z.of_nat i + 3) d) (c_defs c)) ++
                       (import_symbol <$> c_imports c);
  os_locals : g_locals g = zsum (def_locals <$> c_defs c)
}.

Lemma imap_snoc {A B} (f : nat → A → B) l x : imap f (l ++ [x]) = imap f l ++ [f (length l) x].
Proof. rewrite imap_app. cbn. by rewrite Nat.add_0_r. Qed.

Lemma section_at_snoc ctx ds d' :
  imap (section_at ctx (ds ++ [d'])) ds = imap (section_at ctx ds) ds.
Proof.
  apply imap_ext. intros i x Hi. unfold section_at, code_offset.
  apply lookup_lt_Some in Hi. by rewrite take_app_le by lia.
Qed.

Lemma abs_definitions_closed ctx ds :
  obj_spec ctx (mkContents ds [] []) (abs_definitions ctx ds abs_empty).
Proof.
  induction ds as [|d ds IH] using rev_ind; [by split|].
  unfold abs_definitions. rewrite fold_left_app. cbn [fold_left].
  fold (abs_definitions ctx ds abs_empty). destruct IH as [E1 E2 E3 E4].
  cbn [c_defs c_imports fmap list_fmap] in *. rewrite app_nil_r in E3.
  split; cbn [c_defs c_imports fmap list_fmap abs_add_definition g_secs g_code g_syms g_locals].
  - rewrite imap_snoc, section_at_snoc, E1. do 2 f_equal. unfold section_at, code_offset, abs_end.
    rewrite E2, take_app_le, take_ge by lia. done.
  - rewrite fmap_app, concat_app, E2. cbn. by rewrite app_nil_r.
  - rewrite imap_snoc, concat_app, E3, E1. cbn [concat]. rewrite !app_nil_r. do 2 f_equal.
    unfold zlen. by rewrite length_imap.
  - rewrite fmap_app, zsum_app, E4. cbn. lia.
Qed.

Lemma obj_spec_links ctx c c' g g' :
  obj_spec ctx c g → g_secs g' = g_secs g → g_code g' = g_code g → g_syms g' = g_syms g →
  g_locals g' = g_locals g → c_defs c' = c_defs c → c_imports c' = c_imports c → obj_spec ctx c' g'.
Proof. intros []. intros. split; congruence. Qed.

(** ** Links *)

(** The section a link patches and the relocation it stands for. *)
Definition link_entry (ctx : Ctx) (g : AbsElf) (l : LinkAndDecl) : option (Z * ElfReloc) :=
  '(ti, ts) ← abs_link_end g (l_to l);
  '(_, fs) ← abs_link_end g (l_from l);
  match link_reloc (E:=unit) ctx l with
  | Ok (reloc, addend) => Some (fs, abs_reloc l ti ts reloc addend)
  | _ => None
  end.

(** The relocations filed under a section. *)
Definition rels_of (g : AbsElf) (sh : Z) : list ElfReloc := default [] (al_get (g_rels g) sh).

Lemma abs_link_end_ext g g' b :
  g_secs g' = g_secs g → g_syms g' = g_syms g → abs_link_end g' b = abs_link_end g b.
Proof. unfold abs_link_end. by intros -> ->. Qed.

Lemma link_entry_ext ctx g g' l :
  g_secs g' = g_secs g → g_syms g' = g_syms g → link_entry ctx g' l = link_entry ctx g l.
Proof. intros E1 E2. unfold link_entry. by rewrite !(abs_link_end_ext g g') by done. Qed.

Lemma link_reloc_err {E1 E2} ctx l reloc addend :
  link_reloc (E:=E1) ctx l = Ok (reloc, addend) → link_reloc (E:=E2) ctx l = Ok (reloc, addend).
Proof. unfold link_reloc. repeat (case_match; try done); by intros [= <- <-]. Qed.

Lemma abs_link_step {E} ctx g l g' :
  abs_link (E:=E) ctx g l = Ok g' →
  ∃ sh r, link_entry ctx g l = Some (sh, r) ∧ g' = abs_add_reloc g sh r.
Proof.
  unfold abs_link, link_entry. destruct (abs_link_end g (l_to l)) as [[ti ts]|]; [|done].
  destruct (abs_link_end g (l_from l)) as [[fi fs]|]; [|done]. cbn [expect obind mbind option_bind].
  destruct (link_reloc ctx l) as [[reloc addend]| |] eqn:El; cbn [obind]; [|done..].
  intros [= <-]. rewrite (link_reloc_err _ _ _ _ El). eauto.
Qed.

Lemma rels_of_add g sh r sh' :
  rels_of (abs_add_reloc g sh r) sh' = rels_of g sh' ++ (if decide (sh = sh') then [r] else []).
Proof.
  unfold rels_of, abs_add_reloc. cbn. destruct (al_get (g_rels g) sh) as [rs|] eqn:Es.
  - rewrite al_get_modify. case_decide; subst.
    + rewrite Es, decide_True by done. done.
    + rewrite decide_False, app_nil_r by done. done.
  - rewrite <- (al_insert_fresh _ sh [r]) by by apply al_get_None.
    rewrite al_get_insert. case_decide; subst.
    + rewrite Es, decide_True by done. done.
    + rewrite decide_False, app_nil_r by done. done.
Qed.

(** The links of a list that patch section [sh], as relocations. *)
Definition link_rels (ctx : Ctx) (g : AbsElf) (sh : Z) (ls : list LinkAndDecl) : list ElfReloc :=
  omap (fun l => '(sh', r) ← link_entry ctx g l; if decide (sh' = sh) then Some r else None) ls.

Lemma link_rels_ext ctx g g' sh ls :
  g_secs g = g_secs g' → g_syms g = g_syms g' → link_rels ctx g sh ls = link_rels ctx g' sh ls.
Proof.
  intros E1 E2. unfold link_rels. induction ls as [|l ls IH]; cbn; [done|].
  by rewrite IH, (link_entry_ext ctx g' g) by done.
Qed.

Lemma abs_links_closed {E} ctx ls : ∀ g g',
  ofold (abs_link (E:=E) ctx) g ls = Ok g' →
  g_secs g' = g_secs g ∧ g_code g' = g_code g ∧ g_syms g' = g_syms g ∧ g_locals g' = g_locals g ∧
  (∀ l, l ∈ ls → is_Some (link_entry ctx g l)) ∧
  ∀ sh, rels_of g' sh = rels_of g sh ++ link_rels ctx g sh ls.
Proof.
  induction ls as [|l ls IH]; intros g g'; cbn [ofold].
  { intros [= <-]. do 4 (split; [done|]). split; [by intros l ?%elem_of_nil|].
    intros sh. by rewrite app_nil_r. }
  destruct (abs_link ctx g l) as [g1| |] eqn:E1; cbn [obind]; [|done..]. intros H.
  destruct (abs_link_step ctx g l g1 E1) as (sh & r & He & ->).
  destruct (IH _ _ H) as (H1 & H2 & H3 & H4 & H5 & H6). do 4 (split; [done|]). split.
  - intros l' [->|Hl']%elem_of_cons; [by eexists|].
    destruct (H5 l' Hl') as [x Hx]. exists x. by rewrite <- Hx.
  - intros sh'. rewrite H6, rels_of_add, <- app_assoc. f_equal. unfold link_rels. cbn [omap list_omap].
    rewrite He. cbn. by destruct (decide (sh = sh')).
Qed.

Lemma abs_object_closed {E} ctx c g :
  abs_object (E:=E) ctx c = Ok g →
  obj_spec ctx c g ∧ (∀ l, l ∈ c_links c → is_Some (link_entry ctx g l)) ∧
  ∀ sh, rels_of g sh = link_rels ctx g sh (c_links c).
Proof.
  intros H. unfold abs_object in H. rewrite abs_imports_spec in H.
  destruct (abs_definitions_closed ctx (c_defs c)) as [E1 E2 E3 E4]. cbn in E1, E2, E3, E4.
  rewrite app_nil_r in E3.
  destruct (abs_links_closed ctx _ _ _ H) as (H1 & H2 & H3 & H4 & H5 & H6). cbn in *.
  split; [|split].
  - split; [by rewrite H1 | by rewrite H2 | by rewrite H3, E3 | by rewrite H4].
  - intros l Hl. destruct (H5 l Hl) as [x Hx]. exists x. rewrite <- Hx. by apply link_entry_ext.
  - intros sh. rewrite H6. unfold rels_of. cbn. rewrite abs_definitions_rels. cbn.
    by apply link_rels_ext.
Qed.
End Facts.
