(* ===== verification/ElfTheorems.v ===== *)
(** * What the ELF backend guarantees

    The theorems about [elf::to_bytes]: the bytes it returns are the image of
    the object the artifact stands for, and what a linker reads in that image:
    names, section contents and symbols. *)

From stdpp Require Import base numbers list gmap strings.
From Stdlib Require Import ZArith Lia Strings.Byte.
From S2P Require Import Prelude Std Bytes External Instances Decl Artifact ArtifactInv ArtifactSpec.
From S2P Require Import Contents Target ElfBuild ElfState ElfWrite ElfRepr ElfLink ElfObject.
From S2P Require Import ElfLayout ElfImage ElfRead ElfFacts.

Section ElfTheorems.
Context {TL : TargetLexicon} {SI : StringInterner} {IM : IndexMapOps} {G : GoblinElf} {P : Profile}.
Context {OS : OsFile} {SC : Scroll} {SCL : ScrollLaws SC}.
Context {SIL : StringInternerLaws SI} {IML : IndexMapLaws IM} {GL : GoblinElfLaws G}.

(** ** The whole backend *)

(** The strings of the file of an artifact whose object is [g]. *)
Definition file_strings (a : Artifact) (g : AbsElf) : list string :=
  final_strings g (object_strings (a_name a) (contents a) g).

(** The file is small enough for the widths of the format. *)
Definition fits (a : Artifact) (g : AbsElf) : Prop :=
  header_count g < 2 ^ 32 ∧ symbol_count g < 2 ^ 32 ∧
  file_len (make_ctx (a_target a)) (file_strings a g) g < 2 ^ 64.

(** [bs] is what [to_bytes] returned for such an artifact. *)
Record elf_emitted (a : Artifact) (machine : Z) (g : AbsElf) (bs : list byte) : Prop := {
  em_reach : reachable a;
  em_def : undefined_symbols (E:=ArtifactError) a = Ok [];
  em_ready : elf_ready (make_ctx (a_target a)) (a_name a) (contents a);
  em_mach : MachineTag_from (E:=goblin_error) (architecture (a_target a)) = Ok machine;
  em_obj : abs_object (E:=goblin_error) (make_ctx (a_target a)) (contents a) = Ok g;
  em_fits : fits a g;
  em_bytes : to_bytes a = Ok bs
}.

Lemma to_bytes_image a machine :
  reachable a → undefined_symbols (E:=ArtifactError) a = Ok [] →
  elf_ready (make_ctx (a_target a)) (a_name a) (contents a) →
  MachineTag_from (E:=goblin_error) (architecture (a_target a)) = Ok machine →
  ∃ g, abs_object (E:=goblin_error) (make_ctx (a_target a)) (contents a) = Ok g ∧
    contents_wf (contents a) ∧ obj_inv (contents a) g ∧
    (fits a g → to_bytes a =
       Ok (elf_image (make_ctx (a_target a)) machine (file_strings a g) (a_name a) g)) ∧
    NoDup (g_rels g).*1 ∧ (∀ r, r ∈ g_rels g → ∃ s, zget (g_secs g) (r.1 - 3) = Some s) ∧
    (∀ s, s ∈ g_secs g → as_name s ∈ file_strings a g) ∧
    (∀ p, p ∈ g_syms g → p.1 ∈ file_strings a g) ∧ ".strtab"%string ∈ file_strings a g.
Proof.
  intros Hreach Hdef Hready Hmach.
  pose proof (reachable_wf _ Hreach) as Hwf. pose proof (contents_complete a Hwf Hdef) as Hc.
  destruct (build_ok (E:=goblin_error) a Hwf Hc Hready) as (g & e & Hg & He & Hi & Hr & Hst & Hk).
  unfold elf_const in Hk. injection Hk as Hn Hctx Har.
  exists g. do 3 (split; [done|]). split; [|split; [apply Hr|split]].
  - intros (Hcount & _ & Hlen). unfold to_bytes. rewrite He. cbn [obind].
    unfold file_strings in *. rewrite <- Hst, <- Hctx, <- Hn in *.
    apply write_ok; [done | exact (oi_addends _ _ Hi) | done | by rewrite Har | done].
  - intros r Hin. apply list_elem_of_lookup in Hin as [i Hin].
    destruct (Forall2_lookup_l _ _ _ _ _ (re_rels _ _ Hr) Hin) as (p & _ & _ & _ & s & _ & _ & Hs & _).
    eauto.
  - assert (∀ n, n ∈ si_strings (e_strings e) → n ∈ file_strings a g) as Hsub.
    { intros n Hin. unfold file_strings, final_strings. rewrite <- Hst.
      assert (∀ m l, n ∈ l → n ∈ intern m l) as Hint.
      { intros m l Hl. destruct (intern_prefix m l) as [k ->]. apply elem_of_app. by left. }
      apply Hint. destruct (needs_shndx g); [by apply Hint | done]. }
    split; [|split; [|by eapply Hsub, zget_elem, (re_strtab0 _ _ Hr)]].
    + intros s Hs. apply Hsub. apply elem_zget in Hs as [i Hs].
      destruct (zget_in_range (im_iter (e_sections e)) i) as [p Hp].
      { rewrite (re_secs_len _ _ Hr). by eapply zget_range. }
      destruct (re_secs _ _ Hr _ _ _ Hs Hp) as (off & [Hz _] & _). by eapply zget_elem.
    + intros p Hp. apply Hsub. apply list_elem_of_lookup in Hp as [i Hp].
      destruct (Forall2_lookup_l _ _ _ _ _ (re_syms _ _ Hr) Hp) as (q & _ & off & [Hz _] & _).
      by eapply zget_elem.
Qed.

(** What holds of an emitted file. *)
Lemma emitted_facts a machine g bs :
  elf_emitted a machine g bs →
  bs = elf_image (make_ctx (a_target a)) machine (file_strings a g) (a_name a) g ∧
  contents_wf (contents a) ∧ obj_inv (contents a) g ∧
  obj_spec (make_ctx (a_target a)) (contents a) g ∧
  NoDup (g_rels g).*1 ∧ (∀ r, r ∈ g_rels g → ∃ s, zget (g_secs g) (r.1 - 3) = Some s) ∧
  (∀ s, s ∈ g_secs g → as_name s ∈ file_strings a g) ∧
  (∀ p, p ∈ g_syms g → p.1 ∈ file_strings a g) ∧ ".strtab"%string ∈ file_strings a g.
Proof.
  intros []. destruct (to_bytes_image a machine) as (g' & Hg & Hc & Hi & Hb & Hrest); [done..|].
  assert (g' = g) as -> by congruence. specialize (Hb em_fits0).
  split; [congruence|]. split; [done|]. split; [done|].
  split; [by eapply abs_object_closed | done].
Qed.

(** C8: [elf::to_bytes] writes the object the artifact stands for.  For an
    artifact a client can build, in which nothing is left undefined, whose
    section and symbol names do not clash and whose links are all of a
    supported kind, the abstract object exists, and when the file fits the
    widths of the format, [to_bytes] returns exactly its image: no assertion
    on a position fails and nothing panics. *)
Theorem elf_to_bytes_image (a : Artifact) (machine : Z)
  (Hreach : reachable a)
  (Hdef : undefined_symbols (E:=ArtifactError) a = Ok [])
  (Hready : elf_ready (make_ctx (a_target a)) (a_name a) (contents a))
  (Hmach : MachineTag_from (E:=goblin_error) (architecture (a_target a)) = Ok machine) :
  ∃ g, abs_object (E:=goblin_error) (make_ctx (a_target a)) (contents a) = Ok g ∧
    (fits a g →
     to_bytes a =
       Ok (elf_image (make_ctx (a_target a)) machine (file_strings a g) (a_name a) g)).
Proof.
  destruct (to_bytes_image a machine Hreach Hdef Hready Hmach) as (g & Hg & _ & _ & Hb & _). eauto.
Qed.

(** ** The tables of the file *)
(** C9: the header leads to the section headers.  The file starts with the
    header, the section headers fill the file from [e_shoff] to its end, and
    entry [i] of the table is header number [i] of the object; section number
    [e_shstrndx] is the string table.  When there are fewer than 0xff00
    sections [e_shnum] is their number, otherwise it is 0 and the number is
    the size of the null section. *)
Theorem elf_section_table (a : Artifact) (machine : Z) (g : AbsElf) (bs : list byte)
  (Hem : elf_emitted a machine g bs) :
  let ctx := make_ctx (a_target a) in
  let h := file_header ctx machine (file_strings a g) g in
  let headers := object_headers ctx (file_strings a g) g in
  slice 0 (header_size ctx) bs = ser_header h ctx ∧
  e_type h = ET_REL ∧ e_machine h = machine ∧
  zlen bs = e_shoff h + zlen headers * shdr_size ctx ∧ e_shoff h mod ctx_size ctx = 0 ∧
  (∀ i hd, zget headers i = Some hd →
     slice (e_shoff h + i * shdr_size ctx) (shdr_size ctx) bs = ser_shdr hd ctx) ∧
  zget headers (e_shstrndx h) = Some (strtab_header ctx (file_strings a g) g) ∧
  (if zlen headers <? SHN_LORESERVE then e_shnum h = zlen headers
   else e_shnum h = 0 ∧ ∃ null, zget headers 0 = Some null ∧ sh_size null = zlen headers).
Proof.
  destruct (emitted_facts _ _ _ _ Hem) as (-> & _). intros ctx h headers.
  pose proof (offsets_ordered ctx (file_strings a g) g) as Ho.
  split; [apply slice_at; [apply header_at | apply ser_header_len]|].
  do 2 (split; [done|]).
  split; [unfold headers; rewrite elf_image_len, object_headers_len; done|].
  split; [apply round_up_spec; lia|].
  split; [intros i hd Hi; apply slice_at; [by apply section_header_at | apply ser_shdr_len]|].
  split; [by apply (zget_app_l [_; _; _])|]. unfold headers. rewrite object_headers_len.
  unfold h, file_header. cbn [e_shnum]. rewrite <- needs_shndx_count.
  pose proof SHN_values as (_ & Hlo & _).
  destruct (Z.ltb_spec (header_count g) SHN_LORESERVE) as [Hlt|Hge].
  - destruct (Z.leb_spec SHN_LORESERVE (header_count g)); [lia|].
    apply wrap_small. unfold in_u. lia.
  - destruct (Z.leb_spec SHN_LORESERVE (header_count g)) as [_|]; [|lia]. split; [done|].
    eexists. split; [by apply (zget_app_l [_; _; _])|]. unfold null_header.
    rewrite <- needs_shndx_count. destruct (Z.leb_spec SHN_LORESERVE (header_count g)); [done|lia].
Qed.

(** ** Section contents *)
Definition def_bytes (d : Definition_) : list byte := concat (def_code d).

Lemma create_size b ctx : sh_size (SectionBuilder_create b ctx) = sec_size b.
Proof.
  unfold SectionBuilder_create.
  destruct (sec_typ b), (sec_exec b), (sec_write b), (sec_alloc b); done.
Qed.

Lemma create_name b ctx : sh_name (SectionBuilder_create b ctx) = sec_name_offset b.
Proof.
  unfold SectionBuilder_create.
  destruct (sec_typ b), (sec_exec b), (sec_write b), (sec_alloc b); done.
Qed.

Lemma definition_section_size d : sec_size (definition_section d) = u64 (zlen (def_bytes d)).
Proof.
  unfold definition_section, def_bytes, def_code.
  destruct (d_data d); cbn [concat]; rewrite ?app_nil_r; by destruct (d_decl d).
Qed.

Lemma code_piece ctx ds i d :
  zget ds i = Some d →
  at_off (code_offset ctx ds (Z.to_nat i) - header_size ctx) (def_bytes d)
    (concat (concat (def_code <$> ds))).
Proof.
  intros Hi. apply zget_Some in Hi as [_ Hi]. unfold code_offset.
  rewrite <- (take_drop_middle ds _ _ Hi) at 2. rewrite fmap_app, concat_app, concat_app. cbn.
  rewrite concat_app. eexists _, _. split; [done|]. rewrite zlen_concat. lia.
Qed.

(** Where the bytes of a definition are. *)
Lemma definition_bytes_at a machine g bs i d :
  elf_emitted a machine g bs → zget (c_defs (contents a)) i = Some d →
  let ctx := make_ctx (a_target a) in
  let off := code_offset ctx (c_defs (contents a)) (Z.to_nat i) in
  at_off off (def_bytes d) bs ∧
  (0 ≤ off ∧ off + zlen (def_bytes d) ≤ file_len ctx (file_strings a g) g ∧
   off + zlen (def_bytes d) < 2 ^ 64).
Proof.
  intros Hem Hi ctx off. destruct (emitted_facts _ _ _ _ Hem) as (-> & _ & _ & Hs & _).
  pose proof (code_at ctx machine (file_strings a g) (a_name a) g) as Hcode.
  rewrite (os_code _ _ _ Hs) in Hcode.
  pose proof (at_off_trans _ _ _ _ _ Hcode (code_piece ctx _ _ _ Hi)) as Hat.
  replace (header_size ctx + _) with off in Hat by (unfold off; lia).
  destruct (em_fits _ _ _ _ Hem) as (_ & _ & Hlen). fold ctx in Hlen.
  pose proof (at_off_bound _ _ _ Hat) as Hb. rewrite elf_image_len in Hb. split; [done|]. lia.
Qed.

(** C10: sections hold the definitions.  The section of definition number [i]
    is section number [i + 3]; it is named after the definition, and the bytes
    from its [sh_offset] on, [sh_size] of them, are the bytes the client gave
    (none for zero-initialised data). *)
Theorem elf_section_contents (a : Artifact) (machine : Z) (g : AbsElf) (bs : list byte)
  (i : Z) (d : Definition_)
  (Hem : elf_emitted a machine g bs)
  (Hi : zget (c_defs (contents a)) i = Some d)
  (Hnul : no_nul (sec_name d)) :
  let ctx := make_ctx (a_target a) in
  let headers := object_headers ctx (file_strings a g) g in
  ∃ hd, zget headers (i + 3) = Some hd ∧
    sh_size hd = zlen (def_bytes d) ∧ slice (sh_offset hd) (sh_size hd) bs = def_bytes d ∧
    cstring_at (sh_offset (strtab_header ctx (file_strings a g) g) + sh_name hd) bs =
      bytes_of (sec_name d).
Proof.
  destruct (emitted_facts _ _ _ _ Hem) as (-> & _ & _ & Hs & _ & _ & Hnames & _ & Hstr).
  intros ctx headers. set (strs := file_strings a g) in *.
  pose proof (os_secs _ _ _ Hs) as Esec. pose proof (zget_range _ _ _ Hi) as Hir.
  assert (zget (g_secs g) i = Some (section_at ctx (c_defs (contents a)) (Z.to_nat i) d)) as Hsec.
  { rewrite Esec. by apply zget_imap. }
  exists (section_header ctx strs (section_at ctx (c_defs (contents a)) (Z.to_nat i) d)).
  split.
  { unfold headers, object_headers. replace (i + 3) with (3 + i) by lia.
    rewrite (zget_app_r [_; _; _]) by lia. apply zget_app_l. by rewrite zget_fmap, Hsec. }
  destruct (definition_bytes_at _ _ _ _ _ _ Hem Hi) as [Hat Hb]. fold ctx in Hat, Hb.
  pose proof (zlen_nonneg (def_bytes d)).
  unfold section_header. cbn [sh_size sh_offset sh_name shdr_set_offset section_at as_offset].
  rewrite create_size. cbn [section_name_offset sec_size as_builder section_at].
  rewrite definition_section_size, !wrap_small by (unfold in_u; lia).
  split; [done|]. split; [by apply at_off_slice|].
  rewrite create_name. cbn [section_name_offset sec_name_offset as_name section_at].
  apply cstring_at_off; [|done]. apply name_at. eapply (Hnames (section_at ctx _ _ d)), zget_elem, Hsec.
Qed.

(** ** Symbols *)
Definition decl_bind (d : DefinedDecl) : Z :=
  match (match d with DD_Function f => get_scope f | DD_Data f => get_scope f
                    | DD_Section _ => Scope_Local end) with
  | Scope_Local => STB_LOCAL
  | Scope_Global => STB_GLOBAL
  | Scope_Weak => STB_WEAK
  end.

Definition decl_type (d : DefinedDecl) : Z :=
  match d with DD_Function _ => STT_FUNC | DD_Data _ => STT_OBJECT | DD_Section _ => STT_SECTION end.

Definition decl_visibility (d : DefinedDecl) : Z :=
  match (match d with DD_Function f => get_visibility f | DD_Data f => get_visibility f
                    | DD_Section _ => Vis_Default end) with
  | Vis_Default => STV_DEFAULT
  | Vis_Hidden => STV_HIDDEN
  | Vis_Protected => STV_PROTECTED
  end.

(** What a linker reads in the fields of a built symbol. *)
Lemma symbol_decode b d :
  sb_typ b = ST_Decl d → DefinedDecl_is_section d = false →
  let s := SymbolBuilder_create b in
  Z.shiftr (st_info s) 4 = decl_bind d ∧ Z.land (st_info s) 15 = decl_type d ∧
  st_other s = decl_visibility d ∧ st_shndx s = sb_shndx b ∧ st_value s = sb_value b ∧
  st_size s = sb_size b ∧ st_name s = sb_name_offset b.
Proof.
  pose proof STB_values as (E1 & E2 & E3). pose proof STT_values as (F0 & F1 & F2 & F3 & F4).
  pose proof STV_values as (V0 & V1 & V2). intros Hb Hd. unfold SymbolBuilder_create. rewrite Hb.
  destruct d as [f|f|f]; [| |done];
    unfold decl_bind, decl_visibility, decl_type, scope_stb_flags, vis_stother_flags;
    destruct (get_scope f), (get_visibility f); cbn [st_info st_other st_shndx st_value st_size st_name];
    rewrite ?E1, ?E2, ?E3, ?F1, ?F2, ?V0, ?V1, ?V2; done.
Qed.

(** The symbol table entry of a symbol of the object. *)
Lemma object_symbol_at a machine g bs j p :
  elf_emitted a machine g bs → zget (g_syms g) j = Some p →
  let ctx := make_ctx (a_target a) in let strs := file_strings a g in
  let k := 2 + zlen (g_secs g) + j in
  let sym := object_symbol strs p in
  zget (written_symbols strs (a_name a) g) k = Some (clamp_shndx sym) ∧
  slice (off_symtab ctx strs g + k * sym_size (container ctx)) (sym_size (container ctx)) bs =
    ser_sym (clamp_shndx sym) ctx ∧
  (needs_shndx g = true →
   slice (off_shndx ctx strs g + k * 4) 4 bs = ser_u32 (u32 (st_shndx sym)) (le ctx)) ∧
  (no_nul p.1 → cstring_at (off_strtab ctx g + name_off strs p.1) bs = bytes_of p.1).
Proof.
  intros Hem Hj ctx strs k sym.
  destruct (emitted_facts _ _ _ _ Hem) as (-> & _ & _ & _ & _ & _ & _ & Hnames & _).
  pose proof (zget_range _ _ _ Hj) as Hjr. pose proof (zlen_nonneg (g_secs g)).
  assert (zget (local_and_other_symbols strs g) (zlen (g_secs g) + j) = Some sym) as Ho.
  { unfold local_and_other_symbols.
    replace (zlen (g_secs g)) with (zlen (imap (fun i _ => section_symbol i) (g_secs g)))
      by (unfold zlen; by rewrite length_imap).
    rewrite zget_app_r by lia. by rewrite zget_fmap, Hj. }
  assert (zget (written_symbols strs (a_name a) g) k = Some (clamp_shndx sym)) as Hw.
  { unfold written_symbols, k. rewrite <- Z.add_assoc.
    rewrite (zget_app_r (special_symbols strs (a_name a))) by lia. by rewrite zget_fmap, Ho. }
  split; [done|]. split; [|split].
  - apply slice_at; [by apply symbol_at | apply ser_sym_len].
  - intros Hneed. apply slice_at; [|apply ser_u32_len].
    eapply at_off_trans; [by apply shndx_at|].
    apply (at_off_concat (fun s => ser_u32 (u32 (st_shndx s)) (le ctx))); [intros; apply ser_u32_len|].
    unfold all_symbols, k. rewrite <- Z.add_assoc.
    by rewrite (zget_app_r (special_symbols strs (a_name a))) by lia.
  - intros Hnul. apply cstring_at_off; [|done]. apply name_at. apply Hnames. by eapply zget_elem.
Qed.

Lemma clamp_shndx_fields s :
  st_name (clamp_shndx s) = st_name s ∧ st_info (clamp_shndx s) = st_info s ∧
  st_other (clamp_shndx s) = st_other s ∧ st_value (clamp_shndx s) = st_value s ∧
  st_size (clamp_shndx s) = st_size s.
Proof. unfold clamp_shndx. by destruct (SHN_LORESERVE <=? st_shndx s). Qed.

Lemma def_symbol_in a machine g bs i d p :
  elf_emitted a machine g bs → zget (c_defs (contents a)) i = Some d →
  p ∈ def_symbols (i + 3) d → p ∈ g_syms g.
Proof.
  intros Hem Hi Hp. destruct (emitted_facts _ _ _ _ Hem) as (_ & _ & _ & Hs & _).
  rewrite (os_syms _ _ _ Hs). apply elem_of_app. left. apply elem_of_concat.
  exists (def_symbols (i + 3) d). split; [done|].
  apply zget_elem with i. rewrite (zget_imap _ _ _ _ Hi). do 2 f_equal.
  apply zget_range in Hi. lia.
Qed.

(** The section index of a symbol as the file records it. *)
Definition records_shndx (a : Artifact) (g : AbsElf) (bs : list byte) (k sh : Z) (s : Sym) : Prop :=
  let ctx := make_ctx (a_target a) in
  if sh <? SHN_LORESERVE then st_shndx s = sh
  else st_shndx s = SHN_XINDEX ∧
       slice (off_shndx ctx (file_strings a g) g + k * 4) 4 bs = ser_u32 sh (le ctx).

Lemma clamp_records a machine g bs k sh s :
  elf_emitted a machine g bs → 0 ≤ sh < 3 + zlen (g_secs g) → st_shndx s = sh →
  (needs_shndx g = true → slice (off_shndx (make_ctx (a_target a)) (file_strings a g) g + k * 4) 4 bs =
     ser_u32 (u32 (st_shndx s)) (le (make_ctx (a_target a)))) →
  records_shndx a g bs k sh (clamp_shndx s).
Proof.
  intros Hem Hsh Es Hx. destruct (em_fits _ _ _ _ Hem) as [Hc _].
  unfold records_shndx, clamp_shndx. rewrite Es in *.
  pose proof (zlen_nonneg (g_rels g)). unfold header_count in Hc.
  destruct (Z.ltb_spec sh SHN_LORESERVE) as [Hlt|Hge].
  - destruct (Z.leb_spec SHN_LORESERVE sh); [lia|done].
  - destruct (Z.leb_spec SHN_LORESERVE sh); [|lia]. split; [done|].
    rewrite Hx; [|unfold needs_shndx; apply Z.leb_le; lia].
    rewrite wrap_small; [done|]. unfold in_u. destruct (needs_shndx g); lia.
Qed.

(** C11: the symbol of a definition.  A function or data object has a symbol
    with its name, the binding of its scope, the type of its kind, its
    visibility, value 0, the size of its bytes, and the index of the section
    that holds it, directly or, from section 0xff00 on, through
    [.symtab_shndx]. *)
Theorem elf_definition_symbol (a : Artifact) (machine : Z) (g : AbsElf) (bs : list byte)
  (i : Z) (d : Definition_)
  (Hem : elf_emitted a machine g bs)
  (Hi : zget (c_defs (contents a)) i = Some d)
  (Hkind : DefinedDecl_is_section (d_decl d) = false)
  (Hnul : no_nul (d_name d)) :
  let ctx := make_ctx (a_target a) in
  let strs := file_strings a g in
  ∃ k s, slice (sh_offset (symtab_header ctx strs g) + k * sym_size (container ctx))
           (sym_size (container ctx)) bs = ser_sym s ctx ∧
    cstring_at (sh_offset (strtab_header ctx strs g) + st_name s) bs = bytes_of (d_name d) ∧
    Z.shiftr (st_info s) 4 = decl_bind (d_decl d) ∧ Z.land (st_info s) 15 = decl_type (d_decl d) ∧
    st_other s = decl_visibility (d_decl d) ∧ st_value s = 0 ∧
    st_size s = u64 (zlen (def_bytes d)) ∧ records_shndx a g bs k (i + 3) s.
Proof.
  intros ctx strs.
  set (b := mkSymbolBuilder 0 (u64 (file_size (d_data d))) (ST_Decl (d_decl d)) (i + 3) 0).
  assert ((d_name d, b) ∈ def_symbols (i + 3) d) as Hin.
  { unfold def_symbols, b. destruct (d_decl d); [apply list_elem_of_here..|done]. }
  apply (def_symbol_in _ _ _ _ _ _ _ Hem Hi), elem_zget in Hin as [j Hj].
  destruct (object_symbol_at _ _ _ _ _ _ Hem Hj) as (_ & Hsl & Hx & Hnm).
  destruct (symbol_decode (symbol_name_offset (name_off strs (d_name d)) b) (d_decl d))
    as (D1 & D2 & D3 & D4 & D5 & D6 & D7); [done|done|].
  change (SymbolBuilder_create (symbol_name_offset (name_off strs (d_name d)) b))
    with (object_symbol strs (d_name d, b)) in *.
  fold ctx strs in Hsl, Hx, Hnm. set (s := object_symbol strs (d_name d, b)) in *.
  exists (2 + zlen (g_secs g) + j), (clamp_shndx s).
  destruct (clamp_shndx_fields s) as (-> & -> & -> & -> & ->).
  split; [exact Hsl|]. split; [rewrite D7; by apply Hnm|].
  do 3 (split; [done|]). split; [done|]. split.
  { rewrite D6. cbn. unfold def_bytes, def_code. destruct (d_data d); cbn; by rewrite ?app_nil_r. }
  destruct (emitted_facts _ _ _ _ Hem) as (_ & _ & _ & Hs & _).
  eapply clamp_records; [done| |done|done].
  rewrite (os_secs _ _ _ Hs). apply zget_range in Hi. unfold zlen in *. rewrite length_imap. lia.
Qed.

Lemma import_symbol_in a machine g bs n k :
  elf_emitted a machine g bs → (n, k) ∈ c_imports (contents a) →
  ∃ j, zget (g_syms g) j = Some (n, mkSymbolBuilder 0 0 ST_Import 0 0).
Proof.
  intros Hem Hin. destruct (emitted_facts _ _ _ _ Hem) as (_ & _ & _ & Hs & _).
  apply elem_zget. rewrite (os_syms _ _ _ Hs). apply elem_of_app. right.
  apply list_elem_of_fmap. by exists (n, k).
Qed.

(** The symbol of an import.  Every imported name has an undefined,
    global, untyped symbol: section 0, value 0, size 0. *)
Theorem elf_import_symbol (a : Artifact) (machine : Z) (g : AbsElf) (bs : list byte)
  (n : string) (kind : ImportKind)
  (Hem : elf_emitted a machine g bs)
  (Hin : (n, kind) ∈ c_imports (contents a))
  (Hnul : no_nul n) :
  let ctx := make_ctx (a_target a) in
  let strs := file_strings a g in
  ∃ k s, slice (sh_offset (symtab_header ctx strs g) + k * sym_size (container ctx))
           (sym_size (container ctx)) bs = ser_sym s ctx ∧
    cstring_at (sh_offset (strtab_header ctx strs g) + st_name s) bs = bytes_of n ∧
    Z.shiftr (st_info s) 4 = STB_GLOBAL ∧ Z.land (st_info s) 15 = STT_NOTYPE ∧
    st_shndx s = 0 ∧ st_value s = 0 ∧ st_size s = 0.
Proof.
  intros ctx strs. destruct (import_symbol_in _ _ _ _ _ _ Hem Hin) as [j Hj].
  destruct (object_symbol_at _ _ _ _ _ _ Hem Hj) as (_ & Hsl & _ & Hnm).
  fold ctx strs in Hsl, Hnm. set (s := object_symbol strs _) in *.
  exists (2 + zlen (g_secs g) + j), (clamp_shndx s).
  destruct (clamp_shndx_fields s) as (-> & -> & _ & -> & ->).
  split; [exact Hsl|]. split; [by apply Hnm|].
  pose proof STB_values as (_ & E2 & _). pose proof STT_values as (F0 & _).
  pose proof SHN_values as (_ & Hlo & _). unfold clamp_shndx, s, object_symbol. cbn.
  rewrite E2, F0, Hlo. done.
Qed.

(** ** Relocations *)
Lemma rela_headers_at ctx strs g rels : ∀ (q : nat) off sh rs,
  rels !! q = Some (sh, rs) →
  rela_headers ctx strs g off rels !! q =
    Some (shdr_set_offset (off + zsum ((fun r => zlen r.2) <$> take q rels) * reloc_size true ctx)
      (rela_header ctx (name_off strs (rela_name g sh)) sh (zlen rs))).
Proof.
  induction rels as [|[sh' rs'] rels IH]; intros q off sh rs Hq; [by rewrite lookup_nil in Hq|].
  destruct q as [|q]; cbn in *.
  - injection Hq as -> ->. by rewrite Z.add_0_r.
  - rewrite (IH _ _ _ _ Hq). do 2 f_equal. ring.
Qed.

Lemma reloc_piece ctx (rels : list (Z * list ElfReloc)) (q : nat) sh rs :
  rels !! q = Some (sh, rs) →
  at_off (zsum ((fun r => zlen r.2) <$> take q rels) * reloc_size true ctx)
    (concat ((fun x => ser_reloc x (true, ctx)) <$> rs))
    (concat ((fun r => concat ((fun x => ser_reloc x (true, ctx)) <$> r.2)) <$> rels)).
Proof.
  intros Hq. rewrite <- (take_drop_middle _ _ _ Hq) at 2. rewrite fmap_app, concat_app. cbn.
  eexists _, _. split; [done|]. clear Hq. induction (take q rels) as [|r l IH]; cbn; [done|].
  rewrite zlen_app, IH, (zlen_concat_const _ (reloc_size true ctx)); [lia|].
  intros. apply ser_reloc_len.
Qed.

(** Where the relocation section number [q] is. *)
Lemma rela_section_at a machine g bs (q : nat) sh rs :
  elf_emitted a machine g bs → g_rels g !! q = Some (sh, rs) →
  let ctx := make_ctx (a_target a) in let strs := file_strings a g in
  ∃ hd, rela_headers ctx strs g (off_reloc ctx strs g) (g_rels g) !! q = Some hd ∧
    sh_type hd = SHT_RELA ∧ sh_link hd = SYMTAB_LINK ∧ sh_info hd = sh ∧
    sh_entsize hd = reloc_size true ctx ∧ sh_size hd = zlen rs * reloc_size true ctx ∧
    sh_name hd = name_off strs (rela_name g sh) ∧
    at_off (sh_offset hd) (concat ((fun x => ser_reloc x (true, ctx)) <$> rs)) bs.
Proof.
  intros Hem Hq ctx strs.
  destruct (emitted_facts _ _ _ _ Hem) as (-> & _ & _ & _ & _ & Hsecs & _).
  rewrite (rela_headers_at ctx strs g _ q (off_reloc ctx strs g) _ _ Hq).
  eexists. split; [done|]. do 2 (split; [done|]).
  pose proof (list_elem_of_lookup_2 _ _ _ Hq) as Hin'.
  destruct (Hsecs _ Hin') as [s Hs]. apply zget_range in Hs. cbn in Hs.
  destruct (em_fits _ _ _ _ Hem) as (Hc & _ & Hlen). fold ctx strs in Hlen.
  pose proof (zlen_nonneg (g_rels g)). unfold header_count in Hc.
  split; [cbn; apply wrap_small; unfold in_u; destruct (needs_shndx g); lia|].
  split; [done|].
  pose proof (at_off_trans _ _ _ _ _ (relocs_at ctx machine strs (a_name a) g) (reloc_piece ctx _ _ _ _ Hq)) as Hat.
  split; [|split; [done|exact Hat]].
  pose proof (at_off_bound _ _ _ Hat) as Hb.
  rewrite elf_image_len, (zlen_concat_const _ (reloc_size true ctx)) in Hb by (intros; apply ser_reloc_len).
  cbn. apply wrap_small. unfold in_u.
  pose proof (zlen_nonneg rs). rewrite reloc_size_spec in *. destruct (container ctx); lia.
Qed.

Lemma rela_header_in ctx strs g (q : nat) hd :
  rela_headers ctx strs g (off_reloc ctx strs g) (g_rels g) !! q = Some hd →
  ∃ k, zget (object_headers ctx strs g) k = Some hd.
Proof.
  intros Hh. apply list_elem_of_lookup_2 in Hh. apply elem_zget.
  unfold object_headers. rewrite !elem_of_app. right; right; right; left. exact Hh.
Qed.

Lemma rels_of_at g (q : nat) sh rs :
  NoDup (g_rels g).*1 → g_rels g !! q = Some (sh, rs) → rels_of g sh = rs.
Proof.
  intros Hnd Hq. unfold rels_of. apply list_elem_of_lookup_2 in Hq.
  by rewrite (al_get_NoDup _ _ _ Hnd Hq).
Qed.

(** The ends of links, found by name, are the sections and symbols of the
    definitions and imports they name. *)
Lemma link_end_def a machine g bs i d :
  elf_emitted a machine g bs → zget (c_defs (contents a)) i = Some d →
  ∃ ti, abs_link_end g (mkBinding (d_name d) (Defined (d_decl d))) = Some (ti, i + 3).
Proof.
  intros Hem Hi. destruct (emitted_facts _ _ _ _ Hem) as (_ & _ & Hinv & Hs & _).
  pose proof (em_ready _ _ _ _ Hem) as Hrd. unfold abs_link_end. cbn [b_decl b_name].
  set (b := mkSymbolBuilder 0 (u64 (file_size (d_data d))) (ST_Decl (d_decl d)) (i + 3) 0).
  assert (DefinedDecl_is_section (d_decl d) = false →
    al_get (g_syms g) (d_name d) = Some b ∧ ∃ j, index_of (d_name d) (g_syms g).*1 = Some j) as Hsym.
  { intros Hk. assert ((d_name d, b) ∈ g_syms g) as Hin.
    { apply (def_symbol_in _ _ _ _ _ _ _ Hem Hi). unfold def_symbols, b.
      destruct (d_decl d); [apply list_elem_of_here..|done]. }
    split.
    - apply al_get_NoDup; [|done]. rewrite (oi_syms _ _ Hinv). apply (er_symbols _ _ _ Hrd).
    - apply index_of_elem. apply list_elem_of_fmap. by exists (d_name d, b). }
  destruct (d_decl d) as [f|f|f] eqn:Ed; cbn [is_section DefinedDecl_is_section] in *.
  1,2: destruct (Hsym eq_refl) as (-> & j & ->); cbn; eauto.
  assert (index_of (d_name d) (as_name <$> g_secs g) = Some i) as ->; [|cbn; eauto].
  apply index_of_get_NoDup.
  - rewrite (oi_secs _ _ Hinv). apply (er_sections _ _ _ Hrd).
  - rewrite (oi_secs _ _ Hinv), zget_fmap, Hi. cbn. unfold sec_name, section_name.
    rewrite Ed. by destruct (d_data d).
Qed.

Lemma link_end_import a machine g bs n k :
  elf_emitted a machine g bs → (n, k) ∈ c_imports (contents a) →
  ∃ j, abs_link_end g (mkBinding n (Import k)) = Some (2 + zlen (g_secs g) + j, 0) ∧
    zget (g_syms g) j = Some (n, mkSymbolBuilder 0 0 ST_Import 0 0).
Proof.
  intros Hem Hin. destruct (emitted_facts _ _ _ _ Hem) as (_ & _ & Hinv & Hs & _).
  destruct (import_symbol_in _ _ _ _ _ _ Hem Hin) as [j Hj].
  assert (NoDup (g_syms g).*1) as Hnd.
  { rewrite (oi_syms _ _ Hinv). apply (er_symbols _ _ _ (em_ready _ _ _ _ Hem)). }
  exists j. split; [|done]. unfold abs_link_end. cbn [b_decl b_name is_section].
  assert (zget (g_syms g).*1 j = Some n) as Hjn by by rewrite zget_fmap, Hj.
  rewrite (index_of_get_NoDup _ _ _ Hnd Hjn).
  rewrite (al_get_NoDup _ _ _ Hnd (zget_elem _ _ _ Hj)). cbn. do 2 f_equal. lia.
Qed.

Lemma section_symbol_written strs name g j sec :
  zget (g_secs g) j = Some sec →
  zget (written_symbols strs name g) (j + 2) = Some (clamp_shndx (section_symbol (Z.to_nat j))).
Proof.
  intros Hj. pose proof (zget_range _ _ _ Hj) as Hr. unfold written_symbols.
  replace (j + 2) with (2 + j) by lia.
  rewrite (zget_app_r (special_symbols strs name)) by lia. rewrite zget_fmap.
  unfold local_and_other_symbols.
  rewrite (zget_app_l _ _ _ (section_symbol (Z.to_nat j))); [done|].
  by rewrite (zget_imap _ _ _ _ Hj).
Qed.

(** The relocation a link is filed as. *)
Lemma link_entry_spec a machine g bs l :
  elf_emitted a machine g bs → l ∈ c_links (contents a) →
  let ctx := make_ctx (a_target a) in let strs := file_strings a g in
  ∃ i d reloc addend sym s,
    zget (c_defs (contents a)) i = Some d ∧ d_name d = b_name (l_from l) ∧
    link_reloc (E:=goblin_error) ctx l = Ok (reloc, addend) ∧
    link_entry ctx g l = Some (i + 3, mkElfReloc (l_at l) (Some addend) sym reloc) ∧
    zget (written_symbols strs (a_name a) g) sym = Some s ∧
    match b_decl (l_to l) with
    | Defined _ => ∃ j d', zget (c_defs (contents a)) j = Some d' ∧ d_name d' = b_name (l_to l) ∧
                     s = clamp_shndx (section_symbol (Z.to_nat j))
    | Import _ => st_shndx s = 0 ∧ (no_nul (b_name (l_to l)) →
        cstring_at (sh_offset (strtab_header ctx strs g) + st_name s) bs = bytes_of (b_name (l_to l)))
    end.
Proof.
  intros Hem Hl ctx strs. destruct (emitted_facts _ _ _ _ Hem) as (_ & Hc & Hinv & Hs & _).
  destruct (abs_object_closed _ _ _ (em_obj _ _ _ _ Hem)) as (_ & Hall & _).
  destruct (Hall l Hl) as [[sh r] He]. fold ctx in He. rewrite He.
  destruct (cw_from_defined _ Hc _ Hl) as [fd Hfd].
  pose proof (cw_links_from _ Hc _ Hl) as Hbf. unfold bound_in in Hbf. rewrite Hfd in Hbf.
  destruct Hbf as (d & Hd & Hdn & Hdd). apply elem_zget in Hd as [i Hi].
  destruct (link_end_def _ _ _ _ _ _ Hem Hi) as [fi Hf].
  pose proof (cw_links_to _ Hc _ Hl) as Hbt. unfold bound_in in Hbt.
  unfold link_entry in He. destruct (l_from l) as [fn fdecl] eqn:Elf. cbn in Hfd, Hdn. subst fdecl fn fd.
  rewrite Hf in He. destruct (l_to l) as [tn tdecl] eqn:Elt. cbn [b_decl b_name] in *.
  destruct tdecl as [k|td].
  - destruct (link_end_import _ _ _ _ _ _ Hem Hbt) as (j & Ht & Hj). rewrite Ht in He. cbn in He.
    destruct (link_reloc ctx l) as [[reloc addend]| |] eqn:Er; [|done..].
    injection He as <- <-. unfold abs_reloc. rewrite Elt. cbn.
    destruct (object_symbol_at _ _ _ _ _ _ Hem Hj) as (Hw & _ & _ & Hnm).
    exists i, d, reloc, addend. do 2 eexists. do 2 (split; [done|]).
    split; [by eapply link_reloc_err|]. split; [done|]. split; [exact Hw|].
    pose proof SHN_values as (_ & Hlo & _). unfold clamp_shndx, object_symbol. cbn. rewrite Hlo. done.
  - destruct Hbt as (d' & Hd' & Htn & Htd). apply elem_zget in Hd' as [j Hj].
    destruct (link_end_def _ _ _ _ _ _ Hem Hj) as [ti Ht]. rewrite Htn, Htd in Ht.
    rewrite Ht in He. cbn in He. destruct (link_reloc ctx l) as [[reloc addend]| |] eqn:Er; [|done..].
    injection He as <- <-. unfold abs_reloc. rewrite Elt. cbn.
    replace (j + 3 - 1) with (j + 2) by lia.
    exists i, d, reloc, addend, (j + 2). eexists. do 2 (split; [done|]).
    split; [by eapply link_reloc_err|]. split; [done|]. split; [|by eauto].
    eapply section_symbol_written. rewrite (os_secs _ _ _ Hs). by apply zget_imap.
Qed.

(** ** Section attributes *)

(** Type, flags and alignment of a built header with contents. *)
Lemma create_attributes b ctx :
  let h := SectionBuilder_create b ctx in
  let flags := Z.lor (Z.lor (if sec_exec b then SHF_EXECINSTR else 0)
                            (if sec_write b then SHF_WRITE else 0))
                     (if sec_alloc b then SHF_ALLOC else 0) in
  let align := default (if sec_exec b then 16 else if sec_write b then 8 else 1) (sec_align b) in
  match sec_typ b with
  | SecBits | SecData => sh_type h = SHT_PROGBITS ∧ sh_flags h = flags ∧ sh_addralign h = align
  | SecString => sh_type h = SHT_PROGBITS ∧
      sh_flags h = Z.lor flags (Z.lor SHF_MERGE SHF_STRINGS) ∧ sh_addralign h = align
  | SecNoBits => sh_type h = SHT_NOBITS ∧
      sh_flags h = Z.lor flags (Z.lor SHF_WRITE SHF_ALLOC) ∧ sh_addralign h = 0
  | _ => True
  end.
Proof.
  pose proof SHF_values as (F1 & F2 & F3 & F4 & F5 & _).
  unfold SectionBuilder_create. rewrite shdr_default_spec.
  destruct (sec_typ b); try done;
    destruct (sec_exec b), (sec_write b), (sec_alloc b); cbn; rewrite ?F1, ?F2, ?F3, ?F4, ?F5;
    by destruct (sec_align b).
Qed.


(** [Elf::align] yields the least multiple of the alignment that is not
    below the offset, as long as that is a 64-bit number. *)
Theorem elf_align_least (offset size_t : Z)
  (Hs : 0 < size_t) (Ho : 0 ≤ offset) (Hfit : offset + size_t ≤ 2 ^ 64) :
  let r := align offset size_t in
  offset ≤ r < offset + size_t ∧ r mod size_t = 0 ∧
  ∀ m, offset ≤ m → m mod size_t = 0 → r ≤ m.
Proof.
  intros r. destruct (round_up_spec offset size_t Hs) as [Hr Hm]. unfold r.
  rewrite align_round_up by lia. split; [done|]. split; [done|].
  intros m Hm1 Hm2. by apply round_up_least.
Qed.
End ElfTheorems.


Section Witnesses.
Import ConcreteInstances.
#[local] Instance demo_profile : Profile := true.

(** A program with a string, a private function and calls to an import. *)
Definition elf_demo_ops : list op :=
  [ ODeclare "main" (Defined (DD_Function (global function)));
    ODeclare "helper" (Defined (DD_Function function));
    ODeclare "msg" (Defined (DD_Data cstring));
    ODeclare "puts" (Import IK_Function);
    ODefine "main" [x55; xc3];
    ODefine "helper" [xc3];
    ODefine "msg" [x68; x69; x00];
    OLink (mkLink "main" "helper" 1);
    OLink (mkLink "main" "puts" 1);
    OLink (mkLink "helper" "msg" 0) ].

Definition elf_demo : Artifact := (run exec elf_demo_ops (finish demo_builder)).1.

Definition elf_demo_object : AbsElf :=
  match abs_object (E:=goblin_error) (make_ctx (a_target elf_demo)) (contents elf_demo) with
  | Ok g => g
  | _ => abs_empty
  end.

Lemma elf_demo_reachable : reachable elf_demo.
Proof. apply run_reachable, reach_finish. Qed.

Lemma elf_demo_ready : elf_ready (make_ctx (a_target elf_demo)) (a_name elf_demo) (contents elf_demo).
Proof.
  split.
  - by vm_compute.
  - apply (bool_decide_unpack _). by vm_compute.
  - apply (bool_decide_unpack _). by vm_compute.
  - apply Forall_forall.
    let l := eval vm_compute in (c_links (contents elf_demo)) in
    replace (c_links (contents elf_demo)) with l by (by vm_compute).
    repeat constructor.
  - by vm_compute.
  - by vm_compute.
Qed.

Lemma elf_demo_fits : fits elf_demo elf_demo_object.
Proof. do 2 (split; [by vm_compute|]). by vm_compute. Qed.

Lemma elf_to_bytes_image_witness :
  to_bytes elf_demo =
    Ok (elf_image (make_ctx (a_target elf_demo)) 62 (file_strings elf_demo elf_demo_object)
          "test.o" elf_demo_object).
Proof.
  destruct (elf_to_bytes_image elf_demo 62) as (g & Hg & Hb).
  - exact elf_demo_reachable.
  - reflexivity.
  - exact elf_demo_ready.
  - reflexivity.
  - assert (g = elf_demo_object) as -> by (unfold elf_demo_object; by rewrite Hg).
    apply Hb, elf_demo_fits.
Defined.

Definition elf_demo_bytes : list byte :=
  elf_image (make_ctx (a_target elf_demo)) 62 (file_strings elf_demo elf_demo_object)
    "test.o" elf_demo_object.

(** The program is emitted. *)
Lemma elf_demo_emitted : elf_emitted elf_demo 62 elf_demo_object elf_demo_bytes.
Proof.
  destruct (to_bytes_image elf_demo 62 elf_demo_reachable) as (g & Hg & _ & _ & Hb & _);
    [reflexivity | exact elf_demo_ready | reflexivity |].
  assert (g = elf_demo_object) as -> by (unfold elf_demo_object; by rewrite Hg).
  split; [exact elf_demo_reachable | reflexivity | exact elf_demo_ready | reflexivity | exact Hg
         | exact elf_demo_fits | apply Hb, elf_demo_fits].
Qed.

Definition demo_def (n : string) (b : list byte) (d : DefinedDecl) : Definition_ :=
  mkDefinition n (Blob b) [] d.

Lemma elf_section_table_witness :
  slice 0 (header_size (make_ctx (a_target elf_demo))) elf_demo_bytes =
    ser_header (file_header (make_ctx (a_target elf_demo)) 62
      (file_strings elf_demo elf_demo_object) elf_demo_object) (make_ctx (a_target elf_demo)).
Proof. destruct (elf_section_table _ _ _ _ elf_demo_emitted) as [H _]. exact H. Defined.

Lemma elf_section_contents_witness :
  ∃ hd, zget (object_headers (make_ctx (a_target elf_demo)) (file_strings elf_demo elf_demo_object)
          elf_demo_object) 5 = Some hd ∧
    slice (sh_offset hd) (sh_size hd) elf_demo_bytes = [x55; xc3].
Proof.
  destruct (elf_section_contents _ _ _ _ 2 (demo_def "main" [x55; xc3] (DD_Function (global function)))
    elf_demo_emitted) as (hd & Hh & Hs & Hb & _).
  - reflexivity.
  - apply (bool_decide_unpack _). reflexivity.
  - exists hd. split; [exact Hh | exact Hb].
Defined.

Lemma elf_definition_symbol_witness :
  ∃ s, Z.shiftr (st_info s) 4 = 1 ∧ Z.land (st_info s) 15 = 2 ∧ st_size s = 2 ∧ st_shndx s = 5.
Proof.
  destruct (elf_definition_symbol _ _ _ _ 2 (demo_def "main" [x55; xc3] (DD_Function (global function)))
    elf_demo_emitted) as (k & s & _ & _ & Hb & Ht & _ & _ & Hsz & Hsh).
  - reflexivity.
  - reflexivity.
  - apply (bool_decide_unpack _). reflexivity.
  - exists s. split; [exact Hb|]. split; [exact Ht|]. split; [exact Hsz | exact Hsh].
Defined.

Lemma elf_import_symbol_witness :
  ∃ s, Z.shiftr (st_info s) 4 = 1 ∧ st_shndx s = 0.
Proof.
  destruct (elf_import_symbol _ _ _ _ "puts" IK_Function elf_demo_emitted)
    as (k & s & _ & _ & Hb & _ & Hsh & _).
  - assert (c_imports (contents elf_demo) = [("puts"%string, IK_Function)]) as -> by (by vm_compute). left.
  - apply (bool_decide_unpack _). reflexivity.
  - exists s. split; [exact Hb | exact Hsh].
Defined.


Lemma elf_align_least_witness : align 13 8 = 16 ∧ 13 ≤ align 13 8 < 13 + 8.
Proof. split; [reflexivity|]. apply (elf_align_least 13 8); lia. Defined.

End Witnesses.
