(* ===== verification/ElfRelocs.v ===== *)
(** * What a linker reads in an ELF file: relocations and local symbols

    The section headers and the symbol table of an emitted file, as lists whose
    entries are the bytes of the file ([section_table], [symbol_table]), and
    what they say: which relocation sections there are and what they hold, the
    relocation of each link, which symbols are local and which undefined, what
    becomes of zero-initialised data. *)

From stdpp Require Import base numbers list gmap strings.
From Stdlib Require Import ZArith Lia Strings.Byte.
From S2P Require Import Prelude Std Bytes External Instances Decl Artifact ArtifactInv ArtifactSpec.
From S2P Require Import Contents Target ElfBuild ElfState ElfWrite ElfRepr ElfLink ElfObject.
From S2P Require Import ElfLayout ElfImage ElfRead ElfFacts ElfTheorems.

(** ** The tables of a file *)
Section Tables.
Context {G : GoblinElf}.

(** [bs] starts with the header [h], and the section header table [h] leads to
    fills the rest of the file with exactly [headers]. *)
Definition section_table (ctx : Ctx) (bs : list byte) (h : Header) (headers : list SectionHeader) :
  Prop :=
  slice 0 (header_size ctx) bs = ser_header h ctx ∧
  zlen bs = e_shoff h + zlen headers * shdr_size ctx ∧
  ∀ k hd, zget headers k = Some hd →
    slice (e_shoff h + k * shdr_size ctx) (shdr_size ctx) bs = ser_shdr hd ctx.

(** The section of [hd] holds exactly the symbols [syms]. *)
Definition symbol_table (ctx : Ctx) (bs : list byte) (hd : SectionHeader) (syms : list Sym) : Prop :=
  sh_type hd = SHT_SYMTAB ∧ sh_size hd = zlen syms * sym_size (container ctx) ∧
  ∀ k s, zget syms k = Some s →
    slice (sh_offset hd + k * sym_size (container ctx)) (sym_size (container ctx)) bs =
    ser_sym s ctx.

Definition has_type (t : Z) (h : SectionHeader) : bool := sh_type h =? t.

(** ** The relocations an artifact asks for *)

(** The type and the addend of the relocation for a link. *)
Definition reloc_kind (ctx : Ctx) (l : LinkAndDecl) : option (Z * Z) :=
  match l_reloc l, b_decl (l_from l), b_decl (l_to l) with
  | Auto, Defined (DD_Function _), Defined (DD_Function _) => Some (R_X86_64_PLT32, -4)
  | Auto, Defined (DD_Function _), Import IK_Function => Some (R_X86_64_PLT32, -4)
  | Auto, Defined (DD_Function _), Defined (DD_Data _) => Some (R_X86_64_PC32, -4)
  | Auto, Defined (DD_Function _), Import IK_Data => Some (R_X86_64_GOTPCREL, -4)
  | Auto, Defined (DD_Data _), _ =>
      Some (if ctx_is_big ctx then R_X86_64_64 else R_X86_64_32, 0)
  | Raw type addend, _, _ => Some (type, addend)
  | Debug size addend, _, _ =>
      if decide (size = 4) then Some (R_X86_64_32, addend)
      else if decide (size = 8) then Some (R_X86_64_64, addend) else None
  | Auto, _, _ => None
  end.

(** The symbol of its target: that of the section of a definition, or the one
    under the name of an import, after the null symbol, the file's and those of
    the sections. *)
Definition target_symbol (c : Contents) (l : LinkAndDecl) : option Z :=
  match b_decl (l_to l) with
  | Defined _ => (fun j => j + 2) <$> index_of (b_name (l_to l)) (d_name <$> c_defs c)
  | Import _ => (fun j => 2 + zlen (c_defs c) + j) <$> index_of (b_name (l_to l)) (symbol_names c)
  end.

Definition expected_reloc (ctx : Ctx) (c : Contents) (l : LinkAndDecl) : option ElfReloc :=
  '(type, addend) ← reloc_kind ctx l; sym ← target_symbol c l;
  Some (mkElfReloc (l_at l) (Some addend) sym type).

Definition links_from (c : Contents) (d : Definition_) : list LinkAndDecl :=
  filter (fun l => b_name (l_from l) = d_name d) (c_links c).
End Tables.

Section ElfRelocs.
Context {TL : TargetLexicon} {SI : StringInterner} {IM : IndexMapOps} {G : GoblinElf} {P : Profile}.
Context {OS : OsFile} {SC : Scroll} {SCL : ScrollLaws SC}.
Context {SIL : StringInternerLaws SI} {IML : IndexMapLaws IM} {GL : GoblinElfLaws G}.

Lemma emitted_table a machine g bs :
  elf_emitted a machine g bs →
  let ctx := make_ctx (a_target a) in
  section_table ctx bs (file_header ctx machine (file_strings a g) g)
    (object_headers ctx (file_strings a g) g).
Proof.
  intros Hem ctx. destruct (emitted_facts _ _ _ _ Hem) as (-> & _).
  split; [apply slice_at; [apply header_at | apply ser_header_len]|].
  split; [rewrite elf_image_len, object_headers_len; done|].
  intros k hd Hk. apply slice_at; [by apply section_header_at | apply ser_shdr_len].
Qed.

Lemma emitted_symtab a machine g bs :
  elf_emitted a machine g bs →
  let ctx := make_ctx (a_target a) in let strs := file_strings a g in
  zget (object_headers ctx strs g) 2 = Some (symtab_header ctx strs g) ∧
  symbol_table ctx bs (symtab_header ctx strs g) (written_symbols strs (a_name a) g).
Proof.
  intros Hem ctx strs. destruct (emitted_facts _ _ _ _ Hem) as (-> & _).
  split; [by apply (zget_app_l [_; _; _])|]. split; [done|]. split.
  - assert (zlen (written_symbols strs (a_name a) g) = symbol_count g) as ->; [|done].
    unfold written_symbols, local_and_other_symbols, symbol_count.
    rewrite zlen_app, zlen_fmap, zlen_app, zlen_fmap. change (zlen (special_symbols _ _)) with 2.
    unfold zlen at 1. rewrite length_imap. unfold zlen. lia.
  - intros k s Hs. apply slice_at; [by apply symbol_at | apply ser_sym_len].
Qed.

(** ** Finding tables by type *)
Lemma definition_type d :
  sec_typ (definition_section d) ∈ [SecBits; SecData; SecString; SecNoBits].
Proof.
  unfold definition_section, section_type_for_data. destruct (d_decl d) as [f|f|f]; cbn.
  - set_solver.
  - destruct (is_zero_init (d_data d)), (dd_datatype f); set_solver.
  - repeat case_match; set_solver.
Qed.

Lemma blob_type d b : d_data d = Blob b → sec_typ (definition_section d) ≠ SecNoBits.
Proof.
  intros Hd. unfold definition_section, section_type_for_data. rewrite Hd.
  destruct (d_decl d) as [f|f|f]; cbn; [done | by destruct (dd_datatype f)|].
  by destruct (bool_decide _ || bool_decide _), (sd_datatype f).
Qed.

Lemma create_type ctx b :
  sh_type (SectionBuilder_create b ctx) =
  match sec_typ b with
  | SecBits | SecData | SecString => SHT_PROGBITS
  | SecStrTab => SHT_STRTAB
  | SecSymTab => SHT_SYMTAB
  | SecRelocation => SHT_RELA
  | SecSymTabShndx => SHT_SYMTAB_SHNDX
  | SecNoBits => SHT_NOBITS
  | SecNone => SHT_NULL
  end.
Proof.
  unfold SectionBuilder_create.
  by destruct (sec_typ b), (sec_exec b), (sec_write b), (sec_alloc b).
Qed.

Section Emitted.
Variables (a : Artifact) (machine : Z) (g : AbsElf) (bs : list byte).
Hypothesis Hem : elf_emitted a machine g bs.
Notation ctx := (make_ctx (a_target a)).
Notation strs := (file_strings a g).

Lemma sections_type :
  Forall (fun h => sh_type h = SHT_PROGBITS ∨ sh_type h = SHT_NOBITS)
    (section_header ctx strs <$> g_secs g).
Proof.
  destruct (emitted_facts _ _ _ _ Hem) as (_ & _ & _ & Hs & _). apply Forall_fmap, Forall_forall.
  intros s Hin. rewrite (os_secs _ _ _ Hs) in Hin.
  apply elem_of_lookup_imap in Hin as (i & d & -> & Hi). unfold compose, section_header.
  cbn [sh_type shdr_set_offset section_at as_builder]. rewrite create_type. cbn [section_name_offset sec_typ].
  pose proof (definition_type d) as Ht. destruct (sec_typ (definition_section d)); set_solver.
Qed.

Lemma rela_headers_type :
  Forall (fun h => sh_type h = SHT_RELA) (rela_headers ctx strs g (off_reloc ctx strs g) (g_rels g)).
Proof.
  generalize (off_reloc ctx strs g). induction (g_rels g) as [|[sh rs] l IH]; intros off; cbn; [constructor|].
  by constructor.
Qed.

(** The headers by type: only the relocation sections are [SHT_RELA], only the
    symbol table is [SHT_SYMTAB]. *)
Lemma headers_of_type :
  List.find (has_type SHT_SYMTAB) (object_headers ctx strs g) = Some (symtab_header ctx strs g) ∧
  List.find (has_type SHT_SYMTAB_SHNDX) (object_headers ctx strs g) =
    (if needs_shndx g then Some (shndx_header ctx strs g) else None) ∧
  List.filter (has_type SHT_RELA) (object_headers ctx strs g) =
    rela_headers ctx strs g (off_reloc ctx strs g) (g_rels g).
Proof.
  pose proof SHT_values as (T0 & T1 & T2 & T3 & T4 & T8 & T18).
  assert (sh_type (null_header g) = 0) as E0.
  { unfold null_header. rewrite shdr_default_spec. by destruct (needs_shndx g). }
  assert (sh_type (strtab_header ctx strs g) = 3) as E1.
  { unfold strtab_header. cbn [sh_type shdr_set_offset]. rewrite create_type. exact T3. }
  assert (sh_type (symtab_header ctx strs g) = 2) as E2.
  { unfold symtab_header. cbn [sh_type shdr_set_offset shdr_set_link shdr_set_info].
    rewrite create_type. exact T2. }
  assert (sh_type (shndx_header ctx strs g) = 18) as E3.
  { unfold shndx_header. cbn [sh_type shdr_set_offset shdr_set_link]. rewrite create_type. exact T18. }
  assert (sh_type (note_header ctx strs) = 1) as E4.
  { unfold note_header. rewrite create_type. exact T1. }
  assert (∀ t, t ≠ 1 → t ≠ 8 →
    Forall (fun h => has_type t h = false) (section_header ctx strs <$> g_secs g)) as Hsec.
  { intros t H1 H8. eapply Forall_impl; [apply sections_type|]. intros h Hh. unfold has_type.
    apply Z.eqb_neq. cbn in Hh. lia. }
  assert (∀ t, t ≠ 4 → Forall (fun h => has_type t h = false)
    (rela_headers ctx strs g (off_reloc ctx strs g) (g_rels g))) as Hrel.
  { intros t H4. eapply Forall_impl; [apply rela_headers_type|]. intros h Hh. unfold has_type.
    apply Z.eqb_neq. cbn in Hh. lia. }
  unfold object_headers. rewrite T2, T4, T18.
  split_and!; unfold has_type at 1; cbn [app List.find List.filter]; rewrite E0, E1, E2;
    [done | cbn [Z.eqb Pos.eqb]; fold (has_type 18) | cbn [Z.eqb Pos.eqb]; fold (has_type 4)].
  - rewrite find_app_none by by apply Hsec. destruct (needs_shndx g); cbn [app List.find].
    + unfold has_type at 1. by rewrite E3.
    + rewrite find_app_none by by apply Hrel. cbn [List.find]. unfold has_type. by rewrite E4.
  - rewrite !List.filter_app, (filter_none _ (section_header _ _ <$> _)) by by apply Hsec.
    rewrite (filter_all _ (rela_headers _ _ _ _ _)).
    + cbn [List.filter]. unfold has_type at 2. rewrite E4. cbn [Z.eqb Pos.eqb]. rewrite app_nil_r.
      destruct (needs_shndx g); [|done]. cbn [List.filter]. unfold has_type. by rewrite E3.
    + eapply Forall_impl; [apply rela_headers_type|]. intros h Hh. unfold has_type. apply Z.eqb_eq.
      cbn in Hh. lia.
Qed.
End Emitted.

(** ** Links *)
Lemma link_reloc_kind {E} ctx l r : link_reloc (E:=E) ctx l = Ok r → reloc_kind ctx l = Some r.
Proof.
  unfold link_reloc, reloc_kind. destruct (l_reloc l) as [|type addend|size addend].
  - destruct (b_decl (l_from l)) as [|[]]; try done.
    + destruct (b_decl (l_to l)) as [[]|[]]; try done; by intros [= <-].
    + destruct (ctx_is_big ctx); intros [= <-]; by destruct (b_decl (l_to l)) as [[]|[]].
  - intros [= <-]. by destruct (b_decl (l_from l)) as [|[]], (b_decl (l_to l)) as [[]|[]].
  - destruct (Z.eqb_spec size 4); [|destruct (Z.eqb_spec size 8); [|done]]; intros [= <-];
      destruct (b_decl (l_from l)) as [|[]], (b_decl (l_to l)) as [[]|[]];
      by repeat case_decide.
Qed.

Lemma link_entry_exact a machine g bs l :
  elf_emitted a machine g bs → l ∈ c_links (contents a) →
  let ctx := make_ctx (a_target a) in let c := contents a in
  ∃ i d r, zget (c_defs c) i = Some d ∧ d_name d = b_name (l_from l) ∧
    expected_reloc ctx c l = Some r ∧ link_entry ctx g l = Some (i + 3, r).
Proof.
  intros Hem Hl ctx c. destruct (emitted_facts _ _ _ _ Hem) as (_ & Hc & Hinv & Hs & _).
  destruct (abs_object_closed _ _ _ (em_obj _ _ _ _ Hem)) as (_ & Hall & _).
  destruct (Hall l Hl) as [[sh r] He]. fold ctx c in He, Hc, Hinv, Hs. rewrite He.
  destruct (cw_from_defined _ Hc _ Hl) as [fd Hfd].
  pose proof (cw_links_from _ Hc _ Hl) as Hbf. unfold bound_in in Hbf. rewrite Hfd in Hbf.
  destruct Hbf as (d & Hd & Hdn & Hdd). apply elem_zget in Hd as [i Hi].
  destruct (link_end_def _ _ _ _ _ _ Hem Hi) as [fi Hf].
  pose proof (cw_links_to _ Hc _ Hl) as Hbt. unfold bound_in in Hbt.
  unfold expected_reloc, target_symbol. unfold link_entry in He.
  destruct (l_from l) as [fn fdecl] eqn:Elf. cbn [b_decl b_name] in Hfd, Hdn. subst fdecl fn fd.
  rewrite Hf in He. destruct (l_to l) as [tn tdecl] eqn:Elt. cbn [b_decl b_name] in *.
  destruct tdecl as [k|td].
  - destruct (link_end_import _ _ _ _ _ _ Hem Hbt) as (j & Ht & Hj). rewrite Ht in He. cbn in He.
    destruct (link_reloc ctx l) as [[reloc addend]| |] eqn:Er; [|done..].
    injection He as <- <-. rewrite (link_reloc_kind _ _ _ Er). cbn [mbind option_bind].
    assert (index_of tn (symbol_names c) = Some j) as ->.
    { apply index_of_get_NoDup; [apply (er_symbols _ _ _ (em_ready _ _ _ _ Hem))|].
      rewrite <- (oi_syms _ _ Hinv), zget_fmap, Hj. done. }
    eexists i, d, _. do 3 (split; [done|]). cbn. unfold abs_reloc. rewrite Elt. cbn [b_decl].
    rewrite (os_secs _ _ _ Hs). unfold zlen. by rewrite length_imap.
  - destruct Hbt as (d' & Hd' & Htn & Htd). apply elem_zget in Hd' as [j Hj].
    destruct (link_end_def _ _ _ _ _ _ Hem Hj) as [ti Ht]. rewrite Htn, Htd in Ht.
    rewrite Ht in He. cbn in He. destruct (link_reloc ctx l) as [[reloc addend]| |] eqn:Er; [|done..].
    injection He as <- <-. rewrite (link_reloc_kind _ _ _ Er). cbn [mbind option_bind].
    assert (index_of tn (d_name <$> c_defs c) = Some j) as ->.
    { apply index_of_get_NoDup; [apply (cw_defs _ Hc)|]. rewrite zget_fmap. fold c in Hj. by rewrite Hj, <- Htn. }
    eexists i, d, _. do 3 (split; [done|]). cbn. unfold abs_reloc. rewrite Elt. cbn [b_decl].
    do 3 f_equal. lia.
Qed.

(** The relocations filed under the section of a definition are those of the
    links that start there. *)
Lemma link_rels_expected a machine g bs i d :
  elf_emitted a machine g bs → zget (c_defs (contents a)) i = Some d →
  let ctx := make_ctx (a_target a) in let c := contents a in
  link_rels ctx g (i + 3) (c_links c) = omap (expected_reloc ctx c) (links_from c d) ∧
  Forall (fun l => is_Some (expected_reloc ctx c l)) (links_from c d).
Proof.
  intros Hem Hi ctx c. destruct (emitted_facts _ _ _ _ Hem) as (_ & Hc & _). fold c in Hc, Hi.
  assert (∀ l, l ∈ c_links c → l ∈ c_links c) as Hsub by done. revert Hsub.
  unfold link_rels, links_from. generalize (c_links c) at 1 3 4 5. intros ls.
  induction ls as [|l ls IH]; intros Hsub; [done|].
  destruct (link_entry_exact _ _ _ _ l Hem) as (i' & d' & r & Hi' & Hn & Hr & He);
    [apply Hsub; by left|]. fold ctx c in Hi', Hr, He.
  destruct IH as [IH1 IH2]; [intros l' Hl'; apply Hsub; by right|].
  rewrite filter_cons. cbn [omap list_omap]. rewrite He. cbn [mbind option_bind].
  destruct (decide (i' + 3 = i + 3)) as [Ei|Ei].
  - assert (i' = i) as -> by lia. assert (d' = d) as -> by congruence.
    rewrite decide_True by done. cbn [omap list_omap]. rewrite Hr. split; [by rewrite IH1|].
    constructor; [by rewrite Hr | done].
  - rewrite decide_False; [done|]. intros E. apply Ei. f_equal.
    pose proof (cw_defs _ Hc) as Hnd.
    assert (index_of (d_name d') (d_name <$> c_defs c) = Some i') as E1
      by (apply index_of_get_NoDup; [done|]; by rewrite zget_fmap, Hi').
    assert (index_of (d_name d) (d_name <$> c_defs c) = Some i) as E2
      by (apply index_of_get_NoDup; [done|]; by rewrite zget_fmap, Hi).
    congruence.
Qed.

(** ** Relocation sections *)
Lemma filter_unique {A} (p : A → bool) (f : A → Z) l : ∀ (i j : nat) x y,
  NoDup (f <$> List.filter p l) → l !! i = Some x → l !! j = Some y →
  p x = true → p y = true → f x = f y → i = j.
Proof.
  induction l as [|z l IH]; intros i j x y Hnd Hi Hj Hx Hy Hf; [by rewrite lookup_nil in Hi|].
  assert (∀ k w, l !! k = Some w → p w = true → f w ∈ f <$> List.filter p l) as Hin.
  { intros k w Hk Hw. apply list_elem_of_fmap_2, list_elem_of_In, List.filter_In.
    split; [by eapply list_elem_of_In, list_elem_of_lookup_2 | done]. }
  cbn [List.filter] in Hnd. destruct i as [|i], j as [|j]; cbn in Hi, Hj; simplify_eq; [done| | |].
  - rewrite Hx in Hnd. apply NoDup_cons in Hnd as [Hn _]. destruct Hn. rewrite Hf. by eapply Hin.
  - rewrite Hy in Hnd. apply NoDup_cons in Hnd as [Hn _]. destruct Hn. rewrite <- Hf. by eapply Hin.
  - f_equal. eapply IH; try done. destruct (p z); [by apply NoDup_cons in Hnd as [_ ?] | done].
Qed.

(** The relocation sections of the file, by the section they patch. *)
Lemma rela_infos a machine g bs :
  elf_emitted a machine g bs →
  let ctx := make_ctx (a_target a) in let strs := file_strings a g in
  sh_info <$> rela_headers ctx strs g (off_reloc ctx strs g) (g_rels g) = (g_rels g).*1.
Proof.
  intros Hem ctx strs. apply list_eq. intros q. rewrite !list_lookup_fmap.
  destruct (g_rels g !! q) as [[sh rs]|] eqn:Hq.
  - destruct (rela_section_at _ _ _ _ _ _ _ Hem Hq) as (hd & Hh & _ & _ & Hi & _).
    fold ctx strs in Hh. rewrite Hh. cbn. by rewrite Hi.
  - apply lookup_ge_None in Hq. rewrite lookup_ge_None_2; [done|].
    pose proof (rela_headers_len ctx strs g (g_rels g) (off_reloc ctx strs g)) as Hl.
    unfold zlen in Hl. lia.
Qed.

Lemma rela_header_lookup a machine g bs k hd :
  elf_emitted a machine g bs →
  let ctx := make_ctx (a_target a) in let strs := file_strings a g in
  zget (object_headers ctx strs g) k = Some hd → sh_type hd = SHT_RELA →
  ∃ (q : nat) sh rs, g_rels g !! q = Some (sh, rs) ∧
    rela_headers ctx strs g (off_reloc ctx strs g) (g_rels g) !! q = Some hd.
Proof.
  intros Hem ctx strs Hk Ht. destruct (headers_of_type _ _ _ _ Hem) as (_ & _ & Hf).
  assert (hd ∈ rela_headers ctx strs g (off_reloc ctx strs g) (g_rels g)) as Hin.
  { unfold ctx, strs. rewrite <- Hf. apply list_elem_of_In, List.filter_In.
    split; [by eapply list_elem_of_In, zget_elem|]. unfold has_type. by apply Z.eqb_eq. }
  apply list_elem_of_lookup in Hin as [q Hq].
  destruct (g_rels g !! q) as [[sh rs]|] eqn:Er; [by exists q, sh, rs|].
  pose proof (rela_infos _ _ _ _ Hem) as Hi. apply (f_equal (.!! q)) in Hi.
  rewrite !list_lookup_fmap in Hi. fold ctx strs in Hi. by rewrite Hq, Er in Hi.
Qed.

(** No relocation section is empty. *)
Lemma abs_links_nonempty {E} ctx ls : ∀ g g',
  ofold (abs_link (E:=E) ctx) g ls = Ok g' →
  (∀ r, r ∈ g_rels g → r.2 ≠ []) → ∀ r, r ∈ g_rels g' → r.2 ≠ [].
Proof.
  induction ls as [|l ls IH]; intros g g' Hf Hne; cbn [ofold] in Hf; [by injection Hf as <-|].
  unfold abs_link at 1 in Hf. destruct (abs_link_end g (l_to l)) as [[ti ts]|]; [|done].
  destruct (abs_link_end g (l_from l)) as [[fi fs]|]; [|done]. cbn [expect obind] in Hf.
  destruct (link_reloc ctx l) as [[reloc addend]| |]; [|done..]. cbn [obind] in Hf.
  refine (IH _ _ Hf _). clear Hf IH. intros r. cbn [g_rels abs_add_reloc].
  destruct (al_get (g_rels g) fs) as [v|].
  - intros [Hr|(v' & _ & ->)]%al_modify_elem; [by apply Hne|]. cbn. by destruct v'.
  - intros [Hr| ->%list_elem_of_singleton]%elem_of_app; [by apply Hne | done].
Qed.

Lemma emitted_rels_nonempty a machine g bs r :
  elf_emitted a machine g bs → r ∈ g_rels g → r.2 ≠ [].
Proof.
  intros Hem. eapply abs_links_nonempty; [exact (em_obj _ _ _ _ Hem)|].
  rewrite abs_imports_spec. cbn [g_rels]. rewrite abs_definitions_rels. by intros ? ?%elem_of_nil.
Qed.

(** What the relocation section of a definition holds. *)
Lemma rela_of_definition a machine g bs (q : nat) sh rs :
  elf_emitted a machine g bs → g_rels g !! q = Some (sh, rs) →
  let ctx := make_ctx (a_target a) in let c := contents a in
  ∃ d, zget (c_defs c) (sh - 3) = Some d ∧ links_from c d ≠ [] ∧
    rs = omap (expected_reloc ctx c) (links_from c d) ∧ zlen rs = zlen (links_from c d).
Proof.
  intros Hem Hq ctx c. destruct (emitted_facts _ _ _ _ Hem) as (_ & _ & _ & Hs & Hnd & Hsecs & _).
  destruct (abs_object_closed _ _ _ (em_obj _ _ _ _ Hem)) as (_ & _ & Hrels). fold ctx c in Hrels, Hs.
  pose proof (list_elem_of_lookup_2 _ _ _ Hq) as Hin.
  destruct (Hsecs _ Hin) as [s Hsec]. cbn [fst] in Hsec.
  rewrite (os_secs _ _ _ Hs) in Hsec. apply zget_range in Hsec.
  destruct (zget_in_range (c_defs c) (sh - 3)) as [d Hd].
  { unfold zlen in *. by rewrite length_imap in Hsec. }
  destruct (link_rels_expected _ _ _ _ _ _ Hem Hd) as [Hl Hall]. fold ctx c in Hl, Hall.
  replace (sh - 3 + 3) with sh in Hl by lia. rewrite <- Hrels, (rels_of_at _ _ _ _ Hnd Hq) in Hl.
  exists d. split; [done|]. split; [|split; [done|]].
  - intros E. rewrite E in Hl. apply (emitted_rels_nonempty _ _ _ _ _ Hem Hin). by rewrite Hl.
  - rewrite Hl. clear -Hall. induction Hall as [|l ls [r Hr] _ IH]; [done|].
    cbn [omap list_omap]. by rewrite Hr, !zlen_cons, IH.
Qed.

(** C13: relocation sections.  The file has a relocation section for each
    definition that links start from, exactly one, and no others.  It names the
    section of the definition in [sh_info], is linked to the symbol table, and
    holds exactly one relocation for each of those links, in the order in which
    the links were made, each with the offset, symbol, type and addend its link
    asks for ([expected_reloc]). *)
Theorem elf_relocation_sections (a : Artifact) (machine : Z) (g : AbsElf) (bs : list byte)
  (Hem : elf_emitted a machine g bs) :
  let ctx := make_ctx (a_target a) in
  let c := contents a in
  ∃ h headers, section_table ctx bs h headers ∧
    (∀ k hd, zget headers k = Some hd → sh_type hd = SHT_RELA →
       ∃ d, zget (c_defs c) (sh_info hd - 3) = Some d ∧ links_from c d ≠ [] ∧ sh_link hd = 2 ∧
         sh_size hd = zlen (links_from c d) * reloc_size true ctx ∧
         slice (sh_offset hd) (sh_size hd) bs =
           concat ((fun r => ser_reloc r (true, ctx)) <$>
                     omap (expected_reloc ctx c) (links_from c d))) ∧
    (∀ i d, zget (c_defs c) i = Some d → links_from c d ≠ [] →
       ∃ k hd, zget headers k = Some hd ∧ sh_type hd = SHT_RELA ∧ sh_info hd = i + 3 ∧
         ∀ k' hd', zget headers k' = Some hd' → sh_type hd' = SHT_RELA → sh_info hd' = i + 3 → k' = k).
Proof.
  intros ctx c. destruct (emitted_facts _ _ _ _ Hem) as (_ & _ & _ & Hs & Hnd & Hsecs & _).
  exists (file_header ctx machine (file_strings a g) g), (object_headers ctx (file_strings a g) g).
  split; [by apply emitted_table|].
  split.
  - intros k hd Hk Ht. destruct (rela_header_lookup _ _ _ _ _ _ Hem Hk Ht) as (q & sh & rs & Hq & Hh).
    destruct (rela_section_at _ _ _ _ _ _ _ Hem Hq) as (hd' & Hh' & _ & Hl & Hi & _ & Hsz & _ & Hat).
    assert (hd' = hd) as -> by congruence.
    destruct (rela_of_definition _ _ _ _ _ _ _ Hem Hq) as (d & Hd & Hne & Hrs & Hlen).
    exists d. rewrite Hi, Hl, Hsz, Hlen. do 4 (split; [done|]). rewrite <- Hlen. fold ctx c in Hrs.
    rewrite <- Hrs. apply slice_at; [exact Hat|].
    apply (zlen_concat_const (fun x => ser_reloc x (true, ctx))). intros. apply ser_reloc_len.
  - intros i d Hd Hne. destruct (link_rels_expected _ _ _ _ _ _ Hem Hd) as [Hl Hall]. fold ctx c in Hl, Hall.
    destruct (abs_object_closed _ _ _ (em_obj _ _ _ _ Hem)) as (_ & _ & Hrels). fold ctx c in Hrels.
    assert (∃ q : nat, ∃ rs, g_rels g !! q = Some (i + 3, rs)) as (q & rs & Hq).
    { rewrite <- Hrels in Hl. unfold rels_of in Hl. destruct (al_get (g_rels g) (i + 3)) as [rs|] eqn:Es.
      - apply al_get_elem, list_elem_of_lookup in Es as [q Hq]. eauto.
      - destruct (links_from c d); [done|]. apply Forall_cons in Hall as [[r Hr] _].
        cbn [omap list_omap] in Hl. by rewrite Hr in Hl. }
    destruct (rela_section_at _ _ _ _ _ _ _ Hem Hq) as (hd & Hh & Ht & _ & Hi & _).
    destruct (rela_header_in _ _ _ _ _ Hh) as [k Hk]. exists k, hd. do 3 (split; [done|]).
    intros k' hd' Hk' Ht' Hi'. apply zget_Some in Hk as [Hr Hk], Hk' as [Hr' Hk'].
    assert (Z.to_nat k' = Z.to_nat k); [|lia].
    eapply (filter_unique (has_type SHT_RELA) sh_info); [|exact Hk'|exact Hk|by apply Z.eqb_eq..|congruence].
    destruct (headers_of_type _ _ _ _ Hem) as (_ & _ & Hf). unfold ctx. rewrite Hf.
    by rewrite (rela_infos _ _ _ _ Hem).
Qed.

(** ** The relocation of a link *)

(** The symbol of the section of definition number [j]. *)
Lemma section_symbol_at a machine g bs j d :
  elf_emitted a machine g bs → zget (c_defs (contents a)) j = Some d →
  let strs := file_strings a g in
  ∃ s, zget (written_symbols strs (a_name a) g) (j + 2) = Some s ∧
    Z.land (st_info s) 15 = STT_SECTION ∧ records_shndx a g bs (j + 2) (j + 3) s.
Proof.
  intros Hem Hj strs. destruct (emitted_facts _ _ _ _ Hem) as (Eb & _ & _ & Hs & _).
  pose proof (zget_range _ _ _ Hj) as Hr.
  assert (∃ sec, zget (g_secs g) j = Some sec) as [sec Hsec].
  { rewrite (os_secs _ _ _ Hs), (zget_imap _ _ _ _ Hj). eauto. }
  exists (clamp_shndx (section_symbol (Z.to_nat j))).
  split; [by eapply section_symbol_written|].
  destruct (clamp_shndx_fields (section_symbol (Z.to_nat j))) as (_ & -> & _).
  pose proof STB_values as (E1 & _). pose proof STT_values as (_ & _ & _ & F3 & _).
  split; [unfold section_symbol, SymbolBuilder_create; cbn; by rewrite E1, F3|].
  pose proof (zget_range _ _ _ Hsec) as Hr'. rewrite <- Z.add_comm.
  eapply clamp_records; [done | lia | unfold section_symbol, SymbolBuilder_create; cbn; lia |].
  intros Hneed. rewrite Eb. apply slice_at; [|apply ser_u32_len].
  eapply at_off_trans; [by apply shndx_at|].
  apply (at_off_concat (fun s => ser_u32 (u32 (st_shndx s)) (le (make_ctx (a_target a)))));
    [intros; apply ser_u32_len|].
  unfold all_symbols. rewrite (zget_app_r (special_symbols strs (a_name a))) by lia.
  apply zget_app_l. by rewrite (zget_imap _ _ _ _ Hsec).
Qed.

(** The symbol of an import, by its number. *)
Lemma import_symbol_at a machine g bs n k :
  elf_emitted a machine g bs → (n, k) ∈ c_imports (contents a) →
  let ctx := make_ctx (a_target a) in let strs := file_strings a g in
  ∃ j s, index_of n (symbol_names (contents a)) = Some j ∧
    zget (written_symbols strs (a_name a) g) (2 + zlen (c_defs (contents a)) + j) = Some s ∧
    Z.shiftr (st_info s) 4 = STB_GLOBAL ∧ st_shndx s = 0 ∧
    (no_nul n → cstring_at (sh_offset (strtab_header ctx strs g) + st_name s) bs = bytes_of n).
Proof.
  intros Hem Hin ctx strs. destruct (emitted_facts _ _ _ _ Hem) as (_ & _ & Hinv & Hs & _).
  destruct (import_symbol_in _ _ _ _ _ _ Hem Hin) as [j Hj].
  destruct (object_symbol_at _ _ _ _ _ _ Hem Hj) as (Hw & _ & _ & Hnm). fold ctx strs in Hw, Hnm.
  exists j. eexists. split; [|split].
  - apply index_of_get_NoDup; [apply (er_symbols _ _ _ (em_ready _ _ _ _ Hem))|].
    rewrite <- (oi_syms _ _ Hinv), zget_fmap, Hj. done.
  - replace (zlen (c_defs (contents a))) with (zlen (g_secs g)); [exact Hw|].
    rewrite (os_secs _ _ _ Hs). unfold zlen. by rewrite length_imap.
  - pose proof STB_values as (_ & E2 & _). pose proof STT_values as (F0 & _).
    pose proof SHN_values as (_ & Hlo & _).
    destruct (clamp_shndx_fields (object_symbol strs (n, mkSymbolBuilder 0 0 ST_Import 0 0)))
      as (-> & -> & _).
    split; [unfold object_symbol; cbn; by rewrite E2, F0|].
    split; [unfold clamp_shndx, object_symbol; cbn; by rewrite Hlo | exact Hnm].
Qed.

(** Where the relocation of a link is. *)
Lemma link_reloc_at a machine g bs l :
  elf_emitted a machine g bs → l ∈ c_links (contents a) →
  let ctx := make_ctx (a_target a) in let c := contents a in
  ∃ k hd d q r, zget (object_headers ctx (file_strings a g) g) k = Some hd ∧
    sh_type hd = SHT_RELA ∧ sh_link hd = 2 ∧
    zget (c_defs c) (sh_info hd - 3) = Some d ∧ d_name d = b_name (l_from l) ∧
    0 ≤ q ∧ (q + 1) * reloc_size true ctx ≤ sh_size hd ∧ expected_reloc ctx c l = Some r ∧
    slice (sh_offset hd + q * reloc_size true ctx) (reloc_size true ctx) bs =
      ser_reloc r (true, ctx).
Proof.
  intros Hem Hl ctx c.
  destruct (link_entry_exact _ _ _ _ _ Hem Hl) as (i & d & r & Hi & Hn & Hr & He).
  fold ctx c in Hi, Hr, He.
  assert (r ∈ link_rels ctx g (i + 3) (c_links c)) as Hin.
  { unfold link_rels. apply list_elem_of_omap. exists l. split; [done|]. rewrite He. cbn.
    by rewrite decide_True. }
  destruct (abs_object_closed _ _ _ (em_obj _ _ _ _ Hem)) as (_ & _ & Hrels). fold ctx c in Hrels.
  rewrite <- Hrels in Hin. unfold rels_of in Hin.
  destruct (al_get (g_rels g) (i + 3)) as [rs|] eqn:Es; [|by apply elem_of_nil in Hin].
  apply al_get_elem, list_elem_of_lookup in Es as [qs Hqs]. cbn in Hin. apply elem_zget in Hin as [q Hq].
  destruct (rela_section_at _ _ _ _ _ _ _ Hem Hqs) as (hd & Hh & Ht & Hlk & Hinfo & _ & Hsz & _ & Hat).
  destruct (rela_header_in _ _ _ _ _ Hh) as [k Hk]. pose proof (zget_range _ _ _ Hq) as Hqr.
  exists k, hd, d, q, r. do 3 (split; [done|]). rewrite Hinfo, Z.add_simpl_r. do 2 (split; [done|]).
  split; [lia|]. fold ctx in Hsz. split.
  { rewrite Hsz. apply Z.mul_le_mono_nonneg_r; [|lia]. rewrite reloc_size_spec. by destruct (container ctx). }
  split; [done|]. apply slice_at; [|apply ser_reloc_len]. eapply at_off_trans; [exact Hat|].
  apply (at_off_concat (fun x => ser_reloc x (true, ctx))); [intros; apply ser_reloc_len | done].
Qed.

(** The symbol the relocation of a link names. *)
Lemma target_symbol_at a machine g bs l sym :
  elf_emitted a machine g bs → l ∈ c_links (contents a) →
  let ctx := make_ctx (a_target a) in let c := contents a in
  target_symbol c l = Some sym →
  ∃ s, zget (written_symbols (file_strings a g) (a_name a) g) sym = Some s ∧
    match b_decl (l_to l) with
    | Defined _ => ∃ j d', zget (c_defs c) j = Some d' ∧ d_name d' = b_name (l_to l) ∧
        Z.land (st_info s) 15 = STT_SECTION ∧ records_shndx a g bs sym (j + 3) s
    | Import _ => Z.shiftr (st_info s) 4 = STB_GLOBAL ∧ st_shndx s = 0 ∧
        ∃ strhd, zget (object_headers ctx (file_strings a g) g) 1 = Some strhd ∧
          (no_nul (b_name (l_to l)) →
           cstring_at (sh_offset strhd + st_name s) bs = bytes_of (b_name (l_to l)))
    end.
Proof.
  intros Hem Hl ctx c Es. destruct (emitted_facts _ _ _ _ Hem) as (_ & Hc & _). fold c in Hc.
  unfold target_symbol in Es. pose proof (cw_links_to _ Hc _ Hl) as Hbt. unfold bound_in in Hbt.
  destruct (b_decl (l_to l)) as [kind|td].
  - destruct (import_symbol_at _ _ _ _ _ _ Hem Hbt) as (j & s & Ej & Hs & Hb & Hsh & Hnm).
    fold ctx in Hnm. fold c in Ej, Hs. rewrite Ej in Es. injection Es as <-. exists s.
    do 3 (split; [done|]). exists (strtab_header ctx (file_strings a g) g).
    split; [by apply (zget_app_l [_; _; _]) | exact Hnm].
  - destruct Hbt as (d' & Hd' & Htn & _). apply elem_zget in Hd' as [j Hj].
    destruct (section_symbol_at _ _ _ _ _ _ Hem Hj) as (s & Hs & Hty & Hrec).
    rewrite (index_of_get_NoDup _ _ j (cw_defs _ Hc)) in Es by (by rewrite zget_fmap, Hj, <- Htn).
    injection Es as <-. exists s. split; [exact Hs|]. by exists j, d'.
Qed.

(** C14: every link becomes a relocation.  In the relocation section for the
    section of the definition the link starts in, the file holds a relocation at
    the offset of the link, with the type and addend of its kind
    ([reloc_kind]).  Its symbol is an entry of the symbol table: the section
    symbol of the section of the definition the link leads to, or the undefined
    global symbol under the name of the import. *)
Theorem elf_link_relocation (a : Artifact) (machine : Z) (g : AbsElf) (bs : list byte)
  (l : LinkAndDecl)
  (Hem : elf_emitted a machine g bs)
  (Hl : l ∈ c_links (contents a)) :
  let ctx := make_ctx (a_target a) in
  let c := contents a in
  ∃ h headers symhd syms k hd d q type addend sym s,
    section_table ctx bs h headers ∧
    zget headers 2 = Some symhd ∧ symbol_table ctx bs symhd syms ∧
    zget headers k = Some hd ∧ sh_type hd = SHT_RELA ∧ sh_link hd = 2 ∧
    zget (c_defs c) (sh_info hd - 3) = Some d ∧ d_name d = b_name (l_from l) ∧
    0 ≤ q ∧ (q + 1) * reloc_size true ctx ≤ sh_size hd ∧ reloc_kind ctx l = Some (type, addend) ∧
    slice (sh_offset hd + q * reloc_size true ctx) (reloc_size true ctx) bs =
      ser_reloc (mkElfReloc (l_at l) (Some addend) sym type) (true, ctx) ∧
    zget syms sym = Some s ∧
    match b_decl (l_to l) with
    | Defined _ => ∃ j d', zget (c_defs c) j = Some d' ∧ d_name d' = b_name (l_to l) ∧
        Z.land (st_info s) 15 = STT_SECTION ∧ records_shndx a g bs sym (j + 3) s
    | Import _ => Z.shiftr (st_info s) 4 = STB_GLOBAL ∧ st_shndx s = 0 ∧
        ∃ strhd, zget headers (sh_link symhd) = Some strhd ∧
          (no_nul (b_name (l_to l)) →
           cstring_at (sh_offset strhd + st_name s) bs = bytes_of (b_name (l_to l)))
    end.
Proof.
  intros ctx c. destruct (emitted_facts _ _ _ _ Hem) as (_ & Hc & _). fold c in Hc.
  destruct (link_reloc_at _ _ _ _ _ Hem Hl)
    as (k & hd & d & q & r & Hk & Ht & Hlk & Hd & Hn & Hq & Hsz & Hr & Hsl).
  destruct (emitted_symtab _ _ _ _ Hem) as [H2 Hsy]. fold ctx in Hk, Hsz, Hr, Hsl, H2, Hsy. fold c in Hd, Hr.
  unfold expected_reloc in Hr. destruct (reloc_kind ctx l) as [[type addend]|] eqn:Ek; [|done].
  cbn [mbind option_bind] in Hr. destruct (target_symbol c l) as [sym|] eqn:Es; [|done].
  injection Hr as <-.
  destruct (target_symbol_at _ _ _ _ _ _ Hem Hl Es) as (s & Hs & Hm).
  exists (file_header ctx machine (file_strings a g) g), (object_headers ctx (file_strings a g) g).
  exists (symtab_header ctx (file_strings a g) g), (written_symbols (file_strings a g) (a_name a) g).
  exists k, hd, d, q, type, addend, sym, s. split; [by apply emitted_table | done].
Qed.

(** The written symbols, and what clamping leaves of them. *)
Lemma written_info strs name g k s :
  zget (written_symbols strs name g) k = Some s →
  ∃ s', zget (all_symbols strs name g) k = Some s' ∧ st_info s = st_info s'.
Proof.
  unfold written_symbols, all_symbols. intros Hk. pose proof (zget_range _ _ _ Hk) as Hr.
  destruct (Z.ltb_spec k (zlen (special_symbols strs name))) as [Hlt|Hge].
  - destruct (zget_in_range (special_symbols strs name) k) as [x Hx]; [lia|].
    rewrite (zget_app_l _ _ _ _ Hx) in Hk. injection Hk as <-. exists x.
    by rewrite (zget_app_l _ _ _ _ Hx).
  - replace k with (zlen (special_symbols strs name) + (k - zlen (special_symbols strs name)))
      in Hk |- * by lia. rewrite zget_app_r, zget_fmap in Hk by lia. rewrite zget_app_r by lia.
    destruct (zget (local_and_other_symbols strs g) _) as [x|]; [|done]. injection Hk as <-.
    exists x. split; [done|]. apply clamp_shndx_fields.
Qed.

(** The header of the section of definition number [i], and its symbol. *)
Lemma definition_header_at a machine g bs i d :
  elf_emitted a machine g bs → zget (c_defs (contents a)) i = Some d →
  let ctx := make_ctx (a_target a) in let strs := file_strings a g in
  zget (object_headers ctx strs g) (i + 3) =
    Some (section_header ctx strs (section_at ctx (c_defs (contents a)) (Z.to_nat i) d)).
Proof.
  intros Hem Hi ctx strs. destruct (emitted_facts _ _ _ _ Hem) as (_ & _ & _ & Hs & _).
  pose proof (zget_range _ _ _ Hi) as Hr. unfold object_headers.
  replace (i + 3) with (zlen [null_header g; strtab_header ctx strs g; symtab_header ctx strs g] + i)
    by (change (zlen [_; _; _]) with 3; lia).
  rewrite (zget_app_r [_; _; _]) by lia. apply zget_app_l.
  rewrite zget_fmap, (os_secs _ _ _ Hs). by rewrite (zget_imap _ _ _ _ Hi).
Qed.

Lemma definition_symbol_at a machine g bs i d :
  elf_emitted a machine g bs → zget (c_defs (contents a)) i = Some d →
  DefinedDecl_is_section (d_decl d) = false →
  let ctx := make_ctx (a_target a) in let strs := file_strings a g in
  ∃ k s, zget (written_symbols strs (a_name a) g) k = Some s ∧
    (no_nul (d_name d) →
     cstring_at (sh_offset (strtab_header ctx strs g) + st_name s) bs = bytes_of (d_name d)) ∧
    st_size s = u64 (zlen (def_bytes d)) ∧ records_shndx a g bs k (i + 3) s.
Proof.
  intros Hem Hi Hkind ctx strs.
  set (b := mkSymbolBuilder 0 (u64 (file_size (d_data d))) (ST_Decl (d_decl d)) (i + 3) 0).
  assert ((d_name d, b) ∈ def_symbols (i + 3) d) as Hin.
  { unfold def_symbols, b. destruct (d_decl d); [apply list_elem_of_here..|done]. }
  apply (def_symbol_in _ _ _ _ _ _ _ Hem Hi), elem_zget in Hin as [j Hj].
  destruct (object_symbol_at _ _ _ _ _ _ Hem Hj) as (Hw & _ & Hx & Hnm).
  destruct (symbol_decode (symbol_name_offset (name_off strs (d_name d)) b) (d_decl d))
    as (_ & _ & _ & D4 & _ & D6 & D7); [done|done|].
  change (SymbolBuilder_create (symbol_name_offset (name_off strs (d_name d)) b))
    with (object_symbol strs (d_name d, b)) in *.
  fold ctx strs in Hw, Hx, Hnm. set (s := object_symbol strs (d_name d, b)) in *.
  exists (2 + zlen (g_secs g) + j), (clamp_shndx s). split; [exact Hw|].
  destruct (clamp_shndx_fields s) as (-> & _ & _ & _ & ->). rewrite D7. split; [exact Hnm|]. split.
  { rewrite D6. cbn. unfold def_bytes, def_code. destruct (d_data d); cbn; by rewrite ?app_nil_r. }
  destruct (emitted_facts _ _ _ _ Hem) as (_ & _ & _ & Hs & _).
  eapply clamp_records; [done| |done|done].
  rewrite (os_secs _ _ _ Hs). apply zget_range in Hi. unfold zlen in *. rewrite length_imap. lia.
Qed.

(** ** Local symbols *)
Definition sym_local (s : Sym) : Prop := Z.shiftr (st_info s) 4 = STB_LOCAL.

Lemma zget_partition {A} (Q : A → Prop) l1 l2 k x :
  Forall Q l1 → Forall (fun x => ¬ Q x) l2 → zget (l1 ++ l2) k = Some x → k < zlen l1 ↔ Q x.
Proof.
  intros H1 H2 Hk. rewrite Forall_forall in H1, H2. pose proof (zget_range _ _ _ Hk) as Hr.
  destruct (Z.ltb_spec k (zlen l1)) as [Hlt|Hge].
  - split; [intros _|done]. destruct (zget_in_range l1 k) as [y Hy]; [lia|].
    rewrite (zget_app_l _ _ _ _ Hy) in Hk. injection Hk as <-. by eapply H1, zget_elem.
  - split; [lia|]. intros Hq. replace k with (zlen l1 + (k - zlen l1)) in Hk by lia.
    rewrite zget_app_r in Hk by lia. by apply zget_elem, H2 in Hk.
Qed.

(** A definition the count of local symbols is right for. *)
Definition plain_def (d : Definition_) : Prop :=
  match d_decl d with
  | DD_Function f => get_scope f ≠ Scope_Weak
  | DD_Data f => get_scope f ≠ Scope_Weak
  | DD_Section _ => d_symbols d = []
  end.

Lemma plain_symbols sh d strs :
  plain_def d →
  (is_global (d_decl d) = false →
     zlen (def_symbols sh d) = def_locals d ∧
     Forall (fun p => sym_local (object_symbol strs p)) (def_symbols sh d)) ∧
  (is_global (d_decl d) = true →
     def_locals d = 0 ∧
     Forall (fun p => ¬ sym_local (object_symbol strs p)) (def_symbols sh d)).
Proof.
  intros Hp. pose proof STB_values as (E1 & E2 & E3).
  assert (DefinedDecl_is_section (d_decl d) = false →
    ∀ p, p ∈ def_symbols sh d → sym_local (object_symbol strs p) ↔ decl_bind (d_decl d) = STB_LOCAL) as Hs.
  { intros Hk p Hin. unfold sym_local, object_symbol.
    destruct (symbol_decode (symbol_name_offset (name_off strs p.1) p.2) (d_decl d)) as (-> & _); try done.
    unfold def_symbols in Hin. destruct (d_decl d); [| |done];
      by apply list_elem_of_singleton in Hin as ->. }
  unfold plain_def, decl_bind, is_global, scope_is_global, def_locals in *.
  destruct (d_decl d) as [f|f|f] eqn:Ed.
  3: { split; [|done]. intros _. unfold def_symbols. rewrite Ed, Hp. split; [done|constructor]. }
  all: specialize (Hs eq_refl); unfold is_global, scope_is_global;
    destruct (get_scope f) eqn:Esc; [| |done];
    (split; intros Hg; [|]); try (by case_bool_decide); split;
    try (apply Forall_forall; intros p Hin; apply Hs in Hin; rewrite Hin; congruence || lia);
    rewrite ?Hg; unfold def_symbols; rewrite ?Ed; done.
Qed.

Lemma plain_locals strs ds : ∀ (f : nat → Z),
  Forall plain_def ds → Forall (fun d => is_global (d_decl d) = false) ds →
  zlen (concat (imap (fun i d => def_symbols (f i) d) ds)) = zsum (def_locals <$> ds) ∧
  Forall (fun p => sym_local (object_symbol strs p))
    (concat (imap (fun i d => def_symbols (f i) d) ds)).
Proof.
  induction ds as [|d ds IH]; intros f Hp Hg; [by split|].
  inversion_clear Hp as [|? ? Hp1 Hp2]. inversion_clear Hg as [|? ? Hg1 Hg2].
  destruct (plain_symbols (f 0%nat) d strs Hp1) as [H _]. destruct (H Hg1) as [H1 H2].
  destruct (IH (fun i => f (S i)) Hp2 Hg2) as [H3 H4]. cbn.
  split; [rewrite zlen_app, H1; f_equal; exact H3 | by apply Forall_app].
Qed.

Lemma plain_nonlocals strs ds : ∀ (f : nat → Z),
  Forall plain_def ds → Forall (fun d => is_global (d_decl d) = true) ds →
  zsum (def_locals <$> ds) = 0 ∧
  Forall (fun p => ¬ sym_local (object_symbol strs p))
    (concat (imap (fun i d => def_symbols (f i) d) ds)).
Proof.
  induction ds as [|d ds IH]; intros f Hp Hg; [by split|].
  inversion_clear Hp as [|? ? Hp1 Hp2]. inversion_clear Hg as [|? ? Hg1 Hg2].
  destruct (plain_symbols (f 0%nat) d strs Hp1) as [_ H]. destruct (H Hg1) as [H1 H2].
  destruct (IH (fun i => f (S i)) Hp2 Hg2) as [H3 H4]. cbn.
  split; [rewrite H1, H3; done | by apply Forall_app].
Qed.

Lemma import_not_local strs i : ¬ sym_local (object_symbol strs (import_symbol i)).
Proof.
  pose proof STB_values as (E1 & E2 & E3). pose proof STT_values as (F0 & _).
  unfold sym_local, object_symbol, SymbolBuilder_create. cbn. by rewrite E1, E2, F0.
Qed.

Lemma section_symbol_local i : sym_local (section_symbol i).
Proof.
  pose proof STB_values as (E1 & E2 & E3). pose proof STT_values as (_ & _ & _ & F3 & _).
  unfold sym_local, section_symbol, SymbolBuilder_create. cbn. by rewrite E1, F3.
Qed.

Lemma special_symbols_local strs name : Forall sym_local (special_symbols strs name).
Proof.
  pose proof STB_values as (E1 & E2 & E3). pose proof STT_values as (_ & _ & _ & _ & F4).
  unfold special_symbols. repeat constructor; unfold sym_local, SymbolBuilder_create; cbn;
    rewrite ?sym_default_spec, E1, ?F4; done.
Qed.

(** The symbols before [sh_info] are the local ones. *)
Lemma locals_first a machine g bs k s :
  elf_emitted a machine g bs → Forall plain_def (c_defs (contents a)) →
  zget (all_symbols (file_strings a g) (a_name a) g) k = Some s →
  let ctx := make_ctx (a_target a) in
  k < sh_info (symtab_header ctx (file_strings a g) g) ↔ Z.shiftr (st_info s) 4 = STB_LOCAL.
Proof.
  intros Hem Hplain Hs ctx. destruct (emitted_facts _ _ _ _ Hem) as (_ & Hc & Hinv & Hsp & _).
  pose proof (reachable_wf _ (em_reach _ _ _ _ Hem)) as Hwf. set (strs := file_strings a g) in *.
  set (h := fun d : InternalDefinition => mkDefinition (name_of a (id_name d)) (id_data d) (id_symbols d) (id_decl d)).
  assert (c_defs (contents a) = (h <$> a_local_definitions a) ++ (h <$> a_nonlocal_definitions a)) as Ed
    by apply fmap_app.
  rewrite Ed, Forall_app in Hplain. destruct Hplain as [Hp1 Hp2].
  destruct (plain_locals strs (h <$> a_local_definitions a) (fun i => Z.of_nat i + 3) Hp1) as [Hl1 Hl2].
  { apply Forall_fmap. exact (wf_local _ Hwf). }
  destruct (plain_nonlocals strs (h <$> a_nonlocal_definitions a)
    (fun i => Z.of_nat (length (h <$> a_local_definitions a) + i) + 3) Hp2) as [Hn1 Hn2].
  { apply Forall_fmap. exact (wf_nonlocal _ Hwf). }
  set (L := concat (imap _ (h <$> a_local_definitions a))) in *.
  set (N := concat (imap _ (h <$> a_nonlocal_definitions a))) in *.
  assert (g_syms g = L ++ N ++ (import_symbol <$> c_imports (contents a))) as Esy.
  { rewrite (os_syms _ _ _ Hsp), Ed, imap_app, concat_app, <- app_assoc. done. }
  assert (g_locals g = zlen L) as Eloc.
  { rewrite (os_locals _ _ _ Hsp), Ed, fmap_app, zsum_app, Hn1, Hl1. lia. }
  set (A := special_symbols strs (a_name a) ++ imap (fun i _ => section_symbol i) (g_secs g) ++
            (object_symbol strs <$> L)).
  set (B := object_symbol strs <$> (N ++ (import_symbol <$> c_imports (contents a)))).
  assert (all_symbols strs (a_name a) g = A ++ B) as Eall.
  { unfold all_symbols, local_and_other_symbols, A, B. by rewrite Esy, !fmap_app, <- !app_assoc. }
  assert (zlen A = 2 + zlen (g_secs g) + zlen L) as ElA.
  { unfold A. rewrite !zlen_app, zlen_fmap. change (zlen (special_symbols _ _)) with 2.
    unfold zlen at 1. rewrite length_imap. fold (zlen (g_secs g)). lia. }
  assert (sh_info (symtab_header ctx strs g) = zlen A) as ->.
  { destruct (em_fits _ _ _ _ Hem) as (_ & Hcnt & _). unfold symbol_count in Hcnt.
    rewrite Esy, zlen_app in Hcnt. pose proof (zlen_nonneg L). pose proof (zlen_nonneg (g_secs g)).
    pose proof (zlen_nonneg (N ++ (import_symbol <$> c_imports (contents a)))).
    unfold symtab_header. cbn [sh_info shdr_set_info]. rewrite Eloc, ElA.
    rewrite (wrap_small 64 (zlen L)) by (unfold in_u; lia).
    rewrite (wrap_small 64 (2 + _ + _)) by (unfold in_u; lia). apply wrap_small. unfold in_u. lia. }
  rewrite Eall in Hs. apply (zget_partition sym_local) with (l2 := B); [| |done].
  - unfold A. apply Forall_app. split; [apply special_symbols_local|]. apply Forall_app.
    split; [|by apply Forall_fmap]. apply Forall_forall. intros x Hx.
    apply elem_of_lookup_imap in Hx as (? & ? & -> & _). apply section_symbol_local.
  - unfold B. rewrite fmap_app. apply Forall_app. split; [by apply Forall_fmap|].
    apply Forall_fmap, Forall_fmap, Forall_forall. intros i _. apply import_not_local.
Qed.

(** C15: local symbols come first.  When no definition is weak and no section
    has symbols of its own, the entries of the file's symbol table before the
    [sh_info] of its header are exactly those with local binding, as the format
    demands. *)
Theorem elf_local_symbols_first (a : Artifact) (machine : Z) (g : AbsElf) (bs : list byte)
  (Hem : elf_emitted a machine g bs)
  (Hplain : Forall plain_def (c_defs (contents a))) :
  let ctx := make_ctx (a_target a) in
  ∃ h headers symhd syms,
    section_table ctx bs h headers ∧
    zget headers 2 = Some symhd ∧ symbol_table ctx bs symhd syms ∧
    ∀ k s, zget syms k = Some s → k < sh_info symhd ↔ Z.shiftr (st_info s) 4 = STB_LOCAL.
Proof.
  intros ctx. destruct (emitted_symtab _ _ _ _ Hem) as [H2 Hsy]. fold ctx in H2, Hsy.
  exists (file_header ctx machine (file_strings a g) g), (object_headers ctx (file_strings a g) g).
  exists (symtab_header ctx (file_strings a g) g), (written_symbols (file_strings a g) (a_name a) g).
  split; [by apply emitted_table|]. do 2 (split; [done|]). intros k s Hs.
  destruct (written_info _ _ _ _ _ Hs) as (s' & Hs' & ->). by eapply locals_first.
Qed.

(** ** Undefined symbols *)
Definition sym_undefined (s : Sym) : bool := st_shndx s =? 0.

Lemma clamp_undefined s : sym_undefined (clamp_shndx s) = sym_undefined s.
Proof.
  pose proof SHN_values as (_ & E1 & E2). unfold sym_undefined, clamp_shndx.
  destruct (Z.leb_spec SHN_LORESERVE (st_shndx s)); [|done]. cbn.
  transitivity false; [|symmetry]; apply Z.eqb_neq; lia.
Qed.

(** Of all the symbols but the null symbol, the undefined ones are the imports'. *)
Lemma written_undefined a machine g bs :
  elf_emitted a machine g bs →
  let strs := file_strings a g in
  List.filter sym_undefined (drop 1 (written_symbols strs (a_name a) g)) =
  (fun i => clamp_shndx (object_symbol strs (import_symbol i))) <$> c_imports (contents a).
Proof.
  intros Hem strs. destruct (emitted_facts _ _ _ _ Hem) as (_ & _ & _ & Hs & _).
  pose proof SHN_values as (E0 & _). unfold written_symbols, special_symbols. cbn [app drop List.filter].
  assert (sym_undefined (SymbolBuilder_create (mkSymbolBuilder (name_off strs (a_name a)) 0 ST_File 0 0))
    = false) as -> by (unfold sym_undefined; cbn; by rewrite E0).
  assert (∀ l, List.filter sym_undefined (clamp_shndx <$> l) =
    clamp_shndx <$> List.filter sym_undefined l) as ->.
  { induction l as [|s l IH]; cbn; [done|]. rewrite clamp_undefined.
    destruct (sym_undefined s); cbn; by rewrite IH. }
  transitivity (clamp_shndx <$> (object_symbol strs <$> (import_symbol <$> c_imports (contents a))));
    [f_equal | by rewrite <- !list_fmap_compose].
  unfold local_and_other_symbols. rewrite (os_syms _ _ _ Hs), fmap_app, !List.filter_app.
  rewrite filter_none.
  2: { apply Forall_forall. intros s Hin. apply elem_of_lookup_imap in Hin as (i & x & -> & _).
       unfold sym_undefined. cbn. apply Z.eqb_neq. lia. }
  rewrite filter_none; cbn [app].
  2: { apply Forall_fmap, Forall_forall. intros p Hin. apply list_elem_of_In, in_concat in Hin as (l & Hl & Hp).
       apply list_elem_of_In, elem_of_lookup_imap in Hl as (i & d & -> & _). apply list_elem_of_In in Hp.
       destruct (def_symbols_placed _ _ _ Hp) as (Hi & Hf & Hsh).
       unfold sym_undefined, compose, object_symbol, SymbolBuilder_create, symbol_name_offset. cbn [sb_typ sb_shndx].
       rewrite Hsh. apply Z.eqb_neq. destruct (sb_typ p.2) as [[]| | | |]; cbn; try done; lia. }
  apply filter_all.
  apply Forall_fmap, Forall_fmap, Forall_forall. by intros i _.
Qed.

(** C34: the undefined symbols are the imports.  Leaving out the null symbol,
    the entries of the file's symbol table with section index 0 are, in order,
    the imports: each has the name of its import in the linked string table
    (for names without a zero byte), global binding, no type, value and size
    0. *)
Theorem elf_undefined_are_imports (a : Artifact) (machine : Z) (g : AbsElf) (bs : list byte)
  (Hem : elf_emitted a machine g bs)
  (Hnul : ∀ n k, (n, k) ∈ c_imports (contents a) → no_nul n) :
  let ctx := make_ctx (a_target a) in
  ∃ h headers symhd strhd syms,
    section_table ctx bs h headers ∧
    zget headers 2 = Some symhd ∧ symbol_table ctx bs symhd syms ∧
    zget headers (sh_link symhd) = Some strhd ∧
    let undefined := List.filter (fun s => st_shndx s =? 0) (drop 1 syms) in
    ((fun s => cstring_at (sh_offset strhd + st_name s) bs) <$> undefined) =
      bytes_of <$> (c_imports (contents a)).*1 ∧
    Forall (fun s => Z.shiftr (st_info s) 4 = STB_GLOBAL ∧ Z.land (st_info s) 15 = STT_NOTYPE ∧
                     st_value s = 0 ∧ st_size s = 0) undefined.
Proof.
  intros ctx. destruct (emitted_symtab _ _ _ _ Hem) as [H2 Hsy]. fold ctx in H2, Hsy.
  exists (file_header ctx machine (file_strings a g) g), (object_headers ctx (file_strings a g) g).
  exists (symtab_header ctx (file_strings a g) g), (strtab_header ctx (file_strings a g) g).
  exists (written_symbols (file_strings a g) (a_name a) g).
  split; [by apply emitted_table|]. do 2 (split; [done|]).
  split; [by apply (zget_app_l [_; _; _])|]. cbv zeta.
  change (fun s => st_shndx s =? 0) with sym_undefined. rewrite (written_undefined _ _ _ _ Hem). split.
  - rewrite <- !list_fmap_compose. apply list_fmap_ext. intros i [n k] Hi.
    apply list_elem_of_lookup_2 in Hi. unfold compose. cbn [fst].
    destruct (import_symbol_in _ _ _ _ _ _ Hem Hi) as [j Hj].
    destruct (object_symbol_at _ _ _ _ _ _ Hem Hj) as (_ & _ & _ & Hnm). fold ctx in Hnm.
    destruct (clamp_shndx_fields (object_symbol (file_strings a g) (import_symbol (n, k)))) as (-> & _).
    apply Hnm. by eapply Hnul.
  - apply Forall_fmap, Forall_forall. intros [n k] _. unfold compose.
    pose proof STB_values as (_ & E2 & _). pose proof STT_values as (F0 & _).
    destruct (clamp_shndx_fields (object_symbol (file_strings a g) (import_symbol (n, k))))
      as (_ & -> & _ & -> & ->). unfold object_symbol. cbn. by rewrite E2, F0.
Qed.

(** ** Zero-initialised definitions *)

(** C17: zero-initialised definitions lose their size and alignment.  Whatever
    size and alignment the client asked for, the file's section header for a
    zero-initialised definition is of type [SHT_NOBITS] with size 0 and no
    alignment, and the entry of the symbol table under its name, which names
    that section, has size 0. *)
Theorem elf_zero_init_dropped (a : Artifact) (machine : Z) (g : AbsElf) (bs : list byte)
  (i : Z) (d : Definition_) (n : Z)
  (Hem : elf_emitted a machine g bs)
  (Hi : zget (c_defs (contents a)) i = Some d)
  (Hz : d_data d = ZeroInit n)
  (Hnul : no_nul (d_name d)) :
  let ctx := make_ctx (a_target a) in
  ∃ h headers hd symhd strhd syms k s,
    section_table ctx bs h headers ∧
    zget headers (i + 3) = Some hd ∧
    sh_type hd = SHT_NOBITS ∧ sh_size hd = 0 ∧ sh_addralign hd = 0 ∧
    zget headers 2 = Some symhd ∧ symbol_table ctx bs symhd syms ∧
    zget headers (sh_link symhd) = Some strhd ∧ zget syms k = Some s ∧
    cstring_at (sh_offset strhd + st_name s) bs = bytes_of (d_name d) ∧
    st_size s = 0 ∧ records_shndx a g bs k (i + 3) s.
Proof.
  intros ctx. destruct (emitted_symtab _ _ _ _ Hem) as [H2 Hsy]. fold ctx in H2, Hsy.
  destruct (emitted_facts _ _ _ _ Hem) as (_ & Hc & _ & Hs & _).
  assert (∃ f, d_decl d = DD_Data f) as [f Ed].
  { destruct (cw_zero_init _ Hc d (zget_elem _ _ _ Hi)) as [Hd|Hd]; [|by rewrite Hz in Hd].
    destruct (d_decl d); [done | eauto | done]. }
  destruct (definition_symbol_at _ _ _ _ _ _ Hem Hi) as (k & s & Hk & Hnm & Hsz & Hrec); [by rewrite Ed|].
  fold ctx in Hnm.
  exists (file_header ctx machine (file_strings a g) g), (object_headers ctx (file_strings a g) g).
  exists (section_header ctx (file_strings a g) (section_at ctx (c_defs (contents a)) (Z.to_nat i) d)).
  exists (symtab_header ctx (file_strings a g) g), (strtab_header ctx (file_strings a g) g).
  exists (written_symbols (file_strings a g) (a_name a) g), k, s.
  split; [by apply emitted_table|]. split; [by eapply definition_header_at|].
  unfold section_header. cbn [sh_type sh_size sh_addralign shdr_set_offset section_at as_builder as_name].
  set (b := section_name_offset _ (definition_section d)).
  assert (sec_typ b = SecNoBits) as Eb.
  { unfold b, definition_section, section_type_for_data. by rewrite Ed, Hz. }
  pose proof (create_attributes b ctx) as Hat. rewrite Eb in Hat. destruct Hat as (-> & _ & ->).
  split; [done|]. split; [rewrite create_size; unfold b, definition_section; by rewrite Ed, Hz|].
  do 3 (split; [done|]). split; [by apply (zget_app_l [_; _; _])|]. split; [done|].
  split; [by apply Hnm|]. split; [rewrite Hsz; unfold def_bytes, def_code; by rewrite Hz | done].
Qed.
End ElfRelocs.

Section Witnesses.
Import ConcreteInstances.
#[local] Instance relocs_profile : Profile := true.

Lemma elf_relocation_sections_witness :
  ∃ h headers k hd, section_table (make_ctx (a_target elf_demo)) elf_demo_bytes h headers ∧
    zget headers k = Some hd ∧ sh_type hd = SHT_RELA ∧ sh_info hd = 5.
Proof.
  destruct (elf_relocation_sections _ _ _ _ elf_demo_emitted) as (h & headers & Ht & _ & Hex).
  destruct (Hex 2 (demo_def "main" [x55; xc3] (DD_Function (global function)))) as (k & hd & Hk & Hty & Hi & _).
  - reflexivity.
  - by vm_compute.
  - exists h, headers, k, hd. do 3 (split; [assumption|]). exact Hi.
Defined.

Definition elf_demo_link : LinkAndDecl :=
  mkLinkAndDecl (mkBinding "main" (Defined (DD_Function (global function))))
    (mkBinding "puts" (Import IK_Function)) 1 Auto.

Lemma elf_link_relocation_witness :
  ∃ hd q sym, sh_type hd = SHT_RELA ∧
    slice (sh_offset hd + q * 24) 24 elf_demo_bytes =
      ser_reloc (mkElfReloc 1 (Some (-4)) sym 4) (true, make_ctx (a_target elf_demo)).
Proof.
  destruct (elf_link_relocation _ _ _ _ elf_demo_link elf_demo_emitted)
    as (h & headers & symhd & syms & k & hd & d & q & type & addend & sym & s & _ & _ & _ & _ & Ht &
        _ & _ & _ & _ & _ & Hr & Hat & _).
  - let l := eval vm_compute in (c_links (contents elf_demo)) in
    replace (c_links (contents elf_demo)) with l by (by vm_compute). right. left.
  - exists hd, q, sym. split; [exact Ht|]. injection Hr as <- <-. exact Hat.
Defined.

Lemma elf_local_symbols_first_witness :
  ∃ symhd syms, symbol_table (make_ctx (a_target elf_demo)) elf_demo_bytes symhd syms ∧
    ∀ k s, zget syms k = Some s → k < sh_info symhd ↔ Z.shiftr (st_info s) 4 = STB_LOCAL.
Proof.
  destruct (elf_local_symbols_first _ _ _ _ elf_demo_emitted) as (h & headers & symhd & syms & _ & _ & Hs & Hk).
  - let l := eval vm_compute in (c_defs (contents elf_demo)) in
    replace (c_defs (contents elf_demo)) with l by (by vm_compute). repeat constructor; done.
  - exists symhd, syms. split; [exact Hs | exact Hk].
Defined.

Lemma elf_undefined_are_imports_witness :
  ∃ strhd syms,
    ((fun s => cstring_at (sh_offset strhd + st_name s) elf_demo_bytes) <$>
       List.filter (fun s => st_shndx s =? 0) (drop 1 syms)) = [[x70; x75; x74; x73]].
Proof.
  destruct (elf_undefined_are_imports _ _ _ _ elf_demo_emitted)
    as (h & headers & symhd & strhd & syms & _ & _ & _ & _ & Hn & _).
  - assert (c_imports (contents elf_demo) = [("puts"%string, IK_Function)]) as -> by (by vm_compute).
    intros n k Hin. apply list_elem_of_singleton in Hin as [= -> ->]. apply (bool_decide_unpack _). reflexivity.
  - exists strhd, syms. rewrite Hn. by vm_compute.
Defined.

(** An artifact with a buffer of a page. *)
Definition zero_demo : Artifact :=
  (run exec [ ODeclare "buf" (Defined (DD_Data (writable data))); ODefineZeroInit "buf" 4096 ]
     (finish demo_builder)).1.

Definition zero_demo_object : AbsElf :=
  match abs_object (E:=goblin_error) (make_ctx (a_target zero_demo)) (contents zero_demo) with
  | Ok g => g
  | _ => abs_empty
  end.

Lemma zero_demo_ready : elf_ready (make_ctx (a_target zero_demo)) (a_name zero_demo) (contents zero_demo).
Proof.
  split.
  - by vm_compute.
  - apply (bool_decide_unpack _). by vm_compute.
  - apply (bool_decide_unpack _). by vm_compute.
  - apply Forall_forall. assert (c_links (contents zero_demo) = []) as -> by (by vm_compute). constructor.
  - by vm_compute.
  - by vm_compute.
Qed.

Lemma zero_demo_fits : fits zero_demo zero_demo_object.
Proof. do 2 (split; [by vm_compute|]). by vm_compute. Qed.

Lemma zero_demo_emitted :
  elf_emitted zero_demo 62 zero_demo_object
    (elf_image (make_ctx (a_target zero_demo)) 62 (file_strings zero_demo zero_demo_object)
       "test.o" zero_demo_object).
Proof.
  assert (reachable zero_demo) as Hr by apply run_reachable, reach_finish.
  destruct (to_bytes_image zero_demo 62 Hr) as (g & Hg & _ & _ & Hb & _);
    [reflexivity | exact zero_demo_ready | reflexivity |].
  assert (g = zero_demo_object) as -> by (unfold zero_demo_object; by rewrite Hg).
  split; [exact Hr | reflexivity | exact zero_demo_ready | reflexivity | exact Hg
         | exact zero_demo_fits | apply Hb, zero_demo_fits].
Qed.

Lemma elf_zero_init_dropped_witness :
  ∃ h headers hd, section_table (make_ctx (a_target zero_demo))
      (elf_image (make_ctx (a_target zero_demo)) 62 (file_strings zero_demo zero_demo_object)
         "test.o" zero_demo_object) h headers ∧
    zget headers 3 = Some hd ∧ sh_size hd = 0.
Proof.
  destruct (elf_zero_init_dropped _ _ _ _ 0
    (mkDefinition "buf" (ZeroInit 4096) [] (DD_Data (writable data))) 4096 zero_demo_emitted)
    as (h & headers & hd & _ & _ & _ & _ & _ & Ht & Hh & _ & Hsz & _).
  - reflexivity.
  - reflexivity.
  - apply (bool_decide_unpack _). reflexivity.
  - exists h, headers, hd. split; [exact Ht|]. split; [exact Hh | exact Hsz].
Defined.
End Witnesses.
