(* ===== verification/ElfClash.v ===== *)
(** * What the ELF backend does with sections of the same name

    The builder counts the bytes of every definition, but files them by the
    name of the section: of two definitions under one name, the bytes of the
    first are lost, and the writer's own check of the position after the code
    fails. *)

From stdpp Require Import base numbers list gmap strings.
From Stdlib Require Import ZArith Lia Strings.Byte.
From S2P Require Import Prelude Std Bytes External Instances Decl Artifact ArtifactInv ArtifactSpec.
From S2P Require Import Contents Target ElfBuild ElfState ElfWrite ElfRepr ElfObject ElfImage ElfTheorems.

(** ** The bytes an association list holds *)
Definition code_len {K} (l : list (K * list byte)) : Z := zsum ((fun p => zlen p.2) <$> l).

Lemma code_len_insert {K} `{EqDecision K} (k : K) v l :
  code_len (al_insert k v l) = code_len l + zlen v - default 0 (zlen <$> al_get l k).
Proof.
  induction l as [|[k' v'] l IH]; cbn; [lia|]. case_decide; cbn; [lia|].
  unfold code_len in IH. rewrite IH. lia.
Qed.

Lemma al_insert_len {K V} `{EqDecision K} (k : K) (v : V) l :
  zlen (al_insert k v l) ≤ zlen l + 1.
Proof.
  induction l as [|[k' v'] l IH]; cbn; [unfold zlen; cbn; lia|].
  case_decide; rewrite !zlen_cons; lia.
Qed.

Section ElfClash.
Context {TL : TargetLexicon} {SI : StringInterner} {IM : IndexMapOps} {G : GoblinElf} {P : Profile}.
Context {OS : OsFile} {SC : Scroll} {SCL : ScrollLaws SC}.
Context {SIL : StringInternerLaws SI} {IML : IndexMapLaws IM} {GL : GoblinElfLaws G}.
Implicit Types (e : Elf).

(** ** What most of the builder leaves alone *)
Record keeps e e' : Prop := {
  k_code : e_code e' = e_code e;
  k_bits : e_sizeof_bits e' = e_sizeof_bits e;
  k_sections : e_sections e' = e_sections e;
  k_ctx : e_ctx e' = e_ctx e;
  k_arch : e_architecture e' = e_architecture e;
  k_strings : ∀ n k, si_get (e_strings e) n = Some k → si_get (e_strings e') n = Some k
}.

#[local] Instance keeps_preorder : PreOrder keeps.
Proof.
  split; [by split|]. intros e1 e2 e3 [] []. split; try congruence. eauto.
Qed.

Lemma get_or_intern_get t n t' k :
  si_get_or_intern t n = (t', k) →
  si_get t' n = Some k ∧ (∀ m j, si_get t m = Some j → si_get t' m = Some j).
Proof.
  intros H. pose proof (si_intern_id t n) as Hid. pose proof (si_intern_strings t n) as Hs.
  rewrite H in Hid, Hs. cbn in Hid, Hs. rewrite si_get_spec. split; [done|]. intros m j.
  rewrite !si_get_spec, Hs. unfold intern. case_decide; [done|]. apply index_of_app_l.
Qed.

Lemma new_string_keeps e n :
  let '(e', k, _) := new_string e n in keeps e e' ∧ si_get (e_strings e') n = Some k.
Proof.
  unfold new_string. destruct (si_get_or_intern (e_strings e) n) as [t k] eqn:Ei.
  apply get_or_intern_get in Ei as [Hn Hm]. by destruct (e_offsets e !! k).
Qed.

Lemma link_end_keeps {E} e b m1 m2 e' i sh :
  link_end (E:=E) e b m1 m2 = Ok (e', i, sh) → keeps e e'.
Proof.
  unfold link_end. destruct (si_get_or_intern (e_strings e) (b_name b)) as [t k] eqn:Ei.
  apply get_or_intern_get in Ei as [_ Hm].
  assert (keeps e (set_strtab t (e_offsets e) (e_sizeof_strtab e) e)) as Hk by by split.
  destruct (is_section (b_decl b)).
  - destruct (im_get_full _ _) as [[[? ?] ?]|]; [|done]. by intros [= <- _ _].
  - destruct (im_get_full _ _) as [[[? ?] ?]|]; [|done]. by intros [= <- _ _].
Qed.

Lemma add_reloc_keeps {E} e r sh e' : add_reloc (E:=E) e r sh = Ok e' → keeps e e'.
Proof.
  unfold add_reloc. destruct (im_get (e_relocations e) sh); [by intros [= <-]|].
  destruct (im_get_index _ _) as [[? s]|]; [|done]. cbn [expect obind].
  destruct (si_resolve _ _) as [n|]; [|done]. cbn [expect obind].
  pose proof (new_string_keeps e (".rela" +:+ n)%string) as Hn.
  destruct (new_string e _) as [[e1 k] off]. destruct Hn as [Hn _]. intros [= <-].
  etransitivity; [exact Hn | by split].
Qed.

Lemma elf_link_keeps {E} e l e' : elf_link (E:=E) e l = Ok e' → keeps e e'.
Proof.
  unfold elf_link. destruct (link_end e _ _ _) as [[[e1 ti] ts]| |] eqn:E1; [|done..]. cbn [obind].
  destruct (link_end e1 _ _ _) as [[[e2 fi] fs]| |] eqn:E2; [|done..]. cbn [obind].
  destruct (link_reloc _ _) as [[r a]| |]; [|done..]. cbn [obind]. intros H%add_reloc_keeps.
  apply link_end_keeps in E1, E2. etransitivity; [exact E1|]. by etransitivity.
Qed.

Lemma elf_import_keeps e n k : keeps e (elf_import e n k).
Proof.
  unfold elf_import. pose proof (new_string_keeps e n) as Hn.
  destruct (new_string e n) as [[e1 i] off]. destruct Hn as [Hn _].
  etransitivity; [exact Hn | by split].
Qed.

Lemma ofold_keeps {E A} (f : Elf → A → outcome E Elf) l : ∀ e e',
  (∀ e x e', f e x = Ok e' → keeps e e') → ofold f e l = Ok e' → keeps e e'.
Proof.
  induction l as [|x l IH]; intros e e' Hf; cbn [ofold]; [by intros [= <-]|].
  destruct (f e x) as [e1| |] eqn:E1; [|done..]. cbn [obind]. intros H.
  etransitivity; [by eapply Hf | by eapply IH].
Qed.

Lemma compute_offsets_keeps e :
  let '(e', lo) := compute_offsets e in keeps e e' ∧ lo_strtab lo = e_sizeof_bits e.
Proof.
  unfold compute_offsets. destruct (SHN_LORESERVE <=? e_nsections e).
  - pose proof (new_string_keeps (set_nsections (u32 (e_nsections e + 1)) e) ".symtab_shndx") as H1.
    destruct (new_string (set_nsections _ e) _) as [[e1 k1] o1]. destruct H1 as [H1 _].
    pose proof (new_string_keeps e1 ".note.GNU-stack") as H2.
    destruct (new_string e1 _) as [[e2 k2] o2]. destruct H2 as [H2 _]. cbn [lo_strtab].
    assert (keeps e e2) as Hk by (etransitivity; [|exact H2]; destruct H1; by split).
    split; [done | apply Hk].
  - pose proof (new_string_keeps e ".note.GNU-stack") as H2.
    destruct (new_string e _) as [[e2 k2] o2]. destruct H2 as [H2 _]. cbn [lo_strtab].
    split; [done | apply H2].
Qed.

(** ** The definitions *)

(** A definition of [ds] whose bytes are filed under the name of a later one. *)
Definition clash (ds : list Definition_) : Prop :=
  ∃ i j d1 d2, i < j ∧ zget ds i = Some d1 ∧ zget ds j = Some d2 ∧
    sec_name d1 = sec_name d2 ∧ 0 < file_size (d_data d1) ∧ is_zero_init (d_data d2) = false.

Lemma clash_snoc ds d :
  clash (ds ++ [d]) →
  clash ds ∨ ∃ d1, d1 ∈ ds ∧ sec_name d1 = sec_name d ∧ 0 < file_size (d_data d1) ∧
    is_zero_init (d_data d) = false.
Proof.
  intros (i & j & d1 & d2 & Hij & Hi & Hj & Hs). pose proof (zget_range _ _ _ Hi) as Ri.
  pose proof (zget_range _ _ _ Hj) as Rj. rewrite zlen_app in Rj. change (zlen [d]) with 1 in Rj.
  destruct (zget_in_range ds i) as [x Hx]; [lia|]. rewrite (zget_app_l _ _ _ _ Hx) in Hi.
  injection Hi as ->. destruct (Z.ltb_spec j (zlen ds)).
  - destruct (zget_in_range ds j) as [y Hy]; [lia|]. rewrite (zget_app_l _ _ _ _ Hy) in Hj.
    injection Hj as ->. left. by exists i, j, d1, d2.
  - right. exists d1. replace j with (zlen ds) in Hj by lia. rewrite zget_snoc in Hj.
    injection Hj as ->. split; [by eapply zget_elem | done].
Qed.

(** The bytes filed are those of the definitions [ds] less the [lost] ones, and
    some are lost as soon as two definitions clash. *)
Definition accounts (strings : si_t) (code : list (Z * list byte)) (ds : list Definition_) : Prop :=
  ∃ lost, 0 ≤ lost ∧ code_len code + lost = zsum ((file_size ∘ d_data) <$> ds) ∧
    (clash ds → 0 < lost) ∧
    (lost = 0 → ∀ d, d ∈ ds → 0 < file_size (d_data d) →
       ∃ k b, si_get strings (sec_name d) = Some k ∧ al_get code k = Some b ∧ 0 < zlen b).

Lemma zsum_sizes_snoc ds d :
  zsum ((file_size ∘ d_data) <$> ds ++ [d]) =
  zsum ((file_size ∘ d_data) <$> ds) + file_size (d_data d).
Proof. rewrite fmap_app, zsum_app. cbn. lia. Qed.

Lemma accounts_strings t t' code ds :
  (∀ n k, si_get t n = Some k → si_get t' n = Some k) → accounts t code ds → accounts t' code ds.
Proof.
  intros Ht (lost & Hl & He & Hc & H0). exists lost. do 3 (split; [done|]). intros Hz d Hd Hs.
  destruct (H0 Hz d Hd Hs) as (k & b & Hk & Hb). exists k, b. split; [by apply Ht | done].
Qed.

Lemma accounts_zero t code ds d z :
  d_data d = ZeroInit z → accounts t code ds → accounts t code (ds ++ [d]).
Proof.
  intros Ed (lost & Hl & He & Hc & H0). exists lost. rewrite zsum_sizes_snoc, Ed. cbn [file_size].
  split; [done|]. split; [lia|]. split.
  - intros [Hcl|(d1 & _ & _ & _ & Hz)]%clash_snoc; [by apply Hc | by rewrite Ed in Hz].
  - intros Hz d' Hd' Hsz. apply elem_of_app in Hd' as [Hd'| ->%list_elem_of_singleton]; [by apply H0|].
    rewrite Ed in Hsz. cbn in Hsz. lia.
Qed.

Lemma accounts_blob t code ds d k b :
  d_data d = Blob b → si_get t (sec_name d) = Some k →
  accounts t code ds → accounts t (al_insert k b code) (ds ++ [d]).
Proof.
  intros Ed Hk (lost & Hl & He & Hc & H0). set (gone := default 0 (zlen <$> al_get code k)).
  assert (0 ≤ gone) as Hgone.
  { unfold gone. destruct (al_get _ _); cbn; [apply zlen_nonneg | lia]. }
  exists (lost + gone). rewrite code_len_insert, zsum_sizes_snoc, Ed. fold gone. cbn [file_size].
  split; [lia|]. split; [lia|]. split.
  - intros [Hcl|(d1 & Hd1 & Es & Hsz & _)]%clash_snoc; [specialize (Hc Hcl); lia|].
    destruct (decide (lost = 0)) as [Hz|]; [|lia].
    destruct (H0 Hz d1 Hd1 Hsz) as (k' & b' & Hk' & Hget & Hb').
    assert (k' = k) as -> by congruence. unfold gone. rewrite Hget. cbn. lia.
  - intros Hz d' Hd' Hsz. apply elem_of_app in Hd' as [Hd'| ->%list_elem_of_singleton].
    + destruct (H0 ltac:(lia) d' Hd' Hsz) as (k' & b' & Hk' & Hget & Hb').
      exists k', b'. split; [done|]. split; [|done]. rewrite al_get_insert. case_decide; [|done].
      subst k'. unfold gone in Hz. rewrite Hget in Hz. cbn in Hz. lia.
    + exists k, b. rewrite al_get_insert, decide_True by done. by rewrite Ed in Hsz.
Qed.

(** The object after the definitions [ds]: the bytes counted are those of all
    of them. *)
Record code_inv (a : Artifact) (ds : list Definition_) e : Prop := {
  ci_ctx : e_ctx e = make_ctx (a_target a);
  ci_arch : e_architecture e = architecture (a_target a);
  ci_bits : e_sizeof_bits e =
    u64 (header_size (make_ctx (a_target a)) + zsum ((file_size ∘ d_data) <$> ds));
  ci_sections : zlen (im_iter (e_sections e)) ≤ zlen ds;
  ci_code : accounts (e_strings e) (im_iter (e_code e)) ds
}.

Lemma code_inv_keeps a ds e e' : code_inv a ds e → keeps e e' → code_inv a ds e'.
Proof.
  intros [] []. split; try congruence. rewrite k_code0. by eapply accounts_strings.
Qed.

Lemma Elf_new_code_inv a :
  0 ≤ header_size (make_ctx (a_target a)) < 2 ^ 64 → code_inv a [] (Elf_new a).
Proof.
  intros Hh. unfold Elf_new, push_strtab.
  destruct (si_get_or_intern si_new ".strtab") as [t1 k1].
  destruct (si_get_or_intern t1 ".symtab") as [t2 k2].
  destruct (si_get_or_intern t2 (a_name a)) as [t3 k3].
  split; cbn; rewrite ?im_new_iter; try done.
  - rewrite Z.add_0_r. symmetry. by apply wrap_small.
  - exists 0. do 2 (split; [done|]). split; [|by intros _ d ?%elem_of_nil].
    intros (i & j & d1 & d2 & _ & Hi & _). apply zget_range in Hi. change (zlen []) with 0 in Hi. lia.
Qed.

(** The section part of [add_definition]. *)
Definition add_definition_section {E} e (def : Definition_) (name : string) : outcome E (Elf * Z) :=
  match d_data def with
  | Blob bytes => add_progbits e name (definition_section def) bytes
  | ZeroInit _ =>
      let! '(e, _, shndx) := add_section e name (definition_section def) in Ok (e, shndx)
  end.

Lemma add_section_ok {E} e n b :
  zlen (im_iter (e_sections e)) + 4 < 2 ^ 32 →
  ∃ e1 secs x k sh, add_section (E:=E) e n b = Ok (set_nsections x (set_sections secs e1), k, sh) ∧
    keeps e e1 ∧ zlen (im_iter secs) ≤ zlen (im_iter (e_sections e)) + 1 ∧
    si_get (e_strings e1) n = Some k ∧ sh < 2 ^ 32 - 1.
Proof.
  intros Hs. unfold add_section. pose proof (new_string_keeps e n) as Hn.
  destruct (new_string e n) as [[e1 k] off]. destruct Hn as [Hn Hk].
  pose proof (zlen_nonneg (im_iter (e_sections e))).
  rewrite (k_sections _ _ Hn), im_len_spec, wrap_small by (unfold in_u; lia).
  rewrite section_index_ok by lia. cbn [obind].
  eexists e1, _, _, k, _. split; [done|]. split; [done|]. split; [|split; [done|lia]].
  rewrite (im_insert_iter (IndexMapLaws:=IML)). apply al_insert_len.
Qed.

(** What a section adds: [add_section], with the bytes counted and filed when
    there are any. *)
Lemma add_definition_section_inv {E} a ds e d n :
  code_inv a ds e → sec_name d = n → zlen ds + 4 < 2 ^ 32 →
  ∃ e' sh, add_definition_section (E:=E) e d n = Ok (e', sh) ∧ code_inv a (ds ++ [d]) e' ∧
    sh < 2 ^ 32 - 1.
Proof.
  intros [Hctx Har Hb Hsec Hacc] <- Hlen.
  destruct (add_section_ok (E:=E) e (sec_name d) (definition_section d))
    as (e1 & secs & x & k & sh & Ha & Hk & Hsl & Hg & Hsh); [lia|].
  unfold add_definition_section, add_progbits. rewrite Ha. cbn [obind].
  assert (zlen (ds ++ [d]) = zlen ds + 1) as Hsn by by rewrite zlen_app.
  destruct Hk. apply (accounts_strings _ _ _ _ k_strings0) in Hacc.
  destruct (d_data d) as [bytes|z] eqn:Ed; (eexists _, sh; split; [done|]; split; [|done]);
    (split; cbn; [congruence|congruence|rewrite zsum_sizes_snoc, Ed, k_bits0, Hb|lia|]); cbn [file_size].
  - rewrite Z.add_assoc. apply wrap_add_l.
  - rewrite (im_insert_iter (IndexMapLaws:=IML)), k_code0. by apply accounts_blob.
  - by rewrite Z.add_0_r.
  - rewrite k_code0. by eapply accounts_zero.
Qed.

(** The symbol part. *)
Lemma add_section_symbols_keeps {E} e sh syms :
  sh < 2 ^ 32 - 1 → ∃ e', add_section_symbols (E:=E) e sh syms = Ok e' ∧ keeps e e'.
Proof.
  intros Hsh. revert e. induction syms as [|[n off] syms IH]; intros e; cbn [add_section_symbols ofold].
  { by exists e. }
  pose proof (new_string_keeps e n) as Hn. destruct (new_string e n) as [[e1 k] o].
  destruct Hn as [Hn _]. rewrite section_index_ok by done. cbn [obind].
  match goal with |- context [ofold _ ?x syms] => destruct (IH x) as (e' & He & Hk) end. exists e'. split; [exact He|].
  etransitivity; [exact Hn|]. etransitivity; [|exact Hk]. by split.
Qed.

Lemma add_definition_inv {E} a ds e d :
  code_inv a ds e → (is_data (d_decl d) = true ∨ is_zero_init (d_data d) = false) →
  zlen ds + 4 < 2 ^ 32 →
  ∃ e', add_definition (E:=E) e d = Ok e' ∧ code_inv a (ds ++ [d]) e'.
Proof.
  intros Hinv Hz Hlen. unfold add_definition.
  assert (section_name (E:=E) d = Ok (sec_name d)) as ->.
  { unfold sec_name, section_name. destruct (d_data d), (d_decl d); try done. by destruct Hz. }
  cbn [obind]. destruct (add_definition_section_inv (E:=E) a ds e d _ Hinv eq_refl Hlen)
    as (e1 & sh & Ha & Hi & Hsh). unfold add_definition_section in Ha. rewrite Ha. cbn [obind].
  destruct (d_decl d) as [f|f|f] eqn:Ed.
  3: { destruct (add_section_symbols_keeps (E:=E) e1 sh (d_symbols d) Hsh) as (e' & He & Hk).
       exists e'. split; [done | by eapply code_inv_keeps]. }
  all: pose proof (new_string_keeps e1 (d_name d)) as Hn;
    destruct (new_string e1 (d_name d)) as [[e2 k] o]; destruct Hn as [Hn _];
    rewrite section_index_ok by done; cbn [obind]; eexists; split; [done|];
    eapply code_inv_keeps; [exact Hi|]; etransitivity; [exact Hn|]; by destruct (negb _).
Qed.

Lemma add_definitions_inv {E} a ds : ∀ pre e,
  code_inv a pre e →
  (∀ d, d ∈ ds → is_data (d_decl d) = true ∨ is_zero_init (d_data d) = false) →
  zlen pre + zlen ds + 4 < 2 ^ 32 →
  ∃ e', ofold (fun e (def : outcome E Definition_) => let! def := def in add_definition e def) e
          (Ok <$> ds) = Ok e' ∧ code_inv a (pre ++ ds) e'.
Proof.
  induction ds as [|d ds IH]; intros pre e Hinv Hz Hlen; cbn [fmap list_fmap ofold obind].
  { exists e. by rewrite app_nil_r. }
  rewrite zlen_cons in Hlen. pose proof (zlen_nonneg ds).
  destruct (add_definition_inv (E:=E) a pre e d Hinv) as (e1 & -> & Hi);
    [apply Hz; left | lia |]. cbn [obind].
  destruct (IH (pre ++ [d]) e1 Hi) as (e' & He & Hi').
  { intros d' Hd'. apply Hz. by right. }
  { rewrite zlen_app. change (zlen [d]) with 1. lia. }
  exists e'. rewrite <- app_assoc in Hi'. done.
Qed.

(** ** Links, and the writer *)
Lemma elf_link_no_err {E} e l (err : E) : elf_link e l ≠ Err err.
Proof.
  assert (∀ e b m1 m2 err', link_end (E:=E) e b m1 m2 ≠ Err err') as Hend.
  { intros e0 b m1 m2 err'. unfold link_end. destruct (si_get_or_intern _ _), (is_section _);
      by destruct (im_get_full _ _) as [[[? ?] ?]|]. }
  unfold elf_link. destruct (link_end e _ _ _) as [[[e1 ti] ts]|err1|] eqn:E1; [|by apply Hend in E1|done].
  cbn [obind]. destruct (link_end e1 _ _ _) as [[[e2 fi] fs]|err2|] eqn:E2; [|by apply Hend in E2|done].
  cbn [obind]. destruct (link_reloc _ _) as [[r a]|err3|] eqn:E3; cbn [obind]; [| |done].
  - unfold add_reloc. destruct (im_get _ _); [done|]. destruct (im_get_index _ _) as [[? s]|]; [|done].
    cbn [expect obind]. destruct (si_resolve _ _); [|done]. cbn [expect obind].
    by destruct (new_string _ _) as [[? ?] ?].
  - unfold link_reloc in E3. destruct (l_reloc l) as [|? ?|size ?]; [|done|].
    + destruct (b_decl (l_from l)) as [|[]]; try done; [by destruct (b_decl (l_to l)) as [[]|[]]|].
      by destruct (ctx_is_big _).
    + by destruct (size =? 4), (size =? 8).
Qed.

Lemma elf_links_result {E} ls : ∀ e,
  (∃ e', ofold (fun e (l : outcome E LinkAndDecl) => let! l := l in elf_link e l) e (Ok <$> ls) = Ok e' ∧
     keeps e e') ∨
  (ls ≠ [] ∧ ∃ msg,
     ofold (fun e (l : outcome E LinkAndDecl) => let! l := l in elf_link e l) e (Ok <$> ls) = Panic msg).
Proof.
  induction ls as [|l ls IH]; intros e; cbn [fmap list_fmap ofold obind]; [left; by exists e|].
  destruct (elf_link e l) as [e1|err|msg] eqn:E1; cbn [obind].
  - apply elf_link_keeps in E1. destruct (IH e1) as [(e' & He & Hk)|(_ & msg & Hm)].
    + left. exists e'. split; [exact He | by etransitivity].
    + right. split; [done|]. by exists msg.
  - by apply elf_link_no_err in E1.
  - right. split; [done|]. by exists msg.
Qed.

Lemma elf_imports_keeps {E} l : ∀ e,
  ∃ e', ofold (fun e (i : outcome E (string * ImportKind)) =>
                 let! '(import, kind) := i in Ok (elf_import e import kind)) e (Ok <$> l) = Ok e' ∧
    keeps e e'.
Proof.
  induction l as [|[n k] l IH]; intros e; cbn [fmap list_fmap ofold obind]; [by exists e|].
  destruct (IH (elf_import e n k)) as (e' & He & Hk). exists e'. split; [exact He|].
  etransitivity; [apply elf_import_keeps | done].
Qed.

Lemma write_short {E} a ds e machine :
  code_inv a ds e → clash ds →
  MachineTag_from (E:=E) (architecture (a_target a)) = Ok machine →
  header_size (make_ctx (a_target a)) + zsum ((file_size ∘ d_data) <$> ds) < 2 ^ 64 →
  write (E:=E) e = Panic "after_code".
Proof.
  intros Hinv Hcl Hm Hlt. unfold write. pose proof (compute_offsets_keeps e) as Hco.
  destruct (compute_offsets e) as [e' lo]. destruct Hco as [Hk Hlo].
  destruct (code_inv_keeps _ _ _ _ Hinv Hk) as [Hctx Har Hb _ (lost & Hl & He & Hc & _)].
  specialize (Hc Hcl). unfold build_header. rewrite Har, Hm. cbn [obind].
  set (hd := mkHeader _ _ _ _ _).
  pose proof (cur_is_write (ser_header hd (e_ctx e')) _ [] cur_is_new) as H1. cbn [app] in H1.
  rewrite (cur_is_position _ _ H1), ser_header_len, Z.eqb_refl. cbn [assert_ obind].
  assert (cur_is (write_code e' (write_all (ser_header hd (e_ctx e')) Cursor_new))
    (ser_header hd (e_ctx e') ++ concat (snd <$> im_iter (e_code e')))) as H2.
  { unfold write_code. apply cur_is_loop; [by intros ? []|done]. }
  rewrite (cur_is_position _ _ H2), zlen_app, ser_header_len, zlen_concat.
  rewrite Hlo, <- (k_bits _ _ Hk), Hb, Hctx.
  assert (zsum (zlen <$> (snd <$> im_iter (e_code e'))) = code_len (im_iter (e_code e'))) as ->.
  { unfold code_len. by rewrite <- list_fmap_compose. }
  pose proof (header_size_spec (make_ctx (a_target a))) as Hh.
  assert (0 ≤ code_len (im_iter (e_code e'))) as Hge.
  { unfold code_len. clear. induction (im_iter (e_code e')) as [|p l IH]; cbn; [lia|].
    pose proof (zlen_nonneg p.2). lia. }
  rewrite wrap_small by (unfold in_u; destruct (container _); lia).
  assert (∀ x y, x < y → (x =? y) = false) as -> by (intros; apply Z.eqb_neq; lia); [done|lia].
Qed.

(** C19: name clashes panic.  In a complete artifact, whatever calls built it,
    let a definition with bytes and a later one, not zero-initialised, go into
    sections of the same name (as a function [f] and a section [.text.f] do).
    On an architecture the backend knows, and unless the sections are more than
    an object can have or their bytes exceed 64 bits, [to_bytes] panics: the
    bytes of both are counted but only those of the second are kept.  Without
    links it is the assertion on the position after the code that fails. *)
Theorem elf_name_clash_panics (a : Artifact) (machine : Z)
  (Hreach : reachable a)
  (Hdef : undefined_symbols (E:=ArtifactError) a = Ok [])
  (Hmach : MachineTag_from (E:=goblin_error) (architecture (a_target a)) = Ok machine)
  (Hclash : clash (c_defs (contents a)))
  (Hfew : zlen (c_defs (contents a)) + 4 < 2 ^ 32)
  (Hsize : 64 + zsum ((file_size ∘ d_data) <$> c_defs (contents a)) < 2 ^ 64) :
  ∃ msg, to_bytes a = Panic msg ∧
    (c_links (contents a) = [] → msg = "after_code"%string).
Proof.
  pose proof (reachable_wf _ Hreach) as Hwf. pose proof (contents_complete a Hwf Hdef) as Hc.
  pose proof (header_size_spec (make_ctx (a_target a))) as Hh.
  unfold to_bytes, build. rewrite (definitions_contents _ Hwf), (imports_contents _ Hwf),
    (links_contents _ Hwf).
  destruct (add_definitions_inv (E:=goblin_error) a (c_defs (contents a)) [] (Elf_new a))
    as (e1 & -> & H1).
  { apply Elf_new_code_inv. rewrite Hh. by destruct (container _). }
  { apply Hc. }
  { exact Hfew. }
  cbn [obind app] in *.
  destruct (elf_imports_keeps (E:=goblin_error) (c_imports (contents a)) e1) as (e2 & -> & H2).
  cbn [obind]. apply (code_inv_keeps _ _ _ _ H1) in H2.
  destruct (elf_links_result (E:=goblin_error) (c_links (contents a)) e2)
    as [(e3 & -> & H3)|(Hne & msg & ->)]; cbn [obind].
  - apply (code_inv_keeps _ _ _ _ H2) in H3. exists "after_code"%string. split; [|done].
    eapply write_short; [exact H3 | done | exact Hmach |]. rewrite Hh.
    destruct (container _); lia.
  - by exists msg.
Qed.
End ElfClash.

Section Witnesses.
Import ConcreteInstances.
#[local] Instance clash_profile : Profile := true.

(** A function and a section that ends up under the same name. *)
Definition clash_demo : Artifact :=
  (run exec [ ODeclare "f" (Defined (DD_Function (global function)));
              ODeclare ".text.f" (Defined (DD_Section (SectionDecl_new SK_Data)));
              ODefine ".text.f" [x01]; ODefine "f" [x55; xc3] ] (finish demo_builder)).1.

Lemma elf_name_clash_panics_witness : to_bytes clash_demo = Panic "after_code".
Proof.
  destruct (elf_name_clash_panics clash_demo 62) as (msg & Hb & Hmsg).
  - apply run_reachable, reach_finish.
  - reflexivity.
  - reflexivity.
  - exists 0, 1. eexists _, _. split; [lia|]. split; [reflexivity|]. split; [reflexivity|].
    split; [reflexivity|]. split; reflexivity.
  - reflexivity.
  - reflexivity.
  - rewrite Hb. f_equal. apply Hmsg. reflexivity.
Defined.

(** An artifact named [.strtab] fails the assertion after the string table: its
    name is counted twice. *)
Lemma elf_strtab_name_panics :
  to_bytes (finish (ArtifactBuilder_name demo_builder ".strtab")) = Panic "after_strtab".
Proof. by vm_compute. Qed.
End Witnesses.
