(* ===== verification/ElfChecked.v ===== *)
(** * The ELF backend under any setting of the overflow checks

    [ElfState.v] and [ElfWrite.v] with every addition, subtraction and
    multiplication of the source an operation of [Overflow.v], in the order of
    the source; lengths of strings and vectors, and [as] casts, do not
    overflow.  The file ends with the proof that each function follows the
    wrapping one: it panics at the first operation that overflows and is
    checked, and otherwise returns the same. *)

From stdpp Require Import base numbers list gmap strings.
From Stdlib Require Import ZArith Lia Strings.Byte.
From S2P Require Import Prelude Std Overflow External Decl Artifact Target ElfBuild ElfState ElfWrite.

Section ElfChecked.
Context {TL : TargetLexicon} {SI : StringInterner} {IM : IndexMapOps}.
Context {G : GoblinElf} {SC : Scroll} {P : Profile} {OC : OverflowChecks} {E : Type}.
Implicit Types (e : Elf).

(** ** [Elf::new] *)
Definition push_strtab_ck (st : si_t * gmap Z Z * Z) (name : string) :
  outcome E (si_t * gmap Z Z * Z * Z) :=
  let '(strings, offsets, sizeof_strtab) := st in
  let size := str_len name + 1 in
  let '(strings, idx) := si_get_or_intern strings name in
  let offset := sizeof_strtab in
  let! sizeof_strtab := add_ck 64 sizeof_strtab size in
  Ok (strings, <[idx := offset]> offsets, sizeof_strtab, offset).

Definition Elf_new_ck (artifact : Artifact) : outcome E Elf :=
  let ctx := make_ctx (a_target artifact) in
  let! '(st, _) := push_strtab_ck (si_new, ∅, 1) ".strtab" in
  let! '(st, _) := push_strtab_ck st ".symtab" in
  let! '(st, offset) := push_strtab_ck st (a_name artifact) in
  let '(strings, offsets, sizeof_strtab) := st in
  let special_symbols :=
    [sym_default;
     SymbolBuilder_create (symbol_name_offset offset (SymbolBuilder_new ST_File))] in
  Ok (mkElf (a_name artifact) im_new im_new im_new special_symbols ∅ im_new offsets sizeof_strtab
    strings (header_size ctx) 4 ctx (architecture (a_target artifact)) 0).

Definition new_string_ck e (name : string) : outcome E (Elf * Z * Z) :=
  let size := str_len name + 1 in
  let '(strings, idx) := si_get_or_intern (e_strings e) name in
  match e_offsets e !! idx with
  | Some offset => Ok (set_strtab strings (e_offsets e) (e_sizeof_strtab e) e, idx, offset)
  | None =>
      let offset := e_sizeof_strtab e in
      let! sizeof_strtab := add_ck 64 (e_sizeof_strtab e) size in
      Ok (set_strtab strings (<[idx := offset]> (e_offsets e)) sizeof_strtab e, idx, offset)
  end.

(** ** Sections and definitions *)
Definition add_section_ck e (name : string) (section : SectionBuilder) : outcome E (Elf * Z * Z) :=
  let! '(e, idx, offset) := new_string_ck e name in
  let! shndx := add_ck 64 (im_len (e_sections e)) 3 in
  let! sb := section_index shndx (SymbolBuilder_new ST_Section) in
  let section_symbol := SymbolBuilder_create sb in
  let section := SectionBuilder_create (section_name_offset offset section) (e_ctx e) in
  let section := shdr_set_offset (e_sizeof_bits e) section in
  let e := set_sections (im_insert idx (mkSectionInfo section section_symbol idx) (e_sections e)) e in
  let! nsections := add_ck 32 (e_nsections e) 1 in
  Ok (set_nsections nsections e, idx, shndx).

Definition add_progbits_ck e (name : string) (section : SectionBuilder) (data : list byte) :
  outcome E (Elf * Z) :=
  let! '(e, idx, shndx) := add_section_ck e name section in
  let! sizeof_bits := add_ck 64 (e_sizeof_bits e) (zlen data) in
  let e := set_sizeof_bits sizeof_bits e in
  Ok (set_code (im_insert idx data (e_code e)) e, shndx).

Definition add_section_symbols_ck e (shndx : Z) (symbols : BTreeMap string Z) : outcome E Elf :=
  ofold (fun e '(symbol, symbol_dst_offset) =>
    let! '(e, idx, offset) := new_string_ck e symbol in
    let! sb := section_index shndx (symbol_name_offset offset (SymbolBuilder_new ST_None)) in
    let sym := SymbolBuilder_create (symbol_value symbol_dst_offset sb) in
    Ok (set_symbols (im_insert idx sym (e_symbols e)) e)) e symbols.

(** The symbol of a function or data definition. *)
Definition add_definition_symbol_ck e (def : Definition_) (shndx : Z) : outcome E Elf :=
  let decl := d_decl def in
  let! '(e, idx, offset) := new_string_ck e (d_name def) in
  let! sb := section_index shndx (symbol_name_offset offset
    (symbol_size (file_size (d_data def)) (SymbolBuilder_from_decl decl))) in
  let e := set_symbols (im_insert idx (SymbolBuilder_create sb) (e_symbols e)) e in
  if negb (is_global decl) then
    let! nlocals := add_ck 64 (e_nlocals e) 1 in
    Ok (set_nlocals nlocals e)
  else Ok e.

Definition add_definition_ck e (def : Definition_) : outcome E Elf :=
  let! section_name := section_name def in
  let section := definition_section def in
  let! '(e, shndx) :=
    match d_data def with
    | Blob bytes => add_progbits_ck e section_name section bytes
    | ZeroInit _ =>
        let! '(e, _, shndx) := add_section_ck e section_name section in Ok (e, shndx)
    end in
  match d_decl def with
  | DD_Function _ | DD_Data _ => add_definition_symbol_ck e def shndx
  | DD_Section _ => add_section_symbols_ck e shndx (d_symbols def)
  end.

Definition elf_import_ck e (import : string) (kind : ImportKind) : outcome E Elf :=
  let! '(e, idx, offset) := new_string_ck e import in
  let symbol := SymbolBuilder_create (symbol_name_offset offset (SymbolBuilder_new ST_Import)) in
  let e := set_elf_imports (<[idx := kind]> (e_imports e)) e in
  Ok (set_symbols (im_insert idx symbol (e_symbols e)) e).

(** ** Links *)
Definition link_end_ck e (b : Binding) (in_sections in_symbols : string) :
  outcome E (Elf * Z * Z) :=
  let '(strings, idx) := si_get_or_intern (e_strings e) (b_name b) in
  let e := set_strtab strings (e_offsets e) (e_sizeof_strtab e) e in
  let nspecial := zlen (e_special_symbols e) in
  if is_section (b_decl b) then
    let! '(i, _, _) := expect (im_get_full (e_sections e) idx) in_sections in
    let! sym := add_ck 64 i nspecial in
    let! shndx := add_ck 64 i 3 in
    Ok (e, sym, shndx)
  else
    let! '(i, _, symbol) := expect (im_get_full (e_symbols e) idx) in_symbols in
    let! sym := add_ck 64 i nspecial in
    let! sym := add_ck 64 sym (im_len (e_sections e)) in
    Ok (e, sym, st_shndx symbol).

Definition add_reloc_ck e (reloc : ElfReloc) (shndx : Z) : outcome E Elf :=
  let reloc_size := reloc_size (match r_addend reloc with Some _ => true | None => false end)
                      (e_ctx e) in
  match im_get (e_relocations e) shndx with
  | Some (section, _) =>
      do! add_ck 64 (sh_size section) (sh_entsize section) in
      Ok (set_relocations (im_modify (fun '(section, relocs) =>
            (shdr_set_size (u64 (sh_size section + sh_entsize section)) section,
             relocs ++ [reloc])) shndx (e_relocations e)) e)
  | None =>
      let! i := sub_ck 64 shndx 3 in
      let! '(_, section) := expect (im_get_index (e_sections e) i) "shndx present in sections" in
      let! section_name := expect (si_resolve (e_strings e) (si_name section))
                             "section name in strings" in
      let reloc_name := (".rela" +:+ section_name)%string in
      let! '(e, _, reloc_section_offset) := new_string_ck e reloc_name in
      let reloc_section := SectionBuilder_create (section_type SecRelocation
        (section_name_offset reloc_section_offset (SectionBuilder_new reloc_size))) (e_ctx e) in
      let reloc_section := shdr_set_link SYMTAB_LINK reloc_section in
      let reloc_section := shdr_set_info (u32 shndx) reloc_section in
      let reloc_section :=
        shdr_set_flags (Z.lor (sh_flags reloc_section) SHF_INFO_LINK) reloc_section in
      let e := set_relocations
                 (im_insert shndx (reloc_section, [reloc]) (e_relocations e)) e in
      let! nsections := add_ck 32 (e_nsections e) 1 in
      Ok (set_nsections nsections e)
  end.

Definition elf_link_ck e (l : LinkAndDecl) : outcome E Elf :=
  let! '(e, to_idx, to_shndx) :=
    link_end_ck e (l_to l) "to_idx present in sections" "to_idx present in symbols" in
  let! '(e, from_idx, from_shndx) :=
    link_end_ck e (l_from l) "from_idx present in sections" "from_idx present in symbols" in
  let! '(reloc, addend) := link_reloc (e_ctx e) l in
  let! sym_idx := match b_decl (l_to l) with
                  | Defined _ =>
                      let! i := sub_ck 64 to_shndx 3 in
                      add_ck 64 i (zlen (e_special_symbols e))
                  | Import _ => Ok to_idx
                  end in
  let reloc := RelocationBuilder_create (reloc_addend addend (reloc_offset (l_at l)
                 (reloc_sym sym_idx (RelocationBuilder_new reloc)))) in
  add_reloc_ck e reloc from_shndx.

(** ** [Elf::write] *)
Definition align_ck (offset sizeof_t : Z) : outcome E Z :=
  let alignment := offset mod sizeof_t in
  if negb (alignment =? 0) then
    let! pad := sub_ck 64 sizeof_t alignment in
    add_ck 64 offset pad
  else Ok offset.

(** [assert_eq!(align(position), expected)] *)
Definition assert_position_ck (c : Cursor) (k expected : Z) (msg : string) : outcome E unit :=
  let! position := align_ck (stream_position c) k in
  assert_ (position =? expected) msg.

Definition sizeof_relocs_ck e : outcome E Z :=
  let! n := ofold (fun acc '(_, (_, rels)) => add_ck 64 (zlen rels) acc) 0
              (im_iter (e_relocations e)) in
  mul_ck 64 n (reloc_size true (e_ctx e)).

(** The offsets, once the sizes and the names are known. *)
Definition layout_ck e (symbol_count sizeof_symtab : Z) (need_symtab_shndx : bool)
  (sizeof_symtab_shndx symtab_shndx_name_offset sizeof_relocs nonexec_stack_note_name_offset : Z) :
  outcome E Layout :=
  let strtab_offset := e_sizeof_bits e in
  let! symtab_offset := add_ck 64 strtab_offset (e_sizeof_strtab e) in
  let! symtab_offset := align_ck symtab_offset (ctx_size (e_ctx e)) in
  let! symtab_shndx_offset := add_ck 64 symtab_offset sizeof_symtab in
  let! symtab_shndx_offset :=
    if need_symtab_shndx then align_ck symtab_shndx_offset 4 else Ok symtab_shndx_offset in
  let! reloc_offset := add_ck 64 symtab_shndx_offset sizeof_symtab_shndx in
  let! reloc_offset := align_ck reloc_offset (ctx_size (e_ctx e)) in
  let! sh_offset := add_ck 64 reloc_offset sizeof_relocs in
  let! sh_offset := align_ck sh_offset (ctx_size (e_ctx e)) in
  Ok (mkLayout symbol_count sizeof_symtab need_symtab_shndx sizeof_symtab_shndx
        symtab_shndx_name_offset sizeof_relocs nonexec_stack_note_name_offset
        strtab_offset symtab_offset symtab_shndx_offset reloc_offset sh_offset).

(** Whether [.symtab_shndx] is needed; if so its size and name. *)
Definition symtab_shndx_ck e (symbol_count : Z) : outcome E (Elf * Z * Z * bool) :=
  if SHN_LORESERVE <=? e_nsections e then
    let! nsections := add_ck 32 (e_nsections e) 1 in
    let e := set_nsections nsections e in
    let! size := mul_ck 64 symbol_count 4 in
    let! '(e, _, off) := new_string_ck e ".symtab_shndx" in
    Ok (e, size, off, true)
  else Ok (e, 0, 0, false).

Definition compute_offsets_ck e : outcome E (Elf * Layout) :=
  let! symbol_count := add_ck 64 (im_len (e_symbols e)) (zlen (e_special_symbols e)) in
  let! symbol_count := add_ck 64 symbol_count (im_len (e_sections e)) in
  let! sizeof_symtab := mul_ck 64 symbol_count (sym_size (container (e_ctx e))) in
  let! '(e, sizeof_symtab_shndx, symtab_shndx_name_offset, need_symtab_shndx) :=
    symtab_shndx_ck e symbol_count in
  let! sizeof_relocs := sizeof_relocs_ck e in
  let! '(e, _, nonexec_stack_note_name_offset) := new_string_ck e ".note.GNU-stack" in
  let! lo := layout_ck e symbol_count sizeof_symtab need_symtab_shndx sizeof_symtab_shndx
    symtab_shndx_name_offset sizeof_relocs nonexec_stack_note_name_offset in
  Ok (e, lo).

Definition init_sections_ck e (lo : Layout) : outcome E (list SectionHeader) :=
  let null := if SHN_LORESERVE <=? e_nsections e
              then shdr_set_size (e_nsections e) shdr_default else shdr_default in
  let! offset := expect (e_offsets e !! 0) "unwrap" in
  let strtab := SectionBuilder_create (section_type SecStrTab (section_name_offset offset
                  (SectionBuilder_new (e_sizeof_strtab e)))) (e_ctx e) in
  let strtab := shdr_set_offset (lo_strtab lo) strtab in
  let! offset := expect (e_offsets e !! 1) "unwrap" in
  let symtab := SectionBuilder_create (section_type SecSymTab (section_name_offset offset
                  (SectionBuilder_new (lo_sizeof_symtab lo)))) (e_ctx e) in
  let symtab := shdr_set_offset (lo_symtab lo) symtab in
  let symtab := shdr_set_link 1 symtab in
  let! info := add_ck 64 (zlen (e_special_symbols e)) (im_len (e_sections e)) in
  let! info := add_ck 64 info (e_nlocals e) in
  Ok [null; strtab; shdr_set_info (u32 info) symtab].

Definition write_symtab_ck e (lo : Layout) (c : Cursor) (headers : list SectionHeader) :
  outcome E (Cursor * list SectionHeader) :=
  let need := lo_need_shndx lo in
  let! data :=
    if need then
      let! len := mul_ck 64 (lo_symbol_count lo) 4 in
      Ok (replicate (Z.to_nat len) x00)
    else Ok [] in
  let c := seek_start (lo_symtab lo) c in
  let! '(c, data) := write_symbols e need data c in
  let headers := headers ++ ((fun '(_, section) => si_header section) <$> im_iter (e_sections e)) in
  if need then
    do! assert_position_ck c 4 (lo_shndx lo) "after_symtab" in
    let c := write_all data (seek_start (lo_shndx lo) c) in
    Ok (c, headers ++ [symtab_shndx_section e lo])
  else Ok (c, headers).

Definition write_reloc_section_ck e (st : Cursor * Z * list SectionHeader)
  (entry : Z * (SectionHeader * list ElfReloc)) : outcome E (Cursor * Z * list SectionHeader) :=
  let '(c, roffset, headers) := st in
  let '(_, (section, relocations)) := entry in
  let section := shdr_set_offset roffset section in
  let! roffset := add_ck 64 roffset (sh_size section) in
  let c := fold_left (fun c relocation =>
             write_all (ser_reloc relocation
               (match r_addend relocation with Some _ => true | None => false end, e_ctx e)) c)
           relocations c in
  Ok (c, roffset, headers ++ [section]).

Definition write_relocations_ck e (lo : Layout) (c : Cursor) (headers : list SectionHeader) :
  outcome E (Cursor * list SectionHeader) :=
  let! '(c, _, headers) := ofold (write_reloc_section_ck e)
      (seek_start (lo_reloc lo) c, lo_reloc lo, headers) (im_iter (e_relocations e)) in
  Ok (c, headers).

Definition write_section_headers_ck e (lo : Layout) (c : Cursor) (headers : list SectionHeader) :
  outcome E Cursor :=
  let! shdr_size_total := mul_ck 64 (zlen headers) (shdr_size (e_ctx e)) in
  let c := fold_left (fun c shdr => write_all (ser_shdr shdr (e_ctx e)) c) headers
             (seek_start (lo_sh lo) c) in
  let! expected := add_ck 64 (lo_sh lo) shdr_size_total in
  do! assert_ (stream_position c =? expected) "after_shdrs" in
  Ok c.

Definition write_after_symtab_ck e (lo : Layout) (c : Cursor) (headers : list SectionHeader) :
  outcome E (list byte) :=
  do! assert_position_ck c (ctx_size (e_ctx e)) (lo_reloc lo) "after_symtab_shndx" in
  let! '(c, headers) := write_relocations_ck e lo c headers in
  do! assert_position_ck c (ctx_size (e_ctx e)) (lo_sh lo) "after_relocs" in
  let headers := headers ++ [nonexec_stack e lo] in
  let! c := write_section_headers_ck e lo c headers in
  Ok (cur_buf c).

Definition write_ck e : outcome E (list byte) :=
  let c := Cursor_new in
  let! '(e, lo) := compute_offsets_ck e in
  let! header := build_header e lo in
  let c := write_all (ser_header header (e_ctx e)) c in
  do! assert_ (stream_position c =? header_size (e_ctx e)) "after_header" in
  let c := write_code e c in
  do! assert_ (stream_position c =? lo_strtab lo) "after_code" in
  let! headers := init_sections_ck e lo in
  let c := write_strtab e (seek_start (lo_strtab lo) c) in
  do! assert_position_ck c (ctx_size (e_ctx e)) (lo_symtab lo) "after_strtab" in
  let! '(c, headers) := write_symtab_ck e lo c headers in
  write_after_symtab_ck e lo c headers.

Definition build_ck (artifact : Artifact) : outcome E Elf :=
  let! elf := Elf_new_ck artifact in
  let! elf := ofold (fun elf def => let! def := def in add_definition_ck elf def)
                elf (definitions artifact) in
  let! elf := ofold (fun elf import => let! '(import, kind) := import in
                                       elf_import_ck elf import kind)
                elf (imports artifact) in
  ofold (fun elf link => let! link := link in elf_link_ck elf link) elf (links artifact).
End ElfChecked.

Definition elf_to_bytes_ck {TL : TargetLexicon} {SI : StringInterner} {IM : IndexMapOps}
  {G : GoblinElf} {SC : Scroll} {P : Profile} {OC : OverflowChecks} (artifact : Artifact) :
  outcome goblin_error (list byte) :=
  let! elf := build_ck artifact in
  write_ck elf.

(** ** Agreement with the wrapping functions *)
Section ElfAgrees.
Context {TL : TargetLexicon} {SI : StringInterner} {IM : IndexMapOps}.
Context {G : GoblinElf} {SC : Scroll} {P : Profile} {E : Type}.
Implicit Types (e : Elf).

Lemma push_strtab_follows st n : follows (E:=E) (fun OC => push_strtab_ck st n) (Ok (push_strtab st n)).
Proof.
  unfold push_strtab_ck, push_strtab. destruct st as [[t o] s].
  destruct (si_get_or_intern t n). follow.
Qed.
#[local] Hint Resolve push_strtab_follows : follow.

Lemma Elf_new_follows a : follows (E:=E) (fun OC => Elf_new_ck a) (Ok (Elf_new a)).
Proof.
  unfold Elf_new_ck, Elf_new. follow_step. destruct (push_strtab _ _) as [st1 o1].
  follow_step. destruct (push_strtab st1 _) as [st2 o2]. follow_step.
  destruct (push_strtab st2 _) as [[[t o] s] o3]. follow.
Qed.

Lemma new_string_follows e n : follows (E:=E) (fun OC => new_string_ck e n) (Ok (new_string e n)).
Proof.
  unfold new_string_ck, new_string. destruct (si_get_or_intern _ n) as [t i].
  destruct (e_offsets e !! i); follow.
Qed.
#[local] Hint Resolve Elf_new_follows new_string_follows : follow.

Lemma add_section_follows e n b : follows (E:=E) (fun OC => add_section_ck e n b) (add_section e n b).
Proof.
  unfold add_section_ck, add_section. follow_step. destruct (new_string e n) as [[e1 i] o]. follow.
Qed.
#[local] Hint Resolve add_section_follows : follow.

Lemma add_progbits_follows e n b d : follows (E:=E) (fun OC => add_progbits_ck e n b d) (add_progbits e n b d).
Proof. unfold add_progbits_ck, add_progbits. follow. Qed.

Lemma add_section_symbols_follows e sh l :
  follows (E:=E) (fun OC => add_section_symbols_ck e sh l) (add_section_symbols e sh l).
Proof.
  apply follows_ofold. intros e1 [s v]. follow_step. destruct (new_string e1 s) as [[e2 i] o]. follow.
Qed.
#[local] Hint Resolve add_progbits_follows add_section_symbols_follows : follow.

Lemma add_definition_follows e d : follows (E:=E) (fun OC => add_definition_ck e d) (add_definition e d).
Proof.
  unfold add_definition_ck, add_definition, add_definition_symbol_ck. follow_step.
  apply follows_bind; [destruct (d_data d); follow|]. intros [e1 sh].
  destruct (d_decl d); [| |follow].
  all: follow_step; destruct (new_string e1 (d_name d)) as [[e2 i] o]; follow_step;
    destruct (negb _); follow.
Qed.

Lemma elf_import_follows e n k : follows (E:=E) (fun OC => elf_import_ck e n k) (Ok (elf_import e n k)).
Proof.
  unfold elf_import_ck, elf_import. follow_step. destruct (new_string e n) as [[e1 i] o]. follow.
Qed.

Lemma link_end_follows e b m1 m2 : follows (E:=E) (fun OC => link_end_ck e b m1 m2) (link_end e b m1 m2).
Proof.
  unfold link_end_ck, link_end. destruct (si_get_or_intern _ _) as [t i].
  destruct (is_section _); follow. all: try rewrite wrap_add_l. all: follow.
Qed.

Lemma add_reloc_follows e r sh : follows (E:=E) (fun OC => add_reloc_ck e r sh) (add_reloc e r sh).
Proof.
  unfold add_reloc_ck, add_reloc. destruct (im_get _ _) as [[]|]; [follow|].
  follow_step. follow_step. destruct a as [k info]. follow_step. follow_step.
  destruct (new_string e _) as [[e1 i] o]. follow.
Qed.
#[local] Hint Resolve add_definition_follows elf_import_follows link_end_follows add_reloc_follows : follow.

Lemma elf_link_follows e l : follows (E:=E) (fun OC => elf_link_ck e l) (elf_link e l).
Proof.
  unfold elf_link_ck, elf_link. follow_step. destruct a as [[e1 ti] ts].
  follow_step. destruct a as [[e2 fi] fs]. follow_step. destruct a as [r ad].
  eapply follows_pure; [|apply add_reloc_follows]. destruct (b_decl (l_to l)); follow.
Qed.
#[local] Hint Resolve elf_link_follows : follow.

Lemma elf_build_follows a : follows (E:=E) (fun OC => build_ck a) (build a).
Proof.
  unfold build_ck, build. follow_step.
  apply follows_bind; [apply follows_ofold; intros e d; follow|]. intros e1.
  apply follows_bind; [apply follows_ofold; intros e i; follow_step; destruct a0; follow|]. intros e2.
  apply follows_ofold. intros e l. follow.
Qed.

(** *** [Elf::write] *)
Lemma align_follows x k : follows (E:=E) (fun OC => align_ck x k) (Ok (align x k)).
Proof.
  unfold align_ck, align. destruct (negb _); [|follow]. follow_step.
  rewrite <- (wrap_add_r 64 x). follow.
Qed.
#[local] Hint Resolve align_follows : follow.

Lemma assert_position_follows c k x msg :
  follows (E:=E) (fun OC => assert_position_ck c k x msg) (assert_ (align (stream_position c) k =? x) msg).
Proof. unfold assert_position_ck. follow. Qed.
#[local] Hint Resolve assert_position_follows : follow.

Lemma reloc_total_follows (l : list (Z * (SectionHeader * list ElfReloc))) : ∀ acc,
  follows (E:=E) (fun OC => ofold (fun acc '(_, (_, rels)) => add_ck 64 (zlen rels) acc) (u64 acc) l)
    (Ok (u64 (fold_left (fun acc '(_, (_, rels)) => zlen rels + acc) l acc))).
Proof.
  induction l as [|[k [h rs]] l IH]; intros acc; cbn [ofold fold_left]; [follow|].
  follow_step. rewrite wrap_add_r. apply IH.
Qed.

Lemma wrap_mul_l w x y : wrap w (wrap w x * y) = wrap w (x * y).
Proof. unfold wrap. by rewrite Zmult_mod_idemp_l. Qed.

Lemma sizeof_relocs_follows e :
  follows (E:=E) (fun OC => sizeof_relocs_ck e)
    (Ok (u64 (fold_left (fun acc '(_, (_, rels)) => zlen rels + acc) (im_iter (e_relocations e)) 0
              * reloc_size true (e_ctx e)))).
Proof.
  unfold sizeof_relocs_ck. eapply follows_pure; [apply (reloc_total_follows _ 0)|].
  rewrite <- (wrap_mul_l 64 (fold_left _ _ _)). follow.
Qed.
#[local] Hint Resolve sizeof_relocs_follows : follow.

Lemma layout_follows e n size need sizex namex rel note :
  follows (E:=E) (fun OC => layout_ck e n size need sizex namex rel note)
    (let symtab := align (u64 (e_sizeof_bits e + e_sizeof_strtab e)) (ctx_size (e_ctx e)) in
     let shndx := u64 (symtab + size) in
     let shndx := if need then align shndx 4 else shndx in
     let reloc := align (u64 (shndx + sizex)) (ctx_size (e_ctx e)) in
     let sh := align (u64 (reloc + rel)) (ctx_size (e_ctx e)) in
     Ok (mkLayout n size need sizex namex rel note (e_sizeof_bits e) symtab shndx reloc sh)).
Proof. unfold layout_ck. do 3 follow_step. destruct need; [|cbn [obind]]; follow. Qed.
#[local] Hint Resolve layout_follows : follow.

Lemma compute_offsets_follows e : follows (E:=E) (fun OC => compute_offsets_ck e) (Ok (compute_offsets e)).
Proof.
  unfold compute_offsets_ck, compute_offsets, symtab_shndx_ck. do 3 follow_step. rewrite wrap_add_l.
  destruct (SHN_LORESERVE <=? e_nsections e).
  - destruct (new_string (set_nsections _ e) ".symtab_shndx") as [[e1 i] o] eqn:E1.
    eapply follows_pure; [do 3 follow_step; rewrite E1; apply follows_same|].
    cbv beta iota. do 2 follow_step. destruct (new_string e1 _) as [[e2 i2] o2].
    eapply follows_pure; [apply layout_follows | apply follows_same].
  - cbn [obind]. do 2 follow_step. destruct (new_string e _) as [[e1 i] o].
    eapply follows_pure; [apply layout_follows | apply follows_same].
Qed.
#[local] Hint Resolve compute_offsets_follows elf_build_follows : follow.

Lemma init_sections_follows e lo : follows (E:=E) (fun OC => init_sections_ck e lo) (init_sections e lo).
Proof.
  unfold init_sections_ck, init_sections. do 4 follow_step. rewrite wrap_add_l. follow.
Qed.

Lemma write_symtab_follows e lo c hs :
  follows (E:=E) (fun OC => write_symtab_ck e lo c hs) (write_symtab e lo c hs).
Proof.
  unfold write_symtab_ck, write_symtab. destruct (lo_need_shndx lo); [|cbn [obind]; follow].
  eapply follows_pure; [follow|]. follow.
Qed.

Lemma write_relocations_follows e lo c hs :
  follows (E:=E) (fun OC => write_relocations_ck e lo c hs) (Ok (write_relocations e lo c hs)).
Proof.
  unfold write_relocations_ck, write_relocations. eapply follows_pure.
  - apply follows_fold with (g := write_reloc_section e). intros [[c1 o] h] [k [s rs]].
    unfold write_reloc_section_ck, write_reloc_section. follow.
  - destruct (fold_left _ _ _) as [[c1 o] h]. follow.
Qed.
#[local] Hint Resolve init_sections_follows write_symtab_follows write_relocations_follows : follow.

Lemma write_section_headers_follows e lo c hs :
  follows (E:=E) (fun OC => write_section_headers_ck e lo c hs) (write_section_headers e lo c hs).
Proof. unfold write_section_headers_ck, write_section_headers. follow. Qed.
#[local] Hint Resolve write_section_headers_follows : follow.

Lemma write_after_symtab_follows e lo c hs :
  follows (E:=E) (fun OC => write_after_symtab_ck e lo c hs) (write_after_symtab e lo c hs).
Proof.
  unfold write_after_symtab_ck, write_after_symtab. do 2 follow_step.
  destruct (write_relocations e lo c hs) as [c1 h]. follow.
Qed.
#[local] Hint Resolve write_after_symtab_follows : follow.

Lemma elf_write_follows e : follows (E:=E) (fun OC => write_ck e) (ElfWrite.write e).
Proof.
  unfold write_ck, ElfWrite.write. follow_step. destruct (compute_offsets e) as [e1 lo]. follow.
Qed.
End ElfAgrees.

(** [elf::to_bytes] returns the same bytes under every setting, or panics at the
    first checked operation that overflows. *)
Lemma elf_to_bytes_follows {TL : TargetLexicon} {SI : StringInterner} {IM : IndexMapOps}
  {G : GoblinElf} {SC : Scroll} {P : Profile} (a : Artifact) :
  follows (fun OC => elf_to_bytes_ck a) (ElfWrite.to_bytes a).
Proof.
  unfold elf_to_bytes_ck, ElfWrite.to_bytes. apply follows_bind; [apply elf_build_follows|].
  intros e. apply elf_write_follows.
Qed.
