(* ===== verification/ElfOverflow.v ===== *)
(** * No operation of the ELF backend overflows

    The sums the backend keeps only grow, so each is bounded by what it is in
    the finished object; an object whose file is smaller than 2^64 bytes and
    has fewer than 2^32 section headers is built and written without an
    overflow.  Every lemma says of one function that, under the bounds it needs
    on the values after it, the checked one does what the wrapping one does. *)

From stdpp Require Import base numbers list gmap strings.
From Stdlib Require Import ZArith Lia Strings.Byte.
From S2P Require Import Prelude Std Overflow External Decl Artifact ArtifactInv Contents Target.
From S2P Require Import ElfBuild ElfState ElfWrite ElfRepr ElfLink ElfObject ElfLayout ElfImage.
From S2P Require Import ElfRead ElfFacts ElfTheorems ElfChecked.

(** ** String tables only grow *)
Lemma strtab_len_app l k : strtab_len l ≤ strtab_len (l ++ k).
Proof.
  unfold strtab_len. rewrite fmap_app, zsum_app.
  pose proof (zsum_nonneg (fun s => str_len s + 1) k) as H.
  specialize (H (fun s => ltac:(pose proof (str_len_nonneg s); lia))). lia.
Qed.

Lemma strtab_len_pos l : 0 < strtab_len l.
Proof. pose proof (strtab_len_app [] l) as H. cbn [app] in H. unfold strtab_len at 1 in H. cbn in H. lia. Qed.

Lemma intern_all_prefix ns : ∀ strs, ∃ l, intern_all ns strs = strs ++ l.
Proof.
  induction ns as [|n ns IH]; intros strs; cbn; [exists []; by rewrite app_nil_r|].
  destruct (intern_prefix n strs) as [k1 E1]. destruct (IH (intern n strs)) as [k2 E2].
  exists (k1 ++ k2). unfold intern_all in E2. rewrite E2, E1. by rewrite app_assoc.
Qed.

Lemma strtab_len_intern n strs : strtab_len strs ≤ strtab_len (intern n strs).
Proof. destruct (intern_prefix n strs) as [k ->]. apply strtab_len_app. Qed.

Lemma strtab_len_intern_all ns strs : strtab_len strs ≤ strtab_len (intern_all ns strs).
Proof. destruct (intern_all_prefix ns strs) as [k ->]. apply strtab_len_app. Qed.

Section ElfFits.
Context {TL : TargetLexicon} {SI : StringInterner} {IM : IndexMapOps}.
Context {G : GoblinElf} {SC : Scroll} {P : Profile} {OC : OverflowChecks} {E : Type}.
Context {SIL : StringInternerLaws SI} {IML : IndexMapLaws IM} {GL : GoblinElfLaws G}.
Context {SCL : ScrollLaws SC}.
Implicit Types (g : AbsElf) (e : Elf).

Definition strings_ok e : Prop :=
  strtab_ok (si_strings (e_strings e)) (e_offsets e) (e_sizeof_strtab e).

Lemma new_string_fits e n :
  strings_ok e → strtab_len (intern n (si_strings (e_strings e))) < 2 ^ 64 →
  new_string_ck (E:=E) e n = Ok (new_string e n).
Proof.
  intros Hok Hlt. unfold new_string_ck, new_string.
  destruct (si_get_or_intern (e_strings e) n) as [t k] eqn:Ei.
  apply get_or_intern_spec in Ei as [Et Hk]. unfold intern in Et, Hlt.
  destruct (e_offsets e !! k) as [o|] eqn:Eo; [done|]. case_decide as Hin.
  { rewrite Et in Hk. rewrite (so_offsets _ _ _ Hok k n Hk) in Eo. done. }
  rewrite strtab_len_snoc in Hlt. pose proof (str_len_nonneg n).
  pose proof (strtab_len_pos (si_strings (e_strings e))).
  pose proof (so_size _ _ _ Hok) as Hs. rewrite wrap_small in Hs by (unfold in_u; lia).
  rewrite add_exact by (unfold in_u; lia). done.
Qed.

Lemma new_string_strings_ok e n : strings_ok e → strings_ok (new_string e n).1.1.
Proof.
  intros Hok. by destruct (new_string_spec e n Hok) as (t & o & s & k & off & l & -> & _ & ? & _).
Qed.

(** ** Definitions *)
Lemma add_section_fits g e n b :
  repr g e → zlen (g_secs g) + zlen (g_rels g) + 5 < 2 ^ 32 →
  strtab_len (intern n (si_strings (e_strings e))) < 2 ^ 64 →
  add_section_ck (E:=E) e n b = add_section e n b.
Proof.
  intros Hr Hlen Hlt. unfold add_section_ck, add_section.
  rewrite (new_string_fits e n (re_strtab _ _ Hr) Hlt). cbn [obind].
  destruct (new_string_repr g e n Hr) as (t & o & s & k & off & -> & Hr1 & _).
  pose proof (zlen_nonneg (g_secs g)). pose proof (zlen_nonneg (g_rels g)).
  rewrite add_exact by (rewrite im_len_spec, (re_secs_len _ _ Hr1); unfold in_u; lia). cbn [obind].
  destruct (section_index _ _); [|done..]. cbn [obind].
  change (e_nsections (set_sections _ _)) with (e_nsections e). rewrite (re_nsections _ _ Hr).
  rewrite (wrap_small 32 (4 + _ + _)) by (unfold in_u; lia). by rewrite add_exact by (unfold in_u; lia).
Qed.

Lemma add_progbits_fits g e n b bs :
  repr g e → (n ∉ as_name <$> g_secs g) → zlen (g_secs g) + zlen (g_rels g) + 5 < 2 ^ 32 →
  strtab_len (intern n (si_strings (e_strings e))) < 2 ^ 64 →
  abs_end (e_ctx e) g + zlen bs < 2 ^ 64 →
  add_progbits_ck (E:=E) e n b bs = add_progbits e n b bs.
Proof.
  intros Hr Hn Hlen Hlt Hend. unfold add_progbits_ck, add_progbits.
  rewrite (add_section_fits g) by done. pose proof (zlen_nonneg (g_rels g)).
  destruct (add_section_repr (E:=E) g e n b Hr Hn) as (e1 & k & -> & Hr1 & Hc & _); [lia|]. cbn [obind].
  pose proof (re_bits _ _ Hr1) as Hb. rewrite Hc in Hb.
  change (header_size (e_ctx e) + _) with (abs_end (e_ctx e) g) in Hb.
  pose proof (offsets_ordered (e_ctx e) [] g). pose proof (zlen_nonneg bs).
  rewrite Hb, wrap_small by (unfold in_u; lia). by rewrite add_exact by (unfold in_u; lia).
Qed.

Lemma add_section_symbols_fits syms sh : ∀ e,
  strings_ok e → strtab_len (intern_all syms.*1 (si_strings (e_strings e))) < 2 ^ 64 →
  add_section_symbols_ck (E:=E) e sh syms = add_section_symbols e sh syms.
Proof.
  unfold add_section_symbols_ck, add_section_symbols.
  induction syms as [|[s v] syms IH]; intros e Hok Hlt; cbn [ofold]; [done|]. cbn in Hlt.
  pose proof (strtab_len_intern_all syms.*1 (intern s (si_strings (e_strings e)))).
  rewrite new_string_fits by (done || (unfold intern_all in *; lia)). cbn [obind].
  pose proof (new_string_strings_ok e s Hok) as Hok1. pose proof (new_string_strings e s) as Hs.
  destruct (new_string e s) as [[e1 i] o]. cbn [fst] in Hok1, Hs.
  destruct (section_index _ _); [|done..]. cbn [obind]. apply IH; [done|].
  cbn [e_strings set_symbols]. rewrite Hs. exact Hlt.
Qed.

(** What an object must satisfy for its sums to fit. *)
Record sums_fit (ctx : Ctx) g : Prop := {
  sf_headers : zlen (g_secs g) + zlen (g_rels g) + 5 ≤ 2 ^ 32;
  sf_end : abs_end ctx g < 2 ^ 64;
  sf_locals : 0 ≤ g_locals g < 2 ^ 64;
  sf_relocs : reloc_count g * reloc_size true ctx < 2 ^ 64
}.

Lemma add_definition_fits g e d n :
  repr g e → section_name (E:=E) d = Ok n → (n ∉ as_name <$> g_secs g) → 0 ≤ g_locals g →
  sums_fit (e_ctx e) (abs_add_definition (e_ctx e) g n d) →
  strtab_len (intern_all (n :: def_symbol_names d) (si_strings (e_strings e))) < 2 ^ 64 →
  add_definition_ck (E:=E) e d = add_definition e d.
Proof.
  intros Hr Hname Hn Hg [Hlen Hend Hloc _] Hlt. unfold add_definition_ck, add_definition. rewrite Hname.
  cbn [obind]. cbn [intern_all fold_left] in Hlt.
  change (fold_left (fun l n => intern n l)) with intern_all in Hlt.
  pose proof (strtab_len_intern_all (def_symbol_names d) (intern n (si_strings (e_strings e)))) as Hmono.
  cbn [abs_add_definition g_secs g_rels] in Hlen. rewrite zlen_app in Hlen. change (zlen [_]) with 1 in Hlen.
  assert (match d_data d with
    | Blob bytes => add_progbits_ck (E:=E) e n (definition_section d) bytes
    | ZeroInit _ => let! '(e, _, sh) := add_section_ck e n (definition_section d) in Ok (e, sh)
    end = match d_data d with
    | Blob bytes => add_progbits e n (definition_section d) bytes
    | ZeroInit _ => let! '(e, _, sh) := add_section e n (definition_section d) in Ok (e, sh)
    end) as ->.
  { unfold abs_end, abs_add_definition, def_code in Hend. cbn [g_code] in Hend.
    destruct (d_data d) as [bs|z].
    - apply (add_progbits_fits g); try done; [lia|lia|]. unfold abs_end. rewrite fmap_app, zsum_app in Hend.
      cbn in Hend. lia.
    - by rewrite (add_section_fits g) by (done || lia). }
  pose proof (zlen_nonneg (g_rels g)).
  destruct (add_definition_section_repr (E:=E) g e d n Hr Hn) as (e1 & E1 & Hc1 & Hr1); [lia|].
  pose proof (add_definition_section_strings (E:=E) _ _ _ _ _ E1) as Hs. rewrite E1. cbn [obind].
  unfold def_symbol_names, add_definition_symbol_ck in *. cbn [abs_add_definition g_locals] in Hloc. unfold def_locals in Hloc.
  destruct (d_decl d) as [fd|dd|sd]; [| |apply add_section_symbols_fits; [apply Hr1 | by rewrite Hs]].
  all: cbn [intern_all fold_left] in Hlt;
    rewrite new_string_fits by (apply Hr1 || by rewrite Hs); cbn [obind];
    destruct (new_string_repr _ e1 (d_name d) Hr1) as (t & o & s & k & off & -> & _ & _);
    destruct (section_index _ _); [|done..]; cbn [obind];
    destruct (negb _); [|done];
    change (e_nlocals (set_symbols _ _)) with (e_nlocals e1);
    rewrite (re_nlocals _ _ Hr1); cbn [g_locals];
    rewrite (wrap_small 64 (g_locals g)) by (unfold in_u; lia);
    by rewrite add_exact by (unfold in_u; lia).
Qed.

(** ** Objects only grow *)
Record grows g g' : Prop := {
  gr_secs : zlen (g_secs g) ≤ zlen (g_secs g');
  gr_rels : zlen (g_rels g) ≤ zlen (g_rels g');
  gr_code : zsum (zlen <$> g_code g) ≤ zsum (zlen <$> g_code g');
  gr_locals : g_locals g ≤ g_locals g';
  gr_relocs : reloc_count g ≤ reloc_count g'
}.

#[local] Instance grows_preorder : PreOrder grows.
Proof.
  split; [by intros g; split|]. intros g1 g2 g3 [] []. split; lia.
Qed.

Lemma sums_fit_mono ctx g g' : grows g g' → 0 ≤ g_locals g → sums_fit ctx g' → sums_fit ctx g.
Proof.
  intros [] H0 []. unfold abs_end in *.
  assert (1 ≤ reloc_size true ctx) by (rewrite reloc_size_spec; destruct (container ctx); lia).
  assert (0 ≤ reloc_count g) by (apply zsum_nonneg; intros; apply zlen_nonneg).
  split; unfold abs_end; [lia..|nia].
Qed.

Lemma def_locals_nonneg d : 0 ≤ def_locals d.
Proof. unfold def_locals. destruct (d_decl d); [..|lia]; by destruct (negb _). Qed.

Lemma abs_definitions_grows ctx ds : ∀ g,
  grows g (abs_definitions ctx ds g) ∧ (0 ≤ g_locals g → 0 ≤ g_locals (abs_definitions ctx ds g)).
Proof.
  induction ds as [|d ds IH]; intros g; [done|].
  destruct (IH (abs_add_definition ctx g (sec_name d) d)) as [Hg Hl].
  pose proof (def_locals_nonneg d). split; [|intros H0; apply Hl; cbn; lia].
  etrans; [|exact Hg]. split; cbn; try lia.
  - rewrite zlen_app. pose proof (zlen_nonneg [mkAbsSection (sec_name d) (definition_section d) (abs_end ctx g)]). lia.
  - rewrite fmap_app, zsum_app. pose proof (zsum_nonneg zlen (def_code d) zlen_nonneg). lia.
  - done.
Qed.

Lemma definitions_fits ds : ∀ g e,
  repr g e → (∀ d, d ∈ ds → is_data (d_decl d) = true ∨ is_zero_init (d_data d) = false) →
  NoDup ((as_name <$> g_secs g) ++ (sec_name <$> ds)) →
  NoDup ((g_syms g).*1 ++ concat (def_symbol_names <$> ds)) →
  zlen (g_secs g) + zlen ds + 4 < 2 ^ 32 →
  0 ≤ g_locals g → sums_fit (e_ctx e) (abs_definitions (e_ctx e) ds g) →
  strtab_len (intern_all (concat (def_names <$> ds)) (si_strings (e_strings e))) < 2 ^ 64 →
  ofold (add_definition_ck (E:=E)) e ds = ofold add_definition e ds.
Proof.
  induction ds as [|d ds IH]; intros g e Hr Hz Hn1 Hn2 Hlen Hloc Hfit Hlt; cbn [ofold]; [done|].
  cbn in Hn1, Hn2. rewrite zlen_cons in Hlen. pose proof (zlen_nonneg ds).
  cbn [fmap list_fmap concat] in Hlt. rewrite intern_all_app in Hlt.
  pose proof (strtab_len_intern_all (concat (def_names <$> ds)) (intern_all (def_names d) (si_strings (e_strings e)))).
  assert (section_name (E:=E) d = Ok (sec_name d)) as Hsn by (apply section_name_ok, Hz; set_solver).
  assert (sec_name d ∉ as_name <$> g_secs g) as Hnew.
  { apply NoDup_app in Hn1 as (_ & Hd & _). intros Hin. apply (Hd _ Hin). set_solver. }
  pose proof (def_locals_nonneg d).
  destruct (abs_definitions_grows (e_ctx e) ds (abs_add_definition (e_ctx e) g (sec_name d) d)) as [Hgr _].
  rewrite (add_definition_fits g e d (sec_name d)); try done.
  2: { eapply sums_fit_mono; [exact Hgr | cbn; lia | exact Hfit]. }
  2: { change (sec_name d :: def_symbol_names d) with (def_names d). lia. }
  destruct (add_definition_repr (E:=E) g e d (sec_name d) Hr Hsn Hnew) as (e1 & E1 & Hc & Hr1).
  { lia. }
  { rewrite def_symbols_names. rewrite app_assoc in Hn2. by apply NoDup_app in Hn2 as (? & _). }
  apply add_definition_strings in E1 as Hst; [|done]. rewrite E1. cbn [obind].
  apply (IH (abs_add_definition (e_ctx e) g (sec_name d) d)); try done.
  - intros d' Hd'. apply Hz. set_solver.
  - cbn. rewrite fmap_app. cbn. by rewrite <- app_assoc.
  - cbn. rewrite fmap_app, def_symbols_names. by rewrite <- app_assoc.
  - cbn [g_secs abs_add_definition]. rewrite zlen_app. change (zlen [_]) with 1. lia.
  - cbn. lia.
  - by rewrite Hc.
  - by rewrite Hst.
Qed.

(** ** Imports *)
Lemma imports_fits ims : ∀ e,
  strings_ok e → strtab_len (intern_all ims.*1 (si_strings (e_strings e))) < 2 ^ 64 →
  ofold (E:=E) (fun e '(i, k) => elf_import_ck e i k) e ims =
  ofold (fun e '(i, k) => Ok (elf_import e i k)) e ims.
Proof.
  induction ims as [|[n k] ims IH]; intros e Hok Hlt; cbn [ofold]; [done|]. cbn in Hlt.
  pose proof (strtab_len_intern_all ims.*1 (intern n (si_strings (e_strings e)))).
  pose proof (new_string_strings_ok e n Hok) as Hok1. pose proof (elf_import_strings e n k) as Hs.
  assert (elf_import_ck (E:=E) e n k = Ok (elf_import e n k)) as ->.
  { unfold elf_import_ck, elf_import. rewrite new_string_fits by (done || (unfold intern_all in *; lia)).
    cbn [obind]. by destruct (new_string e n) as [[e1 i] o]. }
  cbn [obind]. apply IH; [|by rewrite Hs]. unfold elf_import, strings_ok.
  by destruct (new_string e n) as [[e1 i] o].
Qed.

(** ** Links *)
Lemma link_end_fits g e b m1 m2 :
  repr g e → zlen (g_secs g) + 4 < 2 ^ 32 → zlen (g_syms g) < 2 ^ 32 →
  link_end_ck (E:=E) e b m1 m2 = link_end e b m1 m2.
Proof.
  intros Hr Hl1 Hl2. unfold link_end_ck, link_end.
  pose proof (special_len _ _ Hr) as Hsp. pose proof (re_secs_len _ _ Hr) as Hsl.
  pose proof (Forall2_length _ _ _ (re_syms _ _ Hr)) as Hyl. pose proof (zlen_nonneg (g_secs g)).
  destruct (si_get_or_intern _ _) as [t i].
  cbn [e_special_symbols e_sections e_symbols set_strtab]. rewrite Hsp.
  destruct (is_section _).
  - rewrite im_get_full_spec. destruct (index_of i (im_iter (e_sections e)).*1) as [j|] eqn:Ej; [|done].
    destruct (al_get _ i); [|done]. cbn [expect obind].
    apply index_of_Some_get, zget_range in Ej. unfold zlen in *. rewrite length_fmap in Ej.
    by rewrite !add_exact by (unfold in_u; lia).
  - rewrite im_get_full_spec. destruct (index_of i (im_iter (e_symbols e)).*1) as [j|] eqn:Ej; [|done].
    destruct (al_get _ i); [|done]. cbn [expect obind].
    apply index_of_Some_get, zget_range in Ej. rewrite im_len_spec. unfold zlen in *.
    rewrite length_fmap in Ej. rewrite add_fits by (unfold in_u; lia). cbn [obind].
    by rewrite add_exact by (unfold in_u; lia).
Qed.

Lemma reloc_count_elem g r : r ∈ g_rels g → zlen r.2 ≤ reloc_count g.
Proof.
  unfold reloc_count. induction (g_rels g) as [|x l IH]; [by intros ?%elem_of_nil|].
  pose proof (zsum_nonneg (fun r : Z * list ElfReloc => zlen r.2) l (fun r => zlen_nonneg _)).
  pose proof (zlen_nonneg x.2). cbn. intros [->|H']%elem_of_cons; [lia|]. specialize (IH H'). lia.
Qed.

Lemma reloc_count_add g sh r : reloc_count (abs_add_reloc g sh r) = reloc_count g + 1.
Proof.
  unfold reloc_count, abs_add_reloc. cbn. destruct (al_get (g_rels g) sh) as [v|] eqn:Eg.
  - revert Eg. induction (g_rels g) as [|[k rs] l IH]; cbn; [done|].
    case_decide; cbn; [|intros Hv; specialize (IH Hv); lia]. intros _.
    rewrite zlen_app. change (zlen [r]) with 1. lia.
  - rewrite fmap_app, zsum_app. cbn. change (zlen [r]) with 1. lia.
Qed.

Lemma abs_add_reloc_grows g sh r : grows g (abs_add_reloc g sh r).
Proof.
  split; try (cbn; lia); [|rewrite reloc_count_add; lia].
  unfold abs_add_reloc. cbn. destruct (al_get (g_rels g) sh).
  - unfold zlen. rewrite <- (length_fmap fst (al_modify _ _ _)), al_modify_keys, length_fmap. lia.
  - rewrite zlen_app. pose proof (zlen_nonneg [(sh, [r])]). lia.
Qed.

Lemma abs_link_adds ctx g l g' :
  abs_link (E:=E) ctx g l = Ok g' → ∃ sh r, g' = abs_add_reloc g sh r.
Proof.
  unfold abs_link. destruct (abs_link_end g (l_to l)) as [[ti ts]|]; cbn; [|done].
  destruct (abs_link_end g (l_from l)) as [[fi fs]|]; cbn; [|done].
  destruct (link_reloc ctx l) as [[r a]| |]; cbn; [|done..]. intros [= <-]. eauto.
Qed.

Lemma abs_links_grow ctx ls : ∀ g g',
  ofold (abs_link (E:=E) ctx) g ls = Ok g' →
  grows g g' ∧ g_secs g' = g_secs g ∧ ∃ k, (g_rels g').*1 = (g_rels g).*1 ++ k.
Proof.
  induction ls as [|l ls IH]; intros g g'; cbn [ofold].
  { intros [= <-]. split; [done|]. split; [done|]. exists []. by rewrite app_nil_r. }
  destruct (abs_link ctx g l) as [g1| |] eqn:E1; cbn [obind]; [|done..].
  intros (Hgr & Hs & k & Hk)%IH. apply abs_link_adds in E1 as (sh & r & ->).
  split; [etrans; [apply abs_add_reloc_grows | exact Hgr]|]. split; [done|]. rewrite Hk. cbn [abs_add_reloc g_rels].
  destruct (al_get (g_rels g) sh); [rewrite al_modify_keys; by exists k|].
  exists ([sh] ++ k). by rewrite fmap_app, <- app_assoc.
Qed.

Lemma add_reloc_fits g e r sh :
  repr g e → 3 ≤ sh < 3 + zlen (g_secs g) → sums_fit (e_ctx e) (abs_add_reloc g sh r) →
  strtab_len (reloc_strings g sh (si_strings (e_strings e))) < 2 ^ 64 →
  add_reloc_ck (E:=E) e r sh = add_reloc e r sh.
Proof.
  intros Hr Hsh Hfit Hlt. unfold add_reloc_ck, add_reloc. rewrite im_get_spec.
  pose proof (rela_keys _ _ _ _ _ (re_rels _ _ Hr)) as Hkeys. unfold reloc_strings in Hlt.
  assert (1 ≤ reloc_size true (e_ctx e)) by (rewrite reloc_size_spec; destruct (container _); lia).
  destruct (al_get (im_iter (e_relocations e)) sh) as [[h rs]|] eqn:Eg.
  - apply al_get_elem, list_elem_of_lookup in Eg as [i Hi].
    destruct (Forall2_lookup_r _ _ _ _ _ (re_rels _ _ Hr) Hi) as ([k rs'] & Hg & E1 & E2 & s & k' & off & _ & _ & Eh).
    cbn in E1, E2, Eh. subst. apply list_elem_of_lookup_2, reloc_count_elem in Hg. cbn [snd] in Hg.
    pose proof (sf_relocs _ _ Hfit) as Hs. rewrite reloc_count_add in Hs. pose proof (zlen_nonneg rs').
    cbn [sh_size sh_entsize rela_header].
    rewrite (wrap_small 64 (zlen rs' * _)), add_exact by (unfold in_u; nia). done.
  - assert (sh ∉ (g_rels g).*1) as Hk by (rewrite Hkeys; by apply al_get_None).
    apply al_get_None in Hk as Hk'. rewrite Hk' in Hlt.
    destruct (zget_in_range (g_secs g) (sh - 3)) as [s Hs]; [lia|].
    destruct (zget_in_range (im_iter (e_sections e)) (sh - 3)) as [p Hp].
    { rewrite (re_secs_len _ _ Hr). lia. }
    destruct (re_secs _ _ Hr _ _ _ Hs Hp) as (off & [Hz _] & Ep).
    destruct Hfit as [Hlen _ _ _]. unfold abs_add_reloc in Hlen. rewrite Hk' in Hlen.
    cbn [g_secs g_rels] in Hlen. rewrite zlen_app in Hlen. change (zlen [_]) with 1 in Hlen.
    pose proof (zlen_nonneg (g_rels g)). rewrite sub_exact by (unfold in_u; lia). cbn [obind].
    rewrite wrap_small by (unfold in_u; lia). rewrite im_get_index_spec, Hp. cbn [obind expect].
    destruct p as [pk info]. cbn in Ep, Hz. rewrite si_resolve_spec, Ep. cbn [si_name]. rewrite Hz.
    cbn [obind expect]. unfold rela_name in Hlt. rewrite Hs in Hlt.
    rewrite (new_string_fits e _ (re_strtab _ _ Hr) Hlt). cbn [obind].
    destruct (new_string_repr g e (".rela" +:+ as_name s) Hr) as (t & o & sz & k & off' & -> & _ & _).
    change (e_nsections (set_relocations _ _)) with (e_nsections e). rewrite (re_nsections _ _ Hr).
    rewrite (wrap_small 32 (4 + _ + _)) by (unfold in_u; lia). by rewrite add_exact by (unfold in_u; lia).
Qed.

Lemma elf_link_fits g e l g' e' :
  repr g e → Forall (sym_placed g) (g_syms g) →
  (∀ b, b = l_to l ∨ b = l_from l → ∀ d, b_decl b = Defined d →
     ∀ sb, al_get (g_syms g) (b_name b) = Some sb → sb_typ sb ≠ ST_Import) →
  (∃ d, b_decl (l_from l) = Defined d) →
  zlen (g_secs g) + 4 < 2 ^ 32 → zlen (g_syms g) < 2 ^ 32 →
  abs_link (E:=E) (e_ctx e) g l = Ok g' → sums_fit (e_ctx e) g' →
  elf_link (E:=E) e l = Ok e' → strtab_len (si_strings (e_strings e')) < 2 ^ 64 →
  elf_link_ck (E:=E) e l = Ok e'.
Proof.
  intros Hr Hpl Hdef [fd Hfd] Hl1 Hl2. unfold abs_link, elf_link, elf_link_ck.
  destruct (abs_link_end g (l_to l)) as [[ti tsh]|] eqn:Et; [|done].
  destruct (abs_link_end g (l_from l)) as [[fi fsh]|] eqn:Ef; [|done]. cbn [expect obind].
  rewrite (link_end_fits g) by done.
  destruct (link_end_repr (E:=E) g e (l_to l) "to_idx present in sections"
    "to_idx present in symbols" ti tsh Hr Et Hl1 Hl2) as (t1 & -> & Hs1 & Hr1).
  cbn [obind]. rewrite (link_end_fits g) by done.
  destruct (link_end_repr (E:=E) g _ (l_from l) "from_idx present in sections"
    "from_idx present in symbols" fi fsh Hr1 Ef Hl1 Hl2) as (t2 & -> & Hs2 & Hr2).
  cbn [obind]. cbn [e_ctx set_strtab e_special_symbols].
  destruct (link_reloc (e_ctx e) l) as [[reloc addend]| |]; [|done..]. cbn [obind].
  intros [= <-] Hfit.
  assert (3 ≤ fsh < 3 + zlen (g_secs g)) as Hfsh.
  { destruct (link_end_placed _ _ _ _ Hpl Ef) as [|(sb & Hsb & Hi)]; [done|].
    exfalso. by eapply (Hdef (l_from l)); eauto. }
  rewrite (special_len _ _ Hr). set (e2 := set_strtab t2 _ _ _) in *.
  assert (∃ sym, match b_decl (l_to l) with
      | Defined _ => u64 (u64 (tsh - 3) + 2) | Import _ => ti end = sym ∧
    match b_decl (l_to l) with
      | Import _ => Ok ti
      | Defined _ => let! i := sub_ck (E:=E) 64 tsh 3 in add_ck 64 i 2 end = Ok sym ∧
    sym = match b_decl (l_to l) with Defined _ => tsh - 1 | Import _ => ti end) as (sym & -> & -> & Es).
  { destruct (b_decl (l_to l)) as [ik|td] eqn:Etd; [by exists ti|].
    destruct (link_end_placed _ _ _ _ Hpl Et) as [Htsh|(sb & Hsb & Hi)].
    - exists (tsh - 1). rewrite wrap_add_l, wrap_small by (unfold in_u; lia).
      rewrite sub_fits by (unfold in_u; lia). cbn [obind]. rewrite add_fits by (unfold in_u; lia).
      split; [lia|]. split; [f_equal; lia | done].
    - exfalso. by eapply (Hdef (l_to l)); eauto. }
  cbn [obind]. match goal with |- context [RelocationBuilder_create ?rb] =>
    assert (RelocationBuilder_create rb = abs_reloc l ti tsh reloc addend) as ->
      by (unfold abs_reloc, RelocationBuilder_create; cbn; by rewrite Es) end.
  destruct (add_reloc_repr (E:=E) g e2 (abs_reloc l ti tsh reloc addend) addend fsh Hr2)
    as (e3 & E3 & _ & _ & Hst); [done..|].
  rewrite E3. intros [= <-] Hlt. rewrite (add_reloc_fits g); try done. by rewrite <- Hst.
Qed.

Lemma links_fits c ctx base ls : ∀ g e g',
  contents_wf c → elf_ready ctx (e_name e) c → e_ctx e = ctx →
  (∀ l, l ∈ ls → l ∈ c_links c) → obj_inv c g → repr g e →
  si_strings (e_strings e) = intern_all (rela_name g <$> (g_rels g).*1) base →
  ofold (abs_link (E:=E) ctx) g ls = Ok g' → sums_fit ctx g' → 0 ≤ g_locals g →
  strtab_len (intern_all (rela_name g' <$> (g_rels g').*1) base) < 2 ^ 64 →
  ofold (elf_link_ck (E:=E)) e ls = ofold elf_link e ls.
Proof.
  induction ls as [|l ls IH]; intros g e g' Hc Hrd Hctx Hsub Hi Hr Hst Hg' Hfit Hloc Hlt; [done|].
  assert (l ∈ c_links c) as Hl by (apply Hsub; set_solver).
  assert (∀ l', l' ∈ ls → l' ∈ c_links c) as Hsub' by (intros l' Hl'; apply Hsub; set_solver).
  destruct (obj_inv_few ctx (e_name e) c g Hrd Hi) as [Hfew1 Hfew2].
  cbn [ofold] in Hg' |- *.
  destruct (abs_link ctx g l) as [g1| |] eqn:Hg1; cbn [obind] in Hg'; [|done..].
  destruct (elf_link_repr (E:=E) g e l g1 Hr (oi_placed _ _ Hi) (link_ends_defined c g l Hc Hi Hl)
    (cw_from_defined _ Hc _ Hl) Hfew1 Hfew2) as (e1 & sh & r & He1 & Hc1 & Hr1 & Hg & Hra & Hst1); [by rewrite Hctx|].
  apply elf_link_const in He1 as Hk. injection Hk as Hn _ _.
  assert (obj_inv c g1) as Hi1 by (rewrite Hg; by apply abs_add_reloc_inv).
  assert (si_strings (e_strings e1) = intern_all (rela_name g1 <$> (g_rels g1).*1) base) as Hst1'.
  { rewrite Hst1, Hst, Hg. exact (abs_add_reloc_keys g sh r base). }
  assert (elf_ready ctx (e_name e1) c) as Hrd1 by by rewrite Hn.
  destruct (links_repr (E:=E) c ctx base ls g1 e1 Hc Hrd1 ltac:(congruence) Hsub' Hi1 Hr1 Hst1')
    as (g2 & e2 & Hg2 & He2 & _ & _ & _ & Hst2).
  assert (g2 = g') as -> by congruence.
  assert (0 ≤ g_locals g1) as Hloc1 by (rewrite Hg; done).
  destruct (abs_links_grow ctx ls g1 g' Hg') as (Hgr & Hsecs & k & Hkeys).
  rewrite (elf_link_fits g e l g1 e1 Hr (oi_placed _ _ Hi) (link_ends_defined c g l Hc Hi Hl)
    (cw_from_defined _ Hc _ Hl) Hfew1 Hfew2), He1; try done.
  - cbn [obind]. eapply (IH g1 e1 g'); try done. congruence.
  - by rewrite Hctx.
  - rewrite Hctx. eapply sums_fit_mono; [exact Hgr | done | done].
  - rewrite Hst1'. revert Hlt. rewrite Hkeys, fmap_app, intern_all_app.
    assert (rela_name g' = rela_name g1) as -> by (unfold rela_name; by rewrite Hsecs).
    pose proof (strtab_len_intern_all (rela_name g1 <$> k)
      (intern_all (rela_name g1 <$> (g_rels g1).*1) base)). lia.
Qed.

(** ** The whole object *)
Lemma Elf_new_fits a :
  a_name a ≠ ".strtab"%string → a_name a ≠ ".symtab"%string →
  strtab_len (intern_all [".strtab"; ".symtab"; a_name a]%string []) < 2 ^ 64 →
  Elf_new_ck (E:=E) a = Ok (Elf_new a).
Proof.
  intros H1 H2 Hlt.
  assert (intern_all [".strtab"; ".symtab"; a_name a]%string [] = [".strtab"; ".symtab"; a_name a]%string) as Es.
  { change (intern_all _ _) with (intern (a_name a) [".strtab"; ".symtab"]%string).
    unfold intern. rewrite decide_False; [done|].
    rewrite !elem_of_cons, elem_of_nil. naive_solver. }
  rewrite Es in Hlt. unfold strtab_len in Hlt. cbn [fmap list_fmap zsum foldr] in Hlt.
  change (str_len ".strtab") with 7 in Hlt. change (str_len ".symtab") with 7 in Hlt.
  pose proof (str_len_nonneg (a_name a)). unfold Elf_new_ck, Elf_new, push_strtab_ck, push_strtab.
  destruct (si_get_or_intern si_new _) as [t1 k1]. rewrite add_exact by done. cbn [obind].
  destruct (si_get_or_intern t1 _) as [t2 k2]. change (u64 (1 + _)) with 9.
  rewrite add_exact by done. cbn [obind].
  destruct (si_get_or_intern t2 _) as [t3 k3]. change (u64 (9 + _)) with 17.
  rewrite add_exact by (unfold in_u; cbn in Hlt; lia). done.
Qed.

(** The sums of the finished object bound those of its definitions. *)
Lemma object_sums_fit ctx c g :
  abs_object (E:=E) ctx c = Ok g → sums_fit ctx g →
  0 ≤ g_locals (abs_definitions ctx (c_defs c) abs_empty) ∧
  sums_fit ctx (abs_definitions ctx (c_defs c) abs_empty).
Proof.
  intros Hg Hfit. destruct (abs_links_grow ctx _ _ _ Hg) as (Hgr & _).
  destruct (abs_definitions_grows ctx (c_defs c) abs_empty) as [_ Hloc].
  split; [by apply Hloc|]. rewrite abs_imports_spec in Hgr.
  eapply sums_fit_mono; [|by apply Hloc | exact Hfit]. by destruct Hgr.
Qed.

Lemma build_fits a g :
  wf a → contents_wf (contents a) → elf_ready (make_ctx (a_target a)) (a_name a) (contents a) →
  abs_object (E:=E) (make_ctx (a_target a)) (contents a) = Ok g →
  sums_fit (make_ctx (a_target a)) g →
  strtab_len (object_strings (a_name a) (contents a) g) < 2 ^ 64 →
  build_ck (E:=E) a = build a.
Proof.
  intros Hwf Hc Hrd Hg Hfit Hlt. destruct (er_name _ _ _ Hrd) as [Hn1 Hn2].
  destruct (Elf_new_repr a Hn1 Hn2) as [Hr0 Hctx].
  unfold object_strings in Hlt. rewrite !intern_all_app, <- Elf_new_strings in Hlt.
  set (ctx := make_ctx (a_target a)) in *. set (c := contents a) in *.
  set (s0 := si_strings (e_strings (Elf_new a))) in *.
  set (s1 := intern_all (concat (def_names <$> c_defs c)) s0) in *.
  set (s2 := intern_all (c_imports c).*1 s1) in *.
  pose proof (strtab_len_intern_all (concat (def_names <$> c_defs c)) s0) as Hm0.
  pose proof (strtab_len_intern_all (c_imports c).*1 s1) as Hm1.
  pose proof (strtab_len_intern_all (rela_name g <$> (g_rels g).*1) s2) as Hm2.
  fold s1 in Hm0. fold s2 in Hm1.
  pose proof (Elf_new_const a : elf_const _ = (_, ctx, _)) as Hk0.
  pose proof (er_symbols _ _ _ Hrd) as Hsy. unfold symbol_names in Hsy.
  assert (NoDup (concat (def_symbol_names <$> c_defs c))) as Hsy1 by (by apply NoDup_app in Hsy as (? & _)).
  destruct (object_sums_fit ctx c g Hg Hfit) as [Hloc Hfit1].
  unfold build_ck, build. rewrite Elf_new_fits by (done || (rewrite <- Elf_new_strings; fold s0; lia)).
  cbn [obind]. rewrite definitions_contents, !ofold_fmap_Ok by done. fold c.
  rewrite (definitions_fits (c_defs c) abs_empty) by
    (done || apply (cw_zero_init _ Hc) || apply (er_sections _ _ _ Hrd) ||
     apply (er_few_sections _ _ _ Hrd) || (by rewrite Hctx) || (fold s0; fold s1; lia)).
  destruct (definitions_repr (E:=E) (c_defs c) abs_empty (Elf_new a) Hr0)
    as (e1 & -> & Hk1 & Hr1 & Hst1); [apply (cw_zero_init _ Hc) | apply (er_sections _ _ _ Hrd) | done |
      apply (er_few_sections _ _ _ Hrd) |].
  rewrite Hctx in Hr1. fold s0 in Hst1. fold s1 in Hst1. cbn [obind]. rewrite imports_contents by done. fold c.
  rewrite (ofold_fmap_Ok (E:=E) (fun e '(i, k) => elf_import_ck e i k)),
    (ofold_fmap_Ok (E:=E) (fun e '(i, k) => Ok (elf_import e i k))).
  rewrite imports_fits by (apply Hr1 || (rewrite Hst1; fold s2; lia)).
  destruct (imports_repr (E:=E) (c_imports c) _ e1 Hr1) as (e2 & -> & Hk2 & Hr2 & Hst2).
  { destruct (abs_definitions_spec ctx (c_defs c) abs_empty) as (_ & -> & _). exact Hsy. }
  cbn [obind]. rewrite links_contents, !ofold_fmap_Ok by done. fold c.
  assert (elf_const e2 = (a_name a, ctx, architecture (a_target a))) as Hk2' by congruence.
  injection Hk2' as Hnm Hcx _. rewrite Hst1 in Hst2. fold s2 in Hst2.
  eapply (links_fits c ctx s2 (c_links c)); try done.
  - by rewrite Hnm.
  - apply abs_symbols_inv.
  - rewrite abs_imports_spec. cbn [g_rels]. by rewrite abs_definitions_rels.
  - by rewrite abs_imports_spec.
Qed.

(** ** Writing the object *)
Lemma align_fits x k :
  0 < k < 2 ^ 64 → 0 ≤ x → round_up x k < 2 ^ 64 → align_ck (E:=E) x k = Ok (round_up x k).
Proof.
  intros Hk Hx Hlt. unfold align_ck, round_up in *. pose proof (Z.mod_pos_bound x k).
  destruct (Z.eqb_spec (x mod k) 0) as [E0|E0]; cbn [negb].
  - rewrite Z.mod_opp_l_z by lia. f_equal. lia.
  - rewrite Z.mod_opp_l_nz in * by lia. rewrite sub_fits by (unfold in_u; lia). cbn [obind].
    apply add_fits. unfold in_u. lia.
Qed.

Lemma layout_fits g e strs shn note :
  repr g e → strs = si_strings (e_strings e) → file_len (e_ctx e) strs g < 2 ^ 64 →
  layout_ck (E:=E) e (symbol_count g) (symbol_count g * sym_size (container (e_ctx e)))
    (needs_shndx g) (size_shndx g) shn (reloc_count g * reloc_size true (e_ctx e)) note =
  Ok (layout (e_ctx e) strs g note shn).
Proof.
  intros Hr -> Hlt. unfold layout_ck, layout.
  pose proof (offsets_ordered (e_ctx e) (si_strings (e_strings e)) g) as
    (Hw & Ha & H0 & H1 & H2 & H3 & H4 & H5 & H6 & H7 & H8 & H9 & H10).
  unfold file_len in Hlt. set (strs := si_strings (e_strings e)) in *. set (ctx := e_ctx e) in *.
  rewrite (re_bits _ _ Hr), (so_size _ _ _ (re_strtab _ _ Hr)). fold strs ctx.
  change (header_size ctx + zsum (zlen <$> g_code g)) with (off_strtab ctx g).
  rewrite !wrap_small by (unfold in_u; lia). rewrite add_fits by (unfold in_u; lia). cbn [obind].
  rewrite align_fits by (try lia; change (round_up _ _) with (off_symtab ctx strs g); lia). cbn [obind].
  change (round_up (off_strtab ctx g + strtab_len strs) _) with (off_symtab ctx strs g).
  rewrite add_fits by (unfold in_u; lia). cbn [obind]. rewrite H4.
  assert ((if needs_shndx g then align_ck (E:=E) (end_symtab ctx strs g) 4 else Ok (end_symtab ctx strs g))
          = Ok (off_shndx ctx strs g)) as ->.
  { unfold off_shndx in *. destruct (needs_shndx g); [|done]. apply align_fits; lia. }
  cbn [obind]. rewrite add_fits by (unfold in_u; lia). cbn [obind].
  rewrite align_fits by (try lia; change (round_up _ _) with (off_reloc ctx strs g); lia). cbn [obind].
  change (round_up (off_shndx ctx strs g + size_shndx g) _) with (off_reloc ctx strs g).
  rewrite add_fits by (unfold in_u; lia). cbn [obind].
  rewrite align_fits by (try lia; change (round_up _ _) with (off_sh ctx strs g); lia). done.
Qed.

Lemma reloc_total_fits ctx strs secs l m : ∀ acc,
  Forall2 (rela_repr ctx strs secs) l m →
  0 ≤ acc → acc + zsum ((fun r => zlen r.2) <$> l) < 2 ^ 64 →
  ofold (E:=E) (fun acc '(_, (_, rels)) => add_ck 64 (zlen rels) acc) acc m =
  Ok (acc + zsum ((fun r => zlen r.2) <$> l)).
Proof.
  intros acc HF. revert acc.
  induction HF as [|r [k [h rs]] l m (_ & E1 & _) _ IH]; intros acc H0 Hlt; cbn in *; [f_equal; lia|].
  subst rs. pose proof (zlen_nonneg r.2).
  pose proof (zsum_nonneg (fun r : Z * list ElfReloc => zlen r.2) l (fun r => zlen_nonneg _)).
  rewrite add_fits by (unfold in_u; lia). cbn [obind]. rewrite IH by lia. f_equal. lia.
Qed.

Lemma sizeof_relocs_fits g e :
  repr g e → reloc_count g * reloc_size true (e_ctx e) < 2 ^ 64 →
  sizeof_relocs_ck (E:=E) e = Ok (reloc_count g * reloc_size true (e_ctx e)).
Proof.
  intros Hr Hlt. unfold sizeof_relocs_ck. pose proof (offsets_ordered (e_ctx e) [] g) as Ho.
  rewrite (reloc_total_fits _ _ _ _ _ 0 (re_rels _ _ Hr)) by (change (zsum _) with (reloc_count g); lia).
  cbn [obind]. rewrite Z.add_0_l. change (zsum _) with (reloc_count g).
  apply mul_fits. unfold in_u. lia.
Qed.

Lemma symtab_shndx_fits g e :
  repr g e → header_count g < 2 ^ 32 → size_shndx g < 2 ^ 64 →
  strtab_len (final_strings g (si_strings (e_strings e))) < 2 ^ 64 →
  ∃ n e1 shn, symtab_shndx_ck (E:=E) e (symbol_count g) =
      Ok (set_nsections n e1, size_shndx g, shn, needs_shndx g) ∧
    repr g e1 ∧ e_ctx e1 = e_ctx e ∧
    final_strings g (si_strings (e_strings e)) =
      intern ".note.GNU-stack" (si_strings (e_strings e1)).
Proof.
  intros Hr Hc Hsz Hlt. unfold symtab_shndx_ck, size_shndx, final_strings in *.
  pose proof (zlen_nonneg (g_secs g)). pose proof (zlen_nonneg (g_rels g)). pose proof (zlen_nonneg (g_syms g)).
  assert (e_nsections e = 4 + zlen (g_secs g) + zlen (g_rels g)) as Hns.
  { rewrite (re_nsections _ _ Hr). apply wrap_small. unfold in_u, header_count in *.
    destruct (needs_shndx g); lia. }
  assert ((SHN_LORESERVE <=? e_nsections e) = needs_shndx g) as -> by by rewrite Hns.
  unfold header_count in Hc. destruct (needs_shndx g).
  - rewrite add_fits by (unfold in_u; lia). cbn [obind].
    assert (0 ≤ symbol_count g) by (unfold symbol_count; lia).
    rewrite mul_fits by (unfold in_u; lia). cbn [obind].
    pose proof (strtab_len_intern ".note.GNU-stack" (intern ".symtab_shndx" (si_strings (e_strings e)))).
    rewrite new_string_fits by (apply Hr || (change (e_strings (set_nsections _ e)) with (e_strings e); lia)).
    rewrite new_string_nsections. cbn [obind].
    pose proof (new_string_strings e ".symtab_shndx") as Es1.
    destruct (new_string_repr g e ".symtab_shndx" Hr) as (t1 & o1 & s1 & k1 & f1 & E1 & Hr1 & _).
    rewrite E1 in *. cbn [fst snd] in *. eexists _, _, f1. split; [done|]. split; [done|].
    split; [done|]. by rewrite Es1.
  - exists (e_nsections e), e, 0. by destruct e.
Qed.

Lemma compute_offsets_fits g e :
  repr g e → header_count g < 2 ^ 32 →
  file_len (e_ctx e) (final_strings g (si_strings (e_strings e))) g < 2 ^ 64 →
  compute_offsets_ck (E:=E) e = Ok (compute_offsets e).
Proof.
  intros Hr Hc Hlt. follows_to (compute_offsets_follows _).
  pose proof (zlen_nonneg (g_secs g)). pose proof (zlen_nonneg (g_syms g)).
  pose proof (offsets_ordered (e_ctx e) (final_strings g (si_strings (e_strings e))) g) as Ho.
  unfold compute_offsets_ck. pose proof (Forall2_length _ _ _ (re_syms _ _ Hr)) as Hsy.
  assert (im_len (e_symbols e) = zlen (g_syms g)) as -> by (rewrite im_len_spec; unfold zlen; lia).
  rewrite im_len_spec, (special_len _ _ Hr), (re_secs_len _ _ Hr).
  assert (zlen (g_syms g) + 2 + zlen (g_secs g) = symbol_count g) as Hsc by (unfold symbol_count; lia).
  unfold file_len in Hlt. rewrite add_fits by (unfold in_u; lia). cbn [obind].
  rewrite add_fits by (unfold in_u; lia). cbn [obind]. rewrite Hsc.
  rewrite mul_fits by (unfold in_u; lia). cbn [obind].
  destruct (symtab_shndx_fits g e Hr Hc ltac:(lia) ltac:(lia)) as (n & e2 & shn & -> & Hr2 & Hc2 & Hfs).
  cbn [obind]. change (sizeof_relocs_ck (set_nsections n e2)) with (sizeof_relocs_ck (E:=E) e2).
  rewrite (sizeof_relocs_fits g e2 Hr2) by (rewrite Hc2; lia). cbn [obind].
  rewrite new_string_fits by (apply Hr2 || (change (e_strings (set_nsections _ e2)) with (e_strings e2); rewrite <- Hfs; lia)).
  cbn [obind]. rewrite new_string_nsections.
  pose proof (new_string_strings e2 ".note.GNU-stack") as Es2.
  destruct (new_string_repr g e2 ".note.GNU-stack" Hr2) as (t2 & o2 & s2 & k2 & f2 & E2 & Hr3 & _).
  rewrite E2 in *. cbn [fst snd] in *. rewrite <- Hfs in Es2.
  change (layout_ck (set_nsections n (set_strtab t2 o2 s2 e2))) with (layout_ck (E:=E) (set_strtab t2 o2 s2 e2)).
  rewrite <- Hc2. change (e_ctx e2) with (e_ctx (set_strtab t2 o2 s2 e2)).
  erewrite layout_fits; [by eexists | exact Hr3 | exact (eq_sym Es2) |].
  change (e_ctx (set_strtab t2 o2 s2 e2)) with (e_ctx e2). rewrite Hc2. exact Hlt.
Qed.

Lemma assert_position_fits c v k x msg :
  cur_is c v → 0 < k < 2 ^ 64 → round_up (zlen v) k < 2 ^ 64 →
  assert_position_ck (E:=E) c k x msg = assert_ (round_up (zlen v) k =? x) msg.
Proof.
  intros Hc Hk Hlt. unfold assert_position_ck. pose proof (zlen_nonneg v).
  rewrite (cur_is_position _ _ Hc), align_fits by done. done.
Qed.

Lemma init_sections_fits g e n lo :
  repr g e → 0 ≤ g_locals g → 2 + zlen (g_secs g) + g_locals g < 2 ^ 64 →
  init_sections_ck (E:=E) (set_nsections n e) lo = init_sections (set_nsections n e) lo.
Proof.
  intros Hr H0 Hlt. unfold init_sections_ck, init_sections. pose proof (zlen_nonneg (g_secs g)).
  destruct (expect _ _); [|done..]. cbn [obind]. destruct (expect _ _); [|done..]. cbn [obind].
  cbn [e_special_symbols e_sections e_nlocals set_nsections].
  rewrite im_len_spec, (special_len _ _ Hr), (re_secs_len _ _ Hr), (re_nlocals _ _ Hr).
  rewrite (wrap_small 64 (g_locals g)) by (unfold in_u; lia).
  rewrite add_fits by (unfold in_u; lia). cbn [obind]. by rewrite add_exact by (unfold in_u; lia).
Qed.

Lemma write_symtab_fits g e strs note shn c v hs :
  repr g e → strs = si_strings (e_strings e) → file_len (e_ctx e) strs g < 2 ^ 64 →
  cur_is c v → zlen v = off_strtab (e_ctx e) g + strtab_len strs →
  let lo := layout (e_ctx e) strs g note shn in
  write_symtab_ck (E:=E) e lo c hs = write_symtab e lo c hs.
Proof.
  intros Hr Hstrs Hlt Hc Hv lo. follows_to (write_symtab_follows _ _ _ _).
  pose proof (offsets_ordered (e_ctx e) strs g) as Ho. unfold file_len in Hlt.
  assert (strtab_fits strs) as Hfit by (unfold strtab_fits; lia).
  unfold write_symtab_ck, lo. cbn [layout lo_need_shndx lo_symbol_count lo_symtab lo_shndx].
  apply (cur_is_seek (off_symtab (e_ctx e) strs g)) in Hc; [|lia].
  fold (pad_to (off_symtab (e_ctx e) strs g) v) in Hc.
  assert ((if needs_shndx g then let! len := mul_ck (E:=E) 64 (symbol_count g) 4 in
      Ok (replicate (Z.to_nat len) x00) else Ok []) =
    Ok (if needs_shndx g then replicate (Z.to_nat (symbol_count g * 4)) x00 else [])) as ->.
  { unfold size_shndx in Ho. destruct (needs_shndx g); [|done].
    rewrite mul_fits by (unfold in_u; lia). done. }
  cbn [obind]. destruct (write_symbols_loops (E:=E) g e strs _ _ Hr Hstrs Hfit Hc) as (c3 & -> & Hc3).
  cbn [obind]. destruct (needs_shndx g) eqn:En; [|eauto].
  assert (off_shndx (e_ctx e) strs g = round_up (end_symtab (e_ctx e) strs g) 4) as Eoff
    by (unfold off_shndx; by rewrite En).
  assert (zlen (pad_to (off_symtab (e_ctx e) strs g) v ++ symtab_bytes (e_ctx e) strs (e_name e) g) =
    end_symtab (e_ctx e) strs g) as Hv1.
  { rewrite zlen_app, pad_to_len, symtab_bytes_len by lia. lia. }
  rewrite (assert_position_fits _ _ _ _ _ Hc3) by (rewrite ?Hv1, <- ?Eoff; lia).
  rewrite Hv1, <- Eoff, Z.eqb_refl. cbn [assert_ obind]. eauto.
Qed.

Lemma write_relocs_fit e strs g l m : ∀ c off hs,
  Forall2 (rela_repr (e_ctx e) strs (g_secs g)) l m →
  0 ≤ off → off + zsum ((fun r => zlen r.2) <$> l) * reloc_size true (e_ctx e) < 2 ^ 64 →
  ∃ st, ofold (write_reloc_section_ck (E:=E) e) (c, off, hs) m = Ok st.
Proof.
  intros c off hs HF. revert c off hs.
  induction HF as [|[sh rs] [k [h rs']] l m (E1 & E2 & s & k' & o & Hs & Hn & Eh) _ IH];
    intros c off hs Hoff Hlt; cbn [ofold]; [eauto|].
  cbn in E1, E2, Eh. subst. cbn in Hlt. pose proof (zlen_nonneg rs).
  pose proof (zsum_nonneg (fun r : Z * list ElfReloc => zlen r.2) l (fun r => zlen_nonneg _)).
  assert (1 ≤ reloc_size true (e_ctx e)) by (rewrite reloc_size_spec; destruct (container _); lia).
  cbn [write_reloc_section_ck]. cbn [sh_size shdr_set_offset rela_header].
  rewrite (wrap_small 64 (zlen rs * _)) by (unfold in_u; nia).
  rewrite add_fits by (unfold in_u; nia). cbn [obind]. apply IH; nia.
Qed.

Lemma write_relocations_fits g e strs note shn c hs :
  repr g e → strs = si_strings (e_strings e) → file_len (e_ctx e) strs g < 2 ^ 64 →
  let lo := layout (e_ctx e) strs g note shn in
  write_relocations_ck (E:=E) e lo c hs = Ok (ElfWrite.write_relocations e lo c hs).
Proof.
  intros Hr -> Hlt lo. follows_to (write_relocations_follows _ _ _ _).
  pose proof (offsets_ordered (e_ctx e) (si_strings (e_strings e)) g) as Ho. unfold file_len in Hlt.
  unfold write_relocations_ck.
  destruct (write_relocs_fit e (si_strings (e_strings e)) g (g_rels g) (im_iter (e_relocations e))
    (seek_start (lo_reloc lo) c) (lo_reloc lo) hs (re_rels _ _ Hr)) as [[[c' o'] hs'] ->]; [| |cbn; eauto].
  - cbn. lia.
  - cbn [lo_reloc lo layout]. change (zsum _) with (reloc_count g). lia.
Qed.

Lemma write_after_symtab_fits g e machine strs note shn n c :
  repr g e → rels_addends g → strs = si_strings (e_strings e) →
  file_len (e_ctx e) strs g < 2 ^ 64 →
  cur_is c (image_shndx (e_ctx e) machine strs (e_name e) g) →
  let lo := layout (e_ctx e) strs g note shn in
  let hs := [null_header g; strtab_header (e_ctx e) strs g; symtab_header (e_ctx e) strs g] ++
     (section_header (e_ctx e) strs <$> g_secs g) ++
     (if needs_shndx g then [shndx_header (e_ctx e) strs g] else []) in
  write_after_symtab_ck (E:=E) (set_nsections n e) lo c hs =
  write_after_symtab (set_nsections n e) lo c hs.
Proof.
  intros Hr Hadd Hstrs Hlt Hc3 lo hs. unfold write_after_symtab_ck, write_after_symtab.
  pose proof (offsets_ordered (e_ctx e) strs g) as Ho. pose proof Hlt as Hlt'. unfold file_len in Hlt'.
  assert (strtab_fits strs) as Hfit by (unfold strtab_fits; lia).
  change (lo_reloc lo) with (off_reloc (e_ctx e) strs g). change (lo_sh lo) with (off_sh (e_ctx e) strs g).
  change (e_ctx (set_nsections n e)) with (e_ctx e).
  rewrite (assert_position_fits _ _ _ _ _ Hc3), (cur_is_position _ _ Hc3) by
    (rewrite ?image_shndx_len; change (round_up _ _) with (off_reloc (e_ctx e) strs g); lia).
  rewrite image_shndx_len, align_round_up by
    (try lia; change (round_up _ _) with (off_reloc (e_ctx e) strs g); lia).
  destruct (assert_ _ _); [|done..]. cbn [obind].
  change (write_relocations_ck (set_nsections n e)) with (write_relocations_ck (E:=E) e).
  change (write_relocations (set_nsections n e)) with (write_relocations e).
  assert (write_relocations_ck (E:=E) e lo c hs = Ok (write_relocations e lo c hs)) as ->
    by by apply write_relocations_fits.
  destruct (write_relocations_ok g e strs note shn c (image_shndx (e_ctx e) machine strs (e_name e) g) hs)
    as (c4 & E4 & Hc4); try done; [rewrite image_shndx_len; lia|].
  fold lo in E4. rewrite E4. cbn [obind]. change (_ ++ reloc_bytes _ _) with (image_reloc (e_ctx e) machine strs (e_name e) g) in Hc4.
  rewrite (assert_position_fits _ _ _ _ _ Hc4), (cur_is_position _ _ Hc4) by
    (rewrite ?image_reloc_len; change (round_up _ _) with (off_sh (e_ctx e) strs g); lia).
  rewrite image_reloc_len, align_round_up by
    (try lia; change (round_up _ _) with (off_sh (e_ctx e) strs g); lia).
  destruct (assert_ _ _); [|done..]. cbn [obind].
  unfold write_section_headers_ck, write_section_headers.
  match goal with |- context [zlen ?h * _] => assert (zlen h = header_count g) as -> end.
  { rewrite <- (object_headers_len (e_ctx e) strs g). unfold hs, object_headers.
    rewrite !zlen_app. change (zlen [_]) with 1. change (zlen [note_header _ _]) with 1. lia. }
  change (lo_sh lo) with (off_sh (e_ctx e) strs g). change (e_ctx (set_nsections n e)) with (e_ctx e).
  rewrite mul_fits, (wrap_small 64 (header_count g * _)) by (unfold in_u; lia). cbn [obind].
  by rewrite add_exact by (unfold in_u; lia).
Qed.

Lemma elf_write_fits g e machine :
  repr g e → rels_addends g → header_count g < 2 ^ 32 → 0 ≤ g_locals g ≤ zlen (g_secs g) →
  MachineTag_from (E:=E) (e_architecture e) = Ok machine →
  file_len (e_ctx e) (final_strings g (si_strings (e_strings e))) g < 2 ^ 64 →
  write_ck (E:=E) e = ElfWrite.write e.
Proof.
  intros Hr0 Hadd Hcount Hloc Hmach Hlt. unfold write_ck, ElfWrite.write, write_code.
  rewrite (compute_offsets_fits g) by done. cbn [obind].
  destruct (compute_offsets_ok g e Hr0 Hcount)
    as (t & o & s & k & note & k' & shn & Et & Hr & Hnote & Hshn & Hco).
  rewrite (Hco Hlt). clear Hco. set (strs := final_strings g (si_strings (e_strings e))) in *.
  change (e_ctx e) with (e_ctx (set_strtab t o s e)) in *.
  change (e_architecture e) with (e_architecture (set_strtab t o s e)) in Hmach.
  assert (strs = si_strings (e_strings (set_strtab t o s e))) as Hstrs by done.
  generalize dependent (set_strtab t o s e). clearbody strs. clear e Hr0 t o s Et.
  intros e Hmach Hlt Hr Hstrs.
  pose proof (offsets_ordered (e_ctx e) strs g) as Ho. pose proof Hlt as Hlt'. unfold file_len in Hlt'.
  unfold build_header. cbn [e_architecture set_nsections e_nsections e_ctx e_code].
  rewrite Hmach, needs_shndx_count. cbn [obind lo_sh layout].
  change (mkHeader _ _ _ _ _) with (file_header (e_ctx e) machine strs g).
  destruct (assert_ _ _); [|done..]. cbn [obind].
  destruct (write_code_ok g e (e_ctx e) machine strs Hr eq_refl) as [Hc1 Hl1].
  destruct (assert_ _ _); [|done..]. cbn [obind].
  assert (strtab_fits strs) as Hfit by (unfold strtab_fits; lia).
  rewrite (init_sections_fits g) by
    (done || (pose proof (zlen_nonneg (g_rels g)); unfold header_count in Hcount; destruct (needs_shndx g); lia)).
  rewrite (init_sections_ok g e strs note shn Hr Hstrs Hfit), needs_shndx_count. cbn [obind].
  fold (null_header g). apply (write_strtab_image g e (e_ctx e) machine strs _ Hr eq_refl Hstrs) in Hc1.
  change (write_strtab (set_nsections _ e)) with (write_strtab e). cbn [lo_symtab lo_strtab layout].
  rewrite (assert_position_fits _ _ _ _ _ Hc1), (cur_is_position _ _ Hc1) by
    (rewrite ?image_strtab_len; change (round_up _ _) with (off_symtab (e_ctx e) strs g); lia).
  rewrite image_strtab_len, align_round_up by
    (try lia; change (round_up _ _) with (off_symtab (e_ctx e) strs g); lia).
  destruct (assert_ _ _); [|done..]. cbn [obind].
  change (write_symtab_ck (set_nsections _ e)) with (write_symtab_ck (E:=E) e).
  change (write_symtab (set_nsections _ e)) with (write_symtab (E:=E) e).
  rewrite (write_symtab_fits g e strs note shn _ _ _ Hr Hstrs Hlt Hc1 (image_strtab_len _ _ _ _)).
  destruct (write_symtab_ok (E:=E) g e strs note shn k' _ _
    [null_header g; strtab_header (e_ctx e) strs g; symtab_header (e_ctx e) strs g]
    Hr Hstrs Hlt Hshn Hc1 (image_strtab_len _ _ _ _)) as (c3 & -> & Hc3).
  cbn [obind]. change (if needs_shndx g then _ else _) with (image_shndx (e_ctx e) machine strs (e_name e) g) in Hc3.
  by apply (write_after_symtab_fits g e machine strs note shn).
Qed.
End ElfFits.

(** ** [elf::to_bytes] *)
Lemma abs_locals_bound {G : GoblinElf} ctx ds : ∀ g,
  g_locals g ≤ zlen (g_secs g) →
  g_locals (abs_definitions ctx ds g) ≤ zlen (g_secs (abs_definitions ctx ds g)).
Proof.
  induction ds as [|d ds IH]; intros g Hg; [done|].
  apply (IH (abs_add_definition ctx g (sec_name d) d)). cbn. rewrite zlen_app. change (zlen [_]) with 1.
  unfold def_locals. destruct (d_decl d); [..|lia]; destruct (negb _); lia.
Qed.

Lemma abs_links_locals {G : GoblinElf} {E} ctx ls : ∀ g g',
  ofold (abs_link (E:=E) ctx) g ls = Ok g' → g_locals g' = g_locals g.
Proof.
  induction ls as [|l ls IH]; intros g g'; cbn [ofold]; [by intros [= <-]|].
  destruct (abs_link ctx g l) as [g1| |] eqn:E1; cbn [obind]; [|done..]. intros ->%IH.
  by apply abs_link_adds in E1 as (sh & r & ->).
Qed.

Section ElfToBytes.
Context {TL : TargetLexicon} {SI : StringInterner} {IM : IndexMapOps}.
Context {G : GoblinElf} {SC : Scroll} {P : Profile} {OC : OverflowChecks}.
Context {SIL : StringInternerLaws SI} {IML : IndexMapLaws IM} {GL : GoblinElfLaws G}.
Context {SCL : ScrollLaws SC} {OS : OsFile}.

Lemma object_locals {E} ctx c g :
  abs_object (E:=E) ctx c = Ok g → 0 ≤ g_locals g ≤ zlen (g_secs g).
Proof.
  intros Hg. destruct (abs_links_grow ctx _ _ _ Hg) as (_ & Hs & _).
  apply abs_links_locals in Hg. rewrite Hg, Hs, abs_imports_spec. cbn [g_locals g_secs].
  destruct (abs_definitions_grows ctx (c_defs c) abs_empty) as [_ Hl]. split; [by apply Hl|].
  by apply abs_locals_bound.
Qed.

Lemma fits_sums a g :
  0 ≤ g_locals g ≤ zlen (g_secs g) → fits a g →
  sums_fit (make_ctx (a_target a)) g ∧
  strtab_len (object_strings (a_name a) (contents a) g) < 2 ^ 64.
Proof.
  intros Hl (Hc & _ & Hf). set (ctx := make_ctx (a_target a)) in *.
  pose proof (offsets_ordered ctx (file_strings a g) g) as Ho. unfold file_len in Hf.
  pose proof (zlen_nonneg (g_secs g)). pose proof (zlen_nonneg (g_rels g)). split.
  - split; [|change (abs_end ctx g) with (off_strtab ctx g)|..]; try lia.
    + unfold header_count, needs_shndx in Hc. pose proof SHN_values as (_ & Hlo & _).
      destruct (SHN_LORESERVE <=? _) eqn:En; [lia|]. apply Z.leb_gt in En. lia.
    + unfold header_count in Hc. destruct (needs_shndx g); lia.
  - unfold file_strings, final_strings in *.
    pose proof (strtab_len_intern ".symtab_shndx" (object_strings (a_name a) (contents a) g)).
    pose proof (strtab_len_intern ".note.GNU-stack" (if needs_shndx g
      then intern ".symtab_shndx" (object_strings (a_name a) (contents a) g)
      else object_strings (a_name a) (contents a) g)).
    destruct (needs_shndx g); lia.
Qed.

(** No operation overflows when the file fits the format. *)
Lemma elf_to_bytes_fits a machine g :
  reachable a → undefined_symbols (E:=ArtifactError) a = Ok [] →
  elf_ready (make_ctx (a_target a)) (a_name a) (contents a) →
  MachineTag_from (E:=goblin_error) (architecture (a_target a)) = Ok machine →
  abs_object (E:=goblin_error) (make_ctx (a_target a)) (contents a) = Ok g → fits a g →
  elf_to_bytes_ck a = ElfWrite.to_bytes a.
Proof.
  intros Hreach Hdef Hrd Hmach Hg Hfit.
  pose proof (reachable_wf _ Hreach) as Hwf. pose proof (contents_complete a Hwf Hdef) as Hc.
  pose proof (object_locals _ _ _ Hg) as Hl. destruct (fits_sums a g Hl Hfit) as [Hsf Hst].
  unfold elf_to_bytes_ck, ElfWrite.to_bytes. rewrite (build_fits a g) by done.
  destruct (build_ok (E:=goblin_error) a Hwf Hc Hrd) as (g' & e & Hg' & -> & Hi & Hr & Hs & Hk).
  assert (g' = g) as -> by congruence. injection Hk as _ Hctx Har. cbn [obind].
  destruct Hfit as (Hcount & _ & Hlen). unfold file_strings in Hlen. rewrite <- Hs, <- Hctx in Hlen.
  apply (elf_write_fits g e machine); try done; [exact (oi_addends _ _ Hi) | by rewrite Har].
Qed.
End ElfToBytes.
