(* ===== verification/Codec.v ===== *)
(** * Decoding fixed-width fields

    What the readers of both formats share: the widths of the fields by
    container, integers from bytes, fields read one after the other, and
    tables of entries of the same size. *)

From stdpp Require Import base numbers list gmap strings.
From Stdlib Require Import ZArith Lia Strings.Byte.
From S2P Require Import Prelude Bytes External Instances.

(** ** Widths of the fields *)
Definition word_bits (c : Ctx) : Z := match container c with C_Little => 32 | C_Big => 64 end.

(** A field of 4 or 8 bytes by container, and the same in two's complement. *)
Definition in_word (c : Ctx) (x : Z) : Prop := in_u (word_bits c) x.
Definition in_sword (c : Ctx) (x : Z) : Prop :=
  - 2 ^ (word_bits c - 1) ≤ x < 2 ^ (word_bits c - 1).

(** ** Small numbers *)
Lemma word_bits_32 ctx : 2 ^ 32 ≤ 2 ^ word_bits ctx ≤ 2 ^ 64.
Proof. unfold word_bits. destruct (container ctx); lia. Qed.

Lemma in_word_small ctx x : 0 ≤ x < 2 ^ 32 → in_word ctx x.
Proof. pose proof (word_bits_32 ctx). unfold in_word, in_u. lia. Qed.

Lemma in_word_u64 ctx x : in_word ctx x → in_u 64 x.
Proof. pose proof (word_bits_32 ctx). unfold in_word, in_u. lia. Qed.

Create HintDb typed.
#[export] Hint Extern 1 (in_word _ _) => apply in_word_small; lia : typed.
#[export] Hint Extern 1 (in_u _ _) => unfold in_u; lia : typed.

(** ** Integers from bytes *)
Fixpoint le_value (v : list byte) : Z :=
  match v with
  | [] => 0
  | b :: v => Z.of_N (Byte.to_N b) + 256 * le_value v
  end.

Definition dec (e : Endianness) (v : list byte) : Z :=
  match e with E_Little => le_value v | E_Big => le_value (rev v) end.

Lemma byte_of_Z_value x : Z.of_N (Byte.to_N (byte_of_Z x)) = x mod 256.
Proof.
  unfold byte_of_Z. pose proof (Z.mod_pos_bound x 256 ltac:(lia)) as H.
  destruct (Byte.of_N (Z.to_N (x mod 256))) as [b|] eqn:E.
  - cbn. apply Byte.to_of_N in E. rewrite E. lia.
  - apply Byte.of_N_None_iff in E. lia.
Qed.

Lemma le_value_bytes n : ∀ x, in_u (8 * Z.of_nat n) x → le_value (le_bytes n x) = x.
Proof.
  induction n as [|n IH]; intros x Hx; cbn [le_bytes le_value].
  - unfold in_u in Hx. change (2 ^ (8 * Z.of_nat 0)) with 1 in Hx. lia.
  - unfold in_u in *. rewrite Nat2Z.inj_succ in Hx.
    replace (8 * Z.succ (Z.of_nat n)) with (8 + 8 * Z.of_nat n) in Hx by lia.
    rewrite Z.pow_add_r in Hx by lia. change (2 ^ 8) with 256 in Hx.
    rewrite byte_of_Z_value, Z.shiftr_div_pow2 by lia. change (2 ^ 8) with 256.
    rewrite IH.
    + pose proof (Z.div_mod x 256 ltac:(lia)). lia.
    + split; [apply Z.div_pos; lia|]. apply Z.div_lt_upper_bound; lia.
Qed.

Lemma dec_enc e n x : in_u (8 * Z.of_nat n) x → dec e (enc e n x) = x.
Proof. intros Hx. destruct e; cbn; rewrite ?rev_involutive; by apply le_value_bytes. Qed.

(** Writing keeps the low bits. *)
Lemma le_bytes_wrap n : ∀ x, le_bytes n (wrap (8 * Z.of_nat n) x) = le_bytes n x.
Proof.
  induction n as [|n IH]; intros x; [done|]. cbn [le_bytes]. unfold wrap.
  set (m := 8 * Z.of_nat n). replace (8 * Z.of_nat (S n)) with (8 + m) by lia.
  assert (0 ≤ m) by lia. f_equal.
  - unfold byte_of_Z. do 3 f_equal. rewrite Z.pow_add_r by lia.
    rewrite Z.rem_mul_r by (apply Z.pow_nonzero || apply Z.pow_pos_nonneg; lia).
    change (2 ^ 8) with 256. rewrite Z.mul_comm, Z_mod_plus_full, Z.mod_mod by lia. done.
  - rewrite <- (IH (Z.shiftr (_ mod _) 8)), <- (IH (Z.shiftr x 8)). f_equal. fold m. unfold wrap.
    apply Z.bits_inj'. intros i Hi.
    destruct (Z.ltb_spec i m).
    + rewrite !Z.mod_pow2_bits_low, !Z.shiftr_spec, Z.mod_pow2_bits_low by lia. done.
    + rewrite !Z.mod_pow2_bits_high by lia. done.
Qed.

Lemma enc_wrap e n x : enc e n (wrap (8 * Z.of_nat n) x) = enc e n x.
Proof. unfold enc. by rewrite le_bytes_wrap. Qed.

(** ** Reading field by field *)
Definition reader (A : Type) : Type := list byte → option (A * list byte).

Definition field (e : Endianness) (n : nat) : reader Z := fun v =>
  if (length v <? n)%nat then None else Some (dec e (take n v), drop n v).

Definition skip (n : nat) : reader unit := fun v =>
  if (length v <? n)%nat then None else Some (tt, drop n v).

Lemma length_enc e n x : length (enc e n x) = n.
Proof. pose proof (zlen_enc e n x) as H. unfold zlen in H. lia. Qed.

Lemma field_enc e n x v : in_u (8 * Z.of_nat n) x → field e n (enc e n x ++ v) = Some (x, v).
Proof.
  intros Hx. unfold field. rewrite length_app, length_enc.
  destruct (Nat.ltb_spec (n + length v) n); [lia|].
  rewrite <- (length_enc e n x) at 1. rewrite take_app_length, (dec_enc e n x Hx).
  rewrite <- (length_enc e n x) at 1. by rewrite drop_app_length.
Qed.

Lemma skip_app n w v : length w = n → skip n (w ++ v) = Some (tt, v).
Proof.
  intros <-. unfold skip. rewrite length_app.
  destruct (Nat.ltb_spec (length w + length v) (length w)); [lia|]. by rewrite drop_app_length.
Qed.

Definition word (c : Ctx) : reader Z :=
  field (le c) (match container c with C_Little => 4 | C_Big => 8 end).

Lemma word_enc c x v : in_word c x → word c (enc_word c x ++ v) = Some (x, v).
Proof.
  unfold in_word, word_bits, word, enc_word. intros Hx. destruct (container c); by apply field_enc.
Qed.

(** A word in two's complement. *)
Definition signed (c : Ctx) (x : Z) : Z :=
  if x <? 2 ^ (word_bits c - 1) then x else x - 2 ^ word_bits c.

Lemma enc_word_wrap c x : enc_word c (wrap (word_bits c) x) = enc_word c x.
Proof.
  unfold enc_word, word_bits. destruct (container c).
  - apply (enc_wrap _ 4).
  - apply (enc_wrap _ 8).
Qed.

Lemma signed_wrap c x : in_sword c x → signed c (wrap (word_bits c) x) = x.
Proof.
  unfold in_sword, signed, wrap. intros Hx.
  assert (2 ^ word_bits c = 2 * 2 ^ (word_bits c - 1)) as E.
  { rewrite <- Z.pow_succ_r by (unfold word_bits; destruct (container c); lia). f_equal. lia. }
  rewrite E in *. set (h := 2 ^ (word_bits c - 1)) in *.
  destruct (Z.ltb_spec x 0).
  - rewrite <- (Z_mod_plus_full x 1), Z.mod_small by lia.
    destruct (Z.ltb_spec (x + 1 * (2 * h)) h); lia.
  - rewrite Z.mod_small by lia. destruct (Z.ltb_spec x h); lia.
Qed.

Lemma field_enc_end e n x : in_u (8 * Z.of_nat n) x → field e n (enc e n x) = Some (x, []).
Proof. intros Hx. rewrite <- (app_nil_r (enc e n x)). by apply field_enc. Qed.

Lemma word_enc_end c x : in_word c x → word c (enc_word c x) = Some (x, []).
Proof. intros Hx. rewrite <- (app_nil_r (enc_word c x)). by apply word_enc. Qed.

Definition word_len (c : Ctx) : nat := match container c with C_Little => 4 | C_Big => 8 end.

Lemma length_enc_word c x : length (enc_word c x) = word_len c.
Proof. unfold enc_word, word_len. apply length_enc. Qed.

(** Read the fields of a structure one after the other. *)
Ltac read_fields :=
  repeat (first [rewrite field_enc by (first [done | assumption | lia])
                |rewrite word_enc by (first [done | assumption])
                |rewrite field_enc_end by (first [done | assumption])
                |rewrite word_enc_end by (first [done | assumption])];
          cbn [mbind option_bind]).

(** ** Tables *)

(** [n] entries of [size] bytes each from [off] on. *)
Definition table {A} (des : list byte → option A) (off size n : Z) (bs : list byte) :
  option (list A) :=
  mapM (fun i : nat => des (slice (off + Z.of_nat i * size) size bs)) (seq 0 (Z.to_nat n)).

Lemma table_ok {A} (des : list byte → option A) (ser : A → list byte) off size (l : list A) bs :
  at_off off (concat (ser <$> l)) bs → (∀ x, x ∈ l → zlen (ser x) = size) →
  (∀ x, x ∈ l → des (ser x) = Some x) →
  table des off size (zlen l) bs = Some l.
Proof.
  intros Hat Hlen Hdes. unfold table, zlen. rewrite Nat2Z.id. apply mapM_Some_2.
  apply Forall2_same_length_lookup_2; [by rewrite length_seq|].
  intros i j x Hi Hx. apply lookup_seq in Hi as [-> Hi]. cbn [Nat.add].
  assert (x ∈ l) as Hin by by eapply list_elem_of_lookup_2.
  rewrite (slice_at _ (ser x)); [by apply Hdes | | by apply Hlen].
  eapply at_off_trans; [done|]. apply at_off_concat; [done | by rewrite zget_nat].
Qed.

Lemma bind_with {A B} (o : option A) (f : A → option B) x : o = Some x → (o ≫= f) = f x.
Proof. by intros ->. Qed.
