(* ===== verification/ElfCodec.v ===== *)
(** * Reading ELF structures

    The readers of [goblin::elf] the tests use, as a class of operations with
    their law: a structure whose fields have the widths of the format reads
    back as it was written.  The concrete readers decode the layout of the ELF
    specification field by field. *)

From stdpp Require Import base numbers list gmap strings.
From Stdlib Require Import ZArith Lia Strings.Byte.
From S2P Require Import Prelude External Instances Codec.

(** ** Widths of the fields *)
Definition header_typed (c : Ctx) (h : Header) : Prop :=
  in_u 16 (e_type h) ∧ in_u 16 (e_machine h) ∧ in_word c (e_shoff h) ∧ in_u 16 (e_shnum h) ∧
  in_u 16 (e_shstrndx h).

Definition shdr_typed (c : Ctx) (h : SectionHeader) : Prop :=
  in_u 32 (sh_name h) ∧ in_u 32 (sh_type h) ∧ in_word c (sh_flags h) ∧ in_word c (sh_offset h) ∧
  in_word c (sh_size h) ∧ in_u 32 (sh_link h) ∧ in_u 32 (sh_info h) ∧ in_word c (sh_addralign h) ∧
  in_word c (sh_entsize h).

Definition sym_typed (c : Ctx) (s : Sym) : Prop :=
  in_u 32 (st_name s) ∧ in_u 8 (st_info s) ∧ in_u 8 (st_other s) ∧ in_u 16 (st_shndx s) ∧
  in_word c (st_value s) ∧ in_word c (st_size s).

(** A relocation with an addend; [r_info] joins symbol and type. *)
Definition rela_typed (c : Ctx) (r : ElfReloc) : Prop :=
  in_word c (r_offset r) ∧ (∃ a, r_addend r = Some a ∧ in_sword c a) ∧
  match container c with
  | C_Little => in_u 24 (r_sym r) ∧ in_u 8 (r_type r)
  | C_Big => in_u 32 (r_sym r) ∧ in_u 32 (r_type r)
  end.

(** ** The readers *)
Class GoblinElfRead := {
  des_header : list byte → Ctx → option Header;
  des_shdr : list byte → Ctx → option SectionHeader;
  des_sym : list byte → Ctx → option Sym;
  des_rela : list byte → Ctx → option ElfReloc;
  des_u32 : list byte → Endianness → option Z
}.

(** Each reader undoes the writer of its structure; the machine numbers and
    relocation types have the widths of their fields. *)
Class GoblinElfReadLaws (G : GoblinElf) (R : GoblinElfRead) : Prop := {
  des_ser_header : ∀ h c, header_typed c h → des_header (ser_header h c) c = Some h;
  des_ser_shdr : ∀ h c, shdr_typed c h → des_shdr (ser_shdr h c) c = Some h;
  des_ser_sym : ∀ s c, sym_typed c s → des_sym (ser_sym s c) c = Some s;
  des_ser_rela : ∀ r c, rela_typed c r → des_rela (ser_reloc r (true, c)) c = Some r;
  des_ser_u32 : ∀ x e, in_u 32 x → des_u32 (ser_u32 x e) e = Some x;
  ET_REL_value : ET_REL = 1;
  EM_u16 : Forall (in_u 16) [EM_NONE; EM_386; EM_X86_64; EM_AARCH64; EM_ARM; EM_MIPS; EM_PPC;
    EM_PPC64; EM_RISCV; EM_S390; EM_SPARC; EM_SPARCV9; EM_MSP430];
  R_X86_64_u8 : Forall (in_u 8)
    [R_X86_64_64; R_X86_64_PC32; R_X86_64_PLT32; R_X86_64_GOTPCREL; R_X86_64_32]
}.

(** ** The readers of the ELF specification *)
Definition elf_magic : list byte := [x7f; x45; x4c; x46].

Definition read_header (v : list byte) (c : Ctx) : option Header :=
  if decide (take 4 v = elf_magic) then
    let h2 := field (le c) 2 in
    '(_, v) ← skip 16 v; '(typ, v) ← h2 v; '(machine, v) ← h2 v; '(_, v) ← skip 4 v;
    '(_, v) ← skip (word_len c) v; '(_, v) ← skip (word_len c) v; '(shoff, v) ← word c v;
    '(_, v) ← skip 12 v; '(shnum, v) ← h2 v; '(shstrndx, _) ← h2 v;
    Some (mkHeader typ machine shoff shnum shstrndx)
  else None.

Definition read_shdr (v : list byte) (c : Ctx) : option SectionHeader :=
  let e4 := field (le c) 4 in
  '(name, v) ← e4 v; '(typ, v) ← e4 v; '(flags, v) ← word c v; '(_, v) ← word c v;
  '(offset, v) ← word c v; '(size, v) ← word c v; '(link, v) ← e4 v; '(info, v) ← e4 v;
  '(addralign, v) ← word c v; '(entsize, _) ← word c v;
  Some (mkShdr name typ flags offset size link info addralign entsize).

Definition read_sym (v : list byte) (c : Ctx) : option Sym :=
  let e := field (le c) in
  match container c with
  | C_Big =>
      '(name, v) ← e 4%nat v; '(info, v) ← e 1%nat v; '(other, v) ← e 1%nat v;
      '(shndx, v) ← e 2%nat v; '(value, v) ← word c v; '(size, _) ← word c v;
      Some (mkSym name info other shndx value size)
  | C_Little =>
      '(name, v) ← e 4%nat v; '(value, v) ← word c v; '(size, v) ← word c v;
      '(info, v) ← e 1%nat v; '(other, v) ← e 1%nat v; '(shndx, _) ← e 2%nat v;
      Some (mkSym name info other shndx value size)
  end.

Definition read_rela (v : list byte) (c : Ctx) : option ElfReloc :=
  '(offset, v) ← word c v; '(info, v) ← word c v; '(addend, _) ← word c v;
  let k := match container c with C_Little => 8 | C_Big => 32 end in
  Some (mkElfReloc offset (Some (signed c addend)) (Z.shiftr info k) (Z.land info (Z.ones k))).

Definition read_u32 (v : list byte) (e : Endianness) : option Z := fst <$> field e 4 v.

Definition elf_read : GoblinElfRead := {|
  des_header := read_header; des_shdr := read_shdr; des_sym := read_sym; des_rela := read_rela;
  des_u32 := read_u32
|}.

Lemma read_shdr_ok h c : shdr_typed c h → read_shdr (elf_shdr_bytes h c) c = Some h.
Proof.
  intros (H1 & H2 & H3 & H4 & H5 & H6 & H7 & H8 & H9). unfold read_shdr, elf_shdr_bytes.
  assert (in_word c 0) as H0 by (unfold in_word, in_u, word_bits; destruct (container c); lia).
  read_fields. by destruct h.
Qed.

Lemma read_sym_ok s c : sym_typed c s → read_sym (elf_sym_bytes s c) c = Some s.
Proof.
  intros (H1 & H2 & H3 & H4 & H5 & H6). unfold read_sym, elf_sym_bytes.
  destruct (container c); read_fields; by destruct s.
Qed.

Lemma info_fields sym typ k :
  0 ≤ k → 0 ≤ sym → in_u k typ →
  let info := Z.lor (Z.shiftl sym k) typ in
  Z.shiftr info k = sym ∧ Z.land info (Z.ones k) = typ ∧ info = typ + sym * 2 ^ k.
Proof.
  intros Hk Hs Ht. cbn zeta. rewrite Z.lor_comm, Z.shiftl_mul_pow2, lor_field by done.
  pose proof (Z.pow_pos_nonneg 2 k ltac:(lia) Hk). unfold in_u in Ht.
  rewrite Z.shiftr_div_pow2, Z.land_ones, Z.div_add, Z_mod_plus_full by lia.
  rewrite Z.div_small, Z.mod_small by lia. done.
Qed.

Lemma read_rela_ok r c : rela_typed c r → read_rela (elf_reloc_bytes r (true, c)) c = Some r.
Proof.
  intros (H1 & (a & Ea & Ha) & H3). unfold read_rela, elf_reloc_bytes. rewrite Ea.
  cbn [default from_option id]. rewrite <- (enc_word_wrap c a).
  assert (in_word c (wrap (word_bits c) a)) as Hw.
  { apply wrap_in_u. unfold word_bits. destruct (container c); lia. }
  destruct r as [off add sym typ]. cbn in *. subst add. destruct (container c) eqn:Ec.
  - destruct H3 as [Hs Ht]. change 255 with (Z.ones 8).
    rewrite (Z.land_ones typ), (Z.mod_small typ) by (unfold in_u in Ht; lia).
    destruct (info_fields sym typ 8) as (E1 & E2 & E3); [lia | by destruct Hs | done|].
    assert (in_word c (Z.lor (Z.shiftl sym 8) typ)) as Hi.
    { rewrite E3. unfold in_word, in_u, word_bits in *. rewrite Ec. lia. }
    read_fields. by rewrite E1, E2, signed_wrap.
  - destruct H3 as [Hs Ht].
    destruct (info_fields sym typ 32) as (E1 & E2 & E3); [lia | by destruct Hs | done|].
    assert (in_word c (Z.lor (Z.shiftl sym 32) typ)) as Hi.
    { rewrite E3. unfold in_word, in_u, word_bits in *. rewrite Ec. lia. }
    read_fields. by rewrite E1, E2, signed_wrap.
Qed.

Lemma read_header_ok h c : header_typed c h → read_header (elf_header_bytes h c) c = Some h.
Proof.
  intros (H1 & H2 & H3 & H4 & H5). unfold read_header, elf_header_bytes.
  rewrite decide_True by done. cbn zeta.
  set (big := match container c with C_Little => false | C_Big => true end).
  replace ([x7f; x45; x4c; x46] ++ _) with
    (([x7f; x45; x4c; x46] ++ enc (le c) 1 (if big then 2 else 1) ++
      enc (le c) 1 (match le c with E_Little => 1 | E_Big => 2 end) ++ enc (le c) 1 1 ++
      enc E_Little 9 0) ++
     enc (le c) 2 (e_type h) ++ enc (le c) 2 (e_machine h) ++ enc (le c) 4 1 ++ enc_word c 0 ++
     enc_word c 0 ++ enc_word c (e_shoff h) ++
     (enc (le c) 4 0 ++ enc (le c) 2 (if big then 64 else 52) ++
      enc (le c) 2 (if big then 56 else 32) ++ enc (le c) 2 0 ++
      enc (le c) 2 (if big then 64 else 40)) ++
     enc (le c) 2 (e_shnum h) ++ enc (le c) 2 (e_shstrndx h)) by (by rewrite <- !app_assoc).
  rewrite skip_app by (rewrite !length_app, !length_enc; done). cbn [mbind option_bind]. read_fields.
  do 3 (rewrite skip_app by (first [apply length_enc | apply length_enc_word]); cbn [mbind option_bind]).
  read_fields. rewrite skip_app by (rewrite !length_app, !length_enc; done). cbn [mbind option_bind].
  read_fields. by destruct h.
Qed.

Lemma elf_read_laws : GoblinElfReadLaws elf_goblin elf_read.
Proof.
  split; cbn [des_header des_shdr des_sym des_rela des_u32 elf_read ser_header ser_shdr ser_sym
    ser_reloc ser_u32 elf_goblin].
  - intros. by apply read_header_ok.
  - intros. by apply read_shdr_ok.
  - intros. by apply read_sym_ok.
  - intros. by apply read_rela_ok.
  - intros x e Hx. unfold read_u32. by rewrite field_enc_end.
  - done.
  - repeat constructor; cbn; lia.
  - repeat constructor; cbn; lia.
Qed.
