(* ===== verification/ElfTyped.v ===== *)
(** * The fields of an ELF file have their widths

    The model computes with integers; the file stores fields of 8, 16, 32 or
    64 bits.  Under bounds on the contents that the types of the source give
    for 64-bit targets, and bounds on the size of the file, no field of the
    emitted structures is cut off. *)

From stdpp Require Import base numbers list gmap strings.
From Stdlib Require Import ZArith Lia Strings.Byte.
From S2P Require Import Prelude Std Bytes External Instances Decl Artifact ArtifactInv.
From S2P Require Import Contents Target ElfBuild ElfState ElfWrite ElfRepr ElfLink ElfObject.
From S2P Require Import ElfLayout ElfImage ElfRead ElfFacts ElfTheorems Codec ElfCodec.

(** ** Widths of what the client passes *)
Definition def_typed (ctx : Ctx) (d : Definition_) : Prop :=
  in_word ctx (default 0 (DefinedDecl_get_align (d_decl d))) ∧
  Forall (fun s => in_word ctx s.2) (d_symbols d).

Definition reloc_type_bits (ctx : Ctx) : Z := match container ctx with C_Little => 8 | C_Big => 32 end.
Definition reloc_sym_bits (ctx : Ctx) : Z := match container ctx with C_Little => 24 | C_Big => 32 end.

Definition link_typed (ctx : Ctx) (l : LinkAndDecl) : Prop :=
  in_word ctx (l_at l) ∧
  match l_reloc l with
  | Auto => True
  | Raw reloc addend => in_u (reloc_type_bits ctx) reloc ∧ in_sword ctx addend
  | Debug _ addend => in_sword ctx addend
  end.

Definition contents_typed (ctx : Ctx) (c : Contents) : Prop :=
  Forall (def_typed ctx) (c_defs c) ∧ Forall (link_typed ctx) (c_links c).

Section Typed.
Context {TL : TargetLexicon} {SI : StringInterner} {IM : IndexMapOps} {G : GoblinElf} {P : Profile}.
Context {OS : OsFile} {SC : Scroll} {SCL : ScrollLaws SC} {R : GoblinElfRead}.
Context {SIL : StringInternerLaws SI} {IML : IndexMapLaws IM} {GL : GoblinElfLaws G}.
Context {RL : GoblinElfReadLaws G R}.

(** The file is small enough for its fields. *)
Record fits_fields (a : Artifact) (g : AbsElf) : Prop := {
  ff_strings : strtab_len (file_strings a g) < 2 ^ 32;
  ff_len : file_len (make_ctx (a_target a)) (file_strings a g) g <
           2 ^ word_bits (make_ctx (a_target a));
  ff_symbols : symbol_count g < 2 ^ reloc_sym_bits (make_ctx (a_target a))
}.

(** ** Section headers *)
Lemma create_typed ctx b :
  in_u 32 (sec_name_offset b) → in_word ctx (sec_size b) → in_word ctx (default 0 (sec_align b)) →
  shdr_typed ctx (SectionBuilder_create b ctx).
Proof.
  intros Hn Hs Ha.
  pose proof SHT_values as (T0 & T1 & T2 & T3 & T4 & T8 & T18).
  pose proof SHF_values as (F1 & F2 & F3 & F4 & F5 & F6).
  assert (in_word ctx (match sec_align b with Some a => a
            | None => if sec_exec b then 16 else if sec_write b then 8 else 1 end)) as Hal.
  { destruct (sec_align b); [done|]. destruct (sec_exec b), (sec_write b); auto with typed. }
  unfold SectionBuilder_create. rewrite shdr_default_spec.
  destruct (sec_typ b), (sec_exec b), (sec_write b), (sec_alloc b);
    unfold shdr_typed; cbn -[Z.lor sym_size reloc_size];
    rewrite ?T0, ?T1, ?T2, ?T3, ?T4, ?T8, ?T18, ?F1, ?F2, ?F3, ?F4, ?F5,
      ?sym_size_spec, ?reloc_size_spec; cbn;
    split_and!; try assumption; try (apply in_word_small); try (unfold in_u; lia);
    destruct (container ctx); first [lia | by vm_compute].
Qed.

Lemma shdr_set_offset_typed ctx x h :
  in_word ctx x → shdr_typed ctx h → shdr_typed ctx (shdr_set_offset x h).
Proof. intros Hx (?&?&?&?&?&?&?&?&?). unfold shdr_typed. cbn. split_and!; done. Qed.

Lemma shdr_set_link_typed ctx x h :
  in_u 32 x → shdr_typed ctx h → shdr_typed ctx (shdr_set_link x h).
Proof. intros Hx (?&?&?&?&?&?&?&?&?). unfold shdr_typed. cbn. split_and!; done. Qed.

Lemma shdr_set_info_typed ctx x h :
  in_u 32 x → shdr_typed ctx h → shdr_typed ctx (shdr_set_info x h).
Proof. intros Hx (?&?&?&?&?&?&?&?&?). unfold shdr_typed. cbn. split_and!; done. Qed.

Lemma name_off_typed strs n : strtab_len strs < 2 ^ 32 → in_u 32 (name_off strs n).
Proof.
  intros Hs. unfold name_off, in_u. destruct (index_of n strs) as [i|]; [|lia].
  pose proof (strtab_pos_bound strs i). lia.
Qed.

(** ** The emitted file *)
Section Emitted.
Variables (a : Artifact) (machine : Z) (g : AbsElf) (bs : list byte).
Hypothesis Hem : elf_emitted a machine g bs.
Hypothesis Hty : contents_typed (make_ctx (a_target a)) (contents a).
Hypothesis Hff : fits_fields a g.
Notation ctx := (make_ctx (a_target a)).
Notation strs := (file_strings a g).

Lemma in_file x : 0 ≤ x ≤ file_len ctx strs g → in_word ctx x.
Proof. pose proof (ff_len _ _ Hff). unfold in_word, in_u. lia. Qed.

Lemma name_typed n : in_u 32 (name_off strs n).
Proof. apply name_off_typed, (ff_strings _ _ Hff). Qed.

(** The pieces lie in the file. *)
Lemma pieces_in_file :
  0 ≤ off_strtab ctx g ≤ file_len ctx strs g ∧ 0 ≤ strtab_len strs ≤ file_len ctx strs g ∧
  0 ≤ off_symtab ctx strs g ≤ file_len ctx strs g ∧
  0 ≤ symbol_count g * sym_size (container ctx) ≤ file_len ctx strs g ∧
  0 ≤ off_shndx ctx strs g ≤ file_len ctx strs g ∧ 0 ≤ size_shndx g ≤ file_len ctx strs g ∧
  0 ≤ off_sh ctx strs g ≤ file_len ctx strs g ∧ 0 ≤ header_count g < 2 ^ 32.
Proof.
  pose proof (offsets_ordered ctx strs g). destruct (em_fits _ _ _ _ Hem) as (Hc & _ & _).
  unfold file_len. lia.
Qed.

Lemma section_headers_typed : Forall (shdr_typed ctx) (section_header ctx strs <$> g_secs g).
Proof.
  destruct (emitted_facts _ _ _ _ Hem) as (_ & _ & _ & Hs & _). apply Forall_fmap, Forall_forall.
  intros s Hin. rewrite (os_secs _ _ _ Hs) in Hin.
  apply elem_of_lookup_imap in Hin as (i & d & -> & Hi).
  assert (zget (c_defs (contents a)) (Z.of_nat i) = Some d) as Hz by by rewrite zget_nat.
  destruct (definition_bytes_at _ _ _ _ _ _ Hem Hz) as [_ Hb]. rewrite Nat2Z.id in Hb.
  pose proof (zlen_nonneg (def_bytes d)).
  assert (def_typed ctx d) as [Ha _].
  { destruct Hty as [Hd _]. rewrite Forall_forall in Hd. by eapply Hd, list_elem_of_lookup_2. }
  apply shdr_set_offset_typed; cbn [section_at as_offset as_name as_builder].
  - rewrite wrap_small by (unfold in_u; lia). apply in_file. lia.
  - apply create_typed; cbn [section_name_offset sec_name_offset sec_size sec_align].
    + apply name_typed.
    + rewrite definition_section_size, wrap_small by (unfold in_u; lia). apply in_file. lia.
    + unfold definition_section. revert Ha. by destruct (d_decl d).
Qed.

Lemma rela_headers_typed :
  Forall (shdr_typed ctx) (rela_headers ctx strs g (off_reloc ctx strs g) (g_rels g)).
Proof.
  apply Forall_lookup. intros q h Hq.
  destruct (lookup_lt_is_Some_2 (g_rels g) q) as [[sh rs] Hr].
  { apply lookup_lt_Some in Hq. pose proof (rela_headers_len ctx strs g (g_rels g) (off_reloc ctx strs g)) as H.
    unfold zlen in H. lia. }
  rewrite (rela_headers_at _ _ _ _ _ _ _ _ Hr) in Hq. injection Hq as <-.
  destruct (emitted_facts _ _ _ _ Hem) as (_ & _ & _ & _ & _ & Hsecs & _).
  pose proof (at_off_bound _ _ _ (at_off_trans _ _ _ _ _ (relocs_at ctx machine strs (a_name a) g)
    (reloc_piece ctx _ _ _ _ Hr))) as Hb.
  rewrite elf_image_len, (zlen_concat_const _ (reloc_size true ctx)) in Hb by (intros; apply ser_reloc_len).
  destruct (Hsecs _ (list_elem_of_lookup_2 _ _ _ Hr)) as [s Hs]. apply zget_range in Hs. cbn in Hs.
  destruct (em_fits _ _ _ _ Hem) as (Hc & _ & Hlen). pose proof (zlen_nonneg rs).
  pose proof SHT_values as (_ & _ & _ & _ & T4 & _). pose proof SHF_values as (_ & _ & _ & _ & _ & F6).
  assert (0 ≤ zlen rs * reloc_size true ctx) by (rewrite reloc_size_spec; destruct (container ctx); lia).
  apply shdr_set_offset_typed; [apply in_file; lia|]. unfold rela_header, shdr_typed, SYMTAB_LINK. cbn -[reloc_size].
  rewrite T4, F6, (wrap_small 64) by (unfold in_u; lia).
  split_and!; [apply name_typed | by auto with typed.. | apply in_file; lia | by auto with typed
              | by apply wrap_in_u | by auto with typed |].
  apply in_word_small. rewrite reloc_size_spec. destruct (container ctx); lia.
Qed.

Lemma object_headers_typed : Forall (shdr_typed ctx) (object_headers ctx strs g).
Proof.
  pose proof pieces_in_file as Hp. pose proof name_typed as Hn.
  assert (∀ n size typ, in_word ctx size →
    shdr_typed ctx (SectionBuilder_create (mkSectionBuilder typ false false false size (name_off strs n) None) ctx))
    as Hcr.
  { intros n size typ Hs. apply create_typed; cbn; [apply Hn | done | auto with typed]. }
  unfold object_headers. repeat (apply Forall_app; split).
  - constructor; [|constructor; [|constructor; [|constructor]]].
    + unfold null_header. rewrite shdr_default_spec. pose proof (word_bits_32 ctx).
      destruct (needs_shndx g); unfold shdr_typed; cbn; unfold in_word, in_u; lia.
    + apply shdr_set_offset_typed; [apply in_file; lia|]. apply Hcr, in_file. lia.
    + apply shdr_set_info_typed; [by apply wrap_in_u|]. apply shdr_set_link_typed; [unfold in_u; lia|].
      apply shdr_set_offset_typed; [apply in_file; lia|]. apply Hcr, in_file. lia.
  - apply section_headers_typed.
  - destruct (needs_shndx g); [|constructor]. constructor; [|constructor].
    apply shdr_set_offset_typed; [apply in_file; lia|]. apply shdr_set_link_typed; [unfold in_u; lia|].
    apply Hcr, in_file. lia.
  - apply rela_headers_typed.
  - constructor; [|constructor]. apply Hcr. auto with typed.
Qed.

(** ** Symbols *)
Lemma symbol_typed b :
  in_u 32 (sb_name_offset b) → in_word ctx (sb_value b) → in_word ctx (sb_size b) → 0 ≤ sb_shndx b →
  sb_typ b ≠ ST_File → sym_typed ctx (clamp_shndx (SymbolBuilder_create b)).
Proof.
  intros Hn Hv Hs Hi Ht. pose proof SHN_values as (_ & S1 & S2).
  pose proof STB_values as (E1 & E2 & E3). pose proof STT_values as (F0 & F1 & F2 & F3 & F4).
  pose proof STV_values as (V0 & V1 & V2).
  assert (in_u 8 (st_info (SymbolBuilder_create b)) ∧ in_u 8 (st_other (SymbolBuilder_create b)) ∧
    st_shndx (SymbolBuilder_create b) = sb_shndx b ∧ st_value (SymbolBuilder_create b) = sb_value b ∧
    st_size (SymbolBuilder_create b) = sb_size b ∧ st_name (SymbolBuilder_create b) = sb_name_offset b)
    as (H1 & H2 & H3 & H4 & H5 & H6).
  { unfold SymbolBuilder_create, scope_stb_flags, vis_stother_flags.
    destruct (sb_typ b) as [[f|f|f]| | | |]; try done;
      try (destruct (get_scope f), (get_visibility f));
      cbn -[Z.lor Z.shiftl wrap];
      rewrite ?E1, ?E2, ?E3, ?F0, ?F1, ?F2, ?F3, ?F4, ?V0, ?V1, ?V2; by vm_compute. }
  unfold clamp_shndx, sym_typed. rewrite S1, S2, H3. destruct (Z.leb_spec 65280 (sb_shndx b));
    cbn [st_name st_info st_other st_shndx st_value st_size]; rewrite ?H3, H4, H5, H6;
    split_and!; auto with typed.
Qed.

(** The symbols of a definition. *)
Lemma def_symbols_typed i d p :
  zget (c_defs (contents a)) i = Some d → p ∈ def_symbols (i + 3) d →
  sym_typed ctx (clamp_shndx (object_symbol strs p)).
Proof.
  intros Hi Hp. pose proof (zget_range _ _ _ Hi) as Hir. pose proof (zlen_nonneg (def_bytes d)).
  destruct (definition_bytes_at _ _ _ _ _ _ Hem Hi) as [_ Hb].
  assert (file_size (d_data d) = zlen (def_bytes d)) as Efs.
  { unfold def_bytes, def_code. destruct (d_data d); cbn; by rewrite ?app_nil_r. }
  assert (def_typed ctx d) as [_ Hsy].
  { destruct Hty as [Hd _]. rewrite Forall_forall in Hd. by eapply Hd, zget_elem. }
  assert (in_word ctx (u64 (file_size (d_data d)))) as Hsz.
  { rewrite Efs, wrap_small by (unfold in_u; lia). apply in_file. lia. }
  unfold def_symbols in Hp. destruct (d_decl d) as [f|f|f].
  1,2: apply list_elem_of_singleton in Hp as ->; apply symbol_typed; cbn;
    [apply name_typed | auto with typed | done | lia | done].
  apply list_elem_of_fmap in Hp as ([n v] & -> & Hin). rewrite Forall_forall in Hsy.
  apply symbol_typed; cbn; [apply name_typed | exact (Hsy _ Hin) | auto with typed | lia | done].
Qed.

Lemma written_symbols_typed : Forall (sym_typed ctx) (written_symbols strs (a_name a) g).
Proof.
  pose proof SHN_values as (S0 & _). pose proof STT_values as (_ & _ & _ & _ & F4).
  destruct (emitted_facts _ _ _ _ Hem) as (_ & _ & _ & Hs & _).
  unfold written_symbols, special_symbols, local_and_other_symbols.
  apply Forall_app. split; [constructor; [|constructor; [|constructor]]|].
  - rewrite sym_default_spec. unfold sym_typed. cbn. split_and!; auto with typed.
  - unfold sym_typed. cbn. rewrite S0, F4. split_and!; auto with typed. apply name_typed.
  - rewrite fmap_app. apply Forall_app. split; apply Forall_fmap, Forall_forall.
    + intros s Hin. apply elem_of_lookup_imap in Hin as (i & x & -> & _).
      apply symbol_typed; cbn; auto with typed; lia.
    + intros s Hin. apply list_elem_of_fmap in Hin as (p & -> & Hp). rewrite (os_syms _ _ _ Hs) in Hp.
      apply elem_of_app in Hp as [Hp|Hp].
      * apply elem_of_concat in Hp as (l & Hp & Hl).
        apply elem_of_lookup_imap in Hl as (i & d & -> & Hi).
        apply (def_symbols_typed (Z.of_nat i) d); [by rewrite zget_nat | done].
      * apply list_elem_of_fmap in Hp as (i & -> & _).
        apply symbol_typed; cbn; auto with typed; [apply name_typed | lia].
Qed.

Lemma zlen_written : zlen (written_symbols strs (a_name a) g) = symbol_count g.
Proof.
  unfold written_symbols. rewrite zlen_app, zlen_fmap, zlen_other. unfold symbol_count.
  change (zlen (special_symbols _ _)) with 2. lia.
Qed.

(** ** Relocations *)
Lemma link_reloc_typed l reloc addend :
  link_typed ctx l → link_reloc (E:=goblin_error) ctx l = Ok (reloc, addend) →
  in_u (reloc_type_bits ctx) reloc ∧ in_sword ctx addend.
Proof.
  intros [_ Hr] Hl. pose proof R_X86_64_u8 as Hu. rewrite !Forall_cons in Hu.
  destruct Hu as (U1 & U2 & U3 & U4 & U5 & _).
  assert (∀ x, in_u 8 x → in_u (reloc_type_bits ctx) x) as H8.
  { intros x. unfold in_u, reloc_type_bits. destruct (container ctx); lia. }
  assert (in_sword ctx (-4) ∧ in_sword ctx 0) as [Hm H0].
  { unfold in_sword, word_bits. destruct (container ctx); cbn; lia. }
  unfold link_reloc in Hl. destruct (l_reloc l) as [|r x|sz x].
  - repeat case_match; try done; injection Hl as <- <-; auto.
  - injection Hl as <- <-. done.
  - destruct (sz =? 4); [|destruct (sz =? 8); [|done]]; injection Hl as <- <-; auto.
Qed.

Lemma relocs_typed : Forall (fun r => Forall (rela_typed ctx) r.2) (g_rels g).
Proof.
  apply Forall_forall. intros [sh rs] Hin. apply Forall_forall. intros r Hr. cbn in Hr.
  destruct (emitted_facts _ _ _ _ Hem) as (_ & _ & _ & _ & Hnd & _).
  destruct (abs_object_closed _ _ _ (em_obj _ _ _ _ Hem)) as (_ & _ & Hrels).
  apply list_elem_of_lookup in Hin as [q Hq]. pose proof (rels_of_at _ _ _ _ Hnd Hq) as Eq.
  rewrite Hrels in Eq. rewrite <- Eq in Hr. unfold link_rels in Hr.
  apply list_elem_of_omap in Hr as (l & Hl & Hr).
  destruct (link_entry_spec _ _ _ _ _ Hem Hl) as (i & d & reloc & addend & sym & s & _ & _ & Hlr & He & Hw & _).
  rewrite He in Hr. cbn in Hr. destruct (decide (i + 3 = sh)); [|done]. injection Hr as <-.
  assert (link_typed ctx l) as Hlt.
  { destruct Hty as [_ Hls]. rewrite Forall_forall in Hls. by apply Hls. }
  destruct (link_reloc_typed _ _ _ Hlt Hlr) as [H1 H2]. destruct Hlt as [Hat _].
  apply zget_range in Hw. rewrite zlen_written in Hw. pose proof (ff_symbols _ _ Hff) as Hc.
  split; [done|]. split; [by exists addend|]. cbn [r_sym r_type].
  unfold reloc_type_bits, reloc_sym_bits in *.
  destruct (container ctx); (split; [unfold in_u; lia | done]).
Qed.

Lemma file_header_typed : header_typed ctx (file_header ctx machine strs g).
Proof.
  pose proof pieces_in_file as Hp. pose proof EM_u16 as Hm. rewrite !Forall_cons in Hm.
  pose proof (em_mach _ _ _ _ Hem) as Ha. unfold header_typed, file_header, STRTAB_LINK.
  cbn [e_type e_machine e_shoff e_shnum e_shstrndx]. rewrite ET_REL_value.
  split_and!; [auto with typed | | apply in_file; lia | | auto with typed].
  - unfold MachineTag_from in Ha. destruct (architecture (a_target a)); simplify_eq; tauto.
  - destruct (needs_shndx g); [auto with typed | by apply wrap_in_u].
Qed.
End Emitted.

(** No field is cut off.  When the alignments, symbol offsets, link
    offsets, relocation types and addends the client passes have the widths of
    the target's container (for 64-bit targets the types of the interface give
    this), the string table is smaller than 2^32 bytes and the file smaller
    than the container's words can address, every field of the header, the
    section headers, the symbols and the relocations of an emitted file has the
    width the format gives it. *)
Theorem elf_fields_typed (a : Artifact) (machine : Z) (g : AbsElf) (bs : list byte)
  (Hem : elf_emitted a machine g bs)
  (Hty : contents_typed (make_ctx (a_target a)) (contents a))
  (Hff : fits_fields a g) :
  let ctx := make_ctx (a_target a) in
  let strs := file_strings a g in
  header_typed ctx (file_header ctx machine strs g) ∧
  Forall (shdr_typed ctx) (object_headers ctx strs g) ∧
  Forall (sym_typed ctx) (written_symbols strs (a_name a) g) ∧
  Forall (fun r => Forall (rela_typed ctx) r.2) (g_rels g).
Proof.
  intros ctx strs. split; [by eapply file_header_typed|]. split; [by eapply object_headers_typed|].
  split; [by eapply written_symbols_typed | by eapply relocs_typed].
Qed.
End Typed.
