(* ===== verification/ElfParse.v ===== *)
(** * Reading a whole ELF file back

    [parse] reads an object file the way a linker or [goblin] does: the
    header, the section header table, names through the section name table,
    section contents, the symbol table with extended section indices, and the
    relocation sections.  The theorem: parsing what [elf::to_bytes] returned
    yields exactly the sections, symbols and relocations of the artifact. *)

From stdpp Require Import base numbers list gmap strings.
From Stdlib Require Import ZArith Lia Strings.Byte.
From S2P Require Import Prelude Std Bytes External Instances Decl Artifact ArtifactInv.
From S2P Require Import Contents Target ElfBuild ElfState ElfWrite ElfRepr ElfLink ElfObject.
From S2P Require Import ElfLayout ElfImage ElfRead ElfFacts ElfTheorems ElfRelocs Codec ElfCodec ElfTyped.

(** ** What is read *)
Record ReadSection := mkReadSection {
  rs_name : list byte; rs_header : SectionHeader; rs_bytes : list byte
}.

(** A symbol with the section index it stands for. *)
Record ReadSymbol := mkReadSymbol { rs_symbol_name : list byte; rs_symbol : Sym; rs_shndx : Z }.

Record ElfFile := mkElfFile {
  ef_header : Header;
  ef_sections : list ReadSection;
  ef_symbols : list ReadSymbol;
  (** the section each relocation section patches, and its relocations *)
  ef_relocs : list (Z * list ElfReloc)
}.

Section Parse.
Context {G : GoblinElf} {R : GoblinElfRead}.

Definition section_bytes (bs : list byte) (h : SectionHeader) : list byte :=
  if has_type SHT_NULL h || has_type SHT_NOBITS h then [] else slice (sh_offset h) (sh_size h) bs.

Definition read_section (str : SectionHeader) (bs : list byte) (h : SectionHeader) : ReadSection :=
  mkReadSection (cstring_at (sh_offset str + sh_name h) bs) h (section_bytes bs h).

(** The table a section header describes. *)
Definition entries {A} (des : list byte → option A) (bs : list byte) (h : SectionHeader) :
  option (list A) :=
  table des (sh_offset h) (sh_entsize h) (sh_size h / sh_entsize h) bs.

Definition read_symbol (str : SectionHeader) (ext : list Z) (bs : list byte) (p : nat * Sym) :
  option ReadSymbol :=
  shndx ← (if st_shndx p.2 =? SHN_XINDEX then ext !! p.1 else Some (st_shndx p.2));
  Some (mkReadSymbol (cstring_at (sh_offset str + st_name p.2) bs) p.2 shndx).

Definition parse (ctx : Ctx) (bs : list byte) : option ElfFile :=
  header ← des_header (slice 0 (header_size ctx) bs) ctx;
  count ← (if e_shnum header =? 0
           then sh_size <$> des_shdr (slice (e_shoff header) (shdr_size ctx) bs) ctx
           else Some (e_shnum header));
  headers ← table (fun v => des_shdr v ctx) (e_shoff header) (shdr_size ctx) count bs;
  shstrtab ← zget headers (e_shstrndx header);
  symtab ← List.find (has_type SHT_SYMTAB) headers;
  strtab ← zget headers (sh_link symtab);
  syms ← entries (fun v => des_sym v ctx) bs symtab;
  ext ← match List.find (has_type SHT_SYMTAB_SHNDX) headers with
        | Some h => entries (fun v => des_u32 v (le ctx)) bs h
        | None => Some []
        end;
  symbols ← mapM (read_symbol strtab ext bs) (imap pair syms);
  relocs ← mapM (fun h => rs ← entries (fun v => des_rela v ctx) bs h; Some (sh_info h, rs))
             (List.filter (has_type SHT_RELA) headers);
  Some (mkElfFile header (read_section shstrtab bs <$> headers) symbols relocs).
End Parse.

(** ** Searching the headers *)

Section RoundTrip.
Context {TL : TargetLexicon} {SI : StringInterner} {IM : IndexMapOps} {G : GoblinElf} {P : Profile}.
Context {OS : OsFile} {SC : Scroll} {SCL : ScrollLaws SC} {R : GoblinElfRead}.
Context {SIL : StringInternerLaws SI} {IML : IndexMapLaws IM} {GL : GoblinElfLaws G}.
Context {RL : GoblinElfReadLaws G R}.

(** ** The file of an object, as read *)
Definition named_section (n : string) (h : SectionHeader) (bs : list byte) : ReadSection :=
  mkReadSection (bytes_of n) h bs.

(** The null section, the two tables, the sections of the definitions, the
    extended indices if needed, the relocation sections, the stack note. *)
Definition file_sections (ctx : Ctx) (strs : list string) (name : string) (c : Contents)
  (g : AbsElf) : list ReadSection :=
  [named_section "" (null_header g) [];
   named_section ".strtab" (strtab_header ctx strs g) (strtab_bytes strs);
   named_section ".symtab" (symtab_header ctx strs g) (symtab_bytes ctx strs name g)] ++
  imap (fun i d => named_section (sec_name d)
          (section_header ctx strs (section_at ctx (c_defs c) i d)) (def_bytes d)) (c_defs c) ++
  (if needs_shndx g
   then [named_section ".symtab_shndx" (shndx_header ctx strs g) (shndx_bytes ctx strs name g)]
   else []) ++
  zip_with (fun h r => named_section (rela_name g r.1) h
                         (concat ((fun x => ser_reloc x (true, ctx)) <$> r.2)))
    (rela_headers ctx strs g (off_reloc ctx strs g) (g_rels g)) (g_rels g) ++
  [named_section ".note.GNU-stack" (note_header ctx strs) []].

(** A symbol under its name, with its section index before it is clamped. *)
Definition named_symbol (n : string) (s : Sym) : ReadSymbol :=
  mkReadSymbol (bytes_of n) (clamp_shndx s) (st_shndx s).

(** The null symbol, the file name, the sections, the object's symbols. *)
Definition file_symbols (strs : list string) (name : string) (g : AbsElf) : list ReadSymbol :=
  [mkReadSymbol [] sym_default 0;
   mkReadSymbol (bytes_of name)
     (SymbolBuilder_create (mkSymbolBuilder (name_off strs name) 0 ST_File 0 0)) SHN_ABS] ++
  imap (fun i _ => named_symbol "" (section_symbol i)) (g_secs g) ++
  ((fun p => named_symbol p.1 (object_symbol strs p)) <$> g_syms g).

Definition elf_file_of (ctx : Ctx) (machine : Z) (strs : list string) (name : string)
  (c : Contents) (g : AbsElf) : ElfFile :=
  mkElfFile (file_header ctx machine strs g) (file_sections ctx strs name c g)
    (file_symbols strs name g) (g_rels g).

(** ** Names *)
Lemma elem_of_intern n m l : n ∈ intern m l ↔ n = m ∨ n ∈ l.
Proof.
  unfold intern. case_decide as H; [|set_solver]. split; [by right|]. intros [->|]; done.
Qed.

Lemma elem_of_intern_all n ns : ∀ l, n ∈ intern_all ns l ↔ n ∈ ns ∨ n ∈ l.
Proof.
  unfold intern_all. induction ns as [|m ns IH]; intros l; cbn; [set_solver|].
  rewrite IH, elem_of_intern. set_solver.
Qed.

(** The names of the file, all of them in its string table. *)
Definition all_names (a : Artifact) (g : AbsElf) : list string :=
  [".strtab"; ".symtab"; a_name a]%string ++ concat (def_names <$> c_defs (contents a)) ++
  (c_imports (contents a)).*1 ++ (rela_name g <$> (g_rels g).*1) ++
  (if needs_shndx g then [".symtab_shndx"%string] else []) ++ [".note.GNU-stack"%string].

Lemma names_in_file a g n : n ∈ all_names a g → n ∈ file_strings a g.
Proof.
  unfold all_names, file_strings, final_strings, object_strings.
  destruct (needs_shndx g); rewrite !elem_of_intern, elem_of_intern_all, !elem_of_app, ?elem_of_cons,
    ?elem_of_nil; tauto.
Qed.

Section Emitted.
Variables (a : Artifact) (machine : Z) (g : AbsElf) (bs : list byte).
Hypothesis Hem : elf_emitted a machine g bs.
Hypothesis Hty : contents_typed (make_ctx (a_target a)) (contents a).
Hypothesis Hff : fits_fields a g.
Hypothesis Hnul : Forall no_nul (all_names a g).
Notation ctx := (make_ctx (a_target a)).
Notation strs := (file_strings a g).

Lemma emitted_image : bs = elf_image ctx machine strs (a_name a) g.
Proof. by destruct (emitted_facts _ _ _ _ Hem) as [-> _]. Qed.

Lemma read_name n : n ∈ all_names a g →
  cstring_at (sh_offset (strtab_header ctx strs g) + name_off strs n) bs = bytes_of n.
Proof.
  intros Hn. rewrite emitted_image. apply cstring_at_off.
  - by apply name_at, names_in_file.
  - rewrite Forall_forall in Hnul. by apply Hnul.
Qed.

(** Offset 0 of the string table is the empty name. *)
Lemma read_no_name : cstring_at (sh_offset (strtab_header ctx strs g) + 0) bs = bytes_of "".
Proof.
  rewrite emitted_image. apply cstring_at_off; [|unfold no_nul; set_solver].
  destruct (strtab_piece_at ctx machine strs (a_name a) g) as (v1 & v2 & E & Hl).
  rewrite E. unfold strtab_bytes. exists v1, (concat ((fun s => bytes_of s ++ [x00]) <$> strs) ++ v2).
  split; [done|]. cbn. lia.
Qed.

(** ** Header and section headers *)
Lemma read_file_header :
  des_header (slice 0 (header_size ctx) bs) ctx = Some (file_header ctx machine strs g).
Proof.
  rewrite emitted_image, (slice_at _ _ _ _ (header_at ctx machine strs (a_name a) g)) by apply ser_header_len.
  by apply des_ser_header, (file_header_typed a machine g bs).
Qed.

Lemma read_headers :
  table (fun v => des_shdr v ctx) (off_sh ctx strs g) (shdr_size ctx) (header_count g) bs =
  Some (object_headers ctx strs g).
Proof.
  rewrite <- (object_headers_len ctx strs g), emitted_image.
  apply (table_ok _ (fun h => ser_shdr h ctx)); [apply headers_at | intros; apply ser_shdr_len|].
  pose proof (object_headers_typed a machine g bs Hem Hty Hff) as Ht. rewrite Forall_forall in Ht.
  intros h Hh. by apply des_ser_shdr, Ht.
Qed.

Lemma read_count :
  (if e_shnum (file_header ctx machine strs g) =? 0
   then sh_size <$> des_shdr (slice (off_sh ctx strs g) (shdr_size ctx) bs) ctx
   else Some (e_shnum (file_header ctx machine strs g))) = Some (header_count g).
Proof.
  pose proof SHN_values as (_ & Hlo & _). pose proof (offsets_ordered ctx strs g) as Ho.
  pose proof (needs_shndx_count g) as Hn. unfold file_header. cbn [e_shnum].
  destruct (needs_shndx g) eqn:En.
  - cbn. rewrite emitted_image.
    assert (zget (object_headers ctx strs g) 0 = Some (null_header g)) as H0
      by by apply (zget_app_l [_; _; _]).
    pose proof (section_header_at ctx machine strs (a_name a) g 0 _ H0) as Hat.
    rewrite Z.mul_0_l, Z.add_0_r in Hat. rewrite (slice_at _ _ _ _ Hat) by apply ser_shdr_len.
    pose proof (object_headers_typed a machine g bs Hem Hty Hff) as Ht. rewrite Forall_forall in Ht.
    rewrite des_ser_shdr by by eapply Ht, zget_elem.
    cbn. unfold null_header. by rewrite En.
  - apply Z.leb_gt in Hn. rewrite (wrap_small 16) by (unfold in_u; lia).
    destruct (Z.eqb_spec (header_count g) 0); [lia|done].
Qed.

(** ** Symbols *)
Lemma read_symbol_table :
  entries (fun v => des_sym v ctx) bs (symtab_header ctx strs g) =
  Some (written_symbols strs (a_name a) g).
Proof.
  unfold entries. assert (sh_size (symtab_header ctx strs g) = symbol_count g * sym_size (container ctx)) as ->.
  { unfold symtab_header. cbn [sh_size shdr_set_offset shdr_set_link shdr_set_info].
    by rewrite create_size. }
  assert (sh_entsize (symtab_header ctx strs g) = sym_size (container ctx)) as -> by done.
  rewrite Z.div_mul by (rewrite sym_size_spec; destruct (container ctx); lia).
  rewrite <- (zlen_written a g), emitted_image.
  apply (table_ok _ (fun s => ser_sym s ctx)).
  - pose proof (symtab_at ctx machine strs (a_name a) g) as H. unfold symtab_bytes in H.
    unfold written_symbols. rewrite fmap_app, concat_app, <- list_fmap_compose. exact H.
  - intros. apply ser_sym_len.
  - pose proof (written_symbols_typed a machine g bs Hem Hty Hff) as Ht. rewrite Forall_forall in Ht.
    intros s Hs. by apply des_ser_sym, Ht.
Qed.

(** The extended section indices, one per symbol when they are needed. *)
Definition ext_indices : list Z :=
  if needs_shndx g then (fun s => u32 (st_shndx s)) <$> all_symbols strs (a_name a) g else [].

Lemma read_ext_indices :
  match List.find (has_type SHT_SYMTAB_SHNDX) (object_headers ctx strs g) with
  | Some h => entries (fun v => des_u32 v (le ctx)) bs h
  | None => Some []
  end = Some ext_indices.
Proof.
  destruct (headers_of_type _ _ _ _ Hem) as (_ & -> & _). unfold ext_indices.
  destruct (needs_shndx g) eqn:En; [|done]. unfold entries.
  assert (sh_size (shndx_header ctx strs g) = symbol_count g * 4) as ->.
  { unfold shndx_header. cbn [sh_size shdr_set_offset shdr_set_link]. rewrite create_size. cbn.
    unfold size_shndx. by rewrite En. }
  assert (sh_entsize (shndx_header ctx strs g) = 4) as -> by done.
  rewrite Z.div_mul by lia.
  replace (symbol_count g) with (zlen ((fun s => u32 (st_shndx s)) <$> all_symbols strs (a_name a) g)).
  - rewrite emitted_image. apply (table_ok _ (fun x => ser_u32 x (le ctx))).
    + rewrite <- list_fmap_compose. by apply shndx_at.
    + intros. apply ser_u32_len.
    + intros x Hx. apply list_elem_of_fmap in Hx as (y & -> & _). apply des_ser_u32.
      by apply wrap_in_u.
  - rewrite zlen_fmap. unfold all_symbols. rewrite zlen_app, zlen_other. unfold symbol_count.
    change (zlen (special_symbols _ _)) with 2. lia.
Qed.

(** A symbol of a section reads back with the index of that section. *)
Lemma read_clamped (i : nat) sym n :
  all_symbols strs (a_name a) g !! i = Some sym → 0 ≤ st_shndx sym < 3 + zlen (g_secs g) →
  cstring_at (sh_offset (strtab_header ctx strs g) + st_name sym) bs = bytes_of n →
  read_symbol (strtab_header ctx strs g) ext_indices bs (i, clamp_shndx sym) = Some (named_symbol n sym).
Proof.
  intros Hi Hsh Hn. pose proof SHN_values as (_ & S1 & S2).
  destruct (em_fits _ _ _ _ Hem) as (Hc & _). pose proof (zlen_nonneg (g_rels g)).
  destruct (clamp_shndx_fields sym) as (Ename & _). unfold read_symbol, named_symbol. cbn [fst snd].
  rewrite Ename, Hn. assert ((if st_shndx (clamp_shndx sym) =? SHN_XINDEX then ext_indices !! i
    else Some (st_shndx (clamp_shndx sym))) = Some (st_shndx sym)) as ->; [|done].
  unfold clamp_shndx. rewrite S1, S2. unfold header_count in Hc.
  destruct (Z.leb_spec 65280 (st_shndx sym)); cbn [st_shndx].
  - cbn [Z.eqb Pos.eqb]. unfold ext_indices, needs_shndx in *. rewrite S1 in *.
    destruct (Z.leb_spec 65280 (4 + zlen (g_secs g) + zlen (g_rels g))); [|lia].
    rewrite list_lookup_fmap, Hi. cbn. f_equal. apply wrap_small. unfold in_u. lia.
  - destruct (Z.eqb_spec (st_shndx sym) 65535); [lia|done].
Qed.

(** The symbols of the object, with their names. *)
Lemma read_other_symbols (j : nat) s y :
  local_and_other_symbols strs g !! j = Some s →
  (imap (fun i _ => named_symbol "" (section_symbol i)) (g_secs g) ++
   ((fun p => named_symbol p.1 (object_symbol strs p)) <$> g_syms g)) !! j = Some y →
  read_symbol (strtab_header ctx strs g) ext_indices bs (S (S j), clamp_shndx s) = Some y.
Proof.
  intros Hs Hy. assert (all_symbols strs (a_name a) g !! S (S j) = Some s) as Hall by exact Hs.
  unfold local_and_other_symbols in Hs. destruct (decide (j < length (g_secs g))%nat) as [Hlt|Hge].
  - rewrite lookup_app_l, list_lookup_imap in Hs by (rewrite length_imap; lia).
    rewrite lookup_app_l, list_lookup_imap in Hy by (rewrite length_imap; lia).
    destruct (g_secs g !! j) as [x|] eqn:Ex; [|done]. injection Hs as <-. injection Hy as <-.
    apply read_clamped; [done | cbn; unfold zlen; lia | apply read_no_name].
  - rewrite lookup_app_r, length_imap, list_lookup_fmap in Hs by (rewrite length_imap; lia).
    rewrite lookup_app_r, length_imap, list_lookup_fmap in Hy by (rewrite length_imap; lia).
    destruct (g_syms g !! _) as [p|] eqn:Ep; [|done]. injection Hs as <-. injection Hy as <-.
    apply list_elem_of_lookup_2 in Ep.
    destruct (emitted_facts _ _ _ _ Hem) as (_ & _ & Hinv & _).
    pose proof (oi_placed _ _ Hinv) as Hpl. rewrite Forall_forall in Hpl. destruct (Hpl _ Ep) as [Hf Hp].
    assert (st_shndx (object_symbol strs p) = sb_shndx p.2 ∧
      st_name (object_symbol strs p) = name_off strs p.1) as [E1 E2].
    { unfold object_symbol, SymbolBuilder_create. cbn. by destruct (sb_typ p.2) as [[]| | | |]. }
    apply read_clamped; [done | pose proof (zlen_nonneg (g_secs g)); rewrite E1; lia|].
    rewrite E2. apply read_name. unfold all_names.
    assert (p.1 ∈ symbol_names (contents a)) as Hn.
    { rewrite <- (oi_syms _ _ Hinv). apply list_elem_of_fmap. by exists p. }
    unfold symbol_names in Hn. rewrite !elem_of_app in *. destruct Hn as [Hn|Hn]; [|tauto].
    right; left. apply elem_of_concat in Hn as (l & Hl & (d & -> & Hd)%list_elem_of_fmap).
    apply elem_of_concat. exists (def_names d). split; [by right|]. apply list_elem_of_fmap. eauto.
Qed.

Lemma read_symbols :
  mapM (read_symbol (strtab_header ctx strs g) ext_indices bs)
    (imap pair (written_symbols strs (a_name a) g)) = Some (file_symbols strs (a_name a) g).
Proof.
  pose proof SHN_values as (S0 & _ & S2). apply mapM_Some_2, Forall2_same_length_lookup_2.
  { unfold written_symbols, file_symbols, local_and_other_symbols.
    rewrite length_imap, !length_app, length_fmap, length_app, !length_imap, !length_fmap. done. }
  intros i q y Hq Hy. rewrite list_lookup_imap in Hq.
  destruct (written_symbols strs (a_name a) g !! i) as [s|] eqn:Es; [|done]. injection Hq as <-.
  unfold written_symbols, file_symbols, special_symbols in *.
  destruct i as [|[|i]]; cbn [app lookup list_lookup] in *.
  - injection Es as <-. injection Hy as <-. unfold read_symbol. cbn [fst snd].
    rewrite sym_default_spec. cbn [st_shndx st_name]. rewrite S2, read_no_name. done.
  - injection Es as <-. injection Hy as <-. unfold read_symbol, SymbolBuilder_create. cbn -[cstring_at].
    rewrite S0, S2. cbn -[cstring_at]. rewrite read_name; [done|]. unfold all_names. set_solver.
  - change ((clamp_shndx <$> local_and_other_symbols strs g) !! i = Some s) in Es.
    rewrite list_lookup_fmap in Es.
    destruct (local_and_other_symbols strs g !! i) as [s0|] eqn:E0; [|done]. injection Es as <-.
    by apply read_other_symbols.
Qed.

(** ** Relocations *)
Lemma read_relocs :
  mapM (fun h => rs ← entries (fun v => des_rela v ctx) bs h; Some (sh_info h, rs))
    (rela_headers ctx strs g (off_reloc ctx strs g) (g_rels g)) = Some (g_rels g).
Proof.
  apply mapM_Some_2, Forall2_same_length_lookup_2.
  { pose proof (rela_headers_len ctx strs g (g_rels g) (off_reloc ctx strs g)) as H. unfold zlen in H. lia. }
  intros q h [sh rs] Hh Hq.
  destruct (rela_section_at _ _ _ _ _ _ _ Hem Hq) as (hd & Hh' & _ & _ & Hi & He & Hsz & _ & Hat).
  rewrite Hh in Hh'. injection Hh' as <-. unfold entries. rewrite He, Hsz, Hi.
  rewrite Z.div_mul by (rewrite reloc_size_spec; destruct (container ctx); lia).
  rewrite (table_ok _ (fun r => ser_reloc r (true, ctx)) _ _ rs); [done | exact Hat | |].
  - intros. apply ser_reloc_len.
  - pose proof (relocs_typed a machine g bs Hem Hty Hff) as Ht. rewrite Forall_forall in Ht.
    specialize (Ht _ (list_elem_of_lookup_2 _ _ _ Hq)). rewrite Forall_forall in Ht.
    intros r Hr. by apply des_ser_rela, Ht.
Qed.

(** ** Sections *)
Lemma read_named n h w :
  n ∈ all_names a g → sh_name h = name_off strs n → section_bytes bs h = w →
  read_section (strtab_header ctx strs g) bs h = named_section n h w.
Proof. intros Hn En Hw. unfold read_section, named_section. by rewrite En, (read_name _ Hn), Hw. Qed.

(** The contents of a section with bits. *)
Lemma section_contents_at h w :
  sh_type h ≠ SHT_NULL → sh_type h ≠ SHT_NOBITS → at_off (sh_offset h) w bs → sh_size h = zlen w →
  section_bytes bs h = w.
Proof.
  intros H0 H8 Hat Hsz. unfold section_bytes, has_type.
  apply Z.eqb_neq in H0, H8. rewrite H0, H8. cbn. rewrite Hsz. by apply at_off_slice.
Qed.

Lemma in_all_names n :
  (n = ".strtab" ∨ n = ".symtab" ∨ n = ".note.GNU-stack")%string ∨
  (needs_shndx g = true ∧ n = ".symtab_shndx"%string) ∨ (∃ d, d ∈ c_defs (contents a) ∧ n = sec_name d) ∨
  (∃ r, r ∈ g_rels g ∧ n = rela_name g r.1) → n ∈ all_names a g.
Proof.
  unfold all_names. rewrite !elem_of_app, !elem_of_cons.
  intros [[->|[->| ->]]|[[En ->]|[(d & Hd & ->)|(r & Hr & ->)]]]; [tauto..| |right|].
  - rewrite En, elem_of_cons. tauto.
  - left. apply elem_of_concat. exists (def_names d). split; [by left|]. apply list_elem_of_fmap. eauto.
  - do 3 right. left. apply list_elem_of_fmap. exists r.1. split; [done|]. apply list_elem_of_fmap. eauto.
Qed.

(** The sections of the definitions. *)
Lemma read_definition_sections :
  read_section (strtab_header ctx strs g) bs <$> (section_header ctx strs <$> g_secs g) =
  imap (fun i d => named_section (sec_name d)
          (section_header ctx strs (section_at ctx (c_defs (contents a)) i d)) (def_bytes d))
    (c_defs (contents a)).
Proof.
  pose proof SHT_values as (T0 & T1 & _ & _ & _ & T8 & _).
  destruct (emitted_facts _ _ _ _ Hem) as (_ & _ & _ & Hs & _).
  rewrite (os_secs _ _ _ Hs), !fmap_imap. apply imap_ext. intros i d Hi.
  assert (zget (c_defs (contents a)) (Z.of_nat i) = Some d) as Hz by by rewrite zget_nat.
  destruct (definition_bytes_at _ _ _ _ _ _ Hem Hz) as [Hat Hb]. rewrite Nat2Z.id in Hat, Hb.
  pose proof (zlen_nonneg (def_bytes d)). unfold compose.
  set (h := section_header ctx strs (section_at ctx (c_defs (contents a)) i d)).
  assert (sh_size h = zlen (def_bytes d)) as Hsz.
  { unfold h, section_header. cbn [sh_size shdr_set_offset]. rewrite create_size.
    cbn [section_name_offset sec_size section_at as_builder].
    rewrite definition_section_size, wrap_small by (unfold in_u; lia). done. }
  assert (sh_type h = match sec_typ (definition_section d) with SecNoBits => SHT_NOBITS | _ => SHT_PROGBITS end)
    as Hty'.
  { unfold h, section_header. cbn [sh_type shdr_set_offset]. rewrite create_type.
    cbn [section_name_offset sec_typ section_at as_builder].
    pose proof (definition_type d) as Hd. by destruct (sec_typ (definition_section d)); set_solver. }
  apply read_named.
  - apply in_all_names. right; right; left. exists d. split; [by eapply list_elem_of_lookup_2|done].
  - unfold h, section_header. cbn [sh_name shdr_set_offset]. by rewrite create_name.
  - destruct (decide (sh_type h = SHT_NOBITS)) as [E8|E8].
    + assert (def_bytes d = []) as ->.
      { rewrite Hty' in E8. unfold def_bytes, def_code. destruct (d_data d) as [b|] eqn:Ed; [|done].
        pose proof (blob_type d b Ed). destruct (sec_typ (definition_section d)); done || lia. }
      unfold section_bytes, has_type. rewrite E8, Z.eqb_refl. by rewrite orb_true_r.
    + apply section_contents_at; [|done| |done].
      * rewrite Hty'. destruct (sec_typ (definition_section d)); lia.
      * unfold h, section_header. cbn [sh_offset shdr_set_offset section_at as_offset].
        rewrite wrap_small by (unfold in_u; lia). exact Hat.
Qed.

(** The relocation sections. *)
Lemma read_rela_sections :
  read_section (strtab_header ctx strs g) bs <$>
    rela_headers ctx strs g (off_reloc ctx strs g) (g_rels g) =
  zip_with (fun h r => named_section (rela_name g r.1) h
                         (concat ((fun x => ser_reloc x (true, ctx)) <$> r.2)))
    (rela_headers ctx strs g (off_reloc ctx strs g) (g_rels g)) (g_rels g).
Proof.
  pose proof SHT_values as (T0 & _ & _ & _ & T4 & T8 & _).
  pose proof (rela_headers_len ctx strs g (g_rels g) (off_reloc ctx strs g)) as Hl. unfold zlen in Hl.
  apply (list_eq_same_length _ _ (length (g_rels g))).
  { rewrite length_zip_with. lia. }
  { rewrite length_fmap. lia. }
  intros q x y _ Hx Hy. rewrite list_lookup_fmap in Hx.
  apply lookup_zip_with_Some in Hy as (h & [sh rs] & -> & Hh & Hq). rewrite Hh in Hx. injection Hx as <-.
  destruct (rela_section_at _ _ _ _ _ _ _ Hem Hq) as (hd & Hh' & Ht & _ & _ & _ & Hsz & Hn & Hat).
  rewrite Hh in Hh'. injection Hh' as <-. apply read_named; [|done|].
  - apply in_all_names. do 3 right. exists (sh, rs). split; [by eapply list_elem_of_lookup_2|done].
  - apply section_contents_at; [lia | lia | done|].
    by rewrite (zlen_concat_const _ (reloc_size true ctx)) by (intros; apply ser_reloc_len).
Qed.

(** The tables of the file, sections too. *)
Lemma read_table n h w :
  n ∈ all_names a g → sh_name h = name_off strs n → sh_type h = SHT_STRTAB ∨ sh_type h = SHT_SYMTAB ∨
    sh_type h = SHT_SYMTAB_SHNDX → at_off (sh_offset h) w bs → sh_size h = zlen w →
  read_section (strtab_header ctx strs g) bs h = named_section n h w.
Proof.
  intros Hn En Ht Hat Hsz. pose proof SHT_values as (T0 & _ & T2 & T3 & _ & T8 & T18).
  apply read_named; [done..|]. apply section_contents_at; [lia | lia | done | done].
Qed.

Lemma read_sections :
  read_section (strtab_header ctx strs g) bs <$> object_headers ctx strs g =
  file_sections ctx strs (a_name a) (contents a) g.
Proof.
  unfold object_headers, file_sections. rewrite !fmap_app, read_definition_sections, read_rela_sections.
  assert (read_section (strtab_header ctx strs g) bs (null_header g) =
    named_section "" (null_header g) []) as E0.
  { unfold read_section, section_bytes, has_type, named_section.
    assert (sh_type (null_header g) = SHT_NULL ∧ sh_name (null_header g) = 0) as [-> ->].
    { pose proof SHT_values as (-> & _). unfold null_header. rewrite shdr_default_spec.
      by destruct (needs_shndx g). }
    by rewrite Z.eqb_refl, read_no_name. }
  f_equal; [|f_equal; f_equal; [|f_equal]].
  - cbn [fmap list_fmap]. rewrite E0. f_equal. f_equal; [|f_equal].
    + apply read_table; [apply in_all_names; tauto | apply create_name | left; exact (create_type ctx _) | |].
      * rewrite emitted_image at 1. apply strtab_piece_at.
      * unfold strtab_header. cbn [sh_size shdr_set_offset]. by rewrite create_size, strtab_bytes_len.
    + apply read_table; [apply in_all_names; tauto | apply create_name | right; left; exact (create_type ctx _) | |].
      * rewrite emitted_image at 1. apply symtab_at.
      * unfold symtab_header. cbn [sh_size shdr_set_offset shdr_set_link shdr_set_info].
        by rewrite create_size, symtab_bytes_len.
  - destruct (needs_shndx g) eqn:En; [|done]. cbn [fmap list_fmap]. f_equal.
    apply read_table; [apply in_all_names; tauto | apply create_name | right; right; exact (create_type ctx _) | |].
    + rewrite emitted_image at 1. by apply shndx_at.
    + unfold shndx_header. cbn [sh_size shdr_set_offset shdr_set_link].
      rewrite create_size, shndx_bytes_len. cbn. unfold size_shndx. by rewrite En.
  - cbn [fmap list_fmap]. f_equal. apply read_named; [apply in_all_names; tauto | apply create_name|].
    unfold section_bytes. unfold note_header at 3 4. cbn [sh_size]. rewrite create_size. cbn [sec_size].
    by destruct (has_type SHT_NULL _ || has_type SHT_NOBITS _).
Qed.

Lemma parse_emitted :
  parse ctx bs = Some (elf_file_of ctx machine strs (a_name a) (contents a) g).
Proof.
  destruct (headers_of_type _ _ _ _ Hem) as (Hsym & _ & Hrel).
  assert (zget (object_headers ctx strs g) 1 = Some (strtab_header ctx strs g)) as H1
    by by apply (zget_app_l [_; _; _]).
  pose proof read_headers as Hhs. pose proof read_count as Hc.
  assert (e_shoff (file_header ctx machine strs g) = off_sh ctx strs g) as E1 by done.
  assert (e_shstrndx (file_header ctx machine strs g) = 1) as E2 by done.
  assert (sh_link (symtab_header ctx strs g) = 1) as E3 by done.
  unfold parse, elf_file_of. rewrite (bind_with _ _ _ read_file_header).
  rewrite <- E1 in Hc, Hhs. rewrite (bind_with _ _ _ Hc), (bind_with _ _ _ Hhs).
  rewrite <- E2 in H1 at 1. rewrite (bind_with _ _ _ H1), (bind_with _ _ _ Hsym).
  rewrite E2, <- E3 in H1. rewrite (bind_with _ _ _ H1), (bind_with _ _ _ read_symbol_table).
  rewrite (bind_with _ _ _ read_ext_indices), (bind_with _ _ _ read_symbols).
  pose proof read_relocs as Hrs. rewrite <- Hrel in Hrs. rewrite (bind_with _ _ _ Hrs).
  by rewrite read_sections.
Qed.
End Emitted.

(** C35: reading the file back.  Parsing an emitted file whose fields have
    their widths and whose names have no zero byte yields exactly what the
    artifact stands for: the header for its machine; after the null section and
    the two tables, a section per definition, under its name, with its bytes,
    in the order of the definitions; the relocation sections; the stack note;
    the symbols of the sections, the definitions and the imports under their
    names, with the index of their section even when that exceeds 16 bits; and
    the relocations of the links, section by section. *)
Theorem elf_parse_roundtrip (a : Artifact) (machine : Z) (g : AbsElf) (bs : list byte)
  (Hem : elf_emitted a machine g bs)
  (Hty : contents_typed (make_ctx (a_target a)) (contents a))
  (Hff : fits_fields a g)
  (Hnul : Forall no_nul (all_names a g)) :
  to_bytes a = Ok bs ∧
  parse (make_ctx (a_target a)) bs =
    Some (elf_file_of (make_ctx (a_target a)) machine (file_strings a g) (a_name a) (contents a) g).
Proof. split; [apply Hem | by apply parse_emitted]. Qed.
End RoundTrip.

Section Witnesses.
Import ConcreteInstances.
#[local] Instance parse_profile : Profile := true.
#[local] Existing Instance elf_read.
#[local] Existing Instance elf_read_laws.

Lemma elf_demo_typed : contents_typed (make_ctx (a_target elf_demo)) (contents elf_demo).
Proof.
  split.
  - let l := eval vm_compute in (c_defs (contents elf_demo)) in
    replace (c_defs (contents elf_demo)) with l by (by vm_compute).
    repeat constructor; cbn; lia.
  - let l := eval vm_compute in (c_links (contents elf_demo)) in
    replace (c_links (contents elf_demo)) with l by (by vm_compute).
    repeat constructor; cbn; lia.
Qed.

Lemma elf_demo_fields : fits_fields elf_demo elf_demo_object.
Proof. split; by vm_compute. Qed.

Lemma elf_demo_names : Forall no_nul (all_names elf_demo elf_demo_object).
Proof.
  let l := eval vm_compute in (all_names elf_demo elf_demo_object) in
  replace (all_names elf_demo elf_demo_object) with l by (by vm_compute).
  repeat constructor; apply (bool_decide_unpack _); by vm_compute.
Qed.

Lemma elf_fields_typed_witness :
  Forall (shdr_typed (make_ctx (a_target elf_demo)))
    (object_headers (make_ctx (a_target elf_demo)) (file_strings elf_demo elf_demo_object)
       elf_demo_object).
Proof.
  destruct (elf_fields_typed _ _ _ _ elf_demo_emitted elf_demo_typed elf_demo_fields) as (_ & H & _).
  exact H.
Defined.

(** Parsing the program finds its names. *)
Lemma elf_parse_roundtrip_witness :
  ∃ f, parse (make_ctx (a_target elf_demo)) elf_demo_bytes = Some f ∧
    rs_name <$> ef_sections f = bytes_of <$>
      [""; ".strtab"; ".symtab"; ".text.helper"; ".rodata.msg"; ".text.main"; ".rela.text.main";
       ".rela.text.helper"; ".note.GNU-stack"]%string ∧
    (fun s => (rs_symbol_name s, rs_shndx s)) <$> ef_symbols f =
      [([], 0); (bytes_of "test.o", 65521); ([], 3); ([], 4); ([], 5); (bytes_of "helper", 3);
       (bytes_of "msg", 4); (bytes_of "main", 5); (bytes_of "puts", 0)] ∧
    ef_relocs f = [(5, [mkElfReloc 1 (Some (-4)) 2 4; mkElfReloc 1 (Some (-4)) 8 4]);
                   (3, [mkElfReloc 0 (Some (-4)) 3 2])].
Proof.
  destruct (elf_parse_roundtrip _ _ _ _ elf_demo_emitted elf_demo_typed elf_demo_fields elf_demo_names)
    as [_ H].
  eexists. split; [exact H|]. split_and!; vm_compute; reflexivity.
Defined.
End Witnesses.
