(* ===== verification/MachBuild.v ===== *)
(** * Builders of the Mach-O backend ([src/mach.rs], first part)

    [CpuType], [align_to_align_exp], [SymbolBuilder], [RelocationBuilder],
    [SectionBuilder] and [SymbolTable]. *)

From stdpp Require Import base numbers list gmap strings.
From Stdlib Require Import ZArith Lia Strings.Byte.
From S2P Require Import Prelude Std External Decl Artifact.

Definition CODE_SECTION_INDEX : Z := 0.
Definition DATA_SECTION_INDEX : Z := 1.
Definition CSTRING_SECTION_INDEX : Z := 2.
Definition BSS_SECTION_INDEX : Z := 3.
Definition NUM_DEFAULT_SECTIONS : Z := 4.

(** The loop [while 1 << align_exp != align { align_exp += 1 }]; a [u64] has 64
    powers of two, so 64 rounds find the exponent of any of them. *)
Fixpoint align_exp_loop (fuel : nat) (align align_exp : Z) : option Z :=
  match fuel with
  | O => None
  | S fuel =>
      if u64 (Z.shiftl 1 align_exp) =? align then Some align_exp
      else align_exp_loop fuel align (align_exp + 1)
  end.

Definition align_to_align_exp {E} (align : Z) : outcome E Z :=
  do! assert_ (negb (align =? 0)) "assertion failed: align != 0" in
  do! assert_ (is_power_of_two align) "assertion failed: align.is_power_of_two()" in
  expect (align_exp_loop 64 align 0) "loop does not end".

Section MachBuild.
Context {GM : GoblinMach} {SI : StringInterner} {IM : IndexMapOps}.

(** [impl From<Architecture> for CpuType] *)
Definition CpuType_from {E} (a : Architecture) : outcome E Z :=
  match a with
  | X86_64 => Ok CPU_TYPE_X86_64
  | X86_32 => Ok CPU_TYPE_X86
  | Aarch64 => Ok CPU_TYPE_ARM64
  | Arm => Ok CPU_TYPE_ARM
  | Sparc => Ok CPU_TYPE_SPARC
  | Powerpc => Ok CPU_TYPE_POWERPC
  | Powerpc64 | Powerpc64le => Ok CPU_TYPE_POWERPC64
  | Unknown_arch => Ok 0
  | _ => Panic "requested architecture does not exist in MachO"
  end.

(** ** Symbols *)
Record SymbolBuilder := mkSymbolBuilder {
  sb_name : Z; sb_section : option Z; sb_global : bool; sb_import : bool; sb_offset : Z;
  sb_segment_relative_offset : Z
}.

Definition SymbolBuilder_new (name : Z) : SymbolBuilder := mkSymbolBuilder name None false false 0 0.
Definition symbol_section (i : Z) (b : SymbolBuilder) : SymbolBuilder :=
  mkSymbolBuilder (sb_name b) (Some i) (sb_global b) (sb_import b) (sb_offset b)
    (sb_segment_relative_offset b).
Definition symbol_global (g : bool) (b : SymbolBuilder) : SymbolBuilder :=
  mkSymbolBuilder (sb_name b) (sb_section b) g (sb_import b) (sb_offset b)
    (sb_segment_relative_offset b).
Definition symbol_offset (o : Z) (b : SymbolBuilder) : SymbolBuilder :=
  mkSymbolBuilder (sb_name b) (sb_section b) (sb_global b) (sb_import b) o
    (sb_segment_relative_offset b).
Definition symbol_relative_offset (o : Z) (b : SymbolBuilder) : SymbolBuilder :=
  mkSymbolBuilder (sb_name b) (sb_section b) (sb_global b) (sb_import b) (sb_offset b) o.
Definition get_segment_relative_offset (b : SymbolBuilder) : Z := sb_segment_relative_offset b.
Definition symbol_import (b : SymbolBuilder) : SymbolBuilder :=
  mkSymbolBuilder (sb_name b) (sb_section b) (sb_global b) true (sb_offset b)
    (sb_segment_relative_offset b).

(** [SymbolBuilder::create] *)
Definition SymbolBuilder_create (b : SymbolBuilder) : Nlist :=
  let n_strx := sb_name b in
  let n_sect := 0 in
  let n_type := N_UNDF in
  let n_value := sb_offset b in
  let n_desc := 0 in
  let n_type := if sb_global b then Z.lor n_type N_EXT else Z.land n_type (u8 (Z.lnot N_EXT)) in
  let '(n_sect, n_type) :=
    match sb_section b with
    | Some idx => (u64 (idx + 1), Z.lor n_type N_SECT)
    | None => (n_sect, n_type)
    end in
  let '(n_sect, n_type, n_value) :=
    if sb_import b then (NO_SECT, N_EXT, 0) else (n_sect, Z.lor n_type N_SECT, n_value) in
  mkNlist n_strx n_type n_sect n_desc n_value.

(** ** Relocations *)
Record RelocationBuilder := mkRelocationBuilder {
  rb_symbol : Z; rb_relocation_offset : Z; rb_absolute : bool; rb_size : Z; rb_r_type : Z
}.

Definition RelocationBuilder_new (symbol relocation_offset r_type : Z) : RelocationBuilder :=
  mkRelocationBuilder symbol relocation_offset false 0 r_type.
Definition reloc_absolute (b : RelocationBuilder) : RelocationBuilder :=
  mkRelocationBuilder (rb_symbol b) (rb_relocation_offset b) true (rb_size b) (rb_r_type b).
Definition reloc_set_size (size : Z) (b : RelocationBuilder) : RelocationBuilder :=
  mkRelocationBuilder (rb_symbol b) (rb_relocation_offset b) (rb_absolute b) size (rb_r_type b).

(** [RelocationBuilder::create] *)
Definition RelocationBuilder_create {E} (b : RelocationBuilder) : outcome E RelocationInfo :=
  let r_symbolnum := u32 (rb_symbol b) in
  let r_pcrel := u32 (Z.shiftl (if rb_absolute b then 0 else 1) 24) in
  let! length :=
    if rb_size b =? 0 then Ok (if rb_absolute b then 3 else 2)
    else if rb_size b =? 4 then Ok 2
    else if rb_size b =? 8 then Ok 3
    else Panic "unsupported relocation size" in
  let r_length := u32 (Z.shiftl length 25) in
  let r_extern := u32 (Z.shiftl 1 27) in
  let r_type := u32 (Z.shiftl (rb_r_type b) 28) in
  let r_info := Z.lor (Z.lor (Z.lor (Z.lor r_symbolnum r_pcrel) r_length) r_extern) r_type in
  Ok (mkRelocationInfo (i32 (rb_relocation_offset b)) r_info).

(** ** Sections *)
Record SectionBuilder := mkSectionBuilder {
  sec_addr : Z; sec_align : Z; sec_offset : Z; sec_size : Z; sec_flags : Z; sec_sectname : string;
  sec_segname : string; sec_relocations : list RelocationInfo
}.

Definition SectionBuilder_new (sectname segname : string) (size : Z) : SectionBuilder :=
  mkSectionBuilder 0 4 0 size S_REGULAR sectname segname [].
Definition section_addr (x : Z) (b : SectionBuilder) : SectionBuilder :=
  mkSectionBuilder x (sec_align b) (sec_offset b) (sec_size b) (sec_flags b) (sec_sectname b)
    (sec_segname b) (sec_relocations b).
Definition section_offset (x : Z) (b : SectionBuilder) : SectionBuilder :=
  mkSectionBuilder (sec_addr b) (sec_align b) x (sec_size b) (sec_flags b) (sec_sectname b)
    (sec_segname b) (sec_relocations b).
Definition section_align (x : Z) (b : SectionBuilder) : SectionBuilder :=
  mkSectionBuilder (sec_addr b) x (sec_offset b) (sec_size b) (sec_flags b) (sec_sectname b)
    (sec_segname b) (sec_relocations b).
Definition section_flags (x : Z) (b : SectionBuilder) : SectionBuilder :=
  mkSectionBuilder (sec_addr b) (sec_align b) (sec_offset b) (sec_size b) x (sec_sectname b)
    (sec_segname b) (sec_relocations b).
(** [section.relocations.push(r)] *)
Definition section_push (r : RelocationInfo) (b : SectionBuilder) : SectionBuilder :=
  mkSectionBuilder (sec_addr b) (sec_align b) (sec_offset b) (sec_size b) (sec_flags b)
    (sec_sectname b) (sec_segname b) (sec_relocations b ++ [r]).

(** [SectionBuilder::create]: the section and the two offsets after it *)
Definition SectionBuilder_create {SC : Scroll} {E} (b : SectionBuilder)
  (section_offset relocation_offset : Z) : outcome E (MachSection * Z * Z) :=
  let! sectname := expect (pwrite_str 16 (sec_sectname b)) "unwrap" in
  let! segname := expect (pwrite_str 16 (sec_segname b)) "unwrap" in
  let offset := u32 section_offset in
  let section_offset := u64 (section_offset + sec_size b) in
  let '(reloff, nreloc, relocation_offset) :=
    match sec_relocations b with
    | [] => (0, 0, relocation_offset)
    | _ =>
        let nrelocs := zlen (sec_relocations b) in
        (u32 relocation_offset, u32 nrelocs,
         u64 (relocation_offset + u64 (nrelocs * SIZEOF_RELOCATION_INFO)))
    end in
  Ok (mkMachSection sectname segname (sec_addr b) (sec_size b) offset (u32 (sec_align b))
        reloff nreloc (sec_flags b), section_offset, relocation_offset).

(** ** The symbol table *)
Record SymbolTable := mkSymbolTable {
  stab_symbols : IndexMap Z SymbolBuilder;
  stab_strtable : si_t;
  stab_indexes : IndexMap Z Z;
  stab_strtable_size : Z
}.

Inductive SymbolType :=
| Sym_Defined (section absolute_offset segment_relative_offset : Z) (global : bool)
| Sym_Undefined.

(** [impl Default for SymbolTable] *)
Definition SymbolTable_default : SymbolTable := mkSymbolTable im_new si_new im_new 0.

Definition SymbolTable_new : SymbolTable :=
  let '(strtable, _) := si_get_or_intern si_new "" in
  mkSymbolTable im_new strtable im_new 1.

Definition SymbolTable_len (t : SymbolTable) : Z := im_len (stab_symbols t).
Definition sizeof_strtable (t : SymbolTable) : Z := stab_strtable_size t.

(** [SymbolTable::offset] *)
Definition SymbolTable_offset (t : SymbolTable) (symbol_name : string) : option Z :=
  idx ← si_get (stab_strtable t) symbol_name;
  sym ← im_get (stab_symbols t) idx;
  Some (get_segment_relative_offset sym).

(** [SymbolTable::index] *)
Definition SymbolTable_index (t : SymbolTable) (symbol_name : string) : option Z :=
  idx ← si_get (stab_strtable t) symbol_name; im_get (stab_indexes t) idx.

(** [SymbolTable::insert] *)
Definition insert (t : SymbolTable) (symbol_name : string) (kind : SymbolType) : SymbolTable :=
  let name := symbol_name in
  let name_len := u64 (str_len name + 1 + 1) in
  let last_index := si_len (stab_strtable t) in
  let '(strtable, name_index) := si_get_or_intern (stab_strtable t) name in
  if name_index =? last_index then
    let builder :=
      match kind with
      | Sym_Undefined => symbol_import (symbol_global true (SymbolBuilder_new (stab_strtable_size t)))
      | Sym_Defined section absolute_offset segment_relative_offset global =>
          symbol_section section (symbol_relative_offset segment_relative_offset
            (symbol_offset absolute_offset (symbol_global global
               (SymbolBuilder_new (stab_strtable_size t)))))
      end in
    let symbols := im_insert name_index builder (stab_symbols t) in
    let indexes := im_insert name_index (u64 (im_len symbols - 1)) (stab_indexes t) in
    mkSymbolTable symbols strtable indexes (u64 (stab_strtable_size t + name_len))
  else mkSymbolTable (stab_symbols t) strtable (stab_indexes t) (stab_strtable_size t).
End MachBuild.
