(* ===== verification/MachState.v ===== *)
(** * The Mach-O object under construction ([src/mach.rs], middle part)

    [SegmentBuilder] with [build_section] and [build_custom_section],
    [build_relocations] and [Mach::new]. *)

From stdpp Require Import base numbers list gmap strings.
From Stdlib Require Import ZArith Lia Strings.Byte.
From S2P Require Import Prelude Std External Decl Artifact Target MachBuild.

Record SegmentBuilder {IM : IndexMapOps} := mkSegmentBuilder {
  sg_sections : IndexMap string SectionBuilder;
  sg_offset : Z;
  sg_size : Z;
  sg_align_pad_map : gmap string Z
}.
Arguments mkSegmentBuilder {IM} _ _ _ _.

(** What [SegmentBuilder::new] passes by mutable reference to the functions
    that build sections: the symbol table, the sections, the running offsets
    ([size] is passed as [addr]) and the padding. *)
Record SegState {SI : StringInterner} {IM : IndexMapOps} := mkSegState {
  ss_symtab : SymbolTable;
  ss_sections : IndexMap string SectionBuilder;
  ss_offset : Z;
  ss_addr : Z;
  ss_symbol_offset : Z;
  ss_align_pad_map : gmap string Z
}.
Arguments mkSegState {SI IM} _ _ _ _ _ _.

(** The variables of the loop in [build_section]. *)
Record SecState {SI : StringInterner} {IM : IndexMapOps} := mkSecState {
  sl_symtab : SymbolTable;
  sl_symbol_offset : Z;
  sl_section_relative_offset : Z;
  sl_local_size : Z;
  sl_alignment_exponent : Z;
  sl_align_pad_map : gmap string Z
}.
Arguments mkSecState {SI IM} _ _ _ _ _ _.

Record Mach {SI : StringInterner} {IM : IndexMapOps} := mkMach {
  m_ctx : Ctx;
  m_architecture : Architecture;
  m_symtab : SymbolTable;
  m_segment : SegmentBuilder;
  m_code : list Definition_;
  m_data : list Definition_;
  m_bss_size : Z;
  m_cstrings : list Definition_;
  m_sections : list Definition_
}.
Arguments mkMach {SI IM} _ _ _ _ _ _ _ _ _.

(** [align_pad]: the bytes from an offset to the next multiple of [2^exp]. *)
Definition align_pad (offset exp : Z) : Z :=
  let pad := Z.shiftl 1 exp - offset mod Z.shiftl 1 exp in
  if pad =? Z.shiftl 1 exp then 0 else pad.

(** The exponent the definition after the current one asks for. *)
Definition next_alignment_exponent {E} (min_alignment_exponent : Z) (rest : list Definition_) :
  outcome E Z :=
  let! e := match rest with
            | def :: _ => align_to_align_exp (default 1 (DefinedDecl_get_align (d_decl def)))
            | [] => Ok 0
            end in
  Ok (Z.max min_alignment_exponent e).

Section MachState.
Context {TL : TargetLexicon} {SI : StringInterner} {IM : IndexMapOps}.
Context {G : GoblinElf} {GM : GoblinMach} {P : Profile}.

(** [SegmentBuilder::size], [load_command_size] *)
Definition SegmentBuilder_size (s : SegmentBuilder) : Z := sg_size s.
Definition load_command_size (s : SegmentBuilder) (ctx : Ctx) : Z :=
  u64 (segment_size ctx + u64 (im_len (sg_sections s) * mach_section_size ctx)).
Definition section_data_file_offset (s : SegmentBuilder) (ctx : Ctx) : Z :=
  u64 (mach_header_size (container ctx) + load_command_size s ctx).

(** The body of the loop of [build_section]. *)
Definition build_section_step {E} (section min_alignment_exponent : Z) (def : Definition_)
  (rest : list Definition_) (s : SecState) : outcome E SecState :=
  if DefinedDecl_is_section (d_decl def) then Panic "internal error: entered unreachable code"
  else
    let symtab := insert (sl_symtab s) (d_name def)
      (Sym_Defined section (sl_symbol_offset s) (sl_section_relative_offset s)
         (is_global (d_decl def))) in
    let size := file_size (d_data def) in
    let symbol_offset := u64 (sl_symbol_offset s + size) in
    let section_relative_offset := u64 (sl_section_relative_offset s + size) in
    let local_size := u64 (sl_local_size s + size) in
    let! next_def_alignment_exponent := next_alignment_exponent min_alignment_exponent rest in
    let alignment_exponent := Z.max (sl_alignment_exponent s) next_def_alignment_exponent in
    let pad := align_pad section_relative_offset next_def_alignment_exponent in
    Ok (mkSecState symtab (u64 (symbol_offset + pad)) (u64 (section_relative_offset + pad))
          (u64 (local_size + pad)) alignment_exponent
          (<[d_name def := pad]> (sl_align_pad_map s))).

Fixpoint build_section_loop {E} (section min_alignment_exponent : Z)
  (definitions : list Definition_) (s : SecState) : outcome E SecState :=
  match definitions with
  | [] => Ok s
  | def :: rest =>
      let! s := build_section_step section min_alignment_exponent def rest s in
      build_section_loop section min_alignment_exponent rest s
  end.

(** [SegmentBuilder::build_section] *)
Definition build_section {E} (sectname segname : string) (section : Z)
  (definitions : list Definition_) (min_alignment_exponent : Z) (flags : option Z)
  (s : SegState) : outcome E SegState :=
  let! r := build_section_loop section min_alignment_exponent definitions
    (mkSecState (ss_symtab s) (ss_symbol_offset s) 0 0 min_alignment_exponent
       (ss_align_pad_map s)) in
  let local_size := sl_local_size r in
  let sec := section_align (sl_alignment_exponent r) (section_addr (ss_addr s)
    (section_offset (ss_offset s) (SectionBuilder_new sectname segname local_size))) in
  let sec := match flags with Some flags => section_flags flags sec | None => sec end in
  Ok (mkSegState (sl_symtab r) (im_insert sectname sec (ss_sections s))
        (u64 (ss_offset s + local_size)) (u64 (ss_addr s + local_size))
        (sl_symbol_offset r) (sl_align_pad_map r)).

(** The name of a custom section in the file. *)
Definition custom_sectname (name : string) : string :=
  if String.prefix ".debug" name
  then "__debug" +:+ String.substring 6 (String.length name - 6) name
  else name.

Definition custom_segment_name (k : SectionKind) : string :=
  match k with SK_Data => "__DATA" | SK_Debug => "__DWARF" | SK_Text => "__TEXT" end.

(** [SegmentBuilder::build_custom_section] *)
Definition build_custom_section {E} (section_idx : Z) (def : Definition_) (s : SegState) :
  outcome E SegState :=
  match d_decl def with
  | DD_Section sd =>
      let segment_name := custom_segment_name (SectionDecl_kind sd) in
      let sectname := custom_sectname (d_name def) in
      let flags := match SectionDecl_kind sd with SK_Debug => Z.lor 0 S_ATTR_DEBUG | _ => 0 end in
      let symtab := fold_left (fun symtab '(symbol, symbol_dst_offset) =>
        insert symtab symbol (Sym_Defined section_idx
          (u64 (ss_symbol_offset s + symbol_dst_offset)) symbol_dst_offset true))
        (d_symbols def) (ss_symtab s) in
      let local_size := u64 (file_size (d_data def)) in
      let! align := align_to_align_exp (default 1 (get_align sd)) in
      let sec := section_flags flags (section_align align (section_addr (ss_addr s)
        (section_offset (ss_offset s) (SectionBuilder_new sectname segment_name local_size)))) in
      Ok (mkSegState symtab (im_insert (d_name def) sec (ss_sections s))
            (u64 (ss_offset s + local_size)) (u64 (ss_addr s + local_size))
            (u64 (ss_symbol_offset s + local_size)) (ss_align_pad_map s))
  | _ => Panic "in build_custom_section: def.decl != Section"
  end.

(** [SegmentBuilder::new]: the segment and the symbol table it filled *)
Definition SegmentBuilder_new {E} (artifact : Artifact)
  (code blob_data zeroed_data cstrings custom_sections : list Definition_)
  (symtab : SymbolTable) (ctx : Ctx) : outcome E (SegmentBuilder * SymbolTable) :=
  let s := mkSegState symtab im_new (mach_header_size (container ctx)) 0 0 ∅ in
  let! s := build_section "__text" "__TEXT" CODE_SECTION_INDEX code 4
    (Some (Z.lor S_ATTR_PURE_INSTRUCTIONS S_ATTR_SOME_INSTRUCTIONS)) s in
  let! s := build_section "__data" "__DATA" DATA_SECTION_INDEX blob_data 3 None s in
  let! s := build_section "__cstring" "__TEXT" CSTRING_SECTION_INDEX cstrings 0
    (Some S_CSTRING_LITERALS) s in
  let! s := build_section "__bss" "__DATA" BSS_SECTION_INDEX zeroed_data 0 (Some S_ZEROFILL) s in
  let! s := ofold (fun s '(idx, def) => build_custom_section (idx + NUM_DEFAULT_SECTIONS) def s)
    s (enumerate custom_sections) in
  let! symtab := ofold (fun symtab import =>
      let! '(import, _) := import in Ok (insert symtab import Sym_Undefined))
    (ss_symtab s) (imports artifact) in
  Ok (mkSegmentBuilder (ss_sections s) (ss_offset s) (ss_addr s) (ss_align_pad_map s), symtab).

(** ** [build_relocations] *)

(** The pair [(absolute, reloc)] of a link that is not [Reloc::Debug]. *)
Definition link_reloc {E} (l : LinkAndDecl) : outcome E (bool * Z) :=
  match l_reloc l with
  | Auto =>
      match b_decl (l_from l), b_decl (l_to l) with
      | Defined (DD_Section s), to =>
          match SectionDecl_kind s, to with
          | SK_Debug, _ => Panic "must use Reloc::Debug for debug section links"
          | _, Defined (DD_Section s') =>
              match SectionDecl_kind s' with
              | SK_Debug => Panic "invalid DebugSection link"
              | _ => Panic "relocations are not yet supported for custom sections"
              end
          | _, _ => Panic "relocations are not yet supported for custom sections"
          end
      | _, Defined (DD_Section s) =>
          match SectionDecl_kind s with
          | SK_Debug => Panic "invalid DebugSection link"
          | _ => Panic "relocations are not yet supported for custom sections"
          end
      | Defined (DD_Data _), _ => Ok (true, X86_64_RELOC_UNSIGNED)
      | Defined (DD_Function _), Defined (DD_Function _)
      | Defined (DD_Function _), Import IK_Function => Ok (false, X86_64_RELOC_BRANCH)
      | Defined (DD_Function _), Defined (DD_Data _) => Ok (false, X86_64_RELOC_SIGNED)
      | Defined (DD_Function _), Import IK_Data => Ok (false, X86_64_RELOC_GOT_LOAD)
      | Import _, _ => Panic "Tried to relocate import???"
      end
  | Raw reloc addend =>
      do! debug_assert (reloc <=? 255) "reloc <= u8::max_value()" in
      do! assert_ (addend =? 0) "assertion failed: addend == 0" in
      if u8 reloc =? R_ABS then Ok (true, R_ABS) else Ok (false, u8 reloc)
  | Debug _ _ => Panic "not reached"
  end.

(** One link. *)
Definition build_relocation {E} (symtab : SymbolTable) (text_idx data_idx : Z)
  (sections : IndexMap string SectionBuilder) (l : LinkAndDecl) :
  outcome E (IndexMap string SectionBuilder) :=
  match l_reloc l with
  | Debug size _ =>
      if is_section (b_decl (l_to l)) then Ok sections
      else
        match SymbolTable_index symtab (b_name (l_to l)) with
        | Some to_symbol_index =>
            let builder := reloc_set_size size (reloc_absolute
              (RelocationBuilder_new to_symbol_index (l_at l) X86_64_RELOC_UNSIGNED)) in
            do! expect (im_get sections (b_name (l_from l))) "IndexMap: key not found" in
            let! r := RelocationBuilder_create builder in
            Ok (im_modify (section_push r) (b_name (l_from l)) sections)
        | None => Ok sections
        end
  | _ =>
      let! '(absolute, reloc) := link_reloc l in
      match SymbolTable_offset symtab (b_name (l_from l)),
            SymbolTable_index symtab (b_name (l_to l)) with
      | Some base_offset, Some to_symbol_index =>
          let builder :=
            RelocationBuilder_new to_symbol_index (u64 (base_offset + l_at l)) reloc in
          let idx := if absolute then data_idx else text_idx in
          do! expect (im_get_index sections idx) "unwrap" in
          let! r := RelocationBuilder_create (if absolute then reloc_absolute builder else builder) in
          Ok (im_modify_index (section_push r) idx sections)
      | _, _ => Ok sections
      end
  end.

Definition build_relocations {E} (segment : SegmentBuilder) (artifact : Artifact)
  (symtab : SymbolTable) : outcome E SegmentBuilder :=
  let! '(text_idx, _, _) := expect (im_get_full (sg_sections segment) "__text"%string) "unwrap" in
  let! '(data_idx, _, _) := expect (im_get_full (sg_sections segment) "__data"%string) "unwrap" in
  let! sections := ofold (fun sections link =>
      let! link := link in build_relocation symtab text_idx data_idx sections link)
    (sg_sections segment) (links artifact) in
  Ok (mkSegmentBuilder sections (sg_offset segment) (sg_size segment) (sg_align_pad_map segment)).

(** ** [Mach::new] *)

(** The definitions by the section they go to. *)
Record Partition := mkPartition {
  pt_code : list Definition_; pt_data : list Definition_; pt_bss : list Definition_;
  pt_cstrings : list Definition_; pt_sections : list Definition_; pt_bss_size : Z
}.

Definition partition_def (p : Partition) (def : Definition_) : Partition :=
  match d_decl def with
  | DD_Function _ => mkPartition (pt_code p ++ [def]) (pt_data p) (pt_bss p) (pt_cstrings p)
                       (pt_sections p) (pt_bss_size p)
  | DD_Data d =>
      match d_data def with
      | ZeroInit size => mkPartition (pt_code p) (pt_data p) (pt_bss p ++ [def]) (pt_cstrings p)
                           (pt_sections p) (u64 (pt_bss_size p + size))
      | Blob _ =>
          match get_datatype d with
          | DT_String => mkPartition (pt_code p) (pt_data p) (pt_bss p) (pt_cstrings p ++ [def])
                           (pt_sections p) (pt_bss_size p)
          | DT_Bytes => mkPartition (pt_code p) (pt_data p ++ [def]) (pt_bss p) (pt_cstrings p)
                          (pt_sections p) (pt_bss_size p)
          end
      end
  | DD_Section _ => mkPartition (pt_code p) (pt_data p) (pt_bss p) (pt_cstrings p)
                      (pt_sections p ++ [def]) (pt_bss_size p)
  end.

Definition Mach_new {E} (artifact : Artifact) : outcome E Mach :=
  let ctx := make_ctx (a_target artifact) in
  let! p := ofold (fun p def => let! def := def in Ok (partition_def p def))
              (mkPartition [] [] [] [] [] 0) (definitions artifact) in
  let! '(segment, symtab) := SegmentBuilder_new artifact (pt_code p) (pt_data p) (pt_bss p)
    (pt_cstrings p) (pt_sections p) SymbolTable_new ctx in
  let! segment := build_relocations segment artifact symtab in
  Ok (mkMach ctx (architecture (a_target artifact)) symtab segment (pt_code p) (pt_data p)
        (pt_bss_size p) (pt_cstrings p) (pt_sections p)).
End MachState.
