(* ===== verification/MachWrite.v ===== *)
(** * Writing the Mach-O object ([src/mach.rs], [Mach::write] and [to_bytes])

    [write] is split as the source's comments split it.  The file is only ever
    appended to. *)

From stdpp Require Import base numbers list gmap strings.
From Stdlib Require Import ZArith Lia Strings.Byte.
From S2P Require Import Prelude Std External Decl Artifact Target MachBuild MachState.

(** The values computed before anything is written. *)
Record MachLayout := mkMachLayout {
  ml_sizeof_load_commands : Z; ml_symtable_offset : Z; ml_strtable_offset : Z;
  ml_relocation_offset_start : Z; ml_first_section_offset : Z
}.

Section MachWrite.
Context {TL : TargetLexicon} {SI : StringInterner} {IM : IndexMapOps}.
Context {G : GoblinElf} {GM : GoblinMach} {SC : Scroll} {OS : OsFile} {P : Profile}.

Definition compute_layout (m : Mach) : MachLayout :=
  let segment_load_command_size := load_command_size (m_segment m) (m_ctx m) in
  let sizeof_load_commands :=
    u64 (segment_load_command_size + sc_cmdsize SymtabCommand_new) in
  let symtable_offset := u64 (sg_offset (m_segment m) + sizeof_load_commands) in
  let strtable_offset :=
    u64 (symtable_offset + u64 (SymbolTable_len (m_symtab m) * nlist_size (m_ctx m))) in
  let relocation_offset_start := u64 (strtable_offset + sizeof_strtable (m_symtab m)) in
  let first_section_offset :=
    u64 (mach_header_size (container (m_ctx m)) + sizeof_load_commands) in
  mkMachLayout sizeof_load_commands symtable_offset strtable_offset relocation_offset_start
    first_section_offset.

(** [Mach::header] *)
Definition header {E} (m : Mach) (sizeofcmds : Z) : outcome E MachHeader :=
  let! cputype := CpuType_from (m_architecture m) in
  Ok (mkMachHeader MH_OBJECT MH_SUBSECTIONS_VIA_SYMBOLS cputype 3 2 (u32 sizeofcmds)).

(** The loop that marshals the sections. *)
Definition marshal_sections {E} (m : Mach) (lo : MachLayout) : outcome E (list byte) :=
  let! '(raw_sections, _, _) :=
    ofold (fun '(raw, section_offset, relocation_offset) '(_, section) =>
      let! '(header, section_offset, relocation_offset) :=
        SectionBuilder_create section section_offset relocation_offset in
      Ok (write_all (ser_mach_section header (m_ctx m)) raw, section_offset, relocation_offset))
    (Cursor_new, ml_first_section_offset lo, ml_relocation_offset_start lo)
    (im_iter (sg_sections (m_segment m))) in
  Ok (cur_buf raw_sections).

Definition segment_command (m : Mach) (lo : MachLayout) (raw_sections : list byte) : Segment :=
  let s := Segment_new (m_ctx m) raw_sections in
  let filesize := SegmentBuilder_size (m_segment m) in
  mkSegment (seg_cmdsize s) (u64 (filesize + m_bss_size m)) (ml_first_section_offset lo) filesize
    7 7 (u32 (im_len (sg_sections (m_segment m)))).

Definition symtab_command (m : Mach) (lo : MachLayout) : SymtabCommand :=
  mkSymtabCommand (sc_cmdsize SymtabCommand_new) (u32 (ml_symtable_offset lo))
    (u32 (SymbolTable_len (m_symtab m))) (u32 (ml_strtable_offset lo))
    (u32 (sizeof_strtable (m_symtab m))).

(** The padding after a definition: [for _ in 0..align_pad { write(byte) }]. *)
Definition write_pad (m : Mach) (b : byte) (name : string) (c : Cursor) : Cursor :=
  match sg_align_pad_map (m_segment m) !! name with
  | Some align_pad => Nat.iter (Z.to_nat align_pad) (write_all [b]) c
  | None => c
  end.

(** A definition that must have bytes, and one that may not. *)
Definition write_blob {E} (m : Mach) (b : byte) (c : Cursor) (def : Definition_) :
  outcome E Cursor :=
  match d_data def with
  | Blob bytes => Ok (write_pad m b (d_name def) (write_all bytes c))
  | ZeroInit _ => Panic "internal error: entered unreachable code"
  end.

Definition write_data (m : Mach) (c : Cursor) (def : Definition_) : Cursor :=
  let c := match d_data def with Blob bytes => write_all bytes c | ZeroInit _ => c end in
  write_pad m xaa (d_name def) c.

(** The string table: an empty string, then every name with an underscore. *)
Definition write_strtable (m : Mach) (c : Cursor) : Cursor :=
  fold_left (fun c '(_, string) =>
      write_all [x00] (write_all (bytes_of string) (write_all [x5f] c)))
    (drop 1 (si_iter (stab_strtable (m_symtab m)))) (write_all [x00] c).

(** The symbol table. *)
Definition write_symtable (m : Mach) (c : Cursor) : Cursor :=
  fold_left (fun c '(_, symbol) =>
      write_all (ser_nlist (SymbolBuilder_create symbol) (m_ctx m)) c)
    (im_iter (stab_symbols (m_symtab m))) c.

(** The relocations of every section. *)
Definition write_relocations (m : Mach) (c : Cursor) : Cursor :=
  fold_left (fun c '(_, section) =>
      fold_left (fun c reloc => write_all (ser_relocation reloc (le (m_ctx m))) c)
        (sec_relocations section) c)
    (im_iter (sg_sections (m_segment m))) c.

(** [Mach::write] *)
Definition write {E} (m : Mach) : outcome E (list byte) :=
  let lo := compute_layout m in
  let! header := header m (ml_sizeof_load_commands lo) in
  let! raw_sections := marshal_sections m lo in
  let segment_load_command := segment_command m lo raw_sections in
  do! assert_ (ml_symtable_offset lo =?
      u64 (sg_offset (m_segment m) + seg_cmdsize segment_load_command +
           sc_cmdsize SymtabCommand_new)) "symtable_offset" in
  let symtab_load_command := symtab_command m lo in
  let c := write_all (ser_mach_header header (m_ctx m)) Cursor_new in
  let c := write_all (ser_segment segment_load_command (m_ctx m)) c in
  let c := write_all raw_sections c in
  let c := write_all (ser_symtab_command symtab_load_command (le (m_ctx m))) c in
  let! c := ofold (write_blob m xcc) c (m_code m) in
  let c := fold_left (write_data m) (m_data m) c in
  let! c := ofold (write_blob m xaa) c (m_cstrings m) in
  let! c := ofold (write_blob m xaa) c (m_sections m) in
  let c := write_symtable m c in
  let c := write_strtable m c in
  let c := write_relocations m c in
  let c := write_all [x00] c in
  Ok (cur_buf c).

(** [mach::to_bytes] *)
Definition to_bytes (artifact : Artifact) : outcome io_error (list byte) :=
  let! mach := Mach_new artifact in
  write mach.
End MachWrite.
