(* ===== verification/Emit.v ===== *)
(** * Emission ([src/artifact.rs], [emit] and [write])

    [emit] refuses artifacts with undefined symbols, then runs the backend of
    the binary format. *)

From stdpp Require Import base numbers list gmap strings.
From Stdlib Require Import ZArith Lia Strings.Byte.
From S2P Require Import Prelude Std External Decl Artifact Target.
From S2P Require ElfWrite MachWrite.

(** [e?] on a result whose error converts into an [ArtifactError] *)
Definition map_err {E E' A} (f : E → E') (o : outcome E A) : outcome E' A :=
  match o with Ok x => Ok x | Err e => Err (f e) | Panic m => Panic m end.

Section Emit.
Context {TL : TargetLexicon} {SI : StringInterner} {IM : IndexMapOps}.
Context {G : GoblinElf} {GM : GoblinMach} {SC : Scroll} {OS : OsFile} {P : Profile}.
Implicit Types (a : Artifact).

Definition emit_as a (format : BinaryFormat) : outcome ArtifactError (list byte) :=
  let! undef := undefined_symbols a in
  match undef with
  | [] =>
      match format with
      | BF_Elf => map_err Goblin (ElfWrite.to_bytes a)
      | BF_Macho => map_err Io (MachWrite.to_bytes a)
      | BF_other _ => Err (UnsupportedBinaryFormat (binary_format (a_target a)))
      end
  | _ => Err (UndefinedSymbols undef)
  end.

Definition emit a : outcome ArtifactError (list byte) := emit_as a (binary_format (a_target a)).

(** The file after the call, and the result. *)
Definition write_as a (sink : File) (format : BinaryFormat) : File * outcome ArtifactError unit :=
  match emit_as a format with
  | Ok bytes =>
      match file_write_all sink bytes with
      | (sink, None) => (sink, Ok tt)
      | (sink, Some e) => (sink, Err (Io e))
      end
  | Err e => (sink, Err e)
  | Panic m => (sink, Panic m)
  end.

Definition write a (sink : File) : File * outcome ArtifactError unit :=
  write_as a sink (binary_format (a_target a)).
End Emit.
