(* ===== verification/MachSymtab.v ===== *)
(** * The Mach-O symbol table

    [stab_repr l t]: the table [t] holds the symbols of the list [l], in that
    order, each name once, each symbol with the offset of its name in the
    string table that will be written. *)

From stdpp Require Import base numbers list gmap strings.
From Stdlib Require Import ZArith Lia Strings.Byte.
From S2P Require Import Prelude Std External Decl Artifact ArtifactInv MachBuild.

(** ** The string table: an empty name, then each name with an underscore *)
Definition strtable_bytes (names : list string) : list byte :=
  x00 :: concat ((fun s => x5f :: bytes_of s ++ [x00]) <$> names).

Definition strtable_len (names : list string) : Z := 1 + zsum ((fun s => str_len s + 2) <$> names).

(** Where name number [i] starts (at its underscore). *)
Definition strx_pos (names : list string) (i : nat) : Z := strtable_len (take i names).

Lemma strtable_bytes_len names : zlen (strtable_bytes names) = strtable_len names.
Proof.
  unfold strtable_bytes, strtable_len. rewrite zlen_cons, zlen_concat. f_equal.
  induction names as [|s l IH]; cbn; [done|].
  rewrite IH, zlen_cons, zlen_app, str_len_bytes. change (zlen [x00]) with 1. lia.
Qed.

Lemma strtable_len_snoc names s : strtable_len (names ++ [s]) = strtable_len names + (str_len s + 2).
Proof. unfold strtable_len. rewrite fmap_app, zsum_app. cbn. lia. Qed.

Lemma strtable_len_pos names : 1 ≤ strtable_len names.
Proof.
  unfold strtable_len. pose proof (zsum_nonneg (fun s => str_len s + 2) names) as H.
  specialize (H (fun s => ltac:(pose proof (str_len_nonneg s); lia))). lia.
Qed.

Section MachSymtab.
Context {GM : GoblinMach} {SI : StringInterner} {IM : IndexMapOps}.

(** The builder of a symbol whose name is at [strx]. *)
Definition kind_builder (strx : Z) (kind : SymbolType) : SymbolBuilder :=
  match kind with
  | Sym_Undefined => mkSymbolBuilder strx None true true 0 0
  | Sym_Defined section abs rel global => mkSymbolBuilder strx (Some section) global false abs rel
  end.

(** Symbol number [i] of a list of named symbols. *)
Definition symbol_builder (l : list (string * SymbolType)) (i : nat) (p : string * SymbolType) :
  SymbolBuilder := kind_builder (u64 (strx_pos l.*1 i)) p.2.

Record stab_repr (l : list (string * SymbolType)) (t : SymbolTable) : Prop := {
  sr_strings : si_strings (stab_strtable t) = "" :: l.*1;
  sr_nodup : NoDup ("" :: l.*1);
  sr_symbols : im_iter (stab_symbols t) =
    imap (fun i p => (Z.of_nat i + 1, symbol_builder l i p)) l;
  sr_indexes : im_iter (stab_indexes t) = imap (fun i _ => (Z.of_nat i + 1, Z.of_nat i)) l;
  sr_size : stab_strtable_size t = u64 (strtable_len l.*1)
}.

(** Inserting a list of symbols. *)
Definition insert_all (t : SymbolTable) (l : list (string * SymbolType)) : SymbolTable :=
  fold_left (fun t '(n, k) => insert t n k) l t.

Lemma insert_all_app t l1 l2 : insert_all t (l1 ++ l2) = insert_all (insert_all t l1) l2.
Proof. apply fold_left_app. Qed.

Context {SIL : StringInternerLaws SI} {IML : IndexMapLaws IM}.

Lemma stab_repr_new : stab_repr [] SymbolTable_new.
Proof.
  unfold SymbolTable_new. destruct (si_get_or_intern si_new "") as [t k] eqn:E.
  apply get_or_intern_spec in E as [E _].
  assert (si_strings si_new = []) as E0 by (unfold si_strings; by rewrite si_new_iter).
  rewrite E0 in E. split; cbn; rewrite ?im_new_iter; try done. apply NoDup_singleton.
Qed.

Lemma strx_pos_app l l' i : (i < length l)%nat → strx_pos (l ++ l') i = strx_pos l i.
Proof. intros H. unfold strx_pos. by rewrite take_app_le by lia. Qed.

Lemma symbol_builder_app l l' i p :
  (i < length l)%nat → symbol_builder (l ++ l') i p = symbol_builder l i p.
Proof.
  intros H. unfold symbol_builder. rewrite fmap_app, strx_pos_app; [done|]. by rewrite length_fmap.
Qed.

Lemma imap_keys_fresh {A B} (f : nat → A → B) (l : list A) :
  Z.of_nat (length l) + 1 ∉ (imap (fun i p => (Z.of_nat i + 1, f i p)) l).*1.
Proof.
  rewrite fmap_imap. intros Hin. apply elem_of_lookup_imap in Hin as (i & x & E & Hi).
  apply lookup_lt_Some in Hi. cbn in E. lia.
Qed.

(** [insert] of a new name appends a symbol. *)
Lemma insert_repr l t n k :
  stab_repr l t → n ∉ "" :: l.*1 → zlen l < 2 ^ 64 → stab_repr (l ++ [(n, k)]) (insert t n k).
Proof.
  intros [Es Hnd Esy Ein Esz] Hn Hlen. unfold insert.
  destruct (si_get_or_intern (stab_strtable t) n) as [t' id] eqn:Ei.
  apply get_or_intern_spec in Ei as [Et Hid]. unfold intern in Et.
  rewrite Es, decide_False in Et by done.
  assert (NoDup (("" :: l.*1) ++ [n])) as Hnd' by by apply NoDup_snoc.
  assert (id = zlen l + 1) as ->.
  { pose proof (zget_snoc ("" :: l.*1) n) as Hl. rewrite Et in Hid.
    pose proof (index_of_get_NoDup _ _ _ Hnd' Hid) as E1.
    pose proof (index_of_get_NoDup _ _ _ Hnd' Hl) as E2. rewrite zlen_cons, zlen_fmap in E2.
    rewrite E1 in E2. injection E2 as ->. lia. }
  rewrite si_len_spec, Es, zlen_cons, zlen_fmap.
  replace (zlen l + 1 =? 1 + zlen l) with true by (symmetry; apply Z.eqb_eq; lia).
  assert (∀ b, al_insert (zlen l + 1) b (im_iter (stab_symbols t)) =
    im_iter (stab_symbols t) ++ [(zlen l + 1, b)]) as Hal.
  { intros b. apply al_insert_fresh. rewrite Esy. apply imap_keys_fresh. }
  split; cbn [stab_strtable stab_symbols stab_indexes stab_strtable_size].
  - rewrite Et, fmap_app. done.
  - rewrite fmap_app. exact Hnd'.
  - rewrite im_insert_iter, Hal, Esy, imap_app. f_equal.
    + apply imap_ext. intros i p Hi. apply lookup_lt_Some in Hi. by rewrite symbol_builder_app.
    + cbn. rewrite Nat.add_0_r. unfold symbol_builder, strx_pos.
      rewrite fmap_app, take_app_le, take_ge by (rewrite length_fmap; lia).
      rewrite Esz. by destruct k.
  - rewrite im_insert_iter, al_insert_fresh by (rewrite Ein; apply imap_keys_fresh).
    rewrite Ein, imap_app. f_equal. cbn. rewrite Nat.add_0_r. do 2 f_equal.
    rewrite im_len_spec, im_insert_iter, Hal, Esy, zlen_app.
    change (zlen [_]) with 1. unfold zlen at 1. rewrite length_imap. fold (zlen l).
    pose proof (zlen_nonneg l). rewrite wrap_small by (unfold in_u; lia). unfold zlen. lia.
  - rewrite Esz, fmap_app, wrap_add_l, wrap_add_r; change ([(n, k)].*1) with [n]; rewrite strtable_len_snoc. f_equal. lia.
Qed.

Lemma insert_all_repr ks : ∀ l t,
  stab_repr l t → NoDup ("" :: (l ++ ks).*1) → zlen (l ++ ks) < 2 ^ 64 →
  stab_repr (l ++ ks) (insert_all t ks).
Proof.
  induction ks as [|[n k] ks IH]; intros l t Hr Hnd Hlen; cbn; [by rewrite app_nil_r|].
  rewrite (cons_middle (n, k)), app_assoc in *. apply IH; [|done|done].
  apply insert_repr; [done| |].
  - rewrite !fmap_app in Hnd. cbn in Hnd. apply NoDup_cons in Hnd as [H1 Hnd].
    rewrite <- app_assoc in Hnd. apply NoDup_app in Hnd as (_ & Hd & _).
    rewrite elem_of_cons. intros [->|Hin]; [set_solver|]. apply (Hd _ Hin). set_solver.
  - rewrite zlen_app in Hlen. pose proof (zlen_nonneg ks). rewrite zlen_app in Hlen.
    change (zlen [_]) with 1 in Hlen. lia.
Qed.

(** ** Lookups *)
Lemma stab_get l t n i k :
  stab_repr l t → l !! i = Some (n, k) → si_get (stab_strtable t) n = Some (Z.of_nat i + 1).
Proof.
  intros [Es Hnd _ _ _] Hi. rewrite si_get_spec, Es. apply index_of_get_NoDup; [done|].
  replace (Z.of_nat i + 1) with (Z.of_nat (S i)) by lia. rewrite zget_nat. change (l.*1 !! i = Some n).
  by rewrite list_lookup_fmap, Hi.
Qed.

Lemma imap_al_get {A B} (f : nat → A → B) (l : list A) i x :
  l !! i = Some x → al_get (imap (fun i p => (Z.of_nat i + 1, f i p)) l) (Z.of_nat i + 1) = Some (f i x).
Proof.
  intros Hi. apply al_get_NoDup.
  - rewrite fmap_imap. apply NoDup_alt. intros a b y Ha Hb.
    rewrite list_lookup_imap in Ha, Hb. destruct (l !! a), (l !! b); try done. cbn in *.
    injection Ha as <-. injection Hb as E. lia.
  - apply elem_of_lookup_imap. eauto.
Qed.

Lemma SymbolTable_index_spec l t n i k :
  stab_repr l t → l !! i = Some (n, k) → SymbolTable_index t n = Some (Z.of_nat i).
Proof.
  intros Hr Hi. unfold SymbolTable_index. rewrite (stab_get _ _ _ _ _ Hr Hi). cbn.
  rewrite im_get_spec, (sr_indexes _ _ Hr). by rewrite (imap_al_get (fun i _ => Z.of_nat i) _ _ _ Hi).
Qed.

Lemma SymbolTable_offset_spec l t n i k :
  stab_repr l t → l !! i = Some (n, k) →
  SymbolTable_offset t n =
    Some (match k with Sym_Defined _ _ rel _ => rel | Sym_Undefined => 0 end).
Proof.
  intros Hr Hi. unfold SymbolTable_offset. rewrite (stab_get _ _ _ _ _ Hr Hi). cbn.
  rewrite im_get_spec, (sr_symbols _ _ Hr), (imap_al_get (symbol_builder l) _ _ _ Hi). by destruct k.
Qed.

Lemma stab_len l t : stab_repr l t → SymbolTable_len t = zlen l.
Proof.
  intros Hr. unfold SymbolTable_len. rewrite im_len_spec, (sr_symbols _ _ Hr).
  unfold zlen. by rewrite length_imap.
Qed.
End MachSymtab.
