(* ===== verification/MachPlace.v ===== *)
(** * Placing definitions in Mach-O sections

    [placed] says where [build_section] puts each definition and how much
    padding follows it, without machine arithmetic; the lemmas show that the
    loop of [build_section] computes it, and where everything ends up. *)

From stdpp Require Import base numbers list gmap strings.
From Stdlib Require Import ZArith Lia Strings.Byte.
From S2P Require Import Prelude Std External Decl Artifact ArtifactInv Target MachBuild MachState.
From S2P Require Import MachSymtab.

(** ** Alignment exponents *)
Lemma align_exp_loop_finds k : 0 ≤ k < 64 → ∀ fuel e,
  0 ≤ e ≤ k → k - e < Z.of_nat fuel → align_exp_loop fuel (2 ^ k) e = Some k.
Proof.
  intros Hk fuel. induction fuel as [|fuel IH]; intros e He Hf; [lia|]. cbn [align_exp_loop].
  rewrite Z.shiftl_1_l.
  assert (0 < 2 ^ e) by (apply Z.pow_pos_nonneg; lia).
  assert (2 ^ e < 2 ^ 64) by (apply Z.pow_lt_mono_r; lia).
  rewrite wrap_small by (unfold in_u; lia).
  destruct (Z.eqb_spec (2 ^ e) (2 ^ k)) as [E|E].
  - apply Z.pow_inj_r in E; [by subst|lia..].
  - apply IH; [|lia]. destruct (decide (e = k)) as [->|]; [done|lia].
Qed.

Lemma align_to_align_exp_ok {E} k : 0 ≤ k < 64 → align_to_align_exp (E:=E) (2 ^ k) = Ok k.
Proof.
  intros Hk. unfold align_to_align_exp.
  assert (0 < 2 ^ k) by (apply Z.pow_pos_nonneg; lia).
  destruct (Z.eqb_spec (2 ^ k) 0) as [E0|_]; [lia|].
  assert (is_power_of_two (2 ^ k) = true) as -> by (apply is_power_of_two_spec; exists k; lia).
  cbn [assert_ negb obind]. rewrite (align_exp_loop_finds k) by lia. done.
Qed.

(** A declared alignment the backend accepts. *)
Definition align_valid (d : DefinedDecl) : Prop :=
  ∃ k, 0 ≤ k < 64 ∧ default 1 (DefinedDecl_get_align d) = 2 ^ k.

Definition def_exp (d : Definition_) : Z := Z.log2 (default 1 (DefinedDecl_get_align (d_decl d))).

Lemma def_exp_ok {E} d : align_valid (d_decl d) →
  align_to_align_exp (E:=E) (default 1 (DefinedDecl_get_align (d_decl d))) = Ok (def_exp d) ∧
  0 ≤ def_exp d < 64.
Proof.
  intros (k & Hk & Ek). unfold def_exp. rewrite Ek, Z.log2_pow2 by lia.
  split; [by apply align_to_align_exp_ok | done].
Qed.

(** ** Padding *)
Lemma align_pad_ok off e : 0 ≤ e → align_pad off e = (- off) mod 2 ^ e.
Proof.
  intros He. unfold align_pad. rewrite Z.shiftl_1_l.
  assert (0 < 2 ^ e) by (apply Z.pow_pos_nonneg; lia).
  destruct (Z.eqb_spec (2 ^ e - off mod 2 ^ e) (2 ^ e)) as [E|E].
  - rewrite Z.mod_opp_l_z; lia.
  - rewrite Z.mod_opp_l_nz; lia.
Qed.

(** ** Placement *)
Record Placed := mkPlaced { pl_def : Definition_; pl_off : Z; pl_pad : Z }.

Definition next_exp (min : Z) (rest : list Definition_) : Z :=
  Z.max min (match rest with d :: _ => def_exp d | [] => 0 end).

Fixpoint placed (min : Z) (ds : list Definition_) (off : Z) : list Placed :=
  match ds with
  | [] => []
  | d :: rest =>
      let off1 := off + file_size (d_data d) in
      let pad := (- off1) mod 2 ^ next_exp min rest in
      mkPlaced d off pad :: placed min rest (off1 + pad)
  end.

Definition placed_size (l : list Placed) : Z :=
  zsum ((fun p => file_size (d_data (pl_def p)) + pl_pad p) <$> l).

(** The largest exponent a section asks for. *)
Fixpoint max_exp (acc min : Z) (ds : list Definition_) : Z :=
  match ds with
  | [] => acc
  | d :: rest => max_exp (Z.max acc (next_exp min rest)) min rest
  end.

Definition placed_symbol (section base : Z) (p : Placed) : string * SymbolType :=
  (d_name (pl_def p), Sym_Defined section (base + pl_off p) (pl_off p) (is_global (d_decl (pl_def p)))).

Definition pad_map (l : list Placed) (m : gmap string Z) : gmap string Z :=
  fold_left (fun m p => <[d_name (pl_def p) := pl_pad p]> m) l m.

(** The bytes of a placed section. *)
Definition def_data (d : Definition_) : list byte :=
  match d_data d with Blob b => b | ZeroInit _ => [] end.

Definition placed_bytes (b : byte) (l : list Placed) : list byte :=
  concat ((fun p => def_data (pl_def p) ++ replicate (Z.to_nat (pl_pad p)) b) <$> l).

Lemma file_size_data d : file_size (d_data d) = zlen (def_data d).
Proof. unfold def_data. by destruct (d_data d). Qed.

Lemma next_exp_range min rest :
  0 ≤ min < 64 → (∀ d, d ∈ rest → align_valid (d_decl d)) → 0 ≤ next_exp min rest < 64.
Proof.
  intros Hm Hv. unfold next_exp. destruct rest as [|d rest]; [lia|].
  destruct (def_exp_ok (E:=unit) d) as [_ ?]; [apply Hv; left|]. lia.
Qed.

Lemma placed_pad_nonneg min ds : ∀ off p, p ∈ placed min ds off →
  0 ≤ min → 0 ≤ pl_pad p.
Proof.
  induction ds as [|d rest IH]; intros off p Hp Hm; cbn in Hp; [by apply elem_of_nil in Hp|].
  apply elem_of_cons in Hp as [->|Hp]; [|eauto]. cbn.
  assert (0 < 2 ^ next_exp min rest) by (apply Z.pow_pos_nonneg; unfold next_exp; lia).
  apply Z.mod_pos_bound. lia.
Qed.

Lemma placed_bytes_len b min ds off :
  0 ≤ min → zlen (placed_bytes b (placed min ds off)) = placed_size (placed min ds off).
Proof.
  intros Hm. unfold placed_bytes, placed_size. rewrite zlen_concat, <- list_fmap_compose. f_equal.
  apply list_fmap_ext. intros i p Hp. apply list_elem_of_lookup_2 in Hp.
  apply placed_pad_nonneg in Hp; [|done]. cbn.
  rewrite zlen_app, file_size_data. f_equal. unfold zlen. rewrite length_replicate. lia.
Qed.

Lemma placed_size_nonneg min ds off : 0 ≤ min → 0 ≤ placed_size (placed min ds off).
Proof. intros Hm. rewrite <- (placed_bytes_len x00) by done. apply zlen_nonneg. Qed.

Lemma placed_defs min ds : ∀ off, pl_def <$> placed min ds off = ds.
Proof. induction ds as [|d rest IH]; intros off; cbn; [done|]. by rewrite IH. Qed.

(** ** The loop of [build_section] *)
Section MachPlace.
Context {TL : TargetLexicon} {SI : StringInterner} {IM : IndexMapOps}.
Context {G : GoblinElf} {GM : GoblinMach} {P : Profile}.

(** A definition that [build_section] takes. *)
Definition def_ok (d : Definition_) : Prop :=
  DefinedDecl_is_section (d_decl d) = false ∧ align_valid (d_decl d).

(** The sizes of one step: the definition and the padding after it. *)
Record step_sizes (min base off : Z) (d : Definition_) (rest : list Definition_) : Prop := {
  sz_size : 0 ≤ file_size (d_data d);
  sz_exp : 0 ≤ next_exp min rest < 64;
  sz_pad : 0 ≤ (- (off + file_size (d_data d))) mod 2 ^ next_exp min rest;
  sz_fits : base + (off + file_size (d_data d) +
    (- (off + file_size (d_data d))) mod 2 ^ next_exp min rest) < 2 ^ 64
}.

Lemma step_sizes_ok min base off d rest :
  0 ≤ min < 64 → Forall def_ok rest → 0 ≤ base → 0 ≤ off →
  base + off + placed_size (placed min (d :: rest) off) < 2 ^ 64 →
  step_sizes min base off d rest ∧
  let off' := off + file_size (d_data d) + (- (off + file_size (d_data d))) mod 2 ^ next_exp min rest in
  base + off' + placed_size (placed min rest off') < 2 ^ 64.
Proof.
  intros Hmin Hrest Hb Ho Hlt. cbn [placed] in Hlt. unfold placed_size in Hlt.
  cbn [fmap list_fmap zsum pl_def pl_pad] in Hlt.
  fold (placed_size (placed min rest (off + file_size (d_data d) +
    (- (off + file_size (d_data d))) mod 2 ^ next_exp min rest))) in Hlt.
  assert (0 ≤ next_exp min rest < 64) as Hne.
  { apply next_exp_range; [done|]. intros d' Hd'. rewrite Forall_forall in Hrest. by apply Hrest. }
  assert (0 ≤ file_size (d_data d)) by (rewrite file_size_data; apply zlen_nonneg).
  assert (0 < 2 ^ next_exp min rest) by (apply Z.pow_pos_nonneg; lia).
  pose proof (Z.mod_pos_bound (- (off + file_size (d_data d))) (2 ^ next_exp min rest) ltac:(lia)).
  pose proof (placed_size_nonneg min rest (off + file_size (d_data d) +
    (- (off + file_size (d_data d))) mod 2 ^ next_exp min rest) ltac:(lia)).
  split; [split|cbv zeta]; lia.
Qed.

Lemma next_alignment_ok {E} min rest :
  Forall def_ok rest → next_alignment_exponent (E:=E) min rest = Ok (next_exp min rest).
Proof.
  intros Hrest. unfold next_alignment_exponent, next_exp. destruct rest as [|d' rest]; [done|].
  inversion_clear Hrest as [|? ? [_ Hal] _]. by destruct (def_exp_ok (E:=E) d' Hal) as [-> _].
Qed.

(** The state after a definition. *)
Definition step_result (section min base off : Z) (d : Definition_) (rest : list Definition_)
  (t : SymbolTable) (e : Z) (m : gmap string Z) : SecState :=
  let pad := (- (off + file_size (d_data d))) mod 2 ^ next_exp min rest in
  let off' := off + file_size (d_data d) + pad in
  mkSecState (insert t (d_name d) (Sym_Defined section (base + off) off (is_global (d_decl d))))
    (base + off') off' off' (Z.max e (next_exp min rest)) (<[d_name d := pad]> m).

Lemma build_section_step_ok {E} section min base off d rest t e m :
  def_ok d → Forall def_ok rest → 0 ≤ base → 0 ≤ off → step_sizes min base off d rest →
  build_section_step (E:=E) section min d rest (mkSecState t (base + off) off off e m) =
  Ok (step_result section min base off d rest t e m).
Proof.
  intros [Hsec _] Hrest Hb Ho []. unfold build_section_step. rewrite Hsec.
  cbn [sl_symtab sl_symbol_offset sl_section_relative_offset sl_local_size sl_alignment_exponent
       sl_align_pad_map].
  rewrite next_alignment_ok by done. cbn [obind].
  rewrite (wrap_small 64 (off + _)), align_pad_ok by (unfold in_u; lia).
  unfold step_result. set (pad := _ mod _) in *. rewrite (wrap_small 64 (base + off + _)) by (unfold in_u; lia).
  rewrite (wrap_small 64 (base + off + _ + pad)), (wrap_small 64 (off + _ + pad)) by (unfold in_u; lia).
  do 2 f_equal. lia.
Qed.

Lemma build_section_loop_ok {E} section min base ds : ∀ t off e m,
  0 ≤ min < 64 → Forall def_ok ds → 0 ≤ base → 0 ≤ off →
  base + off + placed_size (placed min ds off) < 2 ^ 64 →
  let l := placed min ds off in
  build_section_loop (E:=E) section min ds (mkSecState t (base + off) off off e m) =
  Ok (mkSecState (insert_all t (placed_symbol section base <$> l))
        (base + off + placed_size l) (off + placed_size l) (off + placed_size l)
        (max_exp e min ds) (pad_map l m)).
Proof.
  induction ds as [|d rest IH]; intros t off e m Hmin Hok Hb Ho Hlt; cbn [build_section_loop].
  { unfold placed_size. cbn. by rewrite !Z.add_0_r. }
  inversion_clear Hok as [|? ? Hd Hrest].
  destruct (step_sizes_ok min base off d rest Hmin Hrest Hb Ho Hlt) as [Hsz Hlt'].
  rewrite build_section_step_ok by done. destruct Hsz. cbn [obind]. unfold step_result.
  cbv zeta in *. rewrite IH by (try done; lia). cbn [placed]. cbv zeta.
  set (sz := file_size (d_data d)) in *. set (pad := (- (off + sz)) mod _) in *. f_equal.
  unfold placed_size at 4 5 6. cbn [fmap list_fmap zsum pl_def pl_pad].
  fold (placed_size (placed min rest (off + sz + pad))).
  cbn [insert_all fold_left pad_map max_exp pl_def pl_pad placed_symbol pl_off].
  f_equal; unfold sz; lia.
Qed.
End MachPlace.
