(* ===== verification/MachObject.v ===== *)
(** * The Mach-O object an artifact stands for

    A section of the file is a [Group]: its names, flags and alignment, its
    bytes, and the symbols it defines once its ordinal and address are known.
    [mach_groups] are the groups of an artifact's contents; [SegmentBuilder_new]
    builds their sections and symbols one after the other. *)

From stdpp Require Import base numbers list gmap strings.
From Stdlib Require Import ZArith Lia Strings.Byte.
From S2P Require Import Prelude Std External Decl Artifact ArtifactInv Contents Target.
From S2P Require Import MachBuild MachState MachSymtab MachPlace.

(** ** Which section a definition goes to *)
Inductive Slot := SCode | SData | SBss | SCstring | SCustom.

#[export] Instance Slot_eq_dec : EqDecision Slot.
Proof. solve_decision. Defined.

Definition slot (d : Definition_) : Slot :=
  match d_decl d, d_data d with
  | DD_Function _, _ => SCode
  | DD_Section _, _ => SCustom
  | DD_Data _, ZeroInit _ => SBss
  | DD_Data dd, Blob _ => match get_datatype dd with DT_String => SCstring | DT_Bytes => SData end
  end.

Definition in_slot (s : Slot) (ds : list Definition_) : list Definition_ :=
  filter (fun d => slot d = s) ds.

Definition zero_size (d : Definition_) : Z := match d_data d with ZeroInit n => n | Blob _ => 0 end.

(** The zero-initialised bytes the segment needs in memory. *)
Definition bss_total (ds : list Definition_) : Z := zsum (zero_size <$> in_slot SBss ds).

Lemma in_slot_cons s d ds :
  in_slot s (d :: ds) = (if decide (slot d = s) then [d] else []) ++ in_slot s ds.
Proof. unfold in_slot. rewrite filter_cons. by case_decide. Qed.

(** [Mach::new] sorts the definitions into their slots, in their order. *)
Lemma partition_ok ds : ∀ p x, pt_bss_size p = u64 x →
  fold_left partition_def ds p =
  mkPartition (pt_code p ++ in_slot SCode ds) (pt_data p ++ in_slot SData ds)
    (pt_bss p ++ in_slot SBss ds) (pt_cstrings p ++ in_slot SCstring ds)
    (pt_sections p ++ in_slot SCustom ds) (u64 (x + bss_total ds)).
Proof.
  induction ds as [|d ds IH]; intros p x Hx; cbn [fold_left].
  { destruct p; cbn in *. unfold bss_total. cbn. by rewrite !app_nil_r, Z.add_0_r, Hx. }
  unfold bss_total. rewrite !in_slot_cons, fmap_app, zsum_app. fold (bss_total ds).
  set (p' := partition_def p d).
  assert (pt_bss_size p' = u64 (x + if decide (slot d = SBss) then zero_size d else 0)) as Hp'.
  { unfold p', partition_def, slot, zero_size. destruct (d_decl d) as [f|f|f];
      [|destruct (d_data d); [destruct (get_datatype f)|]|]; cbn;
      rewrite ?Z.add_0_r, ?Hx; try done. by rewrite wrap_add_l. }
  rewrite (IH p' _ Hp'). unfold p', partition_def, slot. destruct (d_decl d) as [f|f|f];
    [|destruct (d_data d) as [b|n]; [destruct (get_datatype f)|]|]; cbn;
    rewrite <- ?app_assoc; f_equal; f_equal; repeat case_decide; try done; cbn; lia.
Qed.

(** ** Groups *)
Record Group := mkGroup {
  gr_key : string;                    (** key in [SegmentBuilder.sections] *)
  gr_sectname : string; gr_segname : string; gr_flags : Z; gr_align : Z;
  gr_bytes : list byte;
  (** the symbols, given the index and the address of the section *)
  gr_symbols : Z → Z → list (string * SymbolType)
}.

Definition default_group (sectname segname : string) (flags min : Z) (pad : byte)
  (ds : list Definition_) : Group :=
  let l := placed min ds 0 in
  mkGroup sectname sectname segname flags (max_exp min min ds) (placed_bytes pad l)
    (fun idx base => placed_symbol idx base <$> l).

Definition gr_size (g : Group) : Z := zlen (gr_bytes g).

(** The address of section number [i]. *)
Definition group_base (gs : list Group) (i : nat) : Z := zsum (gr_size <$> take i gs).

Fixpoint symbols_from (idx base : Z) (gs : list Group) : list (string * SymbolType) :=
  match gs with
  | [] => []
  | g :: gs => gr_symbols g idx base ++ symbols_from (idx + 1) (base + gr_size g) gs
  end.

Definition group_section (hdr base : Z) (g : Group) : SectionBuilder :=
  mkSectionBuilder base (gr_align g) (hdr + base) (gr_size g) (gr_flags g) (gr_sectname g)
    (gr_segname g) [].

Fixpoint sections_from (hdr base : Z) (gs : list Group) : list (string * SectionBuilder) :=
  match gs with
  | [] => []
  | g :: gs => (gr_key g, group_section hdr base g) :: sections_from hdr (base + gr_size g) gs
  end.

Definition default_names : list string := ["__text"; "__data"; "__cstring"; "__bss"].

Section MachObject.
Context {TL : TargetLexicon} {SI : StringInterner} {IM : IndexMapOps}.
Context {G : GoblinElf} {GM : GoblinMach} {P : Profile}.

Definition custom_flags (k : SectionKind) : Z :=
  match k with SK_Debug => S_ATTR_DEBUG | _ => 0 end.

Definition section_kind (d : Definition_) : SectionKind :=
  match d_decl d with DD_Section sd => SectionDecl_kind sd | _ => SK_Data end.

Definition custom_group (d : Definition_) : Group :=
  mkGroup (d_name d) (custom_sectname (d_name d)) (custom_segment_name (section_kind d))
    (custom_flags (section_kind d)) (def_exp d) (def_data d)
    (fun idx base => (fun p => (p.1, Sym_Defined idx (u64 (base + p.2)) p.2 true)) <$> d_symbols d).

Definition text_group (ds : list Definition_) : Group :=
  default_group "__text" "__TEXT" (Z.lor S_ATTR_PURE_INSTRUCTIONS S_ATTR_SOME_INSTRUCTIONS) 4 xcc
    (in_slot SCode ds).
Definition data_group (ds : list Definition_) : Group :=
  default_group "__data" "__DATA" S_REGULAR 3 xaa (in_slot SData ds).
Definition cstring_group (ds : list Definition_) : Group :=
  default_group "__cstring" "__TEXT" S_CSTRING_LITERALS 0 xaa (in_slot SCstring ds).
Definition bss_group (ds : list Definition_) : Group :=
  default_group "__bss" "__DATA" S_ZEROFILL 0 xaa (in_slot SBss ds).

Definition mach_groups (c : Contents) : list Group :=
  let ds := c_defs c in
  [text_group ds; data_group ds; cstring_group ds; bss_group ds] ++
  (custom_group <$> in_slot SCustom ds).

Definition mach_symbols (c : Contents) : list (string * SymbolType) :=
  symbols_from 0 0 (mach_groups c) ++ ((fun p => (p.1, Sym_Undefined)) <$> c_imports c).

Definition segment_bytes (c : Contents) : list byte := concat (gr_bytes <$> mach_groups c).

(** ** Building the segment *)
Context {SIL : StringInternerLaws SI} {IML : IndexMapLaws IM}.

(** The state between two sections: [base] bytes are placed. *)
Record seg_is (hdr base : Z) (t : SymbolTable) (secs : list (string * SectionBuilder))
  (m : gmap string Z) (s : SegState) : Prop := {
  si_symtab : ss_symtab s = t;
  si_sections : im_iter (ss_sections s) = secs;
  si_offset : ss_offset s = hdr + base;
  si_addr : ss_addr s = base;
  si_symbol_offset : ss_symbol_offset s = base;
  si_pads : ss_align_pad_map s = m
}.

(** Adding a group to the segment. *)
Definition adds_group {E} (hdr idx : Z) (g : Group) (f : gmap string Z → gmap string Z)
  (op : SegState → outcome E SegState) : Prop :=
  ∀ base t secs m s,
    seg_is hdr base t secs m s → 0 ≤ hdr → 0 ≤ base → hdr + base + gr_size g < 2 ^ 64 →
    gr_key g ∉ secs.*1 →
    ∃ s', op s = Ok s' ∧
      seg_is hdr (base + gr_size g) (insert_all t (gr_symbols g idx base))
        (secs ++ [(gr_key g, group_section hdr base g)]) (f m) s'.

Lemma build_section_ok {E} hdr sectname segname idx ds min flags pad :
  0 ≤ min < 64 → Forall def_ok ds →
  adds_group (E:=E) hdr idx (default_group sectname segname (default S_REGULAR flags) min pad ds)
    (pad_map (placed min ds 0)) (build_section sectname segname idx ds min flags).
Proof.
  intros Hmin Hok base t secs m s [] Hh Hb Hlt Hfresh. unfold gr_size in *. cbn in Hlt, Hfresh.
  rewrite placed_bytes_len in Hlt by lia. cbn [default_group gr_key gr_bytes gr_symbols].
  rewrite placed_bytes_len by lia. unfold build_section.
  pose proof (placed_size_nonneg min ds 0 ltac:(lia)).
  pose proof (build_section_loop_ok (E:=E) idx min base ds (ss_symtab s) 0 min (ss_align_pad_map s))
    as Hl. cbn zeta in Hl. rewrite Z.add_0_r, !Z.add_0_l in Hl. rewrite si_symbol_offset0, Hl by (done || lia).
  cbn [obind]. eexists. split; [done|].
  split; cbn [ss_symtab ss_sections ss_offset ss_addr ss_symbol_offset ss_align_pad_map sl_symtab
    sl_symbol_offset sl_section_relative_offset sl_local_size sl_alignment_exponent sl_align_pad_map].
  - by rewrite si_symtab0.
  - rewrite im_insert_iter, si_sections0, al_insert_fresh by done. do 3 f_equal.
    unfold group_section, default_group, gr_size. cbn. rewrite placed_bytes_len by lia.
    rewrite si_offset0, si_addr0. by destruct flags.
  - rewrite si_offset0, wrap_small by (unfold in_u; lia). lia.
  - rewrite si_addr0, wrap_small by (unfold in_u; lia). lia.
  - lia.
  - by rewrite si_pads0.
Qed.

Lemma build_custom_section_ok {E} hdr idx d :
  DefinedDecl_is_section (d_decl d) = true → align_valid (d_decl d) →
  adds_group (E:=E) hdr idx (custom_group d) id (build_custom_section idx d).
Proof.
  intros Hsec Hal base t secs m s [] Hh Hb Hlt Hfresh. unfold gr_size in *. cbn in Hlt, Hfresh.
  destruct (def_exp_ok (E:=E) d Hal) as [He _].
  pose proof (zlen_nonneg (def_data d)).
  unfold build_custom_section. cbn [custom_group gr_key gr_bytes gr_symbols].
  unfold custom_group, group_section, gr_size, section_kind.
  cbn [gr_align gr_bytes gr_flags gr_sectname gr_segname gr_key].
  destruct (d_decl d) as [f|f|sd] eqn:Ed; [done..|]. cbn [DefinedDecl_get_align] in He. rewrite He.
  cbn [obind]. eexists. split; [done|].
  assert (u64 (file_size (d_data d)) = zlen (def_data d)) as Esz.
  { rewrite file_size_data. apply wrap_small. unfold in_u. lia. }
  split; cbn [ss_symtab ss_sections ss_offset ss_addr ss_symbol_offset ss_align_pad_map].
  - rewrite <- si_symtab0, si_symbol_offset0. unfold insert_all. generalize (ss_symtab s).
    induction (d_symbols d) as [|[n o] l IH]; intros t'; cbn; [done|]. apply IH.
  - rewrite im_insert_iter, si_sections0, al_insert_fresh by done. do 3 f_equal.
    cbn. rewrite Esz, si_offset0, si_addr0. by destruct (SectionDecl_kind sd).
  - rewrite si_offset0, Esz, wrap_small by (unfold in_u; lia). lia.
  - rewrite si_addr0, Esz, wrap_small by (unfold in_u; lia). lia.
  - rewrite si_symbol_offset0, Esz, wrap_small by (unfold in_u; lia). lia.
  - done.
Qed.

(** ** All groups *)
Fixpoint run_ops {E} (ops : list (SegState → outcome E SegState)) (s : SegState) :
  outcome E SegState :=
  match ops with
  | [] => Ok s
  | op :: ops => let! s := op s in run_ops ops s
  end.

Inductive adds_groups {E} (hdr : Z) : Z → list Group → list (gmap string Z → gmap string Z) →
  list (SegState → outcome E SegState) → Prop :=
| adds_nil idx : adds_groups hdr idx [] [] []
| adds_cons idx g gs f fs op ops :
    adds_group hdr idx g f op → adds_groups hdr (idx + 1) gs fs ops →
    adds_groups hdr idx (g :: gs) (f :: fs) (op :: ops).

Lemma run_ops_ok {E} hdr idx gs fs ops :
  adds_groups (E:=E) hdr idx gs fs ops → ∀ base t secs m s,
  seg_is hdr base t secs m s → 0 ≤ hdr → 0 ≤ base → hdr + base + zsum (gr_size <$> gs) < 2 ^ 64 →
  NoDup (secs.*1 ++ (gr_key <$> gs)) →
  ∃ s', run_ops ops s = Ok s' ∧
    seg_is hdr (base + zsum (gr_size <$> gs)) (insert_all t (symbols_from idx base gs))
      (secs ++ sections_from hdr base gs) (fold_left (fun m f => f m) fs m) s'.
Proof.
  induction 1 as [|idx g gs f fs op ops Hg Hgs IH]; intros base t secs m s Hs Hh Hb Hlt Hnd;
    cbn [run_ops fmap list_fmap zsum symbols_from sections_from fold_left].
  { exists s. by rewrite Z.add_0_r, app_nil_r. }
  cbn [fmap list_fmap zsum] in Hlt, Hnd.
  assert (0 ≤ zsum (gr_size <$> gs)) by (apply zsum_nonneg; intros; apply zlen_nonneg).
  assert (0 ≤ gr_size g) by apply zlen_nonneg.
  destruct (Hg _ _ _ _ _ Hs Hh Hb) as (s1 & -> & Hs1); [lia| |].
  { apply NoDup_app in Hnd as (_ & Hd & _). intros Hin. apply (Hd _ Hin). left. }
  destruct (IH _ _ _ _ _ Hs1) as (s2 & E2 & Hs2); [done|lia|lia| |].
  { rewrite fmap_app, <- app_assoc. exact Hnd. }
  exists s2. cbn [obind]. split; [done|].
  rewrite insert_all_app. rewrite <- Z.add_assoc, <- app_assoc in Hs2. exact Hs2.
Qed.

Lemma run_ops_app {E} (o1 o2 : list (SegState → outcome E SegState)) s :
  run_ops (o1 ++ o2) s = obind (run_ops o1 s) (run_ops o2).
Proof. revert s. induction o1 as [|op o1 IH]; intros s; cbn; [done|]. destruct (op s); cbn; auto. Qed.

(** The calls of [SegmentBuilder::new], in order. *)
Definition default_ops {E} (ds : list Definition_) : list (SegState → outcome E SegState) :=
  [build_section "__text" "__TEXT" CODE_SECTION_INDEX (in_slot SCode ds) 4
     (Some (Z.lor S_ATTR_PURE_INSTRUCTIONS S_ATTR_SOME_INSTRUCTIONS));
   build_section "__data" "__DATA" DATA_SECTION_INDEX (in_slot SData ds) 3 None;
   build_section "__cstring" "__TEXT" CSTRING_SECTION_INDEX (in_slot SCstring ds) 0
     (Some S_CSTRING_LITERALS);
   build_section "__bss" "__DATA" BSS_SECTION_INDEX (in_slot SBss ds) 0 (Some S_ZEROFILL)].

Definition custom_ops {E} (i : Z) (ds : list Definition_) : list (SegState → outcome E SegState) :=
  (fun p => build_custom_section (p.1 + NUM_DEFAULT_SECTIONS) p.2) <$> enumerate_from i ds.

Lemma run_customs {E} ds : ∀ i s,
  ofold (fun s '(idx, def) => build_custom_section (E:=E) (idx + NUM_DEFAULT_SECTIONS) def s) s
    (enumerate_from i ds) = run_ops (custom_ops i ds) s.
Proof.
  induction ds as [|d ds IH]; intros i s; [done|]. cbn.
  destruct (build_custom_section _ d s); cbn; auto.
Qed.

Lemma insert_imports {E} a : wf a → ∀ t,
  ofold (fun symtab import =>
      let! '(import, _) := import in Ok (insert symtab import Sym_Undefined))
    t (imports (E:=E) a) =
  Ok (insert_all t ((fun p => (p.1, Sym_Undefined)) <$> c_imports (contents a))).
Proof.
  intros Hwf. rewrite (imports_contents _ Hwf).
  induction (c_imports (contents a)) as [|[n k] l IH]; intros t; [done|]. cbn. apply IH.
Qed.

Lemma SegmentBuilder_new_ops {E} a ctx ds : wf a →
  SegmentBuilder_new (E:=E) a (in_slot SCode ds) (in_slot SData ds) (in_slot SBss ds)
    (in_slot SCstring ds) (in_slot SCustom ds) SymbolTable_new ctx =
  let! s := run_ops (default_ops ds ++ custom_ops 0 (in_slot SCustom ds))
    (mkSegState SymbolTable_new im_new (mach_header_size (container ctx)) 0 0 ∅) in
  Ok (mkSegmentBuilder (ss_sections s) (ss_offset s) (ss_addr s) (ss_align_pad_map s),
      insert_all (ss_symtab s) ((fun p => (p.1, Sym_Undefined)) <$> c_imports (contents a))).
Proof.
  intros Hwf. unfold SegmentBuilder_new. rewrite run_ops_app. cbn [run_ops default_ops].
  destruct (build_section "__text" _ _ _ _ _ _) as [s1| |]; [|done..]. cbn [obind].
  destruct (build_section "__data" _ _ _ _ _ _) as [s2| |]; [|done..]. cbn [obind].
  destruct (build_section "__cstring" _ _ _ _ _ _) as [s3| |]; [|done..]. cbn [obind].
  destruct (build_section "__bss" _ _ _ _ _ _) as [s4| |]; [|done..]. cbn [obind].
  rewrite run_customs. destruct (run_ops _ s4) as [s5| |]; [|done..]. cbn [obind].
  by rewrite insert_imports.
Qed.

Lemma adds_groups_app {E} hdr idx gs1 fs1 ops1 gs2 fs2 ops2 :
  adds_groups (E:=E) hdr idx gs1 fs1 ops1 → adds_groups hdr (idx + zlen gs1) gs2 fs2 ops2 →
  adds_groups hdr idx (gs1 ++ gs2) (fs1 ++ fs2) (ops1 ++ ops2).
Proof.
  induction 1 as [|idx g gs f fs op ops Hg Hgs IH]; intros H2; cbn.
  - by rewrite Z.add_0_r in H2.
  - constructor; [done|]. apply IH. rewrite zlen_cons in H2. by rewrite <- Z.add_assoc.
Qed.

Lemma adds_customs {E} hdr ds : ∀ i idx,
  Forall (fun d => DefinedDecl_is_section (d_decl d) = true ∧ align_valid (d_decl d)) ds →
  idx = i + NUM_DEFAULT_SECTIONS →
  adds_groups (E:=E) hdr idx (custom_group <$> ds) (replicate (length ds) id)
    (custom_ops i ds).
Proof.
  induction ds as [|d ds IH]; intros i idx Hok ->; cbn; [constructor|].
  inversion_clear Hok as [|? ? [Hs Ha] Hok'].
  constructor; [by apply build_custom_section_ok|]. apply IH; [done|lia].
Qed.

Lemma slot_not_section d s : slot d = s → s ≠ SCustom → DefinedDecl_is_section (d_decl d) = false.
Proof. unfold slot. destruct (d_decl d); [done..|]. cbn. by intros <-. Qed.

Lemma slot_section d : slot d = SCustom → DefinedDecl_is_section (d_decl d) = true.
Proof.
  unfold slot. destruct (d_decl d) as [f|f|f]; [done| |done].
  destruct (d_data d); [by destruct (get_datatype f) | done].
Qed.

Lemma in_slot_elem s ds d : d ∈ in_slot s ds ↔ slot d = s ∧ d ∈ ds.
Proof. unfold in_slot. by rewrite list_elem_of_filter. Qed.

Lemma in_slot_ok s ds :
  (∀ d, d ∈ ds → align_valid (d_decl d)) → s ≠ SCustom → Forall def_ok (in_slot s ds).
Proof.
  intros Hal Hs. apply Forall_forall. intros d [Hd Hin]%in_slot_elem.
  split; [by eapply slot_not_section | by apply Hal].
Qed.

Definition default_placed (ds : list Definition_) : list Placed :=
  placed 4 (in_slot SCode ds) 0 ++ placed 3 (in_slot SData ds) 0 ++
  placed 0 (in_slot SCstring ds) 0 ++ placed 0 (in_slot SBss ds) 0.

Lemma fold_left_ids {A} n (m : A) : fold_left (fun m f => f m) (replicate n id) m = m.
Proof. by induction n. Qed.

(** The keys of the sections. *)
Lemma mach_group_keys c :
  gr_key <$> mach_groups c = default_names ++ (d_name <$> in_slot SCustom (c_defs c)).
Proof. cbn. by rewrite <- list_fmap_compose. Qed.

(** The padding maps of the groups. *)
Definition group_pads (ds : list Definition_) : list (gmap string Z → gmap string Z) :=
  [pad_map (placed 4 (in_slot SCode ds) 0); pad_map (placed 3 (in_slot SData ds) 0);
   pad_map (placed 0 (in_slot SCstring ds) 0); pad_map (placed 0 (in_slot SBss ds) 0)] ++
  replicate (length (in_slot SCustom ds)) id.

Lemma contents_groups_added {E} hdr c :
  (∀ d, d ∈ c_defs c → align_valid (d_decl d)) →
  adds_groups (E:=E) hdr 0 (mach_groups c) (group_pads (c_defs c))
    (default_ops (c_defs c) ++ custom_ops 0 (in_slot SCustom (c_defs c))).
Proof.
  intros Hal. apply adds_groups_app.
  - constructor; [by apply (build_section_ok hdr "__text" "__TEXT" 0 _ 4 (Some _) xcc), in_slot_ok|].
    constructor; [by apply (build_section_ok hdr "__data" "__DATA" 1 _ 3 None xaa), in_slot_ok|].
    constructor; [by apply (build_section_ok hdr "__cstring" "__TEXT" 2 _ 0 (Some _) xaa), in_slot_ok|].
    constructor; [by apply (build_section_ok hdr "__bss" "__DATA" 3 _ 0 (Some _) xaa), in_slot_ok|].
    constructor.
  - apply adds_customs; [|done]. apply Forall_forall. intros d [Hd Hin]%in_slot_elem.
    split; [by apply slot_section | by apply Hal].
Qed.

(** [SegmentBuilder::new] builds the groups of the contents. *)
Lemma SegmentBuilder_new_ok {E} a ctx :
  let c := contents a in let ds := c_defs c in
  let hdr := mach_header_size (container ctx) in
  wf a → (∀ d, d ∈ ds → align_valid (d_decl d)) → 0 ≤ hdr →
  hdr + zsum (gr_size <$> mach_groups c) < 2 ^ 64 → NoDup (gr_key <$> mach_groups c) →
  ∃ seg, SegmentBuilder_new (E:=E) a (in_slot SCode ds) (in_slot SData ds) (in_slot SBss ds)
      (in_slot SCstring ds) (in_slot SCustom ds) SymbolTable_new ctx =
    Ok (seg, insert_all SymbolTable_new (mach_symbols c)) ∧
    im_iter (sg_sections seg) = sections_from hdr 0 (mach_groups c) ∧
    sg_offset seg = hdr + zsum (gr_size <$> mach_groups c) ∧
    sg_size seg = zsum (gr_size <$> mach_groups c) ∧
    sg_align_pad_map seg = pad_map (default_placed ds) ∅.
Proof.
  intros c ds hdr Hwf Hal Hh Hlt Hnd.
  pose proof (contents_groups_added (E:=E) hdr c Hal) as Hadds.
  destruct (run_ops_ok _ _ _ _ _ Hadds 0 SymbolTable_new [] ∅
    (mkSegState SymbolTable_new im_new hdr 0 0 ∅)) as (s' & Hrun & [E1 E2 E3 E4 E5 E6]).
  { split; cbn; try done; [apply im_new_iter | lia]. }
  { done. } { done. } { by rewrite Z.add_0_r. } { exact Hnd. }
  rewrite SegmentBuilder_new_ops by done. fold hdr. fold ds in Hrun. rewrite Hrun. cbn [obind].
  eexists. split; [by rewrite E1, <- insert_all_app|]. cbn [sg_sections sg_offset sg_size sg_align_pad_map].
  split; [exact E2|]. split; [rewrite E3; lia|]. split; [rewrite E4; lia|].
  rewrite E6. unfold group_pads. rewrite fold_left_app, fold_left_ids. unfold default_placed, pad_map. by rewrite !fold_left_app.
Qed.
End MachObject.
