(* ===== verification/MachLink.v ===== *)
(** * Links of the Mach-O object

    [mach_link] says which section gets a relocation for a link, and which
    one, from the names alone; [build_relocations] appends exactly these. *)

From stdpp Require Import base numbers list gmap strings.
From Stdlib Require Import ZArith Lia Strings.Byte.
From S2P Require Import Prelude Std External Decl Artifact ArtifactInv Contents Target.
From S2P Require Import MachBuild MachState MachSymtab MachPlace MachObject.

(** The offset of a symbol in its section. *)
Definition kind_offset (k : SymbolType) : Z :=
  match k with Sym_Defined _ _ rel _ => rel | Sym_Undefined => 0 end.

Definition add_relocations (rs : list RelocationInfo) (b : SectionBuilder) : SectionBuilder :=
  mkSectionBuilder (sec_addr b) (sec_align b) (sec_offset b) (sec_size b) (sec_flags b)
    (sec_sectname b) (sec_segname b) (sec_relocations b ++ rs).

(** The relocations of section number [i] among numbered ones. *)
Definition relocs_of (rs : list (Z * RelocationInfo)) (i : Z) : list RelocationInfo :=
  omap (fun p => if p.1 =? i then Some p.2 else None) rs.

(** Sections with their relocations. *)
Definition with_relocations (rs : list (Z * RelocationInfo))
  (secs : list (string * SectionBuilder)) : list (string * SectionBuilder) :=
  imap (fun i p => (p.1, add_relocations (relocs_of rs (Z.of_nat i)) p.2)) secs.

Lemma add_relocations_nil b : add_relocations [] b = b.
Proof. unfold add_relocations. rewrite app_nil_r. by destruct b. Qed.

Lemma with_relocations_nil secs : with_relocations [] secs = secs.
Proof.
  apply list_eq. intros i. unfold with_relocations. rewrite list_lookup_imap.
  destruct (secs !! i) as [[k b]|]; cbn; [by rewrite add_relocations_nil | done].
Qed.

Lemma with_relocations_keys rs secs : (with_relocations rs secs).*1 = secs.*1.
Proof.
  unfold with_relocations. apply list_eq. intros i.
  rewrite !list_lookup_fmap, list_lookup_imap. by destruct (secs !! i).
Qed.

Lemma with_relocations_len rs secs : zlen (with_relocations rs secs) = zlen secs.
Proof. unfold with_relocations, zlen. by rewrite length_imap. Qed.

Lemma with_relocations_snoc rs secs i r : 0 ≤ i < zlen secs →
  with_relocations (rs ++ [(i, r)]) secs =
  zalter (prod_map id (section_push r)) i (with_relocations rs secs).
Proof.
  intros Hi. unfold zalter. rewrite with_relocations_len.
  destruct (Z.leb_spec 0 i), (Z.ltb_spec i (zlen secs)); try lia. cbn [andb].
  apply list_eq. intros j. unfold with_relocations.
  destruct (decide (j = Z.to_nat i)) as [->|Hj].
  - rewrite list_lookup_alter_eq, !list_lookup_imap. destruct (secs !! Z.to_nat i) as [[k b]|]; [|done].
    cbn. rewrite Z2Nat.id by lia. unfold relocs_of. rewrite omap_app. cbn. rewrite Z.eqb_refl.
    unfold add_relocations, section_push, prod_map. cbn. by rewrite app_assoc.
  - rewrite list_lookup_alter_ne, !list_lookup_imap by done. destruct (secs !! j) as [[k b]|]; [|done].
    cbn. unfold relocs_of. rewrite omap_app. cbn.
    destruct (Z.eqb_spec i (Z.of_nat j)); [lia|]. by rewrite app_nil_r.
Qed.

(** A write by key is a write at the position of the key. *)
Lemma al_modify_zalter {K V} `{EqDecision K} (f : V → V) (k : K) l i :
  index_of k l.*1 = Some i → al_modify f k l = zalter (prod_map id f) i l.
Proof.
  revert i. induction l as [|[k' v] l IH]; intros i Hi; cbn in *; [done|].
  case_decide as Hk; [by injection Hi as <-|].
  destruct (index_of k l.*1) as [j|] eqn:Ej; [|done]. cbn in Hi. injection Hi as <-.
  rewrite (IH j eq_refl). pose proof (zget_range _ _ _ (index_of_Some_get _ _ _ Ej)) as Hr.
  rewrite zlen_fmap in Hr. unfold zalter. rewrite zlen_cons.
  destruct (Z.leb_spec 0 j), (Z.ltb_spec j (zlen l)); try lia. cbn [andb].
  destruct (Z.leb_spec 0 (Z.succ j)), (Z.ltb_spec (Z.succ j) (1 + zlen l)); try lia. cbn [andb].
  by rewrite Z2Nat.inj_succ.
Qed.

Section MachLink.
Context {TL : TargetLexicon} {SI : StringInterner} {IM : IndexMapOps}.
Context {G : GoblinElf} {GM : GoblinMach} {P : Profile}.

(** The relocation of a link, if it has one, and the number of its section. *)
Definition mach_link {E} (syms : list (string * SymbolType)) (keys : list string)
  (l : LinkAndDecl) : outcome E (option (Z * RelocationInfo)) :=
  match l_reloc l with
  | Debug size _ =>
      if is_section (b_decl (l_to l)) then Ok None
      else
        match index_of (b_name (l_to l)) syms.*1 with
        | Some to =>
            let! i := expect (index_of (b_name (l_from l)) keys) "IndexMap: key not found" in
            let! r := RelocationBuilder_create
              (mkRelocationBuilder to (l_at l) true size X86_64_RELOC_UNSIGNED) in
            Ok (Some (i, r))
        | None => Ok None
        end
  | _ =>
      let! '(absolute, reloc) := link_reloc l in
      match al_get syms (b_name (l_from l)), index_of (b_name (l_to l)) syms.*1 with
      | Some from, Some to =>
          let! r := RelocationBuilder_create
            (mkRelocationBuilder to (u64 (kind_offset from + l_at l)) absolute 0 reloc) in
          Ok (Some (if absolute then 1 else 0, r))
      | _, _ => Ok None
      end
  end.

Context {SIL : StringInternerLaws SI} {IML : IndexMapLaws IM}.

(** ** The symbol table as a list *)
Lemma stab_missing l t n : stab_repr l t → n ∉ l.*1 →
  SymbolTable_index t n = None ∧ SymbolTable_offset t n = None.
Proof.
  intros Hr Hn. unfold SymbolTable_index, SymbolTable_offset.
  rewrite si_get_spec, (sr_strings _ _ Hr). cbn. case_decide as Hd.
  - cbn. rewrite !im_get_spec, (sr_indexes _ _ Hr), (sr_symbols _ _ Hr).
    assert (∀ {B} (f : nat → string * SymbolType → B),
      al_get (imap (fun i p => (Z.of_nat i + 1, f i p)) l) 0 = None) as H0.
    { intros B f. apply al_get_None. rewrite fmap_imap. intros Hin.
      apply elem_of_lookup_imap in Hin as (i & x & E & _). cbn in E. lia. }
    by rewrite (H0 _ (fun i _ => Z.of_nat i)), (H0 _ (symbol_builder l)).
  - assert (index_of n l.*1 = None) as -> by by apply index_of_None. done.
Qed.

Lemma SymbolTable_index_full l t n :
  stab_repr l t → SymbolTable_index t n = index_of n l.*1.
Proof.
  intros Hr. destruct (index_of n l.*1) as [i|] eqn:Ei.
  - apply index_of_Some_get, zget_Some in Ei as [H0 Ei]. rewrite list_lookup_fmap in Ei.
    destruct (l !! Z.to_nat i) as [[n' k]|] eqn:El; [|done]. injection Ei as ->.
    rewrite (SymbolTable_index_spec _ _ _ _ _ Hr El). f_equal. lia.
  - apply index_of_None in Ei. by apply (stab_missing _ _ _ Hr).
Qed.

Lemma SymbolTable_offset_full l t n :
  stab_repr l t → SymbolTable_offset t n = kind_offset <$> al_get l n.
Proof.
  intros Hr. destruct (al_get l n) as [k|] eqn:Ek.
  - apply al_get_elem, list_elem_of_lookup in Ek as [i Hi].
    by rewrite (SymbolTable_offset_spec _ _ _ _ _ Hr Hi).
  - apply al_get_None in Ek. by apply (stab_missing _ _ _ Hr).
Qed.

(** ** One link *)
Definition reloc_list (o : option (Z * RelocationInfo)) : list (Z * RelocationInfo) :=
  match o with Some p => [p] | None => [] end.

Section OneLink.
Context {E : Type} (syms : list (string * SymbolType)) (t : SymbolTable).
Context (secs0 : list (string * SectionBuilder)) (rs : list (Z * RelocationInfo)).
Context (secs : IndexMap string SectionBuilder).
Hypothesis Ht : stab_repr syms t.
Hypothesis Hlen : 4 ≤ zlen secs0.
Hypothesis Hs : im_iter secs = with_relocations rs secs0.

(** The sections after the relocation [o]. *)
Definition relocated (m : outcome E (IndexMap string SectionBuilder))
  (o : option (Z * RelocationInfo)) : Prop :=
  ∃ secs', m = Ok secs' ∧ im_iter secs' = with_relocations (rs ++ reloc_list o) secs0.

Lemma relocated_none : relocated (Ok secs) None.
Proof. exists secs. cbn. by rewrite app_nil_r. Qed.

Lemma relocated_index i r : 0 ≤ i < zlen secs0 →
  relocated (do! expect (im_get_index secs i) "unwrap" in Ok (im_modify_index (section_push r) i secs))
    (Some (i, r)).
Proof.
  intros Hi. destruct (zget_in_range (with_relocations rs secs0) i) as [p Hp].
  { by rewrite with_relocations_len. }
  rewrite im_get_index_spec, Hs, Hp. cbn [expect obind]. eexists. split; [done|]. cbn.
  by rewrite im_modify_index_iter, Hs, with_relocations_snoc.
Qed.

Lemma relocated_key k i r : index_of k secs0.*1 = Some i →
  relocated (do! expect (im_get secs k) "IndexMap: key not found" in
             Ok (im_modify (section_push r) k secs)) (Some (i, r)).
Proof.
  intros Hi. destruct (al_get_is_Some (with_relocations rs secs0) k) as [v Hv].
  { rewrite with_relocations_keys. by eapply zget_elem, index_of_Some_get. }
  rewrite im_get_spec, Hs, Hv. cbn [expect obind]. eexists. split; [done|].
  pose proof (zget_range _ _ _ (index_of_Some_get _ _ _ Hi)) as Hr. rewrite zlen_fmap in Hr.
  cbn. rewrite im_modify_iter, Hs, with_relocations_snoc by done.
  apply al_modify_zalter. by rewrite with_relocations_keys.
Qed.

(** The last part of [build_relocations], for a link that is not [Debug]. *)
Lemma place_relocation_ok l absolute reloc o :
  (match al_get syms (b_name (l_from l)), index_of (b_name (l_to l)) syms.*1 with
   | Some from, Some to =>
       let! r := RelocationBuilder_create
         (mkRelocationBuilder to (u64 (kind_offset from + l_at l)) absolute 0 reloc) in
       Ok (Some (if absolute then 1 else 0, r))
   | _, _ => Ok None
   end) = Ok (E:=E) o →
  relocated
    (match SymbolTable_offset t (b_name (l_from l)), SymbolTable_index t (b_name (l_to l)) with
     | Some base_offset, Some to_symbol_index =>
         let builder :=
           RelocationBuilder_new to_symbol_index (u64 (base_offset + l_at l)) reloc in
         let idx := if absolute then 1 else 0 in
         do! expect (im_get_index secs idx) "unwrap" in
         let! r := RelocationBuilder_create (if absolute then reloc_absolute builder else builder) in
         Ok (im_modify_index (section_push r) idx secs)
     | _, _ => Ok secs
     end) o.
Proof.
  rewrite (SymbolTable_index_full _ _ _ Ht), (SymbolTable_offset_full _ _ _ Ht). intros H.
  destruct (al_get syms (b_name (l_from l))) as [from|]; cbn [fmap option_fmap option_map];
    [|injection H as <-; apply relocated_none].
  destruct (index_of (b_name (l_to l)) syms.*1) as [to|];
    [|injection H as <-; apply relocated_none].
  cbn zeta. replace (if absolute then reloc_absolute _ else _) with
    (mkRelocationBuilder to (u64 (kind_offset from + l_at l)) absolute 0 reloc)
    by (by destruct absolute).
  destruct (RelocationBuilder_create _) as [r| |]; cbn [obind] in *; try done.
  injection H as <-. apply relocated_index. destruct absolute; lia.
Qed.

Lemma build_relocation_ok l o :
  mach_link (E:=E) syms secs0.*1 l = Ok o → relocated (build_relocation t 0 1 secs l) o.
Proof.
  unfold build_relocation, mach_link. intros Hl. destruct (l_reloc l) as [|raw addend|size addend].
  1,2: destruct (link_reloc l) as [[absolute reloc]| |]; cbn [obind] in *; try done;
    by apply place_relocation_ok.
  rewrite (SymbolTable_index_full _ _ _ Ht).
  destruct (is_section (b_decl (l_to l))); [injection Hl as <-; apply relocated_none|].
  destruct (index_of (b_name (l_to l)) syms.*1) as [to|];
    [|injection Hl as <-; apply relocated_none].
  destruct (index_of (b_name (l_from l)) secs0.*1) as [i|] eqn:Ei; cbn [expect obind] in *; [|done].
  unfold reloc_set_size, reloc_absolute, RelocationBuilder_new.
  cbn [rb_symbol rb_relocation_offset rb_absolute rb_size rb_r_type].
  destruct (RelocationBuilder_create _) as [r| |]; cbn [obind] in *; try done.
  injection Hl as <-. by apply relocated_key.
Qed.
End OneLink.

(** ** All links *)
Definition mach_relocs {E} (syms : list (string * SymbolType)) (keys : list string)
  (ls : list LinkAndDecl) : outcome E (list (Z * RelocationInfo)) :=
  let! rs := omapM (mach_link syms keys) ls in Ok (concat (reloc_list <$> rs)).

Lemma build_relocations_ok {E} a seg t syms more rs :
  wf a → stab_repr syms t → (im_iter (sg_sections seg)).*1 = default_names ++ more →
  mach_relocs (E:=E) syms (im_iter (sg_sections seg)).*1 (c_links (contents a)) = Ok rs →
  ∃ seg', build_relocations (E:=E) seg a t = Ok seg' ∧
    im_iter (sg_sections seg') = with_relocations rs (im_iter (sg_sections seg)) ∧
    sg_offset seg' = sg_offset seg ∧ sg_size seg' = sg_size seg ∧
    sg_align_pad_map seg' = sg_align_pad_map seg.
Proof.
  intros Hwf Ht Hk Hrs. set (secs0 := im_iter (sg_sections seg)) in *.
  assert (4 ≤ zlen secs0) as Hlen.
  { rewrite <- (zlen_fmap fst), Hk, zlen_app. pose proof (zlen_nonneg more).
    change (zlen default_names) with 4. lia. }
  assert (∀ k i, index_of k default_names = Some i →
    ∃ v, im_get_full (sg_sections seg) k = Some (i, k, v)) as Hfull.
  { intros k i Hi. pose proof (index_of_app_l _ _ more _ Hi) as Hi'. rewrite <- Hk in Hi'.
    destruct (al_get_is_Some secs0 k) as [v Hv]; [by eapply zget_elem, index_of_Some_get|].
    exists v. rewrite im_get_full_spec. fold secs0. by rewrite Hi', Hv. }
  unfold build_relocations. destruct (Hfull "__text"%string 0 eq_refl) as [? ->].
  destruct (Hfull "__data"%string 1 eq_refl) as [? ->]. cbn [expect obind].
  rewrite (links_contents _ Hwf).
  unfold mach_relocs in Hrs. destruct (omapM _ _) as [os| |] eqn:Eo; cbn in Hrs; try done.
  injection Hrs as <-.
  assert (∀ ls os rs0 secs, omapM (mach_link (E:=E) syms secs0.*1) ls = Ok os →
    im_iter secs = with_relocations rs0 secs0 → ∃ secs',
    ofold (fun sections link => let! link := link in build_relocation (E:=E) t 0 1 sections link)
      secs (Ok <$> ls) = Ok secs' ∧
    im_iter secs' = with_relocations (rs0 ++ concat (reloc_list <$> os)) secs0) as Hall.
  { induction ls as [|l ls IH]; intros os' rs0 secs Hos Hsecs; cbn in *.
    - injection Hos as <-. exists secs. by rewrite app_nil_r.
    - destruct (mach_link syms secs0.*1 l) as [o| |] eqn:El; cbn in Hos; try done.
      destruct (omapM _ ls) as [os1| |] eqn:E1; cbn in Hos; try done. injection Hos as <-.
      destruct (build_relocation_ok syms t secs0 rs0 secs Ht Hlen Hsecs l o El) as (secs1 & -> & Hs1).
      cbn. destruct (IH _ _ _ eq_refl Hs1) as (secs2 & H2 & Hs2).
      exists secs2. by rewrite app_assoc. }
  destruct (Hall _ _ [] (sg_sections seg) Eo) as (secs' & -> & Hs'); [by rewrite with_relocations_nil|].
  cbn [obind]. eexists. split; [done|]. done.
Qed.
End MachLink.
