(* ===== verification/MachImage.v ===== *)
(** * The bytes of a Mach-O file

    [mach_image] is the file of a Mach-O object: header, load commands, section
    contents, symbols, strings, relocations.  The lemmas show that [Mach::new]
    builds the object of an artifact and that [Mach::write] produces exactly
    its image. *)

From stdpp Require Import base numbers list gmap strings.
From Stdlib Require Import ZArith Lia Strings.Byte.
From S2P Require Import Prelude Std Bytes External Decl Artifact ArtifactInv Contents Target.
From S2P Require Import MachBuild MachState MachWrite MachSymtab MachPlace MachObject MachLink.

(** ** Padding by name *)
Lemma pad_map_other l : ∀ m n, n ∉ d_name ∘ pl_def <$> l → pad_map l m !! n = m !! n.
Proof.
  induction l as [|p l IH]; intros m n Hn; cbn; [done|]. cbn in Hn.
  unfold pad_map in IH. rewrite IH by set_solver. apply lookup_insert_ne. set_solver.
Qed.

Lemma pad_map_lookup l : ∀ m p, NoDup (d_name ∘ pl_def <$> l) → p ∈ l →
  pad_map l m !! d_name (pl_def p) = Some (pl_pad p).
Proof.
  induction l as [|q l IH]; intros m p Hnd Hp; [by apply elem_of_nil in Hp|].
  cbn [fmap list_fmap] in Hnd. apply NoDup_cons in Hnd as [Hq Hnd].
  apply elem_of_cons in Hp as [->|Hp]; cbn; [|by apply IH].
  etrans; [by apply pad_map_other | apply lookup_insert_eq].
Qed.

(** ** Definitions of different slots have different names *)
Lemma slots_disjoint s s' ds n :
  NoDup (d_name <$> ds) → s ≠ s' → n ∈ d_name <$> in_slot s ds → n ∉ d_name <$> in_slot s' ds.
Proof.
  intros Hnd Hs Hn Hn'.
  apply list_elem_of_fmap in Hn as (d & -> & [Hd Hin]%in_slot_elem).
  apply list_elem_of_fmap in Hn' as (d' & Hn & [Hd' Hin']%in_slot_elem).
  assert (d = d') as <-; [|congruence].
  apply list_elem_of_lookup in Hin as [i Hi], Hin' as [j Hj].
  assert (i = j) as ->; [|congruence].
  apply (NoDup_lookup (d_name <$> ds) _ _ (d_name d)); [done| |]; rewrite list_lookup_fmap.
  - by rewrite Hi.
  - rewrite Hj. cbn. by rewrite Hn.
Qed.

Lemma slot_names s ds : NoDup (d_name <$> ds) → NoDup (d_name <$> in_slot s ds).
Proof.
  intros Hnd. induction ds as [|d ds IH]; [constructor|]. rewrite in_slot_cons.
  cbn in Hnd. apply NoDup_cons in Hnd as [Hd Hnd].
  case_decide; cbn; [|by apply IH]. apply NoDup_cons. split; [|by apply IH].
  intros Hin. apply Hd. apply list_elem_of_fmap in Hin as (d' & -> & [_ Hin]%in_slot_elem).
  by apply list_elem_of_fmap_2.
Qed.

Lemma default_placed_defs ds :
  pl_def <$> default_placed ds =
  in_slot SCode ds ++ in_slot SData ds ++ in_slot SCstring ds ++ in_slot SBss ds.
Proof. unfold default_placed. by rewrite !fmap_app, !placed_defs. Qed.

Lemma default_placed_names ds : NoDup (d_name <$> ds) → NoDup (d_name ∘ pl_def <$> default_placed ds).
Proof.
  intros Hnd. rewrite list_fmap_compose, default_placed_defs, !fmap_app.
  pose proof (fun s s' n => slots_disjoint s s' ds n Hnd) as Hd.
  pose proof (fun s => slot_names s ds Hnd) as Hs.
  repeat (apply NoDup_app; split; [apply Hs|split]); [..|apply Hs];
    intros n Hn; rewrite ?not_elem_of_app; split_and?; (eapply Hd; [|exact Hn]; done).
Qed.

(** The padding the file gets after each definition. *)
Lemma default_pads ds p : NoDup (d_name <$> ds) → p ∈ default_placed ds →
  pad_map (default_placed ds) ∅ !! d_name (pl_def p) = Some (pl_pad p).
Proof. intros Hnd. apply pad_map_lookup. by apply default_placed_names. Qed.

Lemma custom_pads ds d : NoDup (d_name <$> ds) → d ∈ in_slot SCustom ds →
  pad_map (default_placed ds) ∅ !! d_name d = None.
Proof.
  intros Hnd Hd. rewrite pad_map_other; [apply lookup_empty|].
  rewrite list_fmap_compose, default_placed_defs, !fmap_app, !not_elem_of_app.
  apply (list_elem_of_fmap_2 d_name) in Hd. split_and!; (eapply slots_disjoint; [done| |exact Hd]; done).
Qed.

Section MachImage.
Context {TL : TargetLexicon} {SI : StringInterner} {IM : IndexMapOps}.
Context {G : GoblinElf} {GM : GoblinMach} {SC : Scroll} {P : Profile} {OS : OsFile}.
Context {SIL : StringInternerLaws SI} {IML : IndexMapLaws IM}.
Context {GML : GoblinMachLaws GM} {SCL : ScrollLaws SC}.

(** ** Writing definitions *)
Definition pad_bytes (pads : gmap string Z) (b : byte) (n : string) : list byte :=
  replicate (Z.to_nat (default 0 (pads !! n))) b.

Definition written_defs (pads : gmap string Z) (b : byte) (ds : list Definition_) : list byte :=
  concat ((fun d => def_data d ++ pad_bytes pads b (d_name d)) <$> ds).

Lemma write_pad_ok m b n c v :
  cur_is c v → cur_is (write_pad m b n c) (v ++ pad_bytes (sg_align_pad_map (m_segment m)) b n).
Proof.
  intros Hc. unfold write_pad, pad_bytes.
  destruct (sg_align_pad_map (m_segment m) !! n) as [k|]; cbn; [|by rewrite app_nil_r].
  induction (Z.to_nat k) as [|j IH]; [by rewrite app_nil_r|].
  change (replicate (S j) b) with (b :: replicate j b). rewrite replicate_cons_app, app_assoc.
  exact (cur_is_write [b] _ _ IH).
Qed.

Lemma write_blobs_ok {E} m b ds : ∀ c v,
  Forall (fun d => is_zero_init (d_data d) = false) ds → cur_is c v →
  ∃ c', ofold (write_blob (E:=E) m b) c ds = Ok c' ∧
    cur_is c' (v ++ written_defs (sg_align_pad_map (m_segment m)) b ds).
Proof.
  induction ds as [|d ds IH]; intros c v Hz Hc; cbn; [exists c; by rewrite app_nil_r|].
  inversion_clear Hz as [|? ? Hd Hds]. unfold write_blob at 1, def_data at 1.
  destruct (d_data d) as [bytes|n]; [|done]. cbn [obind].
  rewrite app_assoc, (app_assoc v bytes). by apply IH, write_pad_ok, cur_is_write.
Qed.

Lemma write_datas_ok m ds : ∀ c v, cur_is c v →
  cur_is (fold_left (write_data m) ds c)
    (v ++ written_defs (sg_align_pad_map (m_segment m)) xaa ds).
Proof.
  induction ds as [|d ds IH]; intros c v Hc; cbn; [by rewrite app_nil_r|].
  rewrite app_assoc, (app_assoc v (def_data d)). apply IH. unfold write_data, def_data.
  apply write_pad_ok. destruct (d_data d); [by apply cur_is_write | by rewrite app_nil_r].
Qed.

Lemma written_placed ds min s b :
  NoDup (d_name <$> ds) →
  (∀ p, p ∈ placed min (in_slot s ds) 0 → p ∈ default_placed ds) →
  written_defs (pad_map (default_placed ds) ∅) b (in_slot s ds) =
  placed_bytes b (placed min (in_slot s ds) 0).
Proof.
  intros Hnd Hin. unfold written_defs, placed_bytes.
  rewrite <- (placed_defs min (in_slot s ds) 0) at 1. rewrite <- list_fmap_compose. f_equal.
  apply list_fmap_ext. intros i p Hp. apply list_elem_of_lookup_2, Hin in Hp. cbn.
  unfold pad_bytes. by rewrite (default_pads _ _ Hnd Hp).
Qed.

Lemma written_customs ds b :
  NoDup (d_name <$> ds) →
  written_defs (pad_map (default_placed ds) ∅) b (in_slot SCustom ds) =
  concat (def_data <$> in_slot SCustom ds).
Proof.
  intros Hnd. unfold written_defs. f_equal. apply list_fmap_ext. intros i d Hd.
  apply list_elem_of_lookup_2 in Hd. unfold pad_bytes. rewrite (custom_pads _ _ Hnd Hd). cbn.
  apply app_nil_r.
Qed.

(** The bytes of zero-initialised definitions: none. *)
Lemma bss_bytes ds : gr_bytes (bss_group ds) = [].
Proof.
  cbn. unfold placed_bytes.
  assert (∀ l, (∀ d, d ∈ l → slot d = SBss) →
    concat ((fun p => def_data (pl_def p) ++ replicate (Z.to_nat (pl_pad p)) xaa) <$> placed 0 l 0) = [])
    as H; [|apply H; by intros d [Hd _]%in_slot_elem].
  induction l as [|d l IH]; intros Hl; [done|]. cbn [placed fmap list_fmap concat].
  assert (def_data d = []) as E.
  { generalize (Hl d (list_elem_of_here _ _)). unfold slot, def_data.
    destruct (d_decl d) as [f|f|f]; [done| |done]. destruct (d_data d); [|done].
    by destruct (get_datatype f). }
  rewrite file_size_data, E. change (zlen (@nil byte)) with 0. cbn [Z.add Z.opp]. rewrite Z.mod_0_l.
  - cbn [pl_def pl_pad]. rewrite E. apply IH. intros d' Hd'. apply Hl. by right.
  - apply Z.pow_nonzero; [lia|]. unfold next_exp. lia.
Qed.

(** The contents of all sections, in the order they are written. *)
Lemma written_segment c :
  NoDup (d_name <$> c_defs c) →
  let pads := pad_map (default_placed (c_defs c)) ∅ in
  let ds := c_defs c in
  written_defs pads xcc (in_slot SCode ds) ++ written_defs pads xaa (in_slot SData ds) ++
  written_defs pads xaa (in_slot SCstring ds) ++ written_defs pads xaa (in_slot SCustom ds) =
  segment_bytes c.
Proof.
  intros Hnd pads ds. unfold pads. rewrite written_customs by done.
  rewrite (written_placed ds 4 SCode), (written_placed ds 3 SData), (written_placed ds 0 SCstring);
    try done; [|unfold default_placed; intros p Hp; rewrite !elem_of_app; tauto..].
  unfold segment_bytes, mach_groups. rewrite fmap_app, concat_app. fold ds.
  change (gr_bytes <$> [text_group ds; data_group ds; cstring_group ds; bss_group ds]) with
    [gr_bytes (text_group ds); gr_bytes (data_group ds); gr_bytes (cstring_group ds);
     gr_bytes (bss_group ds)].
  rewrite bss_bytes, <- list_fmap_compose. cbn [concat]. rewrite app_nil_r, <- !app_assoc. done.
Qed.

(** ** [Mach::new] *)

(** What the backend asks of the contents: alignments are powers of two,
    client sections have names of their own, at most 16 bytes long, and no two
    symbols share a name. *)
Record mach_ready (c : Contents) : Prop := {
  mr_aligns : ∀ d, d ∈ c_defs c → align_valid (d_decl d);
  mr_sections : ∀ d, d ∈ in_slot SCustom (c_defs c) →
    (d_name d ∉ default_names) ∧ str_len (custom_sectname (d_name d)) ≤ 16;
  mr_symbols : NoDup ("" :: (mach_symbols c).*1)
}.

Definition mach_keys (c : Contents) : list string := gr_key <$> mach_groups c.
Definition segment_len (c : Contents) : Z := zsum (gr_size <$> mach_groups c).

(** The sections of the object, [rs] their relocations. *)
Definition mach_sections (ctx : Ctx) (c : Contents) (rs : list (Z * RelocationInfo)) :
  list (string * SectionBuilder) :=
  with_relocations rs (sections_from (mach_header_size (container ctx)) 0 (mach_groups c)).

Record mach_repr (ctx : Ctx) (c : Contents) (rs : list (Z * RelocationInfo)) (m : Mach) : Prop := {
  mp_ctx : m_ctx m = ctx;
  mp_symtab : stab_repr (mach_symbols c) (m_symtab m);
  mp_sections : im_iter (sg_sections (m_segment m)) = mach_sections ctx c rs;
  mp_offset : sg_offset (m_segment m) = mach_header_size (container ctx) + segment_len c;
  mp_size : sg_size (m_segment m) = segment_len c;
  mp_pads : sg_align_pad_map (m_segment m) = pad_map (default_placed (c_defs c)) ∅;
  mp_code : m_code m = in_slot SCode (c_defs c);
  mp_data : m_data m = in_slot SData (c_defs c);
  mp_cstrings : m_cstrings m = in_slot SCstring (c_defs c);
  mp_customs : m_sections m = in_slot SCustom (c_defs c);
  mp_bss : m_bss_size m = u64 (bss_total (c_defs c))
}.

Lemma sections_from_keys hdr gs : ∀ base, (sections_from hdr base gs).*1 = gr_key <$> gs.
Proof. induction gs as [|g gs IH]; intros base; cbn; [done|]. by rewrite IH. Qed.

Lemma sections_from_len hdr gs base : zlen (sections_from hdr base gs) = zlen gs.
Proof. by rewrite <- (zlen_fmap fst), sections_from_keys, zlen_fmap. Qed.

Lemma mach_keys_NoDup c : contents_wf c → mach_ready c → NoDup (mach_keys c).
Proof.
  intros Hc Hr. unfold mach_keys. rewrite mach_group_keys. apply NoDup_app. split; [|split].
  - apply (bool_decide_unpack _). by vm_compute.
  - intros n Hn Hin. apply list_elem_of_fmap in Hin as (d & -> & Hd).
    by apply (mr_sections _ Hr) in Hd as [Hd _].
  - apply slot_names, (cw_defs _ Hc).
Qed.

Lemma header_size_pos ctx : 28 ≤ mach_header_size (container ctx) ≤ 32.
Proof. rewrite mach_header_size_spec. destruct (container ctx); lia. Qed.

Lemma definitions_fold {E} ds : ∀ p,
  ofold (fun p def => let! def := def in Ok (partition_def p def)) p (Ok (E:=E) <$> ds) =
  Ok (fold_left partition_def ds p).
Proof. induction ds as [|d ds IH]; intros p; cbn; [done|]. apply IH. Qed.

(** [Mach::new] builds the object of the contents. *)
Lemma Mach_new_ok {E} a rs :
  let ctx := make_ctx (a_target a) in let c := contents a in
  wf a → contents_wf c → mach_ready c →
  mach_header_size (container ctx) + segment_len c < 2 ^ 64 → zlen (mach_symbols c) < 2 ^ 64 →
  mach_relocs (E:=E) (mach_symbols c) (mach_keys c) (c_links c) = Ok rs →
  ∃ m, Mach_new (E:=E) a = Ok m ∧ m_architecture m = architecture (a_target a) ∧
    mach_repr ctx c rs m.
Proof.
  intros ctx c Hwf Hc Hr Hlen Hsyms Hrs. unfold Mach_new. fold ctx.
  rewrite (definitions_contents _ Hwf), definitions_fold. fold c. cbn [obind].
  rewrite (partition_ok _ (mkPartition [] [] [] [] [] 0) 0) by done.
  cbn [pt_code pt_data pt_bss pt_cstrings pt_sections pt_bss_size app].
  pose proof (header_size_pos ctx) as Hh.
  destruct (SegmentBuilder_new_ok (E:=E) a ctx) as (seg & Hseg & Hsec & Hoff & Hsz & Hpad);
    [done | apply (mr_aligns _ Hr) | lia | done | by apply mach_keys_NoDup|].
  fold c in Hseg, Hsec, Hoff, Hsz, Hpad. rewrite Hseg. cbn [obind].
  assert (stab_repr (mach_symbols c) (insert_all SymbolTable_new (mach_symbols c))) as Ht.
  { apply (insert_all_repr _ []); [apply stab_repr_new | apply (mr_symbols _ Hr) | done]. }
  assert ((im_iter (sg_sections seg)).*1 = mach_keys c) as Hk
    by (rewrite Hsec; apply sections_from_keys).
  destruct (build_relocations_ok (E:=E) a seg _ (mach_symbols c)
    (d_name <$> in_slot SCustom (c_defs c)) rs Hwf Ht) as (seg' & Hb & Hsec' & Hoff' & Hsz' & Hpad').
  { rewrite Hk. apply mach_group_keys. }
  { by rewrite Hk. }
  rewrite Hb. cbn [obind]. eexists. split; [done|]. split; [done|].
  split; cbn [m_ctx m_symtab m_segment m_code m_data m_cstrings m_sections m_bss_size]; try done.
  - by rewrite Hsec', Hsec.
  - by rewrite Hoff'.
  - by rewrite Hsz'.
  - by rewrite Hpad'.
Qed.

(** ** The parts of the file *)
Definition name_field (s : string) : list byte := bytes_of s ++ zeros (16 - str_len s).

Definition nrelocs (b : SectionBuilder) : Z := zlen (sec_relocations b).

(** The section headers; [secoff] and [reloff] are the offsets of the contents
    and of the relocations of the first one. *)
Fixpoint headers_from (secoff reloff : Z) (secs : list (string * SectionBuilder)) :
  list MachSection :=
  match secs with
  | [] => []
  | (_, b) :: secs =>
      mkMachSection (name_field (sec_sectname b)) (name_field (sec_segname b)) (sec_addr b)
        (sec_size b) secoff (u32 (sec_align b)) (if nrelocs b =? 0 then 0 else reloff) (nrelocs b)
        (sec_flags b)
      :: headers_from (secoff + sec_size b) (reloff + nrelocs b * 8) secs
  end.

(** The values written into the symbol table. *)
Definition mach_nlists (c : Contents) : list Nlist :=
  imap (fun i p => SymbolBuilder_create (symbol_builder (mach_symbols c) i p)) (mach_symbols c).

Definition symbol_names (c : Contents) : list string := (mach_symbols c).*1.

(** Offsets of the parts. *)
Definition segment_cmdsize (ctx : Ctx) (c : Contents) : Z :=
  segment_size ctx + zlen (mach_groups c) * mach_section_size ctx.
Definition sizeof_commands (ctx : Ctx) (c : Contents) : Z := segment_cmdsize ctx c + 24.
Definition off_first (ctx : Ctx) (c : Contents) : Z :=
  mach_header_size (container ctx) + sizeof_commands ctx c.
Definition off_symbols (ctx : Ctx) (c : Contents) : Z := off_first ctx c + segment_len c.
Definition off_strings (ctx : Ctx) (c : Contents) : Z :=
  off_symbols ctx c + zlen (mach_symbols c) * nlist_size ctx.
Definition off_relocs (ctx : Ctx) (c : Contents) : Z :=
  off_strings ctx c + strtable_len (symbol_names c).

Definition reloc_count (secs : list (string * SectionBuilder)) : Z :=
  zsum ((fun p => nrelocs p.2) <$> secs).

Definition mach_file_len (ctx : Ctx) (c : Contents) (rs : list (Z * RelocationInfo)) : Z :=
  off_relocs ctx c + reloc_count (mach_sections ctx c rs) * 8 + 1.

(** The parts. *)
Definition image_header (ctx : Ctx) (cpu : Z) (c : Contents) : MachHeader :=
  mkMachHeader MH_OBJECT MH_SUBSECTIONS_VIA_SYMBOLS cpu 3 2 (sizeof_commands ctx c).
Definition image_segment (ctx : Ctx) (c : Contents) : Segment :=
  mkSegment (segment_cmdsize ctx c) (u64 (segment_len c + bss_total (c_defs c)))
    (off_first ctx c) (segment_len c) 7 7 (zlen (mach_groups c)).
Definition image_symtab (ctx : Ctx) (c : Contents) : SymtabCommand :=
  mkSymtabCommand 24 (off_symbols ctx c) (zlen (mach_symbols c)) (off_strings ctx c)
    (strtable_len (symbol_names c)).
Definition image_headers (ctx : Ctx) (c : Contents) (rs : list (Z * RelocationInfo)) :
  list MachSection := headers_from (off_first ctx c) (off_relocs ctx c) (mach_sections ctx c rs).
Definition headers_bytes (ctx : Ctx) (hs : list MachSection) : list byte :=
  concat ((fun h => ser_mach_section h ctx) <$> hs).
Definition nlists_bytes (ctx : Ctx) (c : Contents) : list byte :=
  concat ((fun n => ser_nlist n ctx) <$> mach_nlists c).
Definition relocs_bytes (ctx : Ctx) (secs : list (string * SectionBuilder)) : list byte :=
  concat ((fun p => concat ((fun r => ser_relocation r (le ctx)) <$> sec_relocations p.2)) <$> secs).

Definition mach_image (ctx : Ctx) (cpu : Z) (c : Contents) (rs : list (Z * RelocationInfo)) :
  list byte :=
  ser_mach_header (image_header ctx cpu c) ctx ++ ser_segment (image_segment ctx c) ctx ++
  headers_bytes ctx (image_headers ctx c rs) ++ ser_symtab_command (image_symtab ctx c) (le ctx) ++
  segment_bytes c ++ nlists_bytes ctx c ++ strtable_bytes (symbol_names c) ++
  relocs_bytes ctx (mach_sections ctx c rs) ++ [x00].

(** ** Their lengths *)
Lemma headers_from_len secs : ∀ x y, zlen (headers_from x y secs) = zlen secs.
Proof.
  induction secs as [|[k b] secs IH]; intros x y; cbn [headers_from]; [done|].
  by rewrite !zlen_cons, IH.
Qed.

Lemma mach_sections_len ctx c rs : zlen (mach_sections ctx c rs) = zlen (mach_groups c).
Proof. unfold mach_sections. by rewrite with_relocations_len, sections_from_len. Qed.

Lemma image_headers_len ctx c rs : zlen (image_headers ctx c rs) = zlen (mach_groups c).
Proof. unfold image_headers. by rewrite headers_from_len, mach_sections_len. Qed.

Lemma headers_bytes_len ctx hs : zlen (headers_bytes ctx hs) = zlen hs * mach_section_size ctx.
Proof. apply zlen_concat_const. intros. apply ser_mach_section_len. Qed.

Lemma mach_nlists_len c : zlen (mach_nlists c) = zlen (mach_symbols c).
Proof. unfold mach_nlists, zlen. by rewrite length_imap. Qed.

Lemma nlists_bytes_len ctx c : zlen (nlists_bytes ctx c) = zlen (mach_symbols c) * nlist_size ctx.
Proof.
  unfold nlists_bytes. rewrite (zlen_concat_const _ (nlist_size ctx)), mach_nlists_len; [done|].
  intros. apply ser_nlist_len.
Qed.

Lemma relocs_bytes_len ctx secs : zlen (relocs_bytes ctx secs) = reloc_count secs * 8.
Proof.
  unfold relocs_bytes, reloc_count. induction secs as [|p secs IH]; cbn; [done|].
  rewrite zlen_app, IH, (zlen_concat_const _ 8); [unfold nrelocs; lia|].
  intros. apply ser_relocation_len.
Qed.

Lemma segment_bytes_len c : zlen (segment_bytes c) = segment_len c.
Proof. unfold segment_bytes, segment_len. by rewrite zlen_concat, <- list_fmap_compose. Qed.

Lemma mach_image_len ctx cpu c rs : zlen (mach_image ctx cpu c rs) = mach_file_len ctx c rs.
Proof.
  unfold mach_image, mach_file_len. rewrite !zlen_app, ser_mach_header_len, ser_segment_len,
    headers_bytes_len, ser_symtab_command_len, segment_bytes_len, nlists_bytes_len,
    strtable_bytes_len, relocs_bytes_len, image_headers_len. change (zlen [x00]) with 1.
  unfold off_relocs, off_strings, off_symbols, off_first, sizeof_commands, segment_cmdsize. lia.
Qed.

(** All offsets are below the length of the file. *)
Lemma mach_offsets ctx c rs :
  0 < segment_cmdsize ctx c ∧ 0 ≤ segment_len c ∧ 0 ≤ zlen (mach_symbols c) ∧
  12 ≤ nlist_size ctx ∧ 0 ≤ zlen (mach_symbols c) * nlist_size ctx ∧
  zlen (mach_symbols c) ≤ zlen (mach_symbols c) * nlist_size ctx ∧
  zlen (mach_groups c) ≤ zlen (mach_groups c) * mach_section_size ctx ∧
  0 ≤ zlen (mach_groups c) ∧ 0 < segment_size ctx ∧
  1 ≤ strtable_len (symbol_names c) ∧ 0 ≤ reloc_count (mach_sections ctx c rs).
Proof.
  pose proof (zlen_nonneg (mach_symbols c)). pose proof (zlen_nonneg (mach_groups c)).
  pose proof (strtable_len_pos (symbol_names c)). pose proof (zlen_nonneg (segment_bytes c)) as Hs.
  rewrite segment_bytes_len in Hs. unfold segment_cmdsize.
  assert (0 ≤ reloc_count (mach_sections ctx c rs)).
  { unfold reloc_count. apply zsum_nonneg. intros. apply zlen_nonneg. }
  rewrite segment_size_spec, mach_section_size_spec, nlist_size_spec.
  destruct (container ctx); lia.
Qed.
End MachImage.
