(* ===== verification/MachFile.v ===== *)
(** * [Mach::write] produces the image

    The layout is computed without overflow, the section headers are those of
    the image, and the cursor ends with exactly the bytes of [mach_image]. *)

From stdpp Require Import base numbers list gmap strings.
From Stdlib Require Import ZArith Lia Strings.Byte.
From S2P Require Import Prelude Std Bytes External Decl Artifact ArtifactInv Contents Target.
From S2P Require Import MachBuild MachState MachWrite MachSymtab MachPlace MachObject MachLink.
From S2P Require Import MachImage.

Section MachFile.
Context {TL : TargetLexicon} {SI : StringInterner} {IM : IndexMapOps}.
Context {G : GoblinElf} {GM : GoblinMach} {SC : Scroll} {P : Profile} {OS : OsFile}.
Context {SIL : StringInternerLaws SI} {IML : IndexMapLaws IM}.
Context {GML : GoblinMachLaws GM} {SCL : ScrollLaws SC}.

(** ** Marshalling the sections *)
Definition names_fit (b : SectionBuilder) : Prop :=
  str_len (sec_sectname b) ≤ 16 ∧ str_len (sec_segname b) ≤ 16 ∧ 0 ≤ sec_size b.

Lemma SectionBuilder_create_ok {E} b x y :
  names_fit b → 0 ≤ x → 0 ≤ y → x + sec_size b < 2 ^ 32 → y + nrelocs b * 8 < 2 ^ 32 →
  SectionBuilder_create (E:=E) b x y =
  Ok (mkMachSection (name_field (sec_sectname b)) (name_field (sec_segname b)) (sec_addr b)
        (sec_size b) x (u32 (sec_align b)) (if nrelocs b =? 0 then 0 else y) (nrelocs b)
        (sec_flags b), x + sec_size b, y + nrelocs b * 8).
Proof.
  intros (H1 & H2 & H3) Hx Hy Hlx Hly. unfold SectionBuilder_create.
  rewrite !pwrite_str_fits by done. cbn [expect obind].
  rewrite (wrap_small 32 x), (wrap_small 64 (x + sec_size b)) by (unfold in_u; lia).
  unfold nrelocs in *. rewrite SIZEOF_RELOCATION_INFO_spec.
  destruct (sec_relocations b) as [|r rl]; [cbn; by rewrite Z.add_0_r|].
  pose proof (zlen_nonneg (r :: rl)). pose proof (zlen_cons r rl). pose proof (zlen_nonneg rl).
  rewrite (wrap_small 64 (zlen (r :: rl) * 8)), (wrap_small 32 y), (wrap_small 64 (y + _)),
    (wrap_small 32 (zlen _)) by (unfold in_u; lia).
  destruct (Z.eqb_spec (zlen (r :: rl)) 0); [lia|done].
Qed.

Lemma marshal_loop {E} ctx secs : ∀ v x y,
  Forall (fun p => names_fit p.2) secs → 0 ≤ x → 0 ≤ y →
  x + zsum ((fun p => sec_size p.2) <$> secs) < 2 ^ 32 → y + reloc_count secs * 8 < 2 ^ 32 →
  ∃ x' y', ofold (fun '(raw, section_offset, relocation_offset) '(_, section) =>
      let! '(header, section_offset, relocation_offset) :=
        SectionBuilder_create (E:=E) section section_offset relocation_offset in
      Ok (write_all (ser_mach_section header ctx) raw, section_offset, relocation_offset))
    (mkCursor v (zlen v), x, y) secs =
  Ok (mkCursor (v ++ headers_bytes ctx (headers_from x y secs))
        (zlen (v ++ headers_bytes ctx (headers_from x y secs))), x', y').
Proof.
  induction secs as [|[k b] secs IH]; intros v x y Hf Hx Hy Hlx Hly; cbn [ofold headers_from].
  { exists x, y. cbn. by rewrite app_nil_r. }
  inversion_clear Hf as [|? ? Hb Hsecs]. unfold reloc_count in Hly.
  cbn [fmap list_fmap zsum snd] in Hlx, Hly, Hb. fold (reloc_count secs) in Hly.
  assert (0 ≤ zsum ((fun p => sec_size p.2) <$> secs)).
  { clear -Hsecs. induction Hsecs as [|p l [_ [_ Hp]] _ IH]; cbn; lia. }
  assert (0 ≤ reloc_count secs) by (apply zsum_nonneg; intros; apply zlen_nonneg).
  assert (0 ≤ nrelocs b) by apply zlen_nonneg. pose proof Hb as (_ & _ & Hsz).
  rewrite SectionBuilder_create_ok by (done || lia). cbn [obind].
  rewrite (write_all_buf _ _ v).
  - destruct (IH (v ++ ser_mach_section (mkMachSection (name_field (sec_sectname b))
      (name_field (sec_segname b)) (sec_addr b) (sec_size b) x (u32 (sec_align b))
      (if nrelocs b =? 0 then 0 else y) (nrelocs b) (sec_flags b)) ctx)
      (x + sec_size b) (y + nrelocs b * 8)) as (x' & y' & Hr); [done|lia..|].
    exists x', y'. rewrite Hr. unfold headers_bytes. cbn [fmap list_fmap concat]. by rewrite app_assoc.
  - split; cbn; [done|]. by rewrite Z.sub_diag, app_nil_r.
  - intros Hnil. apply (f_equal zlen) in Hnil. rewrite ser_mach_section_len, mach_section_size_spec in Hnil.
    by destruct (container ctx).
Qed.

Lemma default_segnames g c : g ∈ mach_groups c → str_len (gr_segname g) ≤ 16.
Proof.
  unfold mach_groups. rewrite elem_of_app. intros [Hg|Hg].
  - repeat (apply elem_of_cons in Hg as [->|Hg]; [unfold str_len; cbn; lia|]). by apply elem_of_nil in Hg.
  - apply list_elem_of_fmap in Hg as (d & -> & _). unfold str_len. cbn. destruct (section_kind d); cbn; lia.
Qed.

Lemma group_sectnames g c : mach_ready c → g ∈ mach_groups c → str_len (gr_sectname g) ≤ 16.
Proof.
  intros Hr. unfold mach_groups. rewrite elem_of_app. intros [Hg|Hg].
  - repeat (apply elem_of_cons in Hg as [->|Hg]; [unfold str_len; cbn; lia|]). by apply elem_of_nil in Hg.
  - apply list_elem_of_fmap in Hg as (d & -> & Hd). by apply (mr_sections _ Hr).
Qed.

(** Section number [i] of the object. *)
Lemma sections_from_lookup hdr gs : ∀ base i,
  sections_from hdr base gs !! i =
  (fun g => (gr_key g, group_section hdr (base + group_base gs i) g)) <$> gs !! i.
Proof.
  induction gs as [|g gs IH]; intros base i; cbn; [done|]. unfold group_base.
  destruct i as [|i]; cbn; [by rewrite Z.add_0_r|]. rewrite IH. unfold group_base.
  destruct (gs !! i); cbn; [|done]. do 3 f_equal. lia.
Qed.

Lemma mach_sections_lookup ctx c rs i :
  mach_sections ctx c rs !! i =
  (fun g => (gr_key g, add_relocations (relocs_of rs (Z.of_nat i))
     (group_section (mach_header_size (container ctx)) (group_base (mach_groups c) i) g))) <$>
  mach_groups c !! i.
Proof.
  unfold mach_sections, with_relocations. rewrite list_lookup_imap, sections_from_lookup.
  by destruct (mach_groups c !! i).
Qed.

Lemma mach_sections_sizes ctx c rs :
  (fun p => sec_size p.2) <$> mach_sections ctx c rs = gr_size <$> mach_groups c.
Proof.
  apply list_eq. intros i. rewrite !list_lookup_fmap, mach_sections_lookup.
  by destruct (mach_groups c !! i).
Qed.

Lemma mach_sections_fit ctx c rs :
  mach_ready c → Forall (fun p => names_fit p.2) (mach_sections ctx c rs).
Proof.
  intros Hr. apply Forall_forall. intros p Hp. apply list_elem_of_lookup in Hp as [i Hp].
  rewrite mach_sections_lookup in Hp. destruct (mach_groups c !! i) as [g|] eqn:Eg; [|done].
  injection Hp as <-. apply list_elem_of_lookup_2 in Eg. split; cbn.
  - by eapply group_sectnames.
  - split; [by eapply default_segnames | apply zlen_nonneg].
Qed.

(** ** Pieces of the writer *)
Lemma blob_slots c s : contents_wf c → s = SCode ∨ s = SCstring ∨ s = SCustom →
  Forall (fun d => is_zero_init (d_data d) = false) (in_slot s (c_defs c)).
Proof.
  intros Hc Hs. apply Forall_forall. intros d [Hd Hin]%in_slot_elem.
  destruct (cw_zero_init _ Hc d Hin) as [Hdata|]; [|done].
  unfold slot in Hd. destruct (d_decl d) as [f|f|f]; [done| |done].
  destruct (d_data d); [done|]. destruct Hs as [->|[->| ->]]; done.
Qed.

Lemma write_nlists_ok ctx c t cur v :
  stab_repr (mach_symbols c) t → cur_is cur v →
  cur_is (fold_left (fun cur '(_, symbol) => write_all (ser_nlist (SymbolBuilder_create symbol) ctx) cur)
            (im_iter (stab_symbols t)) cur) (v ++ nlists_bytes ctx c).
Proof.
  intros Ht Hc. rewrite (sr_symbols _ _ Ht). unfold nlists_bytes, mach_nlists.
  pose proof (cur_is_fold (fun p : Z * SymbolBuilder => ser_nlist (SymbolBuilder_create p.2) ctx)
    (imap (fun i p => (Z.of_nat i + 1, symbol_builder (mach_symbols c) i p)) (mach_symbols c)) cur v Hc)
    as H.
  rewrite fmap_imap in H. rewrite fmap_imap.
  match goal with H : cur_is ?x _ |- cur_is ?y _ => replace y with x; [exact H|] end.
  clear. revert cur. induction (imap _ _) as [|[i b] l IH]; intros cur; cbn; [done|]. apply IH.
Qed.

Lemma enumerate_drop1 {A} (x : A) l : drop 1 (enumerate (x :: l)) = enumerate_from 1 l.
Proof. done. Qed.

Lemma write_strtable_ok m syms cur v :
  stab_repr syms (m_symtab m) → cur_is cur v →
  cur_is (write_strtable m cur) (v ++ strtable_bytes syms.*1).
Proof.
  intros Ht Hc. unfold write_strtable. rewrite si_iter_ids, (sr_strings _ _ Ht), enumerate_drop1.
  unfold strtable_bytes. rewrite (cons_middle x00), app_assoc.
  apply (cur_is_write [x00]) in Hc. revert Hc.
  generalize (write_all [x00] cur), (v ++ [x00]), 1.
  induction syms.*1 as [|s l IH]; intros c w i Hc; cbn [enumerate_from fold_left fmap list_fmap concat];
    [by rewrite app_nil_r|].
  rewrite app_assoc. apply IH. cbn [app]. rewrite (cons_middle x5f), !app_assoc.
  by repeat apply cur_is_write.
Qed.

Lemma write_relocs_ok ctx secs : ∀ cur v, cur_is cur v →
  cur_is (fold_left (fun c '(_, section) =>
             fold_left (fun c reloc => write_all (ser_relocation reloc (le ctx)) c)
               (sec_relocations section) c) secs cur) (v ++ relocs_bytes ctx secs).
Proof.
  induction secs as [|[k b] secs IH]; intros cur v Hc; cbn; [by rewrite app_nil_r|].
  unfold relocs_bytes. cbn. rewrite app_assoc. apply IH.
  by apply (cur_is_fold (fun r => ser_relocation r (le ctx))).
Qed.

Section WriteOk.
Context (ctx : Ctx) (c : Contents) (rs : list (Z * RelocationInfo)) (m : Mach).
Hypothesis Hm : mach_repr ctx c rs m.
Hypothesis Hlen : mach_file_len ctx c rs < 2 ^ 32.

Lemma im_sections_len : im_len (sg_sections (m_segment m)) = zlen (mach_groups c).
Proof. by rewrite im_len_spec, (mp_sections _ _ _ _ Hm), mach_sections_len. Qed.

Ltac small := rewrite wrap_small by (unfold in_u; lia).

Lemma compute_layout_ok :
  compute_layout m =
  mkMachLayout (sizeof_commands ctx c) (off_symbols ctx c) (off_strings ctx c) (off_relocs ctx c)
    (off_first ctx c).
Proof.
  pose proof (mach_offsets ctx c rs) as Ho. pose proof (header_size_pos ctx) as Hh.
  unfold mach_file_len, off_relocs, off_strings, off_symbols, off_first, sizeof_commands in *.
  unfold segment_cmdsize in *.
  unfold compute_layout, load_command_size, sizeof_strtable. rewrite (mp_ctx _ _ _ _ Hm), (mp_offset _ _ _ _ Hm).
  rewrite (stab_len _ _ (mp_symtab _ _ _ _ Hm)), (sr_size _ _ (mp_symtab _ _ _ _ Hm)).
  rewrite im_sections_len, SymtabCommand_new_cmdsize. fold (symbol_names c).
  rewrite (wrap_small 64 (zlen (mach_groups c) * _)) by (unfold in_u; lia).
  rewrite (wrap_small 64 (segment_size ctx + _)) by (unfold in_u; lia).
  rewrite (wrap_small 64 (zlen (mach_symbols c) * _)) by (unfold in_u; lia).
  rewrite (wrap_small 64 (strtable_len _)) by (unfold in_u; lia).
  rewrite !wrap_small by (unfold in_u; rewrite ?wrap_small by (unfold in_u; lia); lia).
  f_equal; lia.
Qed.

Lemma marshal_sections_ok {E} : mach_ready c →
  marshal_sections (E:=E) m (compute_layout m) = Ok (headers_bytes ctx (image_headers ctx c rs)).
Proof.
  intros Hr. pose proof (mach_offsets ctx c rs) as Ho. pose proof (header_size_pos ctx) as Hh.
  unfold mach_file_len in Hlen. unfold marshal_sections. rewrite compute_layout_ok.
  cbn [ml_first_section_offset ml_relocation_offset_start].
  rewrite (mp_sections _ _ _ _ Hm), (mp_ctx _ _ _ _ Hm).
  assert (0 ≤ off_first ctx c ∧ off_first ctx c + segment_len c ≤ off_relocs ctx c) as Hoff.
  { unfold off_relocs, off_strings, off_symbols, off_first, sizeof_commands. lia. }
  destruct (marshal_loop (E:=E) ctx (mach_sections ctx c rs) [] (off_first ctx c) (off_relocs ctx c))
    as (x' & y' & Hl); [by apply mach_sections_fit | lia | lia | | lia |].
  { rewrite mach_sections_sizes. fold (segment_len c). lia. }
  change (mkCursor [] (zlen (@nil byte))) with Cursor_new in Hl. rewrite Hl. done.
Qed.

Lemma segment_cmdsize_new :
  seg_cmdsize (Segment_new ctx (headers_bytes ctx (image_headers ctx c rs))) = segment_cmdsize ctx c.
Proof.
  pose proof (mach_offsets ctx c rs) as Ho. pose proof (header_size_pos ctx) as Hh.
  rewrite Segment_new_cmdsize, headers_bytes_len, image_headers_len. apply wrap_small.
  unfold mach_file_len, off_relocs, off_strings, off_symbols, off_first, sizeof_commands in Hlen.
  unfold segment_cmdsize, in_u in *. lia.
Qed.

Lemma segment_command_ok :
  segment_command m (compute_layout m) (headers_bytes ctx (image_headers ctx c rs)) =
  image_segment ctx c.
Proof.
  pose proof (mach_offsets ctx c rs) as Ho. pose proof (header_size_pos ctx) as Hh.
  unfold segment_command, image_segment, SegmentBuilder_size.
  rewrite compute_layout_ok, (mp_ctx _ _ _ _ Hm), segment_cmdsize_new, (mp_size _ _ _ _ Hm),
    (mp_bss _ _ _ _ Hm), im_sections_len, wrap_add_r.
  cbn [ml_first_section_offset]. rewrite (wrap_small 32); [done|].
  unfold mach_file_len, off_relocs, off_strings, off_symbols, off_first, sizeof_commands in Hlen.
  unfold segment_cmdsize, in_u in *. lia.
Qed.

Lemma symtab_command_ok : symtab_command m (compute_layout m) = image_symtab ctx c.
Proof.
  pose proof (mach_offsets ctx c rs) as Ho. pose proof (header_size_pos ctx) as Hh.
  unfold symtab_command, image_symtab, sizeof_strtable.
  rewrite compute_layout_ok, SymtabCommand_new_cmdsize, (stab_len _ _ (mp_symtab _ _ _ _ Hm)),
    (sr_size _ _ (mp_symtab _ _ _ _ Hm)). fold (symbol_names c).
  cbn [ml_symtable_offset ml_strtable_offset].
  unfold mach_file_len, off_relocs, off_strings, off_symbols, off_first, sizeof_commands in *.
  rewrite (wrap_small 64), !(wrap_small 32) by (unfold in_u; lia). done.
Qed.

Lemma symtable_offset_ok :
  (off_symbols ctx c =? u64 (sg_offset (m_segment m) + seg_cmdsize (image_segment ctx c) +
     sc_cmdsize SymtabCommand_new)) = true.
Proof.
  pose proof (mach_offsets ctx c rs) as Ho. pose proof (header_size_pos ctx) as Hh.
  rewrite SymtabCommand_new_cmdsize, (mp_offset _ _ _ _ Hm). cbn [image_segment seg_cmdsize].
  unfold mach_file_len, off_relocs, off_strings, off_symbols, off_first, sizeof_commands in *.
  rewrite wrap_small by (unfold in_u; lia). apply Z.eqb_eq. lia.
Qed.

(** [Mach::write] produces the image. *)
Lemma mach_write_ok {E} cpu : contents_wf c → mach_ready c →
  CpuType_from (E:=E) (m_architecture m) = Ok cpu →
  write (E:=E) m = Ok (mach_image ctx cpu c rs).
Proof.
  intros Hc Hr Hcpu. pose proof (mach_offsets ctx c rs) as Ho. pose proof (header_size_pos ctx) as Hh.
  unfold write, write_symtable, write_relocations. rewrite (marshal_sections_ok Hr). unfold header. rewrite Hcpu. cbn [obind].
  rewrite segment_command_ok, symtab_command_ok, (mp_code _ _ _ _ Hm), (mp_data _ _ _ _ Hm),
    (mp_cstrings _ _ _ _ Hm), (mp_customs _ _ _ _ Hm), (mp_sections _ _ _ _ Hm), (mp_ctx _ _ _ _ Hm).
  rewrite compute_layout_ok. cbn [ml_sizeof_load_commands ml_symtable_offset].
  rewrite symtable_offset_ok. cbn [assert_ obind].
  rewrite (wrap_small 32 (sizeof_commands ctx c)); [|unfold mach_file_len, off_relocs, off_strings,
    off_symbols, off_first, sizeof_commands, in_u in *; lia].
  fold (image_header ctx cpu c).
  pose proof (cur_is_write (ser_mach_header (image_header ctx cpu c) ctx) _ _ cur_is_new) as H1.
  apply (cur_is_write (ser_segment (image_segment ctx c) ctx)) in H1.
  apply (cur_is_write (headers_bytes ctx (image_headers ctx c rs))) in H1.
  apply (cur_is_write (ser_symtab_command (image_symtab ctx c) (le ctx))) in H1.
  destruct (write_blobs_ok (E:=E) m xcc (in_slot SCode (c_defs c)) _ _ (blob_slots c SCode Hc ltac:(tauto)) H1)
    as (c2 & -> & H2). cbn [obind].
  apply (write_datas_ok m (in_slot SData (c_defs c))) in H2.
  destruct (write_blobs_ok (E:=E) m xaa (in_slot SCstring (c_defs c)) _ _ (blob_slots c SCstring Hc ltac:(tauto)) H2)
    as (c3 & -> & H3). cbn [obind].
  destruct (write_blobs_ok (E:=E) m xaa (in_slot SCustom (c_defs c)) _ _ (blob_slots c SCustom Hc ltac:(tauto)) H3)
    as (c4 & -> & H4). cbn [obind].
  apply (write_nlists_ok ctx c _ _ _ (mp_symtab _ _ _ _ Hm)) in H4.
  apply (write_strtable_ok m _ _ _ (mp_symtab _ _ _ _ Hm)) in H4.
  apply (write_relocs_ok ctx (mach_sections ctx c rs)) in H4.
  rewrite (write_all_buf [x00] _ _ H4) by done. cbn [cur_buf]. f_equal. unfold mach_image.
  rewrite <- (written_segment c) by apply (cw_defs _ Hc). rewrite (mp_pads _ _ _ _ Hm).
  unfold symbol_names. rewrite <- !app_assoc. done.
Qed.
End WriteOk.
End MachFile.
