(* ===== verification/MachRead.v ===== *)
(** * Reading the Mach-O file

    Where every piece of [mach_image] is: load commands, sections, symbols,
    names, relocations, and each definition in its section. *)

From stdpp Require Import base numbers list gmap strings.
From Stdlib Require Import ZArith Lia Strings.Byte.
From S2P Require Import Prelude Std Bytes External Decl Artifact ArtifactInv Contents Target.
From S2P Require Import MachBuild MachState MachWrite MachSymtab MachPlace MachObject MachLink.
From S2P Require Import MachImage MachFile.

(** ** A definition in its section *)
Lemma placed_at b min ds : ∀ off p, 0 ≤ min → p ∈ placed min ds off →
  at_off (pl_off p - off) (def_data (pl_def p)) (placed_bytes b (placed min ds off)).
Proof.
  induction ds as [|d rest IH]; intros off p Hm Hp; [by apply elem_of_nil in Hp|].
  cbn [placed] in *. set (pad := (- (off + file_size (d_data d))) mod 2 ^ next_exp min rest) in *.
  assert (0 ≤ pad).
  { apply Z.mod_pos_bound, Z.pow_pos_nonneg; [lia|]. unfold next_exp. lia. }
  unfold placed_bytes. cbn [fmap list_fmap concat]. apply elem_of_cons in Hp as [->|Hp]; cbn [pl_off pl_def pl_pad].
  - rewrite Z.sub_diag. exists []. eexists. split; [|done]. cbn [app]. rewrite <- app_assoc. reflexivity.
  - apply IH in Hp; [|done]. destruct Hp as (v1 & v2 & Ev & El). unfold placed_bytes in Ev.
    rewrite Ev. exists ((def_data d ++ replicate (Z.to_nat pad) b) ++ v1), v2.
    split; [by rewrite <- !app_assoc|].
    rewrite !zlen_app, El. unfold zlen at 2. rewrite length_replicate, file_size_data. lia.
Qed.

Lemma placed_lookup min ds : ∀ off i d, ds !! i = Some d →
  ∃ p, placed min ds off !! i = Some p ∧ pl_def p = d.
Proof.
  intros off i d Hi. rewrite <- (placed_defs min ds off) in Hi. rewrite list_lookup_fmap in Hi.
  destruct (placed min ds off !! i) as [p|]; [|done]. injection Hi as <-. eauto.
Qed.

Lemma placed_elem min ds off d : d ∈ ds → ∃ p, p ∈ placed min ds off ∧ pl_def p = d.
Proof.
  intros [i Hi]%list_elem_of_lookup. destruct (placed_lookup min ds off i d Hi) as (p & Hp & E).
  apply list_elem_of_lookup_2 in Hp. eauto.
Qed.

(** Every definition after the first is aligned as it asks. *)
Lemma placed_aligned min ds : ∀ off i p, 0 ≤ min → (∀ d, d ∈ ds → align_valid (d_decl d)) →
  placed min ds off !! S i = Some p → pl_off p mod 2 ^ def_exp (pl_def p) = 0.
Proof.
  induction ds as [|d rest IH]; intros off i p Hm Hv Hp; [done|].
  cbn [placed lookup list_lookup] in Hp.
  set (off1 := off + file_size (d_data d)) in *.
  destruct i as [|i]; [|eapply IH; [done| |exact Hp]; intros d' Hd'; apply Hv; by right].
  destruct rest as [|d' rest]; [done|]. cbn [placed lookup list_lookup] in Hp. injection Hp as <-.
  cbn [pl_off pl_def].
  destruct (def_exp_ok (E:=unit) d') as [_ He]; [apply Hv; right; left|].
  set (e := next_exp min (d' :: rest)).
  assert (def_exp d' ≤ e) by (unfold e, next_exp; lia).
  assert (0 < 2 ^ e) by (apply Z.pow_pos_nonneg; lia).
  assert (0 < 2 ^ def_exp d') by (apply Z.pow_pos_nonneg; lia).
  assert ((off1 + (- off1) mod 2 ^ e) mod 2 ^ e = 0) as Hd.
  { rewrite Zplus_mod_idemp_r, Z.add_opp_diag_r. apply Z.mod_0_l. lia. }
  apply Z.mod_divide in Hd; [|lia]. apply Z.mod_divide; [lia|].
  etrans; [|exact Hd]. exists (2 ^ (e - def_exp d')). rewrite <- Z.pow_add_r by lia. f_equal. lia.
Qed.

(** The section is at least as aligned as each of them. *)
Lemma max_exp_ge min ds : ∀ acc, acc ≤ max_exp acc min ds ∧
  ∀ i d, ds !! S i = Some d → def_exp d ≤ max_exp acc min ds.
Proof.
  induction ds as [|d rest IH]; intros acc; cbn [max_exp]; [split; [lia|done]|].
  destruct (IH (Z.max acc (next_exp min rest))) as [H1 H2]. split; [lia|].
  intros i d' Hd'. cbn in Hd'. destruct i as [|i]; [|by eapply H2].
  destruct rest as [|d'' rest]; [done|]. injection Hd' as ->.
  unfold next_exp in *. lia.
Qed.

Lemma max_exp_range min ds : ∀ acc, 0 ≤ min < 64 → 0 ≤ acc < 64 →
  (∀ d, d ∈ ds → align_valid (d_decl d)) → 0 ≤ max_exp acc min ds < 64.
Proof.
  induction ds as [|d rest IH]; intros acc Hm Ha Hv; cbn [max_exp]; [done|].
  assert (∀ d', d' ∈ rest → align_valid (d_decl d')) as Hv' by (intros; apply Hv; by right).
  pose proof (next_exp_range min rest Hm Hv'). apply IH; [done|lia|done].
Qed.

(** ** The string table *)
Lemma strtable_at names i n :
  names !! i = Some n →
  at_off (strx_pos names i) (x5f :: bytes_of n ++ [x00]) (strtable_bytes names).
Proof.
  intros Hi. unfold strx_pos. rewrite <- strtable_bytes_len. unfold strtable_bytes.
  rewrite <- (take_drop_middle names _ _ Hi) at 2. rewrite fmap_app, concat_app. cbn.
  eexists (x00 :: concat _), _. cbn. split; done.
Qed.

Lemma strx_pos_bound names i : 0 ≤ strx_pos names i ≤ strtable_len names.
Proof.
  unfold strx_pos. pose proof (strtable_len_pos (take i names)). split; [lia|].
  rewrite <- (take_drop i names) at 2. unfold strtable_len. rewrite fmap_app, zsum_app.
  pose proof (zsum_nonneg (fun s => str_len s + 2) (drop i names)
    (fun s => ltac:(pose proof (str_len_nonneg s); lia))). lia.
Qed.

Lemma mach_cstring_at off n v :
  at_off off (x5f :: bytes_of n ++ [x00]) v → no_nul n → cstring_at off v = x5f :: bytes_of n.
Proof.
  intros (v1 & v2 & -> & <-) Hn. unfold cstring_at, zlen.
  rewrite Nat2Z.id, drop_app_length. rewrite app_comm_cons, <- app_assoc. apply until_nul_app.
  unfold no_nul in Hn. set_solver.
Qed.

(** ** The pieces of the image *)
Section Pieces.
Context {TL : TargetLexicon} {SI : StringInterner} {IM : IndexMapOps}.
Context {G : GoblinElf} {GM : GoblinMach} {SC : Scroll} {P : Profile} {OS : OsFile}.
Context {SIL : StringInternerLaws SI} {IML : IndexMapLaws IM}.
Context {GML : GoblinMachLaws GM} {SCL : ScrollLaws SC}.
Context (ctx : Ctx) (cpu : Z) (c : Contents) (rs : list (Z * RelocationInfo)).

Notation image := (mach_image ctx cpu c rs).

Definition image_pieces : list (list byte) :=
  [ser_mach_header (image_header ctx cpu c) ctx; ser_segment (image_segment ctx c) ctx;
   headers_bytes ctx (image_headers ctx c rs); ser_symtab_command (image_symtab ctx c) (le ctx);
   segment_bytes c; nlists_bytes ctx c; strtable_bytes (symbol_names c);
   relocs_bytes ctx (mach_sections ctx c rs); [x00]].

Lemma piece_at i w off :
  image_pieces !! i = Some w → off = zsum (zlen <$> take i image_pieces) → at_off off w image.
Proof. intros Hi ->. change image with (concat image_pieces). by apply at_off_pieces. Qed.

Ltac piece i :=
  apply (piece_at i); [done|];
  cbn [image_pieces take fmap list_fmap zsum];
  rewrite ?ser_mach_header_len, ?ser_segment_len, ?headers_bytes_len, ?ser_symtab_command_len,
    ?segment_bytes_len, ?nlists_bytes_len, ?strtable_bytes_len, ?image_headers_len;
  unfold off_relocs, off_strings, off_symbols, off_first, sizeof_commands, segment_cmdsize; lia.

Lemma mach_header_at : at_off 0 (ser_mach_header (image_header ctx cpu c) ctx) image.
Proof. piece 0%nat. Qed.

Lemma segment_at :
  at_off (mach_header_size (container ctx)) (ser_segment (image_segment ctx c) ctx) image.
Proof. piece 1%nat. Qed.

Lemma mach_headers_at :
  at_off (mach_header_size (container ctx) + segment_size ctx)
    (headers_bytes ctx (image_headers ctx c rs)) image.
Proof. piece 2%nat. Qed.

Lemma symtab_command_at :
  at_off (mach_header_size (container ctx) + segment_cmdsize ctx c)
    (ser_symtab_command (image_symtab ctx c) (le ctx)) image.
Proof. piece 3%nat. Qed.

Lemma contents_at : at_off (off_first ctx c) (segment_bytes c) image.
Proof. piece 4%nat. Qed.

Lemma nlists_at : at_off (off_symbols ctx c) (nlists_bytes ctx c) image.
Proof. piece 5%nat. Qed.

Lemma strings_at : at_off (off_strings ctx c) (strtable_bytes (symbol_names c)) image.
Proof. piece 6%nat. Qed.

Lemma mach_relocs_at : at_off (off_relocs ctx c) (relocs_bytes ctx (mach_sections ctx c rs)) image.
Proof. piece 7%nat. Qed.

(** Entries of the tables. *)
Lemma mach_section_header_at i h :
  zget (image_headers ctx c rs) i = Some h →
  at_off (mach_header_size (container ctx) + segment_size ctx + i * mach_section_size ctx)
    (ser_mach_section h ctx) image.
Proof.
  intros Hi. eapply at_off_trans; [apply mach_headers_at|].
  apply (at_off_concat (fun h => ser_mach_section h ctx)); [|done]. intros. apply ser_mach_section_len.
Qed.

Lemma nlist_at i n :
  zget (mach_nlists c) i = Some n →
  at_off (off_symbols ctx c + i * nlist_size ctx) (ser_nlist n ctx) image.
Proof.
  intros Hi. eapply at_off_trans; [apply nlists_at|].
  apply (at_off_concat (fun n => ser_nlist n ctx)); [|done]. intros. apply ser_nlist_len.
Qed.

Lemma symbol_name_at i n k :
  mach_symbols c !! i = Some (n, k) →
  at_off (off_strings ctx c + strx_pos (symbol_names c) i) (x5f :: bytes_of n ++ [x00]) image.
Proof.
  intros Hi. eapply at_off_trans; [apply strings_at|]. apply strtable_at.
  unfold symbol_names. by rewrite list_lookup_fmap, Hi.
Qed.

(** Section number [i]: its header and its bytes. *)
Lemma headers_from_lookup secs : ∀ x y i p, secs !! i = Some p →
  headers_from x y secs !! i =
  Some (mkMachSection (name_field (sec_sectname p.2)) (name_field (sec_segname p.2)) (sec_addr p.2)
    (sec_size p.2) (x + zsum ((fun p => sec_size p.2) <$> take i secs)) (u32 (sec_align p.2))
    (if nrelocs p.2 =? 0 then 0 else y + reloc_count (take i secs) * 8) (nrelocs p.2)
    (sec_flags p.2)).
Proof.
  induction secs as [|[k b] secs IH]; intros x y i p Hi; [done|]. cbn [headers_from].
  destruct i as [|i]; cbn in Hi |- *.
  - injection Hi as <-. cbn. by rewrite !Z.add_0_r.
  - rewrite (IH _ _ _ _ Hi). unfold reloc_count. cbn [fmap list_fmap zsum snd].
    do 2 f_equal; [lia|]. destruct (nrelocs p.2 =? 0); lia.
Qed.

Definition section_header (i : nat) (g : Group) : MachSection :=
  let relocs := relocs_of rs (Z.of_nat i) in
  mkMachSection (name_field (gr_sectname g)) (name_field (gr_segname g))
    (group_base (mach_groups c) i) (gr_size g) (off_first ctx c + group_base (mach_groups c) i)
    (u32 (gr_align g))
    (if zlen relocs =? 0 then 0
     else off_relocs ctx c + reloc_count (take i (mach_sections ctx c rs)) * 8)
    (zlen relocs) (gr_flags g).

Lemma image_headers_lookup i g :
  mach_groups c !! i = Some g → image_headers ctx c rs !! i = Some (section_header i g).
Proof.
  intros Hg. pose proof (mach_sections_lookup ctx c rs i) as Hs. rewrite Hg in Hs. cbn [fmap option_fmap option_map] in Hs.
  assert (zsum ((fun p => sec_size p.2) <$> take i (mach_sections ctx c rs)) =
    group_base (mach_groups c) i) as Eb.
  { unfold group_base. by rewrite !fmap_take, mach_sections_sizes. }
  unfold image_headers. rewrite (headers_from_lookup _ _ _ _ _ Hs), Eb. done.
Qed.

Lemma section_bytes_at i g :
  mach_groups c !! i = Some g →
  at_off (off_first ctx c + group_base (mach_groups c) i) (gr_bytes g) image.
Proof.
  intros Hg. eapply at_off_trans; [apply contents_at|].
  unfold segment_bytes, group_base.
  replace (zsum (gr_size <$> take i (mach_groups c))) with
    (zsum (zlen <$> take i (gr_bytes <$> mach_groups c))).
  - apply at_off_pieces. by rewrite list_lookup_fmap, Hg.
  - by rewrite <- fmap_take, <- list_fmap_compose.
Qed.

(** The relocations of section number [i]. *)
Lemma section_relocs_at i g :
  mach_groups c !! i = Some g →
  at_off (off_relocs ctx c + reloc_count (take i (mach_sections ctx c rs)) * 8)
    (concat ((fun r => ser_relocation r (le ctx)) <$> relocs_of rs (Z.of_nat i))) image.
Proof.
  intros Hg. eapply at_off_trans; [apply mach_relocs_at|]. rewrite <- (relocs_bytes_len ctx).
  pose proof (mach_sections_lookup ctx c rs i) as Hs. rewrite Hg in Hs. cbn [fmap option_fmap option_map] in Hs.
  unfold relocs_bytes. rewrite zlen_concat, fmap_take.
  apply at_off_pieces. by rewrite list_lookup_fmap, Hs.
Qed.

(** ** Symbols of the object *)
Lemma symbols_from_elem gs : ∀ idx base i g x, gs !! i = Some g →
  x ∈ gr_symbols g (idx + Z.of_nat i) (base + group_base gs i) → x ∈ symbols_from idx base gs.
Proof.
  induction gs as [|g' gs IH]; intros idx base i g x Hi Hx; [done|].
  cbn [symbols_from]. apply elem_of_app. unfold group_base in Hx.
  destruct i as [|i]; cbn in Hi, Hx.
  - injection Hi as ->. rewrite !Z.add_0_r in Hx. by left.
  - right. eapply IH; [exact Hi|]. unfold group_base.
    replace (idx + 1 + Z.of_nat i) with (idx + Z.of_nat (S i)) by lia. by rewrite <- Z.add_assoc.
Qed.

Lemma group_symbol_elem i g x :
  mach_groups c !! i = Some g → x ∈ gr_symbols g (Z.of_nat i) (group_base (mach_groups c) i) →
  x ∈ mach_symbols c.
Proof.
  intros Hg Hx. unfold mach_symbols. apply elem_of_app. left.
  eapply symbols_from_elem; [exact Hg|]. by rewrite !Z.add_0_l.
Qed.

Lemma mach_nlists_lookup i n k :
  mach_symbols c !! i = Some (n, k) →
  zget (mach_nlists c) (Z.of_nat i) =
    Some (SymbolBuilder_create (symbol_builder (mach_symbols c) i (n, k))).
Proof. intros Hi. rewrite zget_nat. unfold mach_nlists. by rewrite list_lookup_imap, Hi. Qed.
End Pieces.
