(* ===== verification/MachTheorems.v ===== *)
(** * What the Mach-O backend guarantees

    The theorems about [mach::to_bytes]: the bytes it returns are the image of
    the object the artifact stands for, and what a linker reads in that image:
    load commands, sections, symbols and relocations. *)

From stdpp Require Import base numbers list gmap strings.
From Stdlib Require Import ZArith Lia Strings.Byte.
From S2P Require Import Prelude Std Bytes External Instances Decl Artifact ArtifactInv ArtifactSpec.
From S2P Require Import Contents Target MachBuild MachState MachWrite MachSymtab MachPlace.
From S2P Require Import MachObject MachLink MachImage MachFile MachRead.

Section MachTheorems.
Context {TL : TargetLexicon} {SI : StringInterner} {IM : IndexMapOps}.
Context {G : GoblinElf} {GM : GoblinMach} {SC : Scroll} {P : Profile} {OS : OsFile}.
Context {SIL : StringInternerLaws SI} {IML : IndexMapLaws IM}.
Context {GML : GoblinMachLaws GM} {SCL : ScrollLaws SC}.

(** [bs] is what [to_bytes] returned for an artifact whose links have the
    relocations [rs]. *)
Record mach_emitted (a : Artifact) (cpu : Z) (rs : list (Z * RelocationInfo)) (bs : list byte) :
  Prop := {
  me_reach : reachable a;
  me_def : undefined_symbols (E:=ArtifactError) a = Ok [];
  me_ready : mach_ready (contents a);
  me_cpu : CpuType_from (E:=io_error) (architecture (a_target a)) = Ok cpu;
  me_relocs : mach_relocs (E:=io_error) (mach_symbols (contents a)) (mach_keys (contents a))
                (c_links (contents a)) = Ok rs;
  me_fits : mach_file_len (make_ctx (a_target a)) (contents a) rs < 2 ^ 32;
  me_bytes : to_bytes a = Ok bs
}.

Lemma mach_bytes_image a cpu rs :
  reachable a → undefined_symbols (E:=ArtifactError) a = Ok [] → mach_ready (contents a) →
  CpuType_from (E:=io_error) (architecture (a_target a)) = Ok cpu →
  mach_relocs (E:=io_error) (mach_symbols (contents a)) (mach_keys (contents a))
    (c_links (contents a)) = Ok rs →
  mach_file_len (make_ctx (a_target a)) (contents a) rs < 2 ^ 32 →
  to_bytes a = Ok (mach_image (make_ctx (a_target a)) cpu (contents a) rs).
Proof.
  intros Hreach Hdef Hready Hcpu Hrs Hfit. pose proof (reachable_wf _ Hreach) as Hwf.
  pose proof (contents_complete a Hwf Hdef) as Hc.
  pose proof (mach_offsets (make_ctx (a_target a)) (contents a) rs) as Ho.
  assert (mach_header_size (container (make_ctx (a_target a))) + segment_len (contents a) < 2 ^ 64 ∧
    zlen (mach_symbols (contents a)) < 2 ^ 64) as [Hb1 Hb2].
  { unfold mach_file_len, off_relocs, off_strings, off_symbols, off_first, sizeof_commands in Hfit.
    pose proof (header_size_pos (make_ctx (a_target a))). lia. }
  destruct (Mach_new_ok (E:=io_error) a rs) as (m & Hm & Har & Hr); [done..|].
  unfold to_bytes. rewrite Hm. cbn [obind]. eapply mach_write_ok; try done. by rewrite Har.
Qed.

Lemma mach_emitted_image a cpu rs bs :
  mach_emitted a cpu rs bs →
  bs = mach_image (make_ctx (a_target a)) cpu (contents a) rs ∧ contents_wf (contents a).
Proof.
  intros []. split.
  - assert (to_bytes a = Ok (mach_image (make_ctx (a_target a)) cpu (contents a) rs))
      by (by apply mach_bytes_image). congruence.
  - apply (contents_complete (E:=ArtifactError)); [by apply reachable_wf | done].
Qed.

(** C20: [mach::to_bytes] writes the object the artifact stands for.  For an
    artifact a client can build, in which nothing is left undefined, whose
    alignments are powers of two, whose sections have names of their own of at
    most 16 bytes and whose symbols have distinct names, all of whose links
    have a relocation, [to_bytes] returns exactly the image of its object
    whenever that is smaller than 2^32 bytes: the assertion on the symbol
    table's offset holds and nothing panics. *)
Theorem mach_to_bytes_image (a : Artifact) (cpu : Z) (rs : list (Z * RelocationInfo))
  (Hreach : reachable a)
  (Hdef : undefined_symbols (E:=ArtifactError) a = Ok [])
  (Hready : mach_ready (contents a))
  (Hcpu : CpuType_from (E:=io_error) (architecture (a_target a)) = Ok cpu)
  (Hrs : mach_relocs (E:=io_error) (mach_symbols (contents a)) (mach_keys (contents a))
           (c_links (contents a)) = Ok rs)
  (Hfit : mach_file_len (make_ctx (a_target a)) (contents a) rs < 2 ^ 32) :
  to_bytes a = Ok (mach_image (make_ctx (a_target a)) cpu (contents a) rs).
Proof. by apply mach_bytes_image. Qed.

(** ** Load commands *)

(** C21: the load commands describe the file.  The file starts with a header
    that announces two commands and their size.  The segment command follows,
    with the headers of its sections, then the symbol table command; the
    segment's contents start right after the commands, the symbol table right
    after the contents, the string table right after the symbols, and the
    string table is as long as the command says.  In memory the segment also
    has room for the zero-initialised data. *)
Theorem mach_load_commands (a : Artifact) (cpu : Z) (rs : list (Z * RelocationInfo))
  (bs : list byte)
  (Hem : mach_emitted a cpu rs bs) :
  let ctx := make_ctx (a_target a) in
  let c := contents a in
  let h := image_header ctx cpu c in
  let seg := image_segment ctx c in
  let st := image_symtab ctx c in
  let headers := image_headers ctx c rs in
  let hsize := mach_header_size (container ctx) in
  slice 0 hsize bs = ser_mach_header h ctx ∧
  mh_filetype h = MH_OBJECT ∧ mh_cputype h = cpu ∧ mh_ncmds h = 2 ∧
  mh_sizeofcmds h = seg_cmdsize seg + sc_cmdsize st ∧
  slice hsize (segment_size ctx) bs = ser_segment seg ctx ∧
  seg_nsects seg = zlen headers ∧
  seg_cmdsize seg = segment_size ctx + zlen headers * mach_section_size ctx ∧
  (∀ i hd, zget headers i = Some hd →
     slice (hsize + segment_size ctx + i * mach_section_size ctx) (mach_section_size ctx) bs =
       ser_mach_section hd ctx) ∧
  slice (hsize + seg_cmdsize seg) (sc_cmdsize st) bs = ser_symtab_command st (le ctx) ∧
  seg_fileoff seg = hsize + mh_sizeofcmds h ∧
  sc_symoff st = seg_fileoff seg + seg_filesize seg ∧
  sc_stroff st = sc_symoff st + sc_nsyms st * nlist_size ctx ∧
  slice (sc_stroff st) (sc_strsize st) bs = strtable_bytes (symbol_names c) ∧
  seg_vmsize seg = u64 (seg_filesize seg + bss_total (c_defs c)).
Proof.
  destruct (mach_emitted_image _ _ _ _ Hem) as [-> _].
  intros ctx c h seg st headers hsize. pose proof (mach_offsets ctx c rs) as Ho.
  assert (zlen headers = zlen (mach_groups c)) as En by apply image_headers_len.
  split; [apply slice_at; [apply mach_header_at | apply ser_mach_header_len]|].
  do 3 (split; [done|]). split; [done|].
  split; [apply slice_at; [apply segment_at | apply ser_segment_len]|].
  split; [done|]. split; [by rewrite En|].
  split; [intros i hd Hi; apply slice_at; [by apply mach_section_header_at | apply ser_mach_section_len]|].
  split; [apply slice_at; [apply symtab_command_at | apply ser_symtab_command_len]|].
  do 3 (split; [done|]).
  split; [apply slice_at; [apply strings_at | apply strtable_bytes_len]|done].
Qed.

(** ** Symbols *)

(** What a linker reads in a built symbol. *)
Lemma defined_nlist strx section abs rel global :
  0 ≤ section < 2 ^ 64 - 1 →
  let n := SymbolBuilder_create (kind_builder strx (Sym_Defined section abs rel global)) in
  n_strx n = strx ∧ n_type n = Z.lor N_SECT (if global then N_EXT else 0) ∧
  n_sect n = section + 1 ∧ n_desc n = 0 ∧ n_value n = abs.
Proof.
  intros Hs. pose proof N_values as (E1 & E2 & E3 & E4). unfold SymbolBuilder_create. cbn.
  rewrite E1, E2, E3. rewrite (wrap_small 64 (section + 1)) by (unfold in_u; lia).
  by destruct global.
Qed.

Lemma undefined_nlist strx :
  let n := SymbolBuilder_create (kind_builder strx Sym_Undefined) in
  n_strx n = strx ∧ n_type n = N_EXT ∧ n_sect n = NO_SECT ∧ n_desc n = 0 ∧ n_value n = 0.
Proof. done. Qed.

(** Entry [k] of the symbol table of the file is [n], and its name is [name]
    with an underscore. *)
Definition symbol_entry (a : Artifact) (bs : list byte) (k : Z) (n : Nlist) (name : string) : Prop :=
  let ctx := make_ctx (a_target a) in
  let st := image_symtab ctx (contents a) in
  0 ≤ k < sc_nsyms st ∧
  slice (sc_symoff st + k * nlist_size ctx) (nlist_size ctx) bs = ser_nlist n ctx ∧
  cstring_at (sc_stroff st + n_strx n) bs = x5f :: bytes_of name.

Lemma symbol_entry_of a cpu rs bs (i : nat) name k :
  mach_emitted a cpu rs bs → mach_symbols (contents a) !! i = Some (name, k) → no_nul name →
  symbol_entry a bs (Z.of_nat i)
    (SymbolBuilder_create (symbol_builder (mach_symbols (contents a)) i (name, k))) name ∧
  symbol_builder (mach_symbols (contents a)) i (name, k) =
    kind_builder (strx_pos (symbol_names (contents a)) i) k.
Proof.
  intros Hem Hi Hnul. destruct (mach_emitted_image _ _ _ _ Hem) as [-> _].
  set (ctx := make_ctx (a_target a)). set (c := contents a) in *.
  pose proof (mach_offsets ctx c rs) as Ho. pose proof (header_size_pos ctx) as Hh.
  pose proof (me_fits _ _ _ _ Hem) as Hfit. fold ctx c in Hfit.
  pose proof (strx_pos_bound (symbol_names c) i) as Hx.
  assert (symbol_builder (mach_symbols c) i (name, k) = kind_builder (strx_pos (symbol_names c) i) k)
    as Eb.
  { unfold symbol_builder. fold (symbol_names c). rewrite wrap_small; [done|]. unfold in_u.
    unfold mach_file_len, off_relocs, off_strings, off_symbols, off_first, sizeof_commands in Hfit. lia. }
  split; [|done]. split.
  { apply lookup_lt_Some in Hi. cbn [sc_nsyms image_symtab]. unfold zlen. fold c. lia. }
  split.
  - apply slice_at; [|apply ser_nlist_len]. apply nlist_at. by apply mach_nlists_lookup.
  - rewrite Eb. replace (n_strx _) with (strx_pos (symbol_names c) i) by (by destruct k as [? ? ? []|]).
    apply mach_cstring_at; [|done]. by eapply symbol_name_at.
Qed.

(** Section header number [k] of the segment of the file is [hd]. *)
Definition section_entry (a : Artifact) (bs : list byte) (k : Z) (hd : MachSection) : Prop :=
  let ctx := make_ctx (a_target a) in
  let hsize := mach_header_size (container ctx) in
  (∃ seg, slice hsize (segment_size ctx) bs = ser_segment seg ctx ∧ 0 ≤ k < seg_nsects seg) ∧
  slice (hsize + segment_size ctx + k * mach_section_size ctx) (mach_section_size ctx) bs =
    ser_mach_section hd ctx.

Lemma section_entry_of a cpu rs bs k hd :
  mach_emitted a cpu rs bs →
  zget (image_headers (make_ctx (a_target a)) (contents a) rs) k = Some hd →
  section_entry a bs k hd.
Proof.
  intros Hem Hk. destruct (mach_emitted_image _ _ _ _ Hem) as [-> _].
  pose proof (image_headers_len (make_ctx (a_target a)) (contents a) rs) as En.
  split; [|apply slice_at; [by apply mach_section_header_at | apply ser_mach_section_len]].
  exists (image_segment (make_ctx (a_target a)) (contents a)).
  split; [apply slice_at; [apply segment_at | apply ser_segment_len]|].
  apply zget_range in Hk. by rewrite En in Hk.
Qed.

(** The section of a slot: its number and the exponent all its definitions get. *)
Definition slot_index (s : Slot) : nat :=
  match s with SCode => 0 | SData => 1 | SCstring => 2 | SBss => 3 | SCustom => 4 end.
Definition slot_min (s : Slot) : Z := match s with SCode => 4 | SData => 3 | _ => 0 end.
Definition slot_pad (s : Slot) : byte := match s with SCode => xcc | _ => xaa end.

Lemma slot_group c s : s ≠ SCustom →
  ∃ g, mach_groups c !! slot_index s = Some g ∧
    gr_bytes g = placed_bytes (slot_pad s) (placed (slot_min s) (in_slot s (c_defs c)) 0) ∧
    gr_align g = max_exp (slot_min s) (slot_min s) (in_slot s (c_defs c)) ∧
    ∀ idx base, gr_symbols g idx base =
      placed_symbol idx base <$> placed (slot_min s) (in_slot s (c_defs c)) 0.
Proof. intros Hs. destruct s; [eexists; split; [done|]; done..|done]. Qed.

Lemma slot_min_range s : 0 ≤ slot_min s < 64.
Proof. destruct s; cbn; lia. Qed.

Lemma placed_symbol_in c s p : s ≠ SCustom →
  p ∈ placed (slot_min s) (in_slot s (c_defs c)) 0 →
  ∃ i : nat, mach_symbols c !! i =
    Some (placed_symbol (Z.of_nat (slot_index s)) (group_base (mach_groups c) (slot_index s)) p).
Proof.
  intros Hs Hp. destruct (slot_group c s Hs) as (g & Hg & _ & _ & Hsy).
  apply list_elem_of_lookup. eapply group_symbol_elem; [exact Hg|]. rewrite Hsy.
  by apply list_elem_of_fmap_2.
Qed.

(** Everything about one placed definition. *)
Lemma placed_entry a cpu rs bs s p :
  mach_emitted a cpu rs bs → s ≠ SCustom →
  p ∈ placed (slot_min s) (in_slot s (c_defs (contents a))) 0 → no_nul (d_name (pl_def p)) →
  let d := pl_def p in let ctx := make_ctx (a_target a) in
  ∃ k n g, mach_groups (contents a) !! slot_index s = Some g ∧
    symbol_entry a bs k n (d_name d) ∧
    n_sect n = Z.of_nat (slot_index s) + 1 ∧
    n_type n = Z.lor N_SECT (if is_global (d_decl d) then N_EXT else 0) ∧
    n_value n = group_base (mach_groups (contents a)) (slot_index s) + pl_off p ∧
    at_off (off_first ctx (contents a) + n_value n) (def_data d) bs ∧
    0 ≤ pl_off p ∧ pl_off p + zlen (def_data d) ≤ gr_size g.
Proof.
  intros Hem Hs Hp Hnul d ctx. set (c := contents a) in *.
  destruct (slot_group c s Hs) as (g & Hg & Hb & _).
  destruct (placed_symbol_in c s p Hs Hp) as [i Hi]. unfold placed_symbol in Hi.
  destruct (symbol_entry_of _ _ _ _ _ _ _ Hem Hi Hnul) as [Hse Eb]. fold c in Hse, Eb.
  rewrite Eb in Hse.
  eexists (Z.of_nat i), _, g. split; [exact Hg|]. split; [exact Hse|].
  destruct (defined_nlist (strx_pos (symbol_names c) i) (Z.of_nat (slot_index s))
    (group_base (mach_groups c) (slot_index s) + pl_off p) (pl_off p)
    (is_global (d_decl (pl_def p)))) as (_ & Ht & Hse' & _ & Hv).
  { destruct s; cbn; lia. }
  split; [exact Hse'|]. split; [exact Ht|]. split; [exact Hv|]. rewrite Hv.
  pose proof (slot_min_range s) as Hm.
  pose proof (placed_at (slot_pad s) (slot_min s) _ 0 p ltac:(lia) Hp) as Hat. rewrite <- Hb, Z.sub_0_r in Hat.
  split; [|by apply at_off_bound in Hat].
  destruct (mach_emitted_image _ _ _ _ Hem) as [-> _]. rewrite Z.add_assoc.
  eapply at_off_trans; [|exact Hat]. by apply section_bytes_at.
Qed.

(** C22: the symbol and the bytes of a definition.  A defined function or data
    object has a symbol table entry under its name with an underscore.  Its
    section is [__text] for functions, [__data] for byte data, [__cstring] for
    strings and [__bss] for zero-initialised data; the entry is external
    exactly when the definition is global; and the bytes of the definition are
    in the file at the place the entry's value and the section header give,
    inside the section. *)
Theorem mach_definition_symbol (a : Artifact) (cpu : Z) (rs : list (Z * RelocationInfo))
  (bs : list byte) (d : Definition_)
  (Hem : mach_emitted a cpu rs bs)
  (Hd : d ∈ c_defs (contents a))
  (Hkind : slot d ≠ SCustom)
  (Hnul : no_nul (d_name d)) :
  let headers := image_headers (make_ctx (a_target a)) (contents a) rs in
  ∃ k n hd, symbol_entry a bs k n (d_name d) ∧
    n_sect n = Z.of_nat (slot_index (slot d)) + 1 ∧
    n_type n = Z.lor N_SECT (if is_global (d_decl d) then N_EXT else 0) ∧
    zget headers (n_sect n - 1) = Some hd ∧
    ms_addr hd ≤ n_value n ∧ n_value n + zlen (def_data d) ≤ ms_addr hd + ms_size hd ∧
    slice (ms_offset hd + (n_value n - ms_addr hd)) (zlen (def_data d)) bs = def_data d.
Proof.
  intros headers.
  destruct (placed_elem (slot_min (slot d)) (in_slot (slot d) (c_defs (contents a))) 0 d)
    as (p & Hp & <-); [by apply in_slot_elem|].
  destruct (placed_entry a cpu rs bs _ p Hem Hkind Hp Hnul)
    as (k & n & g & Hg & He & Hse & Ht & Hv & Hat & H0 & Hsz).
  exists k, n, (section_header (make_ctx (a_target a)) (contents a) rs (slot_index (slot (pl_def p))) g).
  split; [exact He|]. split; [exact Hse|]. split; [exact Ht|].
  split; [rewrite Hse, Z.add_simpl_r, zget_nat; by apply image_headers_lookup|].
  cbn [section_header ms_addr ms_size ms_offset]. split; [lia|]. split; [lia|].
  match goal with |- slice ?o _ _ = _ => replace o with (off_first (make_ctx (a_target a)) (contents a) + n_value n) by lia end.
  by apply at_off_slice.
Qed.

(** C23: alignment inside a section.  Every definition but the first of its
    section is at a multiple of its declared alignment from the start of the
    section, and the alignment in the section header is a multiple of it. *)
Theorem mach_definition_aligned (a : Artifact) (cpu : Z) (rs : list (Z * RelocationInfo))
  (bs : list byte) (d : Definition_) (j : nat)
  (Hem : mach_emitted a cpu rs bs)
  (Hd : in_slot (slot d) (c_defs (contents a)) !! S j = Some d)
  (Hkind : slot d ≠ SCustom)
  (Hnul : no_nul (d_name d)) :
  let headers := image_headers (make_ctx (a_target a)) (contents a) rs in
  let align := default 1 (DefinedDecl_get_align (d_decl d)) in
  ∃ k n hd, symbol_entry a bs k n (d_name d) ∧ zget headers (n_sect n - 1) = Some hd ∧
    (n_value n - ms_addr hd) mod align = 0 ∧ (align | 2 ^ ms_align hd).
Proof.
  intros headers align. set (s := slot d) in *. set (c := contents a) in *.
  assert (∀ d', d' ∈ in_slot s (c_defs c) → align_valid (d_decl d')) as Hv.
  { intros d' [_ Hin]%in_slot_elem. by apply (mr_aligns _ (me_ready _ _ _ _ Hem)). }
  destruct (placed_lookup (slot_min s) _ 0 _ _ Hd) as (p & Hp & Ep).
  pose proof (slot_min_range s) as Hm.
  pose proof (placed_aligned _ _ _ _ _ (proj1 Hm) Hv Hp) as Hal. rewrite Ep in Hal.
  pose proof (list_elem_of_lookup_2 _ _ _ Hp) as Hin.
  destruct (placed_entry a cpu rs bs s p Hem Hkind Hin) as (k & n & g & Hg & He & Hse & _ & Hva & _);
    [by rewrite Ep|]. rewrite Ep in He.
  destruct (slot_group c s Hkind) as (g' & Hg' & _ & Ea & _).
  assert (g' = g) as -> by (fold c in Hg; congruence).
  assert (align = 2 ^ def_exp d) as Ealign.
  { destruct (Hv d) as (e & Hr & Ee); [by eapply list_elem_of_lookup_2|].
    unfold align, def_exp. by rewrite Ee, Z.log2_pow2 by lia. }
  exists k, n, (section_header (make_ctx (a_target a)) c rs (slot_index s) g).
  split; [exact He|].
  split; [rewrite Hse, Z.add_simpl_r, zget_nat; by apply image_headers_lookup|].
  cbn [section_header ms_addr ms_align]. fold c in Hva. rewrite Hva, Ealign, Z.add_simpl_l.
  split; [exact Hal|]. pose proof (max_exp_range _ _ _ Hm Hm Hv) as Hmr. rewrite Ea.
  rewrite wrap_small by (unfold in_u; lia).
  destruct (max_exp_ge (slot_min s) (in_slot s (c_defs c)) (slot_min s)) as [_ Hge].
  specialize (Hge _ _ Hd). exists (2 ^ (max_exp (slot_min s) (slot_min s) (in_slot s (c_defs c)) - def_exp d)).
  rewrite <- Z.pow_add_r; [f_equal; lia|lia|]. unfold def_exp. apply Z.log2_nonneg.
Qed.

(** C24: the alignment of the first definition is lost.  When a section holds
    a single definition, the alignment in the section's header in the file is
    the default of the section, whatever alignment the definition was declared
    with. *)
Theorem mach_first_alignment_ignored (a : Artifact) (cpu : Z) (rs : list (Z * RelocationInfo))
  (bs : list byte) (d : Definition_)
  (Hem : mach_emitted a cpu rs bs)
  (Hd : in_slot (slot d) (c_defs (contents a)) = [d])
  (Hkind : slot d ≠ SCustom) :
  ∃ hd, section_entry a bs (Z.of_nat (slot_index (slot d))) hd ∧
    ms_align hd = slot_min (slot d).
Proof.
  destruct (slot_group (contents a) (slot d) Hkind) as (g & Hg & _ & Ea & _).
  exists (section_header (make_ctx (a_target a)) (contents a) rs (slot_index (slot d)) g).
  split; [apply (section_entry_of a cpu rs bs); [done|]; rewrite zget_nat; by apply image_headers_lookup|].
  cbn [section_header ms_align]. rewrite Ea, Hd. by destruct (slot d).
Qed.

(** ** Imports *)
(** The symbol of an import.  Every imported name, unless it has a zero
    byte, has an entry in the file's symbol table under its name with an
    underscore; it is external, undefined, in no section, and has value 0. *)
Theorem mach_import_symbol (a : Artifact) (cpu : Z) (rs : list (Z * RelocationInfo))
  (bs : list byte) (name : string) (kind : ImportKind)
  (Hem : mach_emitted a cpu rs bs)
  (Hin : (name, kind) ∈ c_imports (contents a))
  (Hnul : no_nul name) :
  ∃ k n, symbol_entry a bs k n name ∧
    n_type n = N_EXT ∧ n_sect n = NO_SECT ∧ n_value n = 0.
Proof.
  assert ((name, Sym_Undefined) ∈ mach_symbols (contents a)) as [i Hi]%list_elem_of_lookup.
  { unfold mach_symbols. apply elem_of_app. right. apply list_elem_of_fmap. by exists (name, kind). }
  destruct (symbol_entry_of _ _ _ _ _ _ _ Hem Hi Hnul) as [Hse Eb]. rewrite Eb in Hse.
  exists (Z.of_nat i), (SymbolBuilder_create (kind_builder
    (strx_pos (symbol_names (contents a)) i) Sym_Undefined)). done.
Qed.

End MachTheorems.
