(* ===== verification/MachChecked.v ===== *)
(** * The Mach-O backend under any setting of the overflow checks

    [MachBuild.v], [MachState.v] and [MachWrite.v] with every addition,
    subtraction and multiplication of the source that may overflow an operation
    of [Overflow.v], in the order of the source.  Positions in a vector, a
    remainder subtracted from its modulus and shifts by less than 64 cannot
    overflow and stay as they are.  The file ends with the proof that each
    function follows the wrapping one: it panics at the first operation that
    overflows and is checked, and otherwise returns the same. *)

From stdpp Require Import base numbers list gmap strings.
From Stdlib Require Import ZArith Lia Strings.Byte.
From S2P Require Import Prelude Std Overflow External Decl Artifact Target.
From S2P Require Import MachBuild MachState MachWrite.

Section MachChecked.
Context {TL : TargetLexicon} {SI : StringInterner} {IM : IndexMapOps}.
Context {G : GoblinElf} {GM : GoblinMach} {SC : Scroll} {OS : OsFile} {P : Profile}.
Context {OC : OverflowChecks} {E : Type}.

(** ** Symbols and sections *)
Definition SymbolBuilder_create_ck (b : SymbolBuilder) : outcome E Nlist :=
  do! match sb_section b with Some idx => add_ck 64 idx 1 | None => Ok 0 end in
  Ok (SymbolBuilder_create b).

Definition SectionBuilder_create_ck (b : SectionBuilder) (section_offset relocation_offset : Z) :
  outcome E (MachSection * Z * Z) :=
  let! sectname := expect (pwrite_str 16 (sec_sectname b)) "unwrap" in
  let! segname := expect (pwrite_str 16 (sec_segname b)) "unwrap" in
  let offset := u32 section_offset in
  let! section_offset := add_ck 64 section_offset (sec_size b) in
  let! '(reloff, nreloc, relocation_offset) :=
    match sec_relocations b with
    | [] => Ok (0, 0, relocation_offset)
    | _ =>
        let nrelocs := zlen (sec_relocations b) in
        let reloff := u32 relocation_offset in
        let! size := mul_ck 64 nrelocs SIZEOF_RELOCATION_INFO in
        let! relocation_offset := add_ck 64 relocation_offset size in
        Ok (reloff, u32 nrelocs, relocation_offset)
    end in
  Ok (mkMachSection sectname segname (sec_addr b) (sec_size b) offset (u32 (sec_align b))
        reloff nreloc (sec_flags b), section_offset, relocation_offset).

(** ** The symbol table *)
Definition insert_ck (t : SymbolTable) (symbol_name : string) (kind : SymbolType) :
  outcome E SymbolTable :=
  let name := symbol_name in
  let! name_len := add_ck 64 (str_len name) 1 in
  let! name_len := add_ck 64 name_len 1 in
  let last_index := si_len (stab_strtable t) in
  let '(strtable, name_index) := si_get_or_intern (stab_strtable t) name in
  if name_index =? last_index then
    let builder :=
      match kind with
      | Sym_Undefined => symbol_import (symbol_global true (SymbolBuilder_new (stab_strtable_size t)))
      | Sym_Defined section absolute_offset segment_relative_offset global =>
          symbol_section section (symbol_relative_offset segment_relative_offset
            (symbol_offset absolute_offset (symbol_global global
               (SymbolBuilder_new (stab_strtable_size t)))))
      end in
    let symbols := im_insert name_index builder (stab_symbols t) in
    let! index := sub_ck 64 (im_len symbols) 1 in
    let indexes := im_insert name_index index (stab_indexes t) in
    let! strtable_size := add_ck 64 (stab_strtable_size t) name_len in
    Ok (mkSymbolTable symbols strtable indexes strtable_size)
  else Ok (mkSymbolTable (stab_symbols t) strtable (stab_indexes t) (stab_strtable_size t)).

(** ** The segment *)
Definition load_command_size_ck (s : SegmentBuilder) (ctx : Ctx) : outcome E Z :=
  let! size := mul_ck 64 (im_len (sg_sections s)) (mach_section_size ctx) in
  add_ck 64 (segment_size ctx) size.

Definition build_section_step_ck (section min_alignment_exponent : Z) (def : Definition_)
  (rest : list Definition_) (s : SecState) : outcome E SecState :=
  if DefinedDecl_is_section (d_decl def) then Panic "internal error: entered unreachable code"
  else
    let! symtab := insert_ck (sl_symtab s) (d_name def)
      (Sym_Defined section (sl_symbol_offset s) (sl_section_relative_offset s)
         (is_global (d_decl def))) in
    let size := file_size (d_data def) in
    let! symbol_offset := add_ck 64 (sl_symbol_offset s) size in
    let! section_relative_offset := add_ck 64 (sl_section_relative_offset s) size in
    let! local_size := add_ck 64 (sl_local_size s) size in
    let! next_def_alignment_exponent := next_alignment_exponent min_alignment_exponent rest in
    let alignment_exponent := Z.max (sl_alignment_exponent s) next_def_alignment_exponent in
    let pad := align_pad section_relative_offset next_def_alignment_exponent in
    let! symbol_offset := add_ck 64 symbol_offset pad in
    let! section_relative_offset := add_ck 64 section_relative_offset pad in
    let! local_size := add_ck 64 local_size pad in
    Ok (mkSecState symtab symbol_offset section_relative_offset local_size alignment_exponent
          (<[d_name def := pad]> (sl_align_pad_map s))).

Fixpoint build_section_loop_ck (section min_alignment_exponent : Z)
  (definitions : list Definition_) (s : SecState) : outcome E SecState :=
  match definitions with
  | [] => Ok s
  | def :: rest =>
      let! s := build_section_step_ck section min_alignment_exponent def rest s in
      build_section_loop_ck section min_alignment_exponent rest s
  end.

Definition build_section_ck (sectname segname : string) (section : Z)
  (definitions : list Definition_) (min_alignment_exponent : Z) (flags : option Z)
  (s : SegState) : outcome E SegState :=
  let! r := build_section_loop_ck section min_alignment_exponent definitions
    (mkSecState (ss_symtab s) (ss_symbol_offset s) 0 0 min_alignment_exponent
       (ss_align_pad_map s)) in
  let local_size := sl_local_size r in
  let sec := section_align (sl_alignment_exponent r) (section_addr (ss_addr s)
    (section_offset (ss_offset s) (SectionBuilder_new sectname segname local_size))) in
  let sec := match flags with Some flags => section_flags flags sec | None => sec end in
  let! offset := add_ck 64 (ss_offset s) local_size in
  let! addr := add_ck 64 (ss_addr s) local_size in
  Ok (mkSegState (sl_symtab r) (im_insert sectname sec (ss_sections s)) offset addr
        (sl_symbol_offset r) (sl_align_pad_map r)).

(** The loop over the symbols of a custom section. *)
Definition custom_symbols_ck (section_idx symbol_offset : Z) (symbols : BTreeMap string Z)
  (symtab : SymbolTable) : outcome E SymbolTable :=
  ofold (fun symtab '(symbol, symbol_dst_offset) =>
    let! absolute_offset := add_ck 64 symbol_offset symbol_dst_offset in
    insert_ck symtab symbol (Sym_Defined section_idx absolute_offset symbol_dst_offset true))
    symtab symbols.

Definition build_custom_section_ck (section_idx : Z) (def : Definition_) (s : SegState) :
  outcome E SegState :=
  match d_decl def with
  | DD_Section sd =>
      let segment_name := custom_segment_name (SectionDecl_kind sd) in
      let sectname := custom_sectname (d_name def) in
      let flags := match SectionDecl_kind sd with SK_Debug => Z.lor 0 S_ATTR_DEBUG | _ => 0 end in
      let! symtab := custom_symbols_ck section_idx (ss_symbol_offset s) (d_symbols def)
        (ss_symtab s) in
      let local_size := u64 (file_size (d_data def)) in
      let! symbol_offset := add_ck 64 (ss_symbol_offset s) local_size in
      let! align := align_to_align_exp (default 1 (get_align sd)) in
      let sec := section_flags flags (section_align align (section_addr (ss_addr s)
        (section_offset (ss_offset s) (SectionBuilder_new sectname segment_name local_size)))) in
      let! offset := add_ck 64 (ss_offset s) local_size in
      let! addr := add_ck 64 (ss_addr s) local_size in
      Ok (mkSegState symtab (im_insert (d_name def) sec (ss_sections s)) offset addr
            symbol_offset (ss_align_pad_map s))
  | _ => Panic "in build_custom_section: def.decl != Section"
  end.

Definition SegmentBuilder_new_ck (artifact : Artifact)
  (code blob_data zeroed_data cstrings custom_sections : list Definition_)
  (symtab : SymbolTable) (ctx : Ctx) : outcome E (SegmentBuilder * SymbolTable) :=
  let s := mkSegState symtab im_new (mach_header_size (container ctx)) 0 0 ∅ in
  let! s := build_section_ck "__text" "__TEXT" CODE_SECTION_INDEX code 4
    (Some (Z.lor S_ATTR_PURE_INSTRUCTIONS S_ATTR_SOME_INSTRUCTIONS)) s in
  let! s := build_section_ck "__data" "__DATA" DATA_SECTION_INDEX blob_data 3 None s in
  let! s := build_section_ck "__cstring" "__TEXT" CSTRING_SECTION_INDEX cstrings 0
    (Some S_CSTRING_LITERALS) s in
  let! s := build_section_ck "__bss" "__DATA" BSS_SECTION_INDEX zeroed_data 0
    (Some S_ZEROFILL) s in
  let! s := ofold (fun s '(idx, def) => build_custom_section_ck (idx + NUM_DEFAULT_SECTIONS) def s)
    s (enumerate custom_sections) in
  let! symtab := ofold (fun symtab import =>
      let! '(import, _) := import in insert_ck symtab import Sym_Undefined)
    (ss_symtab s) (imports artifact) in
  Ok (mkSegmentBuilder (ss_sections s) (ss_offset s) (ss_addr s) (ss_align_pad_map s), symtab).

(** ** Relocations *)
Definition build_relocation_ck (symtab : SymbolTable) (text_idx data_idx : Z)
  (sections : IndexMap string SectionBuilder) (l : LinkAndDecl) :
  outcome E (IndexMap string SectionBuilder) :=
  match l_reloc l with
  | Debug size _ =>
      if is_section (b_decl (l_to l)) then Ok sections
      else
        match SymbolTable_index symtab (b_name (l_to l)) with
        | Some to_symbol_index =>
            let builder := reloc_set_size size (reloc_absolute
              (RelocationBuilder_new to_symbol_index (l_at l) X86_64_RELOC_UNSIGNED)) in
            do! expect (im_get sections (b_name (l_from l))) "IndexMap: key not found" in
            let! r := RelocationBuilder_create builder in
            Ok (im_modify (section_push r) (b_name (l_from l)) sections)
        | None => Ok sections
        end
  | _ =>
      let! '(absolute, reloc) := link_reloc l in
      match SymbolTable_offset symtab (b_name (l_from l)),
            SymbolTable_index symtab (b_name (l_to l)) with
      | Some base_offset, Some to_symbol_index =>
          let! offset := add_ck 64 base_offset (l_at l) in
          let builder := RelocationBuilder_new to_symbol_index offset reloc in
          let idx := if absolute then data_idx else text_idx in
          do! expect (im_get_index sections idx) "unwrap" in
          let! r := RelocationBuilder_create (if absolute then reloc_absolute builder else builder) in
          Ok (im_modify_index (section_push r) idx sections)
      | _, _ => Ok sections
      end
  end.

Definition build_relocations_ck (segment : SegmentBuilder) (artifact : Artifact)
  (symtab : SymbolTable) : outcome E SegmentBuilder :=
  let! '(text_idx, _, _) := expect (im_get_full (sg_sections segment) "__text"%string) "unwrap" in
  let! '(data_idx, _, _) := expect (im_get_full (sg_sections segment) "__data"%string) "unwrap" in
  let! sections := ofold (fun sections link =>
      let! link := link in build_relocation_ck symtab text_idx data_idx sections link)
    (sg_sections segment) (links artifact) in
  Ok (mkSegmentBuilder sections (sg_offset segment) (sg_size segment) (sg_align_pad_map segment)).

(** ** [Mach::new] *)

(** The sum of the zero-initialised sizes is the one operation of the loop. *)
Definition partition_def_ck (p : Partition) (def : Definition_) : outcome E Partition :=
  do! match d_decl def, d_data def with
      | DD_Data _, ZeroInit size => add_ck 64 (pt_bss_size p) size
      | _, _ => Ok 0
      end in
  Ok (partition_def p def).

Definition Mach_new_ck (artifact : Artifact) : outcome E Mach :=
  let ctx := make_ctx (a_target artifact) in
  let! p := ofold (fun p def => let! def := def in partition_def_ck p def)
              (mkPartition [] [] [] [] [] 0) (definitions artifact) in
  let! '(segment, symtab) := SegmentBuilder_new_ck artifact (pt_code p) (pt_data p) (pt_bss p)
    (pt_cstrings p) (pt_sections p) SymbolTable_new ctx in
  let! segment := build_relocations_ck segment artifact symtab in
  Ok (mkMach ctx (architecture (a_target artifact)) symtab segment (pt_code p) (pt_data p)
        (pt_bss_size p) (pt_cstrings p) (pt_sections p)).

(** ** [Mach::write] *)
Definition compute_layout_ck (m : Mach) : outcome E MachLayout :=
  let! segment_load_command_size := load_command_size_ck (m_segment m) (m_ctx m) in
  let! sizeof_load_commands :=
    add_ck 64 segment_load_command_size (sc_cmdsize SymtabCommand_new) in
  let! symtable_offset := add_ck 64 (sg_offset (m_segment m)) sizeof_load_commands in
  let! sizeof_symtable := mul_ck 64 (SymbolTable_len (m_symtab m)) (nlist_size (m_ctx m)) in
  let! strtable_offset := add_ck 64 symtable_offset sizeof_symtable in
  let! relocation_offset_start := add_ck 64 strtable_offset (sizeof_strtable (m_symtab m)) in
  let! first_section_offset :=
    add_ck 64 (mach_header_size (container (m_ctx m))) sizeof_load_commands in
  Ok (mkMachLayout sizeof_load_commands symtable_offset strtable_offset relocation_offset_start
        first_section_offset).

Definition marshal_sections_ck (m : Mach) (lo : MachLayout) : outcome E (list byte) :=
  let! '(raw_sections, _, _) :=
    ofold (fun '(raw, section_offset, relocation_offset) '(_, section) =>
      let! '(header, section_offset, relocation_offset) :=
        SectionBuilder_create_ck section section_offset relocation_offset in
      Ok (write_all (ser_mach_section header (m_ctx m)) raw, section_offset, relocation_offset))
    (Cursor_new, ml_first_section_offset lo, ml_relocation_offset_start lo)
    (im_iter (sg_sections (m_segment m))) in
  Ok (cur_buf raw_sections).

(** The size of the segment in memory is the one operation. *)
Definition segment_command_ck (m : Mach) (lo : MachLayout) (raw_sections : list byte) :
  outcome E Segment :=
  do! add_ck 64 (SegmentBuilder_size (m_segment m)) (m_bss_size m) in
  Ok (segment_command m lo raw_sections).

Definition write_symtable_ck (m : Mach) (c : Cursor) : outcome E Cursor :=
  ofold (fun c '(_, symbol) =>
      let! n := SymbolBuilder_create_ck symbol in
      Ok (write_all (ser_nlist n (m_ctx m)) c))
    c (im_iter (stab_symbols (m_symtab m))).

Definition mach_write_ck (m : Mach) : outcome E (list byte) :=
  let! lo := compute_layout_ck m in
  let! header := header m (ml_sizeof_load_commands lo) in
  let! raw_sections := marshal_sections_ck m lo in
  let! segment_load_command := segment_command_ck m lo raw_sections in
  let! expected := add_ck 64 (sg_offset (m_segment m)) (seg_cmdsize segment_load_command) in
  let! expected := add_ck 64 expected (sc_cmdsize SymtabCommand_new) in
  do! assert_ (ml_symtable_offset lo =? expected) "symtable_offset" in
  let symtab_load_command := symtab_command m lo in
  let c := write_all (ser_mach_header header (m_ctx m)) Cursor_new in
  let c := write_all (ser_segment segment_load_command (m_ctx m)) c in
  let c := write_all raw_sections c in
  let c := write_all (ser_symtab_command symtab_load_command (le (m_ctx m))) c in
  let! c := ofold (write_blob m xcc) c (m_code m) in
  let c := fold_left (write_data m) (m_data m) c in
  let! c := ofold (write_blob m xaa) c (m_cstrings m) in
  let! c := ofold (write_blob m xaa) c (m_sections m) in
  let! c := write_symtable_ck m c in
  let c := write_strtable m c in
  let c := write_relocations m c in
  let c := write_all [x00] c in
  Ok (cur_buf c).
End MachChecked.

(** [mach::to_bytes] *)
Definition mach_to_bytes_ck {TL : TargetLexicon} {SI : StringInterner} {IM : IndexMapOps}
  {G : GoblinElf} {GM : GoblinMach} {SC : Scroll} {OS : OsFile} {P : Profile}
  {OC : OverflowChecks} (artifact : Artifact) : outcome io_error (list byte) :=
  let! mach := Mach_new_ck artifact in
  mach_write_ck mach.

(** ** Agreement with the wrapping functions *)
Section MachAgrees.
Context {TL : TargetLexicon} {SI : StringInterner} {IM : IndexMapOps}.
Context {G : GoblinElf} {GM : GoblinMach} {SC : Scroll} {OS : OsFile} {P : Profile}.
Context {E : Type}.

Lemma SymbolBuilder_create_follows b :
  follows (E:=E) (fun OC => SymbolBuilder_create_ck b) (Ok (SymbolBuilder_create b)).
Proof. unfold SymbolBuilder_create_ck. destruct (sb_section b); [follow | apply follows_same]. Qed.

Lemma SectionBuilder_create_follows b x y :
  follows (E:=E) (fun OC => SectionBuilder_create_ck b x y) (SectionBuilder_create b x y).
Proof.
  unfold SectionBuilder_create_ck, SectionBuilder_create. do 3 follow_step.
  destruct (sec_relocations b); [cbn [obind]; follow|]. eapply follows_pure; [follow|]. apply follows_same.
Qed.

Lemma insert_follows t n k : follows (E:=E) (fun OC => insert_ck t n k) (Ok (insert t n k)).
Proof.
  unfold insert_ck, insert. do 2 follow_step. rewrite wrap_add_l.
  destruct (si_get_or_intern _ n) as [s i]. destruct (i =? _); follow.
Qed.
#[local] Hint Resolve SymbolBuilder_create_follows SectionBuilder_create_follows insert_follows : follow.

Lemma load_command_size_follows s ctx :
  follows (E:=E) (fun OC => load_command_size_ck s ctx) (Ok (load_command_size s ctx)).
Proof. unfold load_command_size_ck, load_command_size. follow. Qed.

Lemma build_section_step_follows i min d rest s :
  follows (E:=E) (fun OC => build_section_step_ck i min d rest s) (build_section_step i min d rest s).
Proof.
  unfold build_section_step_ck, build_section_step. destruct (DefinedDecl_is_section _); [follow|].
  do 4 follow_step. follow.
Qed.

Lemma build_section_loop_follows i min ds : ∀ s,
  follows (E:=E) (fun OC => build_section_loop_ck i min ds s) (build_section_loop i min ds s).
Proof.
  induction ds as [|d ds IH]; intros s; cbn [build_section_loop_ck build_section_loop]; [follow|].
  apply follows_bind; [apply build_section_step_follows | apply IH].
Qed.
#[local] Hint Resolve load_command_size_follows build_section_loop_follows : follow.

Lemma build_section_follows n1 n2 i ds min fl s :
  follows (E:=E) (fun OC => build_section_ck n1 n2 i ds min fl s) (build_section n1 n2 i ds min fl s).
Proof. unfold build_section_ck, build_section. follow. Qed.

Lemma custom_symbols_follows i base l t :
  follows (E:=E) (fun OC => custom_symbols_ck i base l t)
    (Ok (fold_left (fun symtab '(symbol, symbol_dst_offset) =>
           insert symtab symbol
             (Sym_Defined i (u64 (base + symbol_dst_offset)) symbol_dst_offset true)) l t)).
Proof. apply follows_fold. intros t' [n o]. follow. Qed.
#[local] Hint Resolve build_section_follows custom_symbols_follows : follow.

Lemma build_custom_section_follows i d s :
  follows (E:=E) (fun OC => build_custom_section_ck i d s) (build_custom_section i d s).
Proof.
  unfold build_custom_section_ck, build_custom_section. destruct (d_decl d); [follow..|].
  do 2 follow_step. follow.
Qed.
#[local] Hint Resolve build_custom_section_follows : follow.

Lemma SegmentBuilder_new_follows a l1 l2 l3 l4 l5 t ctx :
  follows (E:=E) (fun OC => SegmentBuilder_new_ck a l1 l2 l3 l4 l5 t ctx)
    (SegmentBuilder_new a l1 l2 l3 l4 l5 t ctx).
Proof.
  unfold SegmentBuilder_new_ck, SegmentBuilder_new. do 4 follow_step.
  apply follows_bind; [apply follows_ofold; intros s [i d]; follow|]. intros s.
  apply follows_bind; [|follow]. apply follows_ofold. intros t' im.
  apply follows_bind; [follow|]. intros [n k]. follow.
Qed.

Lemma build_relocation_follows t i j secs l :
  follows (E:=E) (fun OC => build_relocation_ck t i j secs l) (build_relocation t i j secs l).
Proof.
  unfold build_relocation_ck, build_relocation. destruct (l_reloc l); [| |follow].
  all: follow_step; destruct a as [ab r];
    destruct (SymbolTable_offset _ _); [|follow]; destruct (SymbolTable_index _ _); follow.
Qed.
#[local] Hint Resolve SegmentBuilder_new_follows build_relocation_follows : follow.

Lemma build_relocations_follows seg a t :
  follows (E:=E) (fun OC => build_relocations_ck seg a t) (build_relocations seg a t).
Proof.
  unfold build_relocations_ck, build_relocations. follow_step. destruct a0 as [[i ?] ?].
  follow_step. destruct a0 as [[j ?] ?]. apply follows_bind; [|follow].
  apply follows_ofold. intros secs l. follow.
Qed.

Lemma partition_def_follows p d : follows (E:=E) (fun OC => partition_def_ck p d) (Ok (partition_def p d)).
Proof.
  unfold partition_def_ck. destruct (d_decl d); [follow| |follow]. destruct (d_data d); [apply follows_same|follow].
Qed.
#[local] Hint Resolve build_relocations_follows partition_def_follows : follow.

Lemma Mach_new_follows a : follows (E:=E) (fun OC => Mach_new_ck a) (Mach_new a).
Proof.
  unfold Mach_new_ck, Mach_new.
  apply follows_bind; [apply follows_ofold; intros p d; follow|]. intros p. follow.
Qed.

Lemma compute_layout_follows m : follows (E:=E) (fun OC => compute_layout_ck m) (Ok (compute_layout m)).
Proof. unfold compute_layout_ck, compute_layout. follow. Qed.

Lemma marshal_sections_follows m lo :
  follows (E:=E) (fun OC => marshal_sections_ck m lo) (marshal_sections m lo).
Proof.
  unfold marshal_sections_ck, marshal_sections. apply follows_bind; [|follow].
  apply follows_ofold. intros [[c x] y] [k s]. follow.
Qed.

Lemma segment_command_follows m lo bs :
  follows (E:=E) (fun OC => segment_command_ck m lo bs) (Ok (segment_command m lo bs)).
Proof. unfold segment_command_ck. follow. Qed.

Lemma write_symtable_follows m c : follows (E:=E) (fun OC => write_symtable_ck m c) (Ok (write_symtable m c)).
Proof. apply follows_fold. intros c' [k s]. follow. Qed.
#[local] Hint Resolve compute_layout_follows marshal_sections_follows segment_command_follows
  write_symtable_follows : follow.

Lemma mach_write_follows m : follows (E:=E) (fun OC => mach_write_ck m) (MachWrite.write m).
Proof.
  unfold mach_write_ck, MachWrite.write. do 6 follow_step. rewrite wrap_add_l. follow.
Qed.
End MachAgrees.

(** [mach::to_bytes] returns the same bytes under every setting, or panics at the
    first checked operation that overflows. *)
Lemma mach_to_bytes_follows {TL : TargetLexicon} {SI : StringInterner} {IM : IndexMapOps}
  {G : GoblinElf} {GM : GoblinMach} {SC : Scroll} {OS : OsFile} {P : Profile}
  (a : Artifact) :
  follows (fun OC => mach_to_bytes_ck a) (MachWrite.to_bytes a).
Proof.
  unfold mach_to_bytes_ck, MachWrite.to_bytes. apply follows_bind; [apply Mach_new_follows|].
  intros m. apply mach_write_follows.
Qed.
