(* ===== verification/MachOverflow.v ===== *)
(** * When no operation of the Mach-O backend overflows

    The sums over the contents are bounded by the length of the file.  Three
    sums involve numbers the client chose freely: the size of the
    zero-initialised data, the offsets of the symbols of a section and the
    offsets of links; [mach_sums_fit] asks that they fit 64 bits.  Every lemma
    says of one function that, under the bounds it needs, the checked one does
    what the wrapping one does. *)

From stdpp Require Import base numbers list gmap strings.
From Stdlib Require Import ZArith Lia Strings.Byte.
From S2P Require Import Prelude Std Bytes Overflow External Decl Artifact ArtifactInv Contents Target.
From S2P Require Import MachBuild MachState MachWrite MachSymtab MachPlace MachObject MachLink.
From S2P Require Import MachImage MachFile MachRead MachTheorems MachChecked.

Lemma strtable_len_app l k : strtable_len l ≤ strtable_len (l ++ k).
Proof.
  unfold strtable_len. rewrite fmap_app, zsum_app.
  pose proof (zsum_nonneg (fun s => str_len s + 2) k) as H.
  specialize (H (fun s => ltac:(pose proof (str_len_nonneg s); lia))). lia.
Qed.

(** Additions whose sums fit, one after the other. *)
Ltac add_fits_all := repeat (rewrite add_fits by (unfold in_u; lia); cbn [obind]).

Section MachFits.
Context {TL : TargetLexicon} {SI : StringInterner} {IM : IndexMapOps}.
Context {G : GoblinElf} {GM : GoblinMach} {SC : Scroll} {OS : OsFile} {P : Profile}.
Context {OC : OverflowChecks} {E : Type}.
Context {SIL : StringInternerLaws SI} {IML : IndexMapLaws IM}.
Context {GML : GoblinMachLaws GM} {SCL : ScrollLaws SC}.

(** ** The symbol table *)

(** The symbols [ks] can be inserted after those of [l]. *)
Record table_fits (l ks : list (string * SymbolType)) : Prop := {
  tf_nodup : NoDup ("" :: (l ++ ks).*1);
  tf_size : strtable_len (l ++ ks).*1 < 2 ^ 64;
  tf_count : zlen (l ++ ks) < 2 ^ 64
}.

Lemma table_fits_app l k1 k2 :
  table_fits l (k1 ++ k2) → table_fits l k1 ∧ table_fits (l ++ k1) k2.
Proof.
  intros [Hn Hs Hc]. rewrite !app_assoc in *. split; [|by split]. rewrite fmap_app in Hn, Hs. split.
  - rewrite app_comm_cons in Hn. by apply NoDup_app in Hn as (? & _).
  - pose proof (strtable_len_app (l ++ k1).*1 k2.*1). lia.
  - rewrite zlen_app in Hc. pose proof (zlen_nonneg k2). lia.
Qed.

Lemma table_fits_names l ks ks' : ks.*1 = ks'.*1 → table_fits l ks → table_fits l ks'.
Proof.
  intros Hk [Hn Hs Hc]. assert (zlen ks = zlen ks') as Hz by (by rewrite <- (zlen_fmap fst), Hk, zlen_fmap).
  split; rewrite ?fmap_app, <- ?Hk, ?zlen_app, <- ?Hz, <- ?fmap_app, <- ?zlen_app; done.
Qed.

Lemma insert_fits l t n k :
  stab_repr l t → table_fits l [(n, k)] →
  insert_ck (E:=E) t n k = Ok (insert t n k) ∧ stab_repr (l ++ [(n, k)]) (insert t n k).
Proof.
  intros Hr [Hn Hs Hc]. rewrite zlen_app in Hc. change (zlen [_]) with 1 in Hc.
  rewrite fmap_app in Hs, Hn. cbn [fmap list_fmap fst] in Hs, Hn. rewrite strtable_len_snoc in Hs.
  assert (n ∉ "" :: l.*1) as Hnew.
  { rewrite app_comm_cons in Hn. apply NoDup_app in Hn as (_ & Hd & _). intros Hin. apply (Hd _ Hin). left. }
  split; [|apply insert_repr; [done..|lia]]. follows_to (insert_follows _ _ _).
  pose proof (strtable_len_pos l.*1). pose proof (str_len_nonneg n).
  unfold insert_ck. rewrite !add_fits by (unfold in_u; lia). cbn [obind]. rewrite add_fits by (unfold in_u; lia).
  cbn [obind]. destruct (si_get_or_intern _ n) as [t' i]. destruct (i =? _); [|eauto].
  rewrite (sr_size _ _ Hr), (wrap_small 64 (strtable_len _)) by (unfold in_u; lia).
  match goal with |- context [sub_ck 64 (im_len (im_insert ?i ?b ?m)) 1] =>
    assert (1 ≤ im_len (im_insert i b m) ≤ zlen l + 1) as Hl end.
  { rewrite im_len_spec, im_insert_iter. pose proof (sr_symbols _ _ Hr) as Hsy.
    assert (zlen (im_iter (stab_symbols t)) = zlen l) as <- by (rewrite Hsy; unfold zlen; by rewrite length_imap).
    clear. generalize (im_iter (stab_symbols t)) as m. intros m. unfold zlen.
    induction m as [|[k' v] m IH]; cbn; [lia|]. case_decide; cbn; lia. }
  rewrite sub_fits by (unfold in_u; lia). cbn [obind]. rewrite add_fits by (unfold in_u; lia). cbn [obind]. eauto.
Qed.

Lemma insert_all_fits ks : ∀ l t,
  stab_repr l t → table_fits l ks →
  ofold (E:=E) (fun t '(n, k) => insert_ck t n k) t ks = Ok (insert_all t ks) ∧
  stab_repr (l ++ ks) (insert_all t ks).
Proof.
  induction ks as [|[n k] ks IH]; intros l t Hr Hf; cbn [ofold]; [by rewrite app_nil_r|].
  destruct (table_fits_app l [(n, k)] ks Hf) as [Hf1 Hf2].
  destruct (insert_fits l t n k Hr Hf1) as [-> Hr1]. cbn [obind].
  destruct (IH _ _ Hr1 Hf2) as [H1 H2]. rewrite <- app_assoc in H2. by split.
Qed.

(** ** Sections *)
Lemma build_section_step_fits section min base off d rest l t e m :
  def_ok d → Forall def_ok rest → 0 ≤ base → 0 ≤ off → step_sizes min base off d rest →
  stab_repr l t →
  table_fits l [(d_name d, Sym_Defined section (base + off) off (is_global (d_decl d)))] →
  build_section_step_ck (E:=E) section min d rest (mkSecState t (base + off) off off e m) =
  Ok (step_result section min base off d rest t e m).
Proof.
  intros Hd Hrest Hb Ho Hsz Hr Hf.
  rewrite <- (build_section_step_ok (E:=E)) by done. follows_to (build_section_step_follows _ _ _ _ _).
  destruct Hd as [Hsec _], Hsz. unfold build_section_step_ck. rewrite Hsec.
  cbn [sl_symtab sl_symbol_offset sl_section_relative_offset sl_local_size sl_alignment_exponent
       sl_align_pad_map].
  destruct (insert_fits l t _ _ Hr Hf) as [-> _]. cbn [obind].
  add_fits_all.
  rewrite next_alignment_ok by done. cbn [obind]. rewrite align_pad_ok by lia.
  add_fits_all.
  eauto.
Qed.

Lemma build_section_loop_fits section min base ds : ∀ l t off e m,
  0 ≤ min < 64 → Forall def_ok ds → 0 ≤ base → 0 ≤ off →
  base + off + placed_size (placed min ds off) < 2 ^ 64 →
  stab_repr l t → table_fits l (placed_symbol section base <$> placed min ds off) →
  build_section_loop_ck (E:=E) section min ds (mkSecState t (base + off) off off e m) =
  build_section_loop section min ds (mkSecState t (base + off) off off e m).
Proof.
  induction ds as [|d rest IH]; intros l t off e m Hmin Hok Hb Ho Hlt Hr Hf; [done|].
  cbn [build_section_loop_ck build_section_loop]. inversion_clear Hok as [|? ? Hd Hrest].
  destruct (step_sizes_ok min base off d rest Hmin Hrest Hb Ho Hlt) as [Hsz Hlt'].
  cbn [placed fmap list_fmap] in Hf. cbv zeta in Hf.
  destruct (table_fits_app l [_] _ Hf) as [Hf1 Hf2].
  rewrite build_section_step_ok by done.
  rewrite (build_section_step_fits section min base off d rest l) by done. cbn [obind].
  destruct (insert_fits l t _ _ Hr Hf1) as [_ Hr1]. destruct Hsz.
  unfold step_result. cbv zeta in *. eapply IH; try done; lia.
Qed.

(** The checked [op'] does what [op] does when the group fits and ends before
    [bound]. *)
Definition group_fits (bound hdr idx : Z) (g : Group) (op' op : SegState → outcome E SegState) : Prop :=
  ∀ base t secs m s l,
    seg_is hdr base t secs m s → 0 ≤ hdr → 0 ≤ base → hdr + base + gr_size g < 2 ^ 64 →
    stab_repr l t → table_fits l (gr_symbols g idx base) →
    base + gr_size g ≤ bound → op' s = op s.

Lemma build_section_fits bound hdr sectname segname idx ds min flags pad :
  0 ≤ min < 64 → Forall def_ok ds →
  group_fits bound hdr idx (default_group sectname segname (default S_REGULAR flags) min pad ds)
    (build_section_ck sectname segname idx ds min flags) (build_section sectname segname idx ds min flags).
Proof.
  intros Hmin Hok base t secs m s l [] Hh Hb Hlt Hr Hf _. unfold gr_size in *. cbn in Hlt.
  rewrite placed_bytes_len in Hlt by lia. cbn [default_group gr_symbols] in Hf.
  pose proof (placed_size_nonneg min ds 0 ltac:(lia)).
  unfold build_section_ck, build_section. rewrite si_symbol_offset, si_symtab.
  pose proof (build_section_loop_fits idx min base ds l t 0 min (ss_align_pad_map s)) as Hl.
  pose proof (build_section_loop_ok (E:=E) idx min base ds t 0 min (ss_align_pad_map s)) as Hl'.
  cbv zeta in Hl'. rewrite Z.add_0_r in Hl, Hl'. rewrite Hl, Hl' by (done || lia).
  cbn [obind sl_local_size]. rewrite Z.add_0_l, si_offset, si_addr.
  by rewrite !add_exact by (unfold in_u; lia).
Qed.

Lemma custom_symbols_fits idx base syms : ∀ l t,
  stab_repr l t →
  table_fits l ((fun p : string * Z => (p.1, Sym_Defined idx (u64 (base + p.2)) p.2 true)) <$> syms) →
  0 ≤ base → (∀ p, p ∈ syms → 0 ≤ p.2 ∧ base + p.2 < 2 ^ 64) →
  ∃ t', custom_symbols_ck (E:=E) idx base syms t = Ok t'.
Proof.
  unfold custom_symbols_ck.
  induction syms as [|[n o] syms IH]; intros l t Hr Hf Hb Hs; cbn [ofold]; [eauto|].
  destruct (Hs (n, o)) as [Ho1 Ho2]; [left|]. cbn [snd] in Ho1, Ho2.
  cbn [fmap list_fmap fst snd] in Hf. destruct (table_fits_app l [_] _ Hf) as [Hf1 Hf2].
  rewrite add_exact by (unfold in_u; lia). cbn [obind].
  destruct (insert_fits l t _ _ Hr Hf1) as [-> Hr1]. cbn [obind].
  apply (IH _ _ Hr1 Hf2 Hb). intros p Hp. apply Hs. by right.
Qed.

(** The offsets of the symbols of a section fit after [bound] bytes. *)
Definition symbols_fit (bound : Z) (d : Definition_) : Prop :=
  ∀ p, p ∈ d_symbols d → 0 ≤ p.2 ∧ bound + p.2 < 2 ^ 64.

Lemma build_custom_section_fits bound hdr idx d :
  DefinedDecl_is_section (d_decl d) = true → align_valid (d_decl d) → symbols_fit bound d →
  group_fits bound hdr idx (custom_group d) (build_custom_section_ck idx d) (build_custom_section idx d).
Proof.
  intros Hsec Hal Hs base t secs m s l [] Hh Hb Hlt Hr Hf Hbd. unfold gr_size in *. cbn in Hlt, Hbd.
  follows_to (build_custom_section_follows _ _ _).
  destruct (def_exp_ok (E:=E) d Hal) as [He _]. pose proof (zlen_nonneg (def_data d)).
  unfold build_custom_section_ck. destruct (d_decl d) as [f|f|sd] eqn:Ed; [done..|].
  cbn [DefinedDecl_get_align] in He. cbn [custom_group gr_symbols] in Hf.
  rewrite si_symbol_offset, si_symtab, si_offset, si_addr.
  destruct (custom_symbols_fits idx base (d_symbols d) l t Hr Hf Hb) as [t' ->].
  { intros p Hp. destruct (Hs p Hp). lia. }
  cbn [obind]. assert (u64 (file_size (d_data d)) = zlen (def_data d)) as ->.
  { rewrite file_size_data. apply wrap_small. unfold in_u. lia. }
  rewrite add_fits by (unfold in_u; lia). cbn [obind]. rewrite He. cbn [obind].
  add_fits_all. eauto.
Qed.

(** ** The segment *)
Inductive groups_fit (bound hdr : Z) : Z → list Group → list (SegState → outcome E SegState) →
  list (SegState → outcome E SegState) → Prop :=
| fit_nil idx : groups_fit bound hdr idx [] [] []
| fit_cons idx g gs op' op ops' ops :
    group_fits bound hdr idx g op' op → groups_fit bound hdr (idx + 1) gs ops' ops →
    groups_fit bound hdr idx (g :: gs) (op' :: ops') (op :: ops).

Lemma run_ops_fits hdr idx gs fs ops :
  adds_groups (E:=E) hdr idx gs fs ops → ∀ ops' bound base t secs m s l,
  groups_fit bound hdr idx gs ops' ops →
  seg_is hdr base t secs m s → 0 ≤ hdr → 0 ≤ base → hdr + base + zsum (gr_size <$> gs) < 2 ^ 64 →
  NoDup (secs.*1 ++ (gr_key <$> gs)) →
  stab_repr l t → table_fits l (symbols_from idx base gs) →
  base + zsum (gr_size <$> gs) ≤ bound → run_ops ops' s = run_ops ops s.
Proof.
  induction 1 as [|idx g gs f fs op ops Hg Hgs IH];
    intros ops' bound base t secs m s l Hfit Hs Hh Hb Hlt Hnd Hr Hf Hbd;
    inversion Hfit as [|? ? ? op' ? ops1 ? Hop Hops]; subst; [done|].
  cbn [run_ops symbols_from fmap list_fmap zsum] in *.
  assert (0 ≤ zsum (gr_size <$> gs)) by (apply zsum_nonneg; intros; apply zlen_nonneg).
  assert (0 ≤ gr_size g) by apply zlen_nonneg.
  destruct (table_fits_app _ _ _ Hf) as [Hf1 Hf2].
  rewrite (Hop base t secs m s l) by (done || lia).
  destruct (Hg _ _ _ _ _ Hs Hh Hb) as (s1 & -> & Hs1); [lia| |].
  { apply NoDup_app in Hnd as (_ & Hd & _). intros Hin. apply (Hd _ Hin). left. }
  cbn [obind].
  eapply (IH ops1 bound); try done; try lia.
  - rewrite fmap_app, <- app_assoc. exact Hnd.
  - apply insert_all_repr; [done | apply Hf1 | apply Hf1].
Qed.

Lemma groups_fit_app bound hdr idx gs1 ops1' ops1 gs2 ops2' ops2 :
  groups_fit bound hdr idx gs1 ops1' ops1 → groups_fit bound hdr (idx + zlen gs1) gs2 ops2' ops2 →
  groups_fit bound hdr idx (gs1 ++ gs2) (ops1' ++ ops2') (ops1 ++ ops2).
Proof.
  induction 1 as [|idx g gs op' op ops' ops Hg Hgs IH]; intros H2; cbn.
  - by rewrite Z.add_0_r in H2.
  - constructor; [done|]. apply IH. rewrite zlen_cons in H2. by rewrite <- Z.add_assoc.
Qed.

(** The calls of [SegmentBuilder::new], in order. *)
Definition default_ops_ck (ds : list Definition_) : list (SegState → outcome E SegState) :=
  [build_section_ck "__text" "__TEXT" CODE_SECTION_INDEX (in_slot SCode ds) 4
     (Some (Z.lor S_ATTR_PURE_INSTRUCTIONS S_ATTR_SOME_INSTRUCTIONS));
   build_section_ck "__data" "__DATA" DATA_SECTION_INDEX (in_slot SData ds) 3 None;
   build_section_ck "__cstring" "__TEXT" CSTRING_SECTION_INDEX (in_slot SCstring ds) 0
     (Some S_CSTRING_LITERALS);
   build_section_ck "__bss" "__DATA" BSS_SECTION_INDEX (in_slot SBss ds) 0 (Some S_ZEROFILL)].

Definition custom_ops_ck (i : Z) (ds : list Definition_) : list (SegState → outcome E SegState) :=
  (fun p => build_custom_section_ck (p.1 + NUM_DEFAULT_SECTIONS) p.2) <$> enumerate_from i ds.

Lemma customs_fit bound hdr ds : ∀ i idx,
  Forall (fun d => DefinedDecl_is_section (d_decl d) = true ∧ align_valid (d_decl d) ∧
    symbols_fit bound d) ds →
  idx = i + NUM_DEFAULT_SECTIONS →
  groups_fit bound hdr idx (custom_group <$> ds) (custom_ops_ck i ds) (custom_ops i ds).
Proof.
  induction ds as [|d ds IH]; intros i idx Hok ->; cbn; [constructor|].
  inversion_clear Hok as [|? ? (Hs & Ha & Hy) Hok'].
  constructor; [by apply build_custom_section_fits|]. apply IH; [done|lia].
Qed.

Lemma run_customs_ck ds : ∀ i s,
  ofold (fun s '(idx, def) => build_custom_section_ck (E:=E) (idx + NUM_DEFAULT_SECTIONS) def s) s
    (enumerate_from i ds) = run_ops (custom_ops_ck i ds) s.
Proof.
  induction ds as [|d ds IH]; intros i s; [done|]. cbn.
  destruct (build_custom_section_ck _ d s); cbn; auto.
Qed.

Lemma contents_groups_fit bound hdr c :
  (∀ d, d ∈ c_defs c → align_valid (d_decl d)) →
  (∀ d, d ∈ in_slot SCustom (c_defs c) → symbols_fit bound d) →
  groups_fit bound hdr 0 (mach_groups c)
    (default_ops_ck (c_defs c) ++ custom_ops_ck 0 (in_slot SCustom (c_defs c)))
    (default_ops (c_defs c) ++ custom_ops 0 (in_slot SCustom (c_defs c))).
Proof.
  intros Hal Hsy. apply groups_fit_app.
  - constructor; [by apply (build_section_fits bound hdr "__text" "__TEXT" 0 _ 4 (Some _) xcc), in_slot_ok|].
    constructor; [by apply (build_section_fits bound hdr "__data" "__DATA" 1 _ 3 None xaa), in_slot_ok|].
    constructor; [by apply (build_section_fits bound hdr "__cstring" "__TEXT" 2 _ 0 (Some _) xaa), in_slot_ok|].
    constructor; [by apply (build_section_fits bound hdr "__bss" "__DATA" 3 _ 0 (Some _) xaa), in_slot_ok|].
    constructor.
  - apply customs_fit; [|done]. apply Forall_forall. intros d Hd. specialize (Hsy d Hd).
    apply in_slot_elem in Hd as [Hd Hin]. split; [by apply slot_section | split; [by apply Hal | done]].
Qed.

Lemma insert_imports_fits a l t : wf a →
  stab_repr l t → table_fits l ((fun p => (p.1, Sym_Undefined)) <$> c_imports (contents a)) →
  ofold (fun symtab import =>
      let! '(import, _) := import in insert_ck symtab import Sym_Undefined)
    t (imports (E:=E) a) =
  Ok (insert_all t ((fun p => (p.1, Sym_Undefined)) <$> c_imports (contents a))).
Proof.
  intros Hwf Hr Hf. rewrite (imports_contents _ Hwf).
  destruct (insert_all_fits _ l t Hr Hf) as [<- _]. clear Hr Hf. revert t.
  induction (c_imports (contents a)) as [|[n k] ims IH]; intros t; cbn; [done|].
  destruct (insert_ck t n Sym_Undefined); cbn; auto.
Qed.

Lemma SegmentBuilder_new_fits a ctx :
  let c := contents a in let ds := c_defs c in let hdr := mach_header_size (container ctx) in
  wf a → (∀ d, d ∈ ds → align_valid (d_decl d)) → 0 ≤ hdr →
  hdr + segment_len c < 2 ^ 64 → NoDup (mach_keys c) → table_fits [] (mach_symbols c) →
  (∀ d, d ∈ in_slot SCustom ds → symbols_fit (segment_len c) d) →
  SegmentBuilder_new_ck (E:=E) a (in_slot SCode ds) (in_slot SData ds) (in_slot SBss ds)
    (in_slot SCstring ds) (in_slot SCustom ds) SymbolTable_new ctx =
  SegmentBuilder_new a (in_slot SCode ds) (in_slot SData ds) (in_slot SBss ds)
    (in_slot SCstring ds) (in_slot SCustom ds) SymbolTable_new ctx.
Proof.
  intros c ds hdr Hwf Hal Hh Hlt Hnd Hf Ho.
  unfold mach_symbols in Hf. destruct (table_fits_app [] _ _ Hf) as [Hf1 Hf2].
  set (s0 := mkSegState SymbolTable_new im_new hdr 0 0 ∅).
  assert (seg_is hdr 0 SymbolTable_new [] ∅ s0) as Hs0 by (split; cbn; try done; [apply im_new_iter | lia]).
  assert (run_ops (default_ops_ck ds ++ custom_ops_ck 0 (in_slot SCustom ds)) s0 =
    run_ops (default_ops ds ++ custom_ops 0 (in_slot SCustom ds)) s0) as Hrun.
  { eapply (run_ops_fits hdr 0 (mach_groups c)); try done.
    - by apply contents_groups_added.
    - by apply contents_groups_fit.
    - by rewrite Z.add_0_r.
    - apply stab_repr_new. }
  assert (SegmentBuilder_new_ck (E:=E) a (in_slot SCode ds) (in_slot SData ds) (in_slot SBss ds)
      (in_slot SCstring ds) (in_slot SCustom ds) SymbolTable_new ctx =
    let! s := run_ops (default_ops_ck ds ++ custom_ops_ck 0 (in_slot SCustom ds)) s0 in
    let! symtab := ofold (fun symtab import =>
      let! '(import, _) := import in insert_ck symtab import Sym_Undefined) (ss_symtab s) (imports a) in
    Ok (mkSegmentBuilder (ss_sections s) (ss_offset s) (ss_addr s) (ss_align_pad_map s), symtab)) as ->.
  { unfold SegmentBuilder_new_ck. rewrite run_ops_app. cbn [run_ops default_ops_ck]. fold hdr s0.
    destruct (build_section_ck "__text" _ _ _ _ _ _) as [s1| |]; [|done..]. cbn [obind].
    destruct (build_section_ck "__data" _ _ _ _ _ _) as [s2| |]; [|done..]. cbn [obind].
    destruct (build_section_ck "__cstring" _ _ _ _ _ _) as [s3| |]; [|done..]. cbn [obind].
    destruct (build_section_ck "__bss" _ _ _ _ _ _) as [s4| |]; [|done..]. cbn [obind].
    by rewrite run_customs_ck. }
  rewrite Hrun, SegmentBuilder_new_ops by done. fold hdr s0.
  destruct (run_ops_ok hdr 0 _ _ _ (contents_groups_added (E:=E) hdr c Hal) 0 SymbolTable_new [] ∅ s0 Hs0)
    as (s' & Hs' & [E1 _ _ _ _ _]); [done.. | by rewrite Z.add_0_r | done |].
  fold ds in Hs'. rewrite Hs'. cbn [obind]. rewrite E1, (insert_imports_fits a (symbols_from 0 0 (mach_groups c))); [done..| |done].
  apply (insert_all_repr _ []); [apply stab_repr_new | apply Hf1 | apply Hf1].
Qed.

(** ** Relocations *)
Definition links_fit (c : Contents) : Prop :=
  ∀ l k, l ∈ c_links c → match l_reloc l with Debug _ _ => False | _ => True end →
    al_get (mach_symbols c) (b_name (l_from l)) = Some k → in_u 64 (kind_offset k + l_at l).

Lemma build_relocation_fits c t i j secs l :
  stab_repr (mach_symbols c) t → links_fit c → l ∈ c_links c →
  build_relocation_ck (E:=E) t i j secs l = build_relocation t i j secs l.
Proof.
  intros Ht Hf Hl. unfold build_relocation_ck, build_relocation. specialize (Hf l).
  destruct (l_reloc l); [| |done].
  all: destruct (link_reloc l) as [[ab r]| |]; cbn [obind]; try done;
    rewrite (SymbolTable_offset_full _ _ _ Ht);
    destruct (al_get (mach_symbols c) (b_name (l_from l))) as [k|]; cbn [fmap option_fmap option_map]; [|done];
    destruct (SymbolTable_index _ _); [|done]; by rewrite add_exact by (apply Hf; done).
Qed.

Lemma build_relocations_fits a seg t :
  wf a → stab_repr (mach_symbols (contents a)) t → links_fit (contents a) →
  build_relocations_ck (E:=E) seg a t = build_relocations seg a t.
Proof.
  intros Hwf Ht Hf. unfold build_relocations_ck, build_relocations.
  destruct (expect _ _) as [[[i ?] ?]| |]; cbn [obind]; [|done..].
  destruct (expect _ _) as [[[j ?] ?]| |]; cbn [obind]; [|done..].
  rewrite (links_contents _ Hwf).
  assert (∀ ls secs, (∀ l, l ∈ ls → l ∈ c_links (contents a)) →
    ofold (fun secs link => let! link := link in build_relocation_ck (E:=E) t i j secs link) secs (Ok <$> ls) =
    ofold (fun secs link => let! link := link in build_relocation t i j secs link) secs (Ok <$> ls)) as H;
    [|by rewrite H].
  induction ls as [|l ls IH]; intros secs Hls; cbn; [done|].
  rewrite (build_relocation_fits (contents a)) by (done || (apply Hls; left)).
  destruct (build_relocation _ _ _ _ _); cbn; [|done..]. apply IH. intros l' Hl'. apply Hls. by right.
Qed.

(** ** [Mach::new] *)
Lemma bss_total_cons d ds :
  bss_total (d :: ds) = (if decide (slot d = SBss) then zero_size d else 0) + bss_total ds.
Proof.
  unfold bss_total. rewrite in_slot_cons, fmap_app, zsum_app. case_decide; cbn; lia.
Qed.

Lemma bss_total_nonneg ds : (∀ d, d ∈ ds → 0 ≤ zero_size d) → 0 ≤ bss_total ds.
Proof.
  induction ds as [|d ds IH]; intros H; [done|]. rewrite bss_total_cons.
  pose proof (H d (list_elem_of_here _ _)). specialize (IH (fun d Hd => H d (list_elem_of_further _ _ _ Hd))).
  case_decide; lia.
Qed.

(** One definition: the sum of the sizes fits, or the loop stops there. *)
Lemma partition_step p d :
  in_u 64 (pt_bss_size p) →
  let s := pt_bss_size p + (if decide (slot d = SBss) then zero_size d else 0) in
  (in_u 64 s →
   partition_def_ck (E:=E) p d = Ok (partition_def p d) ∧ pt_bss_size (partition_def p d) = s) ∧
  ((∀ op w x, overflow_checks op w x = true) → ¬ in_u 64 s →
   partition_def_ck (E:=E) p d = Panic (overflow_msg OpAdd)).
Proof.
  intros Hp s. unfold s, partition_def_ck, partition_def, slot, zero_size.
  destruct (d_decl d) as [f|f|f]; [|destruct (d_data d) as [b|n]; [destruct (get_datatype f)|]|].
  1,2,3,5: rewrite decide_False, Z.add_0_r by done; split; [done | by intros ? []].
  rewrite decide_True by done. split.
  - intros Hs. rewrite add_fits by done. split; [done|]. by apply wrap_small.
  - intros Hc Hs. unfold add_ck. by rewrite arith_overflows.
Qed.

Lemma partition_fits ds : ∀ p,
  (∀ d, d ∈ ds → 0 ≤ zero_size d) → 0 ≤ pt_bss_size p → pt_bss_size p + bss_total ds < 2 ^ 64 →
  ofold (fun p def => let! def := def in partition_def_ck (E:=E) p def) p (Ok <$> ds) =
  Ok (fold_left partition_def ds p).
Proof.
  induction ds as [|d ds IH]; intros p Hz Hp Hlt; cbn [ofold fmap list_fmap fold_left]; [done|].
  cbn [obind]. rewrite bss_total_cons in Hlt.
  assert (∀ d, d ∈ ds → 0 ≤ zero_size d) as Hz' by (intros d' Hd'; apply Hz; by right).
  pose proof (bss_total_nonneg ds Hz') as Hnn. specialize (Hz d (list_elem_of_here _ _)).
  assert (in_u 64 (pt_bss_size p)) as Hu by (unfold in_u; case_decide; lia).
  destruct (partition_step p d Hu) as [H _]. destruct H as [-> Hb]; [unfold in_u; case_decide; lia|].
  cbn [obind]. apply IH; [done|..]; rewrite Hb; case_decide; lia.
Qed.

(** When they do not fit, [Mach::new] panics before it does anything else. *)
Lemma partition_overflows ds : ∀ p,
  (∀ op w x, overflow_checks op w x = true) → (∀ d, d ∈ ds → 0 ≤ zero_size d) → in_u 64 (pt_bss_size p) →
  2 ^ 64 ≤ pt_bss_size p + bss_total ds →
  ofold (fun p def => let! def := def in partition_def_ck (E:=E) p def) p (Ok <$> ds) =
  Panic (overflow_msg OpAdd).
Proof.
  induction ds as [|d ds IH]; intros p Hc Hz Hp Hge.
  { unfold in_u in Hp. change (bss_total []) with 0 in Hge. lia. }
  cbn [ofold fmap list_fmap obind]. rewrite bss_total_cons in Hge.
  destruct (partition_step p d Hp) as [H1 H2]. cbv zeta in H1, H2.
  destruct (in_ub 64 (pt_bss_size p + if decide (slot d = SBss) then zero_size d else 0)) eqn:Eu.
  - apply in_ub_spec in Eu. destruct (H1 Eu) as [-> Hb]. cbn [obind].
    apply IH; [done|intros d' Hd'; apply Hz; by right|by rewrite Hb|rewrite Hb; lia].
  - rewrite H2; [done..|]. intros Hu%in_ub_spec. congruence.
Qed.

Lemma Mach_new_overflows a :
  (∀ op w x, overflow_checks op w x = true) → wf a → (∀ d, d ∈ c_defs (contents a) → 0 ≤ zero_size d) →
  2 ^ 64 ≤ bss_total (c_defs (contents a)) →
  Mach_new_ck (E:=E) a = Panic (overflow_msg OpAdd).
Proof.
  intros Hc Hwf Hz Hge. unfold Mach_new_ck. rewrite (definitions_contents _ Hwf).
  by rewrite partition_overflows.
Qed.

(** The sums that involve numbers of the client. *)
Record mach_sums_fit (c : Contents) : Prop := {
  mf_zero : ∀ d, d ∈ c_defs c → 0 ≤ zero_size d;
  mf_bss : segment_len c + bss_total (c_defs c) < 2 ^ 64;
  mf_symbols : ∀ d, d ∈ in_slot SCustom (c_defs c) → symbols_fit (segment_len c) d;
  mf_links : links_fit c
}.

(** The same as an executable condition. *)
Definition link_sum_fits (c : Contents) (l : LinkAndDecl) : bool :=
  match l_reloc l, al_get (mach_symbols c) (b_name (l_from l)) with
  | Debug _ _, _ | _, None => true
  | _, Some k => in_ub 64 (kind_offset k + l_at l)
  end.

Definition mach_sums_check (c : Contents) : bool :=
  forallb (fun d => 0 <=? zero_size d) (c_defs c) &&
  (segment_len c + bss_total (c_defs c) <? 2 ^ 64) &&
  forallb (fun d => forallb (fun p => (0 <=? p.2) && (segment_len c + p.2 <? 2 ^ 64)) (d_symbols d))
    (in_slot SCustom (c_defs c)) &&
  forallb (link_sum_fits c) (c_links c).

Lemma mach_sums_check_ok c : mach_sums_check c = true → mach_sums_fit c.
Proof.
  unfold mach_sums_check. rewrite !andb_true_iff, !forallb_forall. intros [[[Hz Hb] Hs] Hl]. split.
  - intros d Hd. by apply Z.leb_le, Hz, list_elem_of_In.
  - by apply Z.ltb_lt.
  - intros d Hd p Hp. apply list_elem_of_In, Hs in Hd. rewrite forallb_forall in Hd.
    apply list_elem_of_In, Hd, andb_true_iff in Hp as [H1 H2]. split; [by apply Z.leb_le | by apply Z.ltb_lt].
  - intros l k Hin Hd Hk. apply list_elem_of_In, Hl in Hin. unfold link_sum_fits in Hin. rewrite Hk in Hin.
    destruct (l_reloc l); [by apply in_ub_spec..|done].
Qed.

Lemma Mach_new_fits a :
  let ctx := make_ctx (a_target a) in let c := contents a in
  wf a → contents_wf c → mach_ready c →
  mach_header_size (container ctx) + segment_len c < 2 ^ 64 →
  zlen (mach_symbols c) < 2 ^ 64 → strtable_len (symbol_names c) < 2 ^ 64 → mach_sums_fit c →
  Mach_new_ck (E:=E) a = Mach_new a.
Proof.
  intros ctx c Hwf Hc Hr Hlen Hsyms Hstr Hf. unfold Mach_new_ck, Mach_new. fold ctx.
  pose proof (header_size_pos ctx) as Hh. pose proof (mach_offsets ctx c []) as Ho.
  pose proof (bss_total_nonneg _ (mf_zero _ Hf)). pose proof (mf_bss _ Hf).
  rewrite (definitions_contents _ Hwf), definitions_fold. fold c.
  rewrite partition_fits by (apply (mf_zero _ Hf) || (cbn [pt_bss_size]; lia)). cbn [obind].
  rewrite (partition_ok _ (mkPartition [] [] [] [] [] 0) 0) by done.
  cbn [pt_code pt_data pt_bss pt_cstrings pt_sections pt_bss_size app].
  assert (table_fits [] (mach_symbols c)) as Htf by (split; [apply (mr_symbols _ Hr) | done..]).
  unfold c in *. rewrite SegmentBuilder_new_fits; try done;
    [|apply (mr_aligns _ Hr) | lia | by apply mach_keys_NoDup | apply (mf_symbols _ Hf)].
  destruct (SegmentBuilder_new_ok (E:=E) a ctx) as (seg & -> & _);
    [done | apply (mr_aligns _ Hr) | lia | done | by apply mach_keys_NoDup|].
  cbn [obind]. rewrite build_relocations_fits; [done | done | | apply (mf_links _ Hf)].
  apply (insert_all_repr _ []); [apply stab_repr_new | apply Htf | apply Htf].
Qed.

(** ** [Mach::write] *)
Lemma SectionBuilder_create_fits b x y :
  0 ≤ x → 0 ≤ y → 0 ≤ sec_size b → x + sec_size b < 2 ^ 64 → y + nrelocs b * 8 < 2 ^ 64 →
  SectionBuilder_create_ck (E:=E) b x y = SectionBuilder_create b x y.
Proof.
  intros Hx Hy Hs Hlx Hly. unfold SectionBuilder_create_ck, SectionBuilder_create, nrelocs in *.
  destruct (expect _ _); [|done..]. cbn [obind]. destruct (expect _ _); [|done..]. cbn [obind].
  rewrite add_exact by (unfold in_u; lia). cbn [obind]. destruct (sec_relocations b) as [|r rl]; [done|].
  pose proof (zlen_nonneg (r :: rl)). rewrite SIZEOF_RELOCATION_INFO_spec.
  rewrite mul_exact by (unfold in_u; lia). cbn [obind].
  rewrite (wrap_small 64 (zlen (r :: rl) * 8)) by (unfold in_u; lia).
  by rewrite add_exact by (unfold in_u; lia).
Qed.

Lemma marshal_loop_fits ctx secs : ∀ raw x y,
  Forall (fun p => names_fit p.2) secs → 0 ≤ x → 0 ≤ y →
  x + zsum ((fun p => sec_size p.2) <$> secs) < 2 ^ 32 → y + reloc_count secs * 8 < 2 ^ 32 →
  ∃ st, ofold (fun '(raw, section_offset, relocation_offset) '(_, section) =>
      let! '(header, section_offset, relocation_offset) :=
        SectionBuilder_create_ck (E:=E) section section_offset relocation_offset in
      Ok (write_all (ser_mach_section header ctx) raw, section_offset, relocation_offset))
    (raw, x, y) secs = Ok st.
Proof.
  induction secs as [|[k b] secs IH]; intros raw x y Hf Hx Hy Hlx Hly; cbn [ofold]; [eauto|].
  inversion_clear Hf as [|? ? Hb Hsecs]. unfold reloc_count in Hly.
  cbn [fmap list_fmap zsum snd] in Hlx, Hly, Hb. fold (reloc_count secs) in Hly.
  assert (0 ≤ zsum ((fun p => sec_size p.2) <$> secs)).
  { clear -Hsecs. induction Hsecs as [|p l [_ [_ Hp]] _ IH]; cbn; lia. }
  assert (0 ≤ reloc_count secs) by (apply zsum_nonneg; intros; apply zlen_nonneg).
  assert (0 ≤ nrelocs b) by apply zlen_nonneg. pose proof Hb as (_ & _ & Hsz).
  rewrite SectionBuilder_create_fits, SectionBuilder_create_ok by (done || lia). cbn [obind].
  apply IH; [done|lia..].
Qed.

(** The section of a symbol is one of the groups. *)
Lemma symbols_from_section gs : ∀ idx base n i abs rel glob,
  (∀ g x y n' i' abs' rel' glob', g ∈ gs → (n', Sym_Defined i' abs' rel' glob') ∈ gr_symbols g x y → i' = x) →
  (n, Sym_Defined i abs rel glob) ∈ symbols_from idx base gs → idx ≤ i < idx + zlen gs.
Proof.
  induction gs as [|g gs IH]; intros idx base n i abs rel glob Hg; cbn [symbols_from]; [by intros ?%elem_of_nil|].
  rewrite zlen_cons. pose proof (zlen_nonneg gs). intros [Hin|Hin]%elem_of_app.
  - apply Hg in Hin; [lia | left].
  - apply IH in Hin; [lia|]. intros g' x y n' i' abs' rel' glob' Hg'. apply Hg. by right.
Qed.

Lemma group_symbol_section c g x y n i abs rel glob :
  g ∈ mach_groups c → (n, Sym_Defined i abs rel glob) ∈ gr_symbols g x y → i = x.
Proof.
  unfold mach_groups. rewrite elem_of_app. intros [Hg|Hg].
  - repeat (apply elem_of_cons in Hg as [->|Hg];
      [cbn; intros (p & [= _ -> _ _ _] & _)%list_elem_of_fmap; done|]). by apply elem_of_nil in Hg.
  - apply list_elem_of_fmap in Hg as (d & -> & _). cbn. by intros (p & [= _ -> _ _ _] & _)%list_elem_of_fmap.
Qed.

Section WriteFits.
Context (ctx : Ctx) (c : Contents) (rs : list (Z * RelocationInfo)) (m : Mach).
Hypothesis Hm : mach_repr ctx c rs m.
Hypothesis Hlen : mach_file_len ctx c rs < 2 ^ 32.

Lemma compute_layout_fits : compute_layout_ck (E:=E) m = Ok (compute_layout m).
Proof.
  follows_to (compute_layout_follows _).
  pose proof (mach_offsets ctx c rs) as Ho. pose proof (header_size_pos ctx) as Hh.
  unfold mach_file_len, off_relocs, off_strings, off_symbols, off_first, sizeof_commands in Hlen.
  unfold segment_cmdsize in *.
  unfold compute_layout_ck, load_command_size_ck, sizeof_strtable.
  rewrite (mp_ctx _ _ _ _ Hm), (mp_offset _ _ _ _ Hm).
  rewrite (stab_len _ _ (mp_symtab _ _ _ _ Hm)), (sr_size _ _ (mp_symtab _ _ _ _ Hm)).
  rewrite (im_sections_len ctx c rs m Hm), SymtabCommand_new_cmdsize. fold (symbol_names c).
  rewrite (wrap_small 64 (strtable_len _)) by (unfold in_u; lia).
  rewrite mul_fits by (unfold in_u; lia). cbn [obind]. add_fits_all.
  rewrite mul_fits by (unfold in_u; lia). cbn [obind]. add_fits_all. eauto.
Qed.

Lemma marshal_sections_fits : mach_ready c →
  marshal_sections_ck (E:=E) m (compute_layout m) = marshal_sections m (compute_layout m).
Proof.
  intros Hr. follows_to (marshal_sections_follows _ _).
  pose proof (mach_offsets ctx c rs) as Ho. pose proof (header_size_pos ctx) as Hh.
  unfold mach_file_len in Hlen. unfold marshal_sections_ck. rewrite (compute_layout_ok ctx c rs m Hm Hlen).
  cbn [ml_first_section_offset ml_relocation_offset_start].
  rewrite (mp_sections _ _ _ _ Hm).
  assert (0 ≤ off_first ctx c ∧ off_first ctx c + segment_len c ≤ off_relocs ctx c) as Hoff.
  { unfold off_relocs, off_strings, off_symbols, off_first, sizeof_commands. lia. }
  destruct (marshal_loop_fits (m_ctx m) (mach_sections ctx c rs) Cursor_new (off_first ctx c) (off_relocs ctx c))
    as ([[raw x] y] & ->); [by apply mach_sections_fit | lia | lia | | lia | cbn; eauto].
  rewrite mach_sections_sizes. fold (segment_len c). lia.
Qed.

Lemma segment_command_fits bs : mach_sums_fit c →
  segment_command_ck (E:=E) m (compute_layout m) bs = Ok (segment_command m (compute_layout m) bs).
Proof.
  intros Hf. unfold segment_command_ck, SegmentBuilder_size. pose proof (mach_offsets ctx c rs) as Ho.
  pose proof (bss_total_nonneg _ (mf_zero _ Hf)). pose proof (mf_bss _ Hf).
  rewrite (mp_size _ _ _ _ Hm), (mp_bss _ _ _ _ Hm), (wrap_small 64 (bss_total _)) by (unfold in_u; lia).
  by rewrite add_fits by (unfold in_u; lia).
Qed.

Lemma write_symtable_fits cur : write_symtable_ck (E:=E) m cur = Ok (write_symtable m cur).
Proof.
  unfold write_symtable_ck, write_symtable. rewrite <- ofold_pure, (sr_symbols _ _ (mp_symtab _ _ _ _ Hm)).
  pose proof (mach_offsets ctx c rs) as Ho. pose proof (header_size_pos ctx) as Hh.
  unfold mach_file_len, off_relocs, off_strings, off_symbols, off_first, sizeof_commands in Hlen.
  unfold segment_cmdsize in *.
  assert (∀ p, p ∈ imap (fun i p => (Z.of_nat i + 1, symbol_builder (mach_symbols c) i p)) (mach_symbols c) →
    SymbolBuilder_create_ck (E:=E) p.2 = Ok (SymbolBuilder_create p.2)) as Hp.
  { intros p Hin. apply elem_of_lookup_imap in Hin as (i & [n k] & -> & Hi). cbn [snd].
    unfold SymbolBuilder_create_ck, symbol_builder. cbn [snd]. destruct k as [sec abs rel glob|]; [|done].
    cbn [kind_builder sb_section]. apply list_elem_of_lookup_2 in Hi. unfold mach_symbols in Hi.
    apply elem_of_app in Hi as [Hi|Hi]; [|by apply list_elem_of_fmap in Hi as (? & ? & _)].
    apply symbols_from_section in Hi; [|intros *; apply group_symbol_section].
    rewrite add_fits by (unfold in_u; lia). done. }
  revert cur Hp. induction (imap _ _) as [|[k b] l IH]; intros cur Hp; cbn [ofold]; [done|].
  rewrite (Hp (k, b) (list_elem_of_here _ _) : SymbolBuilder_create_ck b = _). cbn [obind]. apply IH.
  intros p Hin. apply Hp. by right.
Qed.

Lemma mach_write_fits cpu : contents_wf c → mach_ready c → mach_sums_fit c →
  CpuType_from (E:=E) (m_architecture m) = Ok cpu →
  mach_write_ck (E:=E) m = MachWrite.write m.
Proof.
  intros Hc Hr Hf Hcpu. unfold mach_write_ck, MachWrite.write.
  pose proof (mach_offsets ctx c rs) as Ho. pose proof (header_size_pos ctx) as Hh.
  rewrite compute_layout_fits. cbn [obind]. unfold header. rewrite Hcpu. cbn [obind].
  rewrite (marshal_sections_fits Hr), (marshal_sections_ok ctx c rs m Hm Hlen Hr). cbn [obind].
  rewrite (segment_command_fits _ Hf), (segment_command_ok ctx c rs m Hm Hlen). cbn [obind].
  rewrite (mp_offset _ _ _ _ Hm), SymtabCommand_new_cmdsize. cbn [image_segment seg_cmdsize].
  assert (mach_header_size (container ctx) + segment_len c + segment_cmdsize ctx c + 24 < 2 ^ 64).
  { unfold mach_file_len, off_relocs, off_strings, off_symbols, off_first, sizeof_commands in Hlen. lia. }
  rewrite (add_fits 64 (_ + segment_len c)) by (unfold in_u; lia). cbn [obind].
  rewrite add_exact by (unfold in_u; lia). cbn [obind].
  destruct (assert_ _ _); [|done..]. cbn [obind]. destruct (ofold _ _ _); [|done..]. cbn [obind].
  destruct (ofold _ _ _); [|done..]. cbn [obind]. destruct (ofold _ _ _); [|done..]. cbn [obind].
  by rewrite write_symtable_fits.
Qed.
End WriteFits.
End MachFits.

(** ** [mach::to_bytes] *)
Section MachToBytes.
Context {TL : TargetLexicon} {SI : StringInterner} {IM : IndexMapOps}.
Context {G : GoblinElf} {GM : GoblinMach} {SC : Scroll} {OS : OsFile} {P : Profile}.
Context {OC : OverflowChecks}.
Context {SIL : StringInternerLaws SI} {IML : IndexMapLaws IM}.
Context {GML : GoblinMachLaws GM} {SCL : ScrollLaws SC}.

(** No operation overflows when the file and the client's sums fit. *)
Lemma mach_to_bytes_fits a cpu rs :
  reachable a → undefined_symbols (E:=ArtifactError) a = Ok [] → mach_ready (contents a) →
  CpuType_from (E:=io_error) (architecture (a_target a)) = Ok cpu →
  mach_relocs (E:=io_error) (mach_symbols (contents a)) (mach_keys (contents a))
    (c_links (contents a)) = Ok rs →
  mach_file_len (make_ctx (a_target a)) (contents a) rs < 2 ^ 32 → mach_sums_fit (contents a) →
  mach_to_bytes_ck a = MachWrite.to_bytes a.
Proof.
  intros Hreach Hdef Hready Hcpu Hrs Hfit Hsums. pose proof (reachable_wf _ Hreach) as Hwf.
  pose proof (contents_complete a Hwf Hdef) as Hc.
  pose proof (mach_offsets (make_ctx (a_target a)) (contents a) rs) as Ho.
  pose proof (header_size_pos (make_ctx (a_target a))).
  pose proof Hfit as Hfit'.
  unfold mach_file_len, off_relocs, off_strings, off_symbols, off_first, sizeof_commands in Hfit'.
  unfold mach_to_bytes_ck, MachWrite.to_bytes. rewrite Mach_new_fits by (done || lia).
  destruct (Mach_new_ok (E:=io_error) a rs) as (m & -> & Har & Hr); [done..|lia|lia|done|].
  cbn [obind]. eapply (mach_write_fits _ _ _ m Hr Hfit cpu); try done. by rewrite Har.
Qed.
End MachToBytes.
