(* ===== verification/MachRelocs.v ===== *)
(** * What the Mach-O backend guarantees: relocations and the symbol table

    The bit fields of a relocation, the relocation tables of the file, the
    relocation of each link, the undefined symbols, alignment exponents and the
    symbol table as a data structure. *)

From stdpp Require Import base numbers list gmap strings.
From Stdlib Require Import ZArith Lia Strings.Byte.
From S2P Require Import Prelude Std Bytes External Decl Artifact ArtifactInv ArtifactSpec.
From S2P Require Import Contents Target MachBuild MachState MachWrite MachSymtab MachPlace.
From S2P Require Import MachObject MachLink MachImage MachFile MachRead MachTheorems.

(** ** Bit fields *)

(** The fields of [r_info]. *)
Definition r_symbolnum (r : RelocationInfo) : Z := Z.land (r_info r) (2 ^ 24 - 1).
Definition r_pcrel (r : RelocationInfo) : Z := Z.land (Z.shiftr (r_info r) 24) 1.
Definition r_length (r : RelocationInfo) : Z := Z.land (Z.shiftr (r_info r) 25) 3.
Definition r_extern (r : RelocationInfo) : Z := Z.land (Z.shiftr (r_info r) 27) 1.
Definition r_type (r : RelocationInfo) : Z := Z.shiftr (r_info r) 28.

Lemma fields_decode s p l t :
  0 ≤ s < 2 ^ 24 → 0 ≤ p < 2 → 0 ≤ l < 4 → 0 ≤ t < 16 → ∀ addr,
  let i := Z.lor (Z.lor (Z.lor (Z.lor (u32 s) (u32 (Z.shiftl p 24))) (u32 (Z.shiftl l 25)))
             (u32 (Z.shiftl 1 27))) (u32 (Z.shiftl t 28)) in
  let r := mkRelocationInfo addr i in
  r_symbolnum r = s ∧ r_pcrel r = p ∧ r_length r = l ∧ r_extern r = 1 ∧ r_type r = t ∧
  0 ≤ i < 2 ^ 32.
Proof.
  intros Hs Hp Hl Ht addr i r.
  assert (i = s + p * 2 ^ 24 + l * 2 ^ 25 + 1 * 2 ^ 27 + t * 2 ^ 28) as Ei.
  { unfold i. rewrite !Z.shiftl_mul_pow2 by lia. rewrite !wrap_small by (unfold in_u; lia).
    rewrite (lor_field _ p), (lor_field _ l), (lor_field _ 1), (lor_field _ t) by lia. done. }
  unfold r_symbolnum, r_pcrel, r_length, r_extern, r_type, r. cbn [r_info]. rewrite Ei.
  change (2 ^ 24 - 1) with (Z.ones 24). change 3 with (Z.ones 2).
  change (Z.land (Z.shiftr ?x 24) 1) with (Z.land (Z.shiftr x 24) (Z.ones 1)).
  change (Z.land (Z.shiftr ?x 27) 1) with (Z.land (Z.shiftr x 27) (Z.ones 1)).
  rewrite !Z.land_ones, !Z.shiftr_div_pow2 by lia. clear -Hs Hp Hl Ht.
  change (2 ^ 24) with 16777216 in *. change (2 ^ 25) with 33554432. change (2 ^ 27) with 134217728.
  change (2 ^ 28) with 268435456. change (2 ^ 1) with 2. change (2 ^ 2) with 4.
  change (2 ^ 32) with 4294967296.
  split_and!; Z.to_euclidean_division_equations; lia.
Qed.

Section MachRelocs.
Context {TL : TargetLexicon} {SI : StringInterner} {IM : IndexMapOps}.
Context {G : GoblinElf} {GM : GoblinMach} {SC : Scroll} {P : Profile} {OS : OsFile}.
Context {SIL : StringInternerLaws SI} {IML : IndexMapLaws IM}.
Context {GML : GoblinMachLaws GM} {SCL : ScrollLaws SC}.

Definition reloc_length (b : RelocationBuilder) : option Z :=
  if rb_size b =? 0 then Some (if rb_absolute b then 3 else 2)
  else if rb_size b =? 4 then Some 2 else if rb_size b =? 8 then Some 3 else None.

Lemma create_fields {E} b len :
  0 ≤ rb_symbol b < 2 ^ 24 → 0 ≤ rb_r_type b < 16 → reloc_length b = Some len →
  ∃ r, RelocationBuilder_create (E:=E) b = Ok r ∧ r_address r = i32 (rb_relocation_offset b) ∧
    r_symbolnum r = rb_symbol b ∧ r_pcrel r = (if rb_absolute b then 0 else 1) ∧
    r_length r = len ∧ r_extern r = 1 ∧ r_type r = rb_r_type b ∧ 0 ≤ r_info r < 2 ^ 32.
Proof.
  intros Hs Ht Hlen. unfold RelocationBuilder_create.
  assert (0 ≤ len < 4 ∧ (if rb_size b =? 0 then Ok (if rb_absolute b then 3 else 2)
    else if rb_size b =? 4 then Ok 2 else if rb_size b =? 8 then Ok 3
    else Panic "unsupported relocation size") = Ok (E:=E) len) as [Hr ->].
  { unfold reloc_length in Hlen. destruct (rb_size b =? 0); [destruct (rb_absolute b)|
      destruct (rb_size b =? 4); [|destruct (rb_size b =? 8); [|done]]];
      injection Hlen as <-; (split; [lia|done]). }
  cbn [obind]. eexists. split; [done|]. split; [done|].
  destruct (fields_decode (rb_symbol b) (if rb_absolute b then 0 else 1) len (rb_r_type b) Hs
    ltac:(destruct (rb_absolute b); lia) Hr Ht (i32 (rb_relocation_offset b)))
    as (H1 & H2 & H3 & H4 & H5 & H6). done.
Qed.

(** C27: the bit fields of a relocation.  For a symbol number below 2^24, a
    type below 16 and a size of 0 (the default), 4 or 8 bytes,
    [RelocationBuilder::create] packs symbol, relative flag, length, external
    flag and type so that each field reads back unchanged; any other size
    panics. *)
Theorem mach_relocation_fields (E : Type) (b : RelocationBuilder)
  (Hs : 0 ≤ rb_symbol b < 2 ^ 24) (Ht : 0 ≤ rb_r_type b < 16) :
  match reloc_length b with
  | Some len =>
      ∃ r, RelocationBuilder_create (E:=E) b = Ok r ∧ r_address r = i32 (rb_relocation_offset b) ∧
        r_symbolnum r = rb_symbol b ∧ r_pcrel r = (if rb_absolute b then 0 else 1) ∧
        r_length r = len ∧ r_extern r = 1 ∧ r_type r = rb_r_type b ∧ 0 ≤ r_info r < 2 ^ 32
  | None => RelocationBuilder_create (E:=E) b = Panic "unsupported relocation size"
  end.
Proof.
  destruct (reloc_length b) as [len|] eqn:El; [by apply create_fields|].
  unfold reloc_length, RelocationBuilder_create in *.
  destruct (rb_size b =? 0); [done|]. destruct (rb_size b =? 4); [done|].
  by destruct (rb_size b =? 8).
Qed.

(** ** Relocation tables *)

(** The relocations of section number [i], from the links. *)
Definition link_relocs (c : Contents) (i : Z) : list RelocationInfo :=
  omap (fun l => match mach_link (E:=unit) (mach_symbols c) (mach_keys c) l with
                 | Ok (Some (j, r)) => if j =? i then Some r else None
                 | _ => None
                 end) (c_links c).

Lemma create_error_free {E E'} b r :
  RelocationBuilder_create (E:=E) b = Ok r → RelocationBuilder_create (E:=E') b = Ok r.
Proof.
  unfold RelocationBuilder_create. destruct (rb_size b =? 0); [|destruct (rb_size b =? 4);
    [|destruct (rb_size b =? 8); [|done]]]; cbn [obind]; by intros [= <-].
Qed.

Lemma link_reloc_error_free {E E'} l x :
  link_reloc (E:=E) l = Ok x → link_reloc (E:=E') l = Ok x.
Proof.
  unfold link_reloc. destruct (l_reloc l) as [|raw addend|]; [|  |done].
  - destruct (b_decl (l_from l)) as [k|[f|f|f]], (b_decl (l_to l)) as [[]|[f'|f'|f']];
      try (destruct (SectionDecl_kind f)); try (destruct (SectionDecl_kind f'));
      intros H; try done; by injection H as <-.
  - unfold debug_assert. destruct debug_assertions, (raw <=? 255), (addend =? 0); cbn;
      intros H; try done; destruct (u8 raw =? R_ABS); by injection H as <-.
Qed.

Lemma mach_link_error_free {E E'} syms keys l o :
  mach_link (E:=E) syms keys l = Ok o → mach_link (E:=E') syms keys l = Ok o.
Proof.
  assert (∀ b (f : RelocationInfo → option (Z * RelocationInfo)),
    (let! r := RelocationBuilder_create (E:=E) b in Ok (f r)) = Ok o →
    (let! r := RelocationBuilder_create (E:=E') b in Ok (f r)) = Ok o) as Hc.
  { intros b f. destruct (RelocationBuilder_create (E:=E) b) as [r| |] eqn:Er; try done.
    rewrite (create_error_free b r Er). cbn. by intros [= <-]. }
  assert (∀ A (k : bool * Z → outcome E A) (k' : bool * Z → outcome E' A) (x : A),
    (∀ p, k p = Ok x → k' p = Ok x) → obind (link_reloc l) k = Ok x →
    obind (link_reloc l) k' = Ok x) as Hl.
  { intros A k k' x Hk. destruct (link_reloc (E:=E) l) as [p| |] eqn:Ep; try done.
    rewrite (link_reloc_error_free l p Ep). apply Hk. }
  unfold mach_link. destruct (l_reloc l) as [|raw addend|size addend].
  1,2: apply Hl; intros [absolute reloc];
    destruct (al_get syms (b_name (l_from l))), (index_of (b_name (l_to l)) syms.*1);
    (intros H; by injection H as <-) || apply Hc.
  destruct (is_section (b_decl (l_to l))); [intros H; by injection H as <-|].
  destruct (index_of (b_name (l_to l)) syms.*1); [|intros H; by injection H as <-].
  destruct (index_of (b_name (l_from l)) keys); cbn; [apply Hc|done].
Qed.

Lemma relocs_of_links {E} c rs i :
  mach_relocs (E:=E) (mach_symbols c) (mach_keys c) (c_links c) = Ok rs →
  relocs_of rs i = link_relocs c i.
Proof.
  unfold mach_relocs, link_relocs. revert rs. induction (c_links c) as [|l ls IH]; intros rs; cbn.
  { by intros [= <-]. }
  destruct (mach_link (E:=E) _ _ l) as [o| |] eqn:El; cbn; try done.
  destruct (omapM _ ls) as [os| |]; cbn; try done. intros [= <-]. cbn in IH.
  rewrite (mach_link_error_free _ _ _ _ El). specialize (IH _ eq_refl).
  destruct o as [[j r]|]; cbn; [|exact IH]. destruct (j =? i); [f_equal|]; exact IH.
Qed.

Lemma relocs_elem {E} c rs l o :
  mach_relocs (E:=E) (mach_symbols c) (mach_keys c) (c_links c) = Ok rs → l ∈ c_links c →
  mach_link (E:=E) (mach_symbols c) (mach_keys c) l = Ok (Some o) → o.2 ∈ link_relocs c o.1.
Proof.
  intros _ Hl Ho. unfold link_relocs. apply list_elem_of_omap. exists l. split; [done|].
  rewrite (mach_link_error_free _ _ _ _ Ho). destruct o as [j r]. cbn. by rewrite Z.eqb_refl.
Qed.

(** C28: relocation tables.  The header of each section gives the number and
    the place of its relocations, and there the file holds exactly the
    relocations of the links that belong to the section, in the order in which
    the links were made; a section without relocations has both fields 0. *)
Theorem mach_relocation_table (a : Artifact) (cpu : Z) (rs : list (Z * RelocationInfo))
  (bs : list byte) (i : nat) (hd : MachSection)
  (Hem : mach_emitted a cpu rs bs)
  (Hi : zget (image_headers (make_ctx (a_target a)) (contents a) rs) (Z.of_nat i) = Some hd) :
  let relocs := link_relocs (contents a) (Z.of_nat i) in
  ms_nreloc hd = zlen relocs ∧ (relocs = [] → ms_reloff hd = 0) ∧
  slice (ms_reloff hd) (ms_nreloc hd * SIZEOF_RELOCATION_INFO) bs =
    concat ((fun r => ser_relocation r (le (make_ctx (a_target a)))) <$> relocs).
Proof.
  intros relocs. set (ctx := make_ctx (a_target a)) in *. set (c := contents a) in *.
  assert (relocs_of rs (Z.of_nat i) = relocs) as Er by exact (relocs_of_links _ _ _ (me_relocs _ _ _ _ Hem)).
  destruct (mach_groups c !! i) as [g|] eqn:Eg.
  2: { apply lookup_ge_None in Eg. apply zget_range in Hi. rewrite image_headers_len in Hi.
       unfold zlen in Hi. lia. }
  rewrite zget_nat, (image_headers_lookup _ _ _ _ _ Eg) in Hi. injection Hi as <-.
  cbn [section_header ms_nreloc ms_reloff]. rewrite Er. split; [done|]. split; [by intros ->|].
  rewrite SIZEOF_RELOCATION_INFO_spec. destruct (Z.eqb_spec (zlen relocs) 0) as [E0|_].
  - assert (relocs = []) as -> by (destruct relocs; [done|rewrite zlen_cons in E0;
      pose proof (zlen_nonneg relocs); lia]). done.
  - destruct (mach_emitted_image _ _ _ _ Hem) as [-> _]. fold ctx c.
    pose proof (section_relocs_at ctx cpu c rs _ _ Eg) as Hat. rewrite Er in Hat.
    apply slice_at; [exact Hat|]. apply (zlen_concat_const (fun r => ser_relocation r (le ctx))).
    intros. apply ser_relocation_len.
Qed.

(** ** The relocation of a link *)
Lemma slot_of_decl d : DefinedDecl_is_section (d_decl d) = false → slot d ≠ SCustom.
Proof.
  intros Hd Hs. apply slot_section in Hs. congruence.
Qed.

Lemma symbol_lookup c i n k :
  mach_ready c → mach_symbols c !! i = Some (n, k) →
  al_get (mach_symbols c) n = Some k ∧ index_of n (mach_symbols c).*1 = Some (Z.of_nat i).
Proof.
  intros Hr Hi. pose proof (mr_symbols _ Hr) as Hnd. apply NoDup_cons in Hnd as [_ Hnd]. split.
  - apply al_get_NoDup; [done|]. by eapply list_elem_of_lookup_2.
  - apply index_of_get_NoDup; [done|]. rewrite zget_nat, list_lookup_fmap. by rewrite Hi.
Qed.

(** Every name a link may point to has a symbol. *)
Lemma target_symbol c b :
  bound_in c b → is_section (b_decl b) = false →
  ∃ (i : nat) k, mach_symbols c !! i = Some (b_name b, k).
Proof.
  intros Hb Hsec. unfold bound_in in Hb. destruct (b_decl b) as [ik|dd] eqn:Ed.
  - assert ((b_name b, Sym_Undefined) ∈ mach_symbols c) as [i Hi]%list_elem_of_lookup; [|eauto].
    unfold mach_symbols. apply elem_of_app. right. apply list_elem_of_fmap. by exists (b_name b, ik).
  - destruct Hb as (d & Hd & <- & <-).
    assert (slot d ≠ SCustom) as Hs by by apply slot_of_decl.
    destruct (placed_elem (slot_min (slot d)) (in_slot (slot d) (c_defs c)) 0 d) as (p & Hp & <-);
      [by apply in_slot_elem|].
    destruct (placed_symbol_in c _ p Hs Hp) as [i Hi]. unfold placed_symbol in Hi. eauto.
Qed.

(** Links whose kind is left to the library are filed under the section of
    their source. *)
Lemma auto_table {E} l d absolute rt :
  link_reloc (E:=E) l = Ok (absolute, rt) → l_reloc l = Auto →
  b_decl (l_from l) = Defined (d_decl d) → slot d = SCode ∨ slot d = SData →
  Z.of_nat (slot_index (slot d)) = if absolute then 1 else 0.
Proof.
  intros Hrt Ha Hd Hs. unfold link_reloc in Hrt. rewrite Ha, Hd in Hrt. unfold slot in *.
  destruct (d_decl d) as [f|f|f].
  - destruct (b_decl (l_to l)) as [[]|[f'|f'|f']]; try (injection Hrt as <- _; done).
    by destruct (SectionDecl_kind f').
  - assert (absolute = true) as ->.
    { destruct (b_decl (l_to l)) as [[]|[f'|f'|f']]; try (injection Hrt as <- _; done).
      by destruct (SectionDecl_kind f'). }
    destruct (d_data d); [destruct (get_datatype f)|]; destruct Hs; done.
  - by destruct Hs.
Qed.

(** The kind of a link: whether its relocation is absolute, and its type. *)
Definition link_kind (l : LinkAndDecl) : option (bool * Z) :=
  match l_reloc l, b_decl (l_from l), b_decl (l_to l) with
  | Auto, Defined (DD_Function _), Defined (DD_Function _) => Some (false, X86_64_RELOC_BRANCH)
  | Auto, Defined (DD_Function _), Import IK_Function => Some (false, X86_64_RELOC_BRANCH)
  | Auto, Defined (DD_Function _), Defined (DD_Data _) => Some (false, X86_64_RELOC_SIGNED)
  | Auto, Defined (DD_Function _), Import IK_Data => Some (false, X86_64_RELOC_GOT_LOAD)
  | Auto, Defined (DD_Data _), Defined (DD_Section _) => None
  | Auto, Defined (DD_Data _), _ => Some (true, X86_64_RELOC_UNSIGNED)
  | Auto, _, _ => None
  | Raw type addend, _, _ =>
      if decide (addend = 0) then Some (bool_decide (type = R_ABS), type) else None
  | Debug _ _, _, _ => None
  end.

Lemma link_kind_reloc {E} l absolute rt :
  link_kind l = Some (absolute, rt) → 0 ≤ rt < 16 → link_reloc (E:=E) l = Ok (absolute, rt).
Proof.
  intros Hk Hrt. unfold link_kind in Hk. unfold link_reloc. destruct (l_reloc l) as [|type addend|size addend].
  - destruct (b_decl (l_from l)) as [k|[f|f|f]]; [done| | |done];
      destruct (b_decl (l_to l)) as [[]|[f'|f'|f']]; try done; by injection Hk as <- <-.
  - assert (addend = 0 ∧ absolute = bool_decide (type = R_ABS) ∧ type = rt) as (-> & -> & ->).
    { destruct (b_decl (l_from l)) as [|[]], (b_decl (l_to l)) as [[]|[]]; case_decide; try done;
        by injection Hk as <- <-. }
    unfold debug_assert, assert_. rewrite (proj2 (Z.leb_le rt 255)) by lia.
    rewrite (wrap_small 8 rt) by (unfold in_u; lia).
    replace (rt =? R_ABS) with (bool_decide (rt = R_ABS))
      by (case_bool_decide; symmetry; [by apply Z.eqb_eq | by apply Z.eqb_neq]).
    case_bool_decide as Ea; destruct debug_assertions; cbn [obind Z.eqb]; by rewrite ?Ea.
  - by destruct (b_decl (l_from l)) as [|[]], (b_decl (l_to l)) as [[]|[]].
Qed.

(** Relocation number [q] of the section of header [hd]. *)
Definition relocation_entry (a : Artifact) (bs : list byte) (hd : MachSection) (q : Z)
  (r : RelocationInfo) : Prop :=
  0 ≤ q < ms_nreloc hd ∧
  slice (ms_reloff hd + q * SIZEOF_RELOCATION_INFO) SIZEOF_RELOCATION_INFO bs =
    ser_relocation r (le (make_ctx (a_target a))).

Lemma relocation_entry_of a cpu rs bs (i : nat) g r :
  mach_emitted a cpu rs bs → mach_groups (contents a) !! i = Some g →
  r ∈ link_relocs (contents a) (Z.of_nat i) →
  let hd := section_header (make_ctx (a_target a)) (contents a) rs i g in
  ∃ q, section_entry a bs (Z.of_nat i) hd ∧ relocation_entry a bs hd q r.
Proof.
  intros Hem Hg Hin hd. set (ctx := make_ctx (a_target a)) in *. set (c := contents a) in *.
  pose proof (relocs_of_links c rs (Z.of_nat i) (me_relocs _ _ _ _ Hem)) as Er. rewrite <- Er in Hin.
  apply elem_zget in Hin as [q Hq]. exists q. split.
  { apply (section_entry_of _ _ _ _ _ _ Hem). rewrite zget_nat. by apply image_headers_lookup. }
  pose proof (zget_range _ _ _ Hq) as Hr. unfold relocation_entry, hd. cbn [section_header ms_nreloc ms_reloff].
  split; [exact Hr|]. destruct (Z.eqb_spec (zlen (relocs_of rs (Z.of_nat i))) 0) as [E0|_]; [lia|].
  destruct (mach_emitted_image _ _ _ _ Hem) as [-> _]. rewrite SIZEOF_RELOCATION_INFO_spec.
  apply slice_at; [|apply ser_relocation_len].
  eapply at_off_trans; [exact (section_relocs_at ctx cpu c rs _ _ Hg)|].
  apply (at_off_concat (fun r => ser_relocation r (le ctx))); [intros; apply ser_relocation_len | done].
Qed.

(** Absolute relocations are filed under [__data], the others under [__text]. *)
Lemma table_entry_of a cpu rs bs (absolute : bool) r :
  mach_emitted a cpu rs bs → r ∈ link_relocs (contents a) (if absolute then 1 else 0) →
  ∃ hd q, section_entry a bs (if absolute then 1 else 0) hd ∧ relocation_entry a bs hd q r.
Proof.
  intros Hem Hin. set (s := if absolute then SData else SCode).
  assert ((if absolute then 1 else 0) = Z.of_nat (slot_index s)) as Ei by by destruct absolute.
  rewrite Ei in *. destruct (slot_group (contents a) s) as (g & Hg & _); [by destruct absolute|].
  destruct (relocation_entry_of a cpu rs bs _ g r Hem Hg Hin) as (q & Hs & Hr). eauto.
Qed.

(** C29: the relocation of a link.  A link from a function or data object to
    anything that has a symbol, of the kind [link_kind] gives, has a relocation
    in the file: in the table of [__data] when it is absolute and of [__text]
    otherwise.  Its symbol number is that of the target's entry in the symbol
    table; its address is the place of the source in its own section (the
    value of its symbol less the address of that section) plus the link's
    offset; it is relative and 4 bytes long, or absolute and 8 bytes long,
    external, and of the type of its kind.  For a link whose kind was left to
    the library, the table is that of the source's section if that is [__text]
    or [__data]. *)
Theorem mach_link_relocation (a : Artifact) (cpu : Z) (rs : list (Z * RelocationInfo))
  (bs : list byte) (l : LinkAndDecl) (absolute : bool) (rt : Z)
  (Hem : mach_emitted a cpu rs bs)
  (Hl : l ∈ c_links (contents a))
  (Hkind : link_kind l = Some (absolute, rt))
  (Hty : 0 ≤ rt < 16)
  (Hfrom : is_section (b_decl (l_from l)) = false)
  (Hto : is_section (b_decl (l_to l)) = false)
  (Hnum : zlen (mach_symbols (contents a)) ≤ 2 ^ 24)
  (Hnul : no_nul (b_name (l_from l)) ∧ no_nul (b_name (l_to l))) :
  let c := contents a in
  ∃ ht q r kf nf hf kt nt d,
    section_entry a bs (if absolute then 1 else 0) ht ∧ relocation_entry a bs ht q r ∧
    symbol_entry a bs kt nt (b_name (l_to l)) ∧ r_symbolnum r = kt ∧
    symbol_entry a bs kf nf (b_name (l_from l)) ∧ section_entry a bs (n_sect nf - 1) hf ∧
    r_address r = i32 (u64 (n_value nf - ms_addr hf + l_at l)) ∧
    r_pcrel r = (if absolute then 0 else 1) ∧ r_length r = (if absolute then 3 else 2) ∧
    r_extern r = 1 ∧ r_type r = rt ∧
    d ∈ c_defs c ∧ d_name d = b_name (l_from l) ∧
    (l_reloc l = Auto → slot d = SCode ∨ slot d = SData →
     n_sect nf - 1 = if absolute then 1 else 0).
Proof.
  intros c. destruct Hnul as [Hnf Hnt]. pose proof (link_kind_reloc (E:=io_error) _ _ _ Hkind Hty) as Hrt.
  destruct (mach_emitted_image _ _ _ _ Hem) as [_ Hc]. fold c in Hc.
  pose proof (me_ready _ _ _ _ Hem) as Hr. fold c in Hr.
  destruct (target_symbol c (l_to l) (cw_links_to _ Hc _ Hl) Hto) as (it & kt & Hit).
  destruct (symbol_entry_of _ _ _ _ _ _ _ Hem Hit Hnt) as [Het _].
  destruct (symbol_lookup _ _ _ _ Hr Hit) as [_ Eto].
  pose proof (cw_links_from _ Hc _ Hl) as Hb. destruct (cw_from_defined _ Hc _ Hl) as [dd Edd].
  unfold bound_in in Hb. rewrite Edd in Hb. destruct Hb as (d & Hd & En & Ed).
  assert (slot d ≠ SCustom) as Hs.
  { apply slot_of_decl. rewrite Edd in Hfrom. cbn in Hfrom. by rewrite Ed. }
  destruct (placed_elem (slot_min (slot d)) (in_slot (slot d) (c_defs c)) 0 d) as (p & Hp & Ep);
    [by apply in_slot_elem|].
  rewrite <- En in Hnf |- *. rewrite <- Ep in Hnf |- *.
  destruct (placed_symbol_in c _ p Hs Hp) as [iff Hif]. unfold placed_symbol in Hif.
  destruct (symbol_lookup _ _ _ _ Hr Hif) as [Efrom _].
  destruct (placed_entry a cpu rs bs (slot d) p Hem Hs Hp Hnf)
    as (kf & nf & g & Hg & Hef & Hse & _ & Hv & _).
  assert (mach_link (E:=io_error) (mach_symbols c) (mach_keys c) l =
    let! r := RelocationBuilder_create (mkRelocationBuilder (Z.of_nat it)
      (u64 (pl_off p + l_at l)) absolute 0 rt) in Ok (Some (if absolute then 1 else 0, r))) as Hml.
  { unfold mach_link. rewrite Ep, En in Efrom. rewrite Efrom, Eto, Hrt.
    unfold link_reloc in Hrt. by destruct (l_reloc l). }
  destruct (create_fields (E:=io_error) (mkRelocationBuilder (Z.of_nat it)
      (u64 (pl_off p + l_at l)) absolute 0 rt) (if absolute then 3 else 2))
    as (r & Hcr & Haddr & Hsy & Hpc & Hln & Hex & Hrty & _); [|done|done|].
  { cbn. apply lookup_lt_Some in Hit. unfold zlen in Hnum. fold c in Hnum. lia. }
  rewrite Hcr in Hml. cbn [obind] in Hml.
  pose proof (relocs_elem c rs l _ (me_relocs _ _ _ _ Hem) Hl Hml) as Hin. cbn [fst snd] in Hin.
  destruct (table_entry_of a cpu rs bs absolute r Hem Hin) as (ht & q & Hte & Hre).
  exists ht, q, r, kf, nf, (section_header (make_ctx (a_target a)) c rs (slot_index (slot d)) g).
  eexists (Z.of_nat it), _, (pl_def p).
  split; [exact Hte|]. split; [exact Hre|].
  split; [exact Het|]. split; [exact Hsy|]. split; [exact Hef|].
  split; [apply (section_entry_of _ _ _ _ _ _ Hem); rewrite Hse, Z.add_simpl_r, zget_nat;
          by apply image_headers_lookup|].
  split. { rewrite Haddr. cbn [rb_relocation_offset section_header ms_addr]. fold c in Hv.
           rewrite Hv. do 2 f_equal. lia. }
  do 4 (split; [done|]). rewrite Ep. do 2 (split; [done|]).
  intros Hauto Hor. rewrite Hse, Z.add_simpl_r. eapply auto_table; try done. by rewrite Edd, Ed.
Qed.

(** ** Undefined symbols *)
Lemma symbols_from_inv gs : ∀ idx base x, x ∈ symbols_from idx base gs →
  ∃ i g, gs !! i = Some g ∧ x ∈ gr_symbols g (idx + Z.of_nat i) (base + group_base gs i).
Proof.
  induction gs as [|g gs IH]; intros idx base x; cbn [symbols_from]; [by intros ?%elem_of_nil|].
  rewrite elem_of_app. intros [Hx|Hx].
  - exists 0%nat, g. unfold group_base. cbn. by rewrite !Z.add_0_r.
  - apply IH in Hx as (i & g' & Hi & Hx). exists (S i), g'. split; [done|].
    unfold group_base in *. cbn [take fmap list_fmap zsum].
    replace (idx + Z.of_nat (S i)) with (idx + 1 + Z.of_nat i) by lia. by rewrite Z.add_assoc.
Qed.

Lemma defined_symbol_section c p :
  p ∈ symbols_from 0 0 (mach_groups c) →
  ∃ section abs rel global, p.2 = Sym_Defined section abs rel global ∧
    0 ≤ section < zlen (mach_groups c).
Proof.
  intros (i & g & Hg & Hx)%symbols_from_inv. rewrite !Z.add_0_l in Hx.
  pose proof (lookup_lt_Some _ _ _ Hg) as Hi. apply list_elem_of_lookup_2 in Hg.
  unfold mach_groups in Hg. rewrite elem_of_app in Hg. destruct Hg as [Hg|Hg].
  - repeat (apply elem_of_cons in Hg as [->|Hg];
      [apply list_elem_of_fmap in Hx as (q & -> & _); do 4 eexists; split; [done|unfold zlen; lia]|]).
    by apply elem_of_nil in Hg.
  - apply list_elem_of_fmap in Hg as (d & -> & _).
    apply list_elem_of_fmap in Hx as (q & -> & _). do 4 eexists. split; [done|unfold zlen; lia].
Qed.

(** The symbol table of the file, found through its load command [st], holds
    exactly [syms]. *)
Definition symbol_table (a : Artifact) (bs : list byte) (st : SymtabCommand) (syms : list Nlist) : Prop :=
  let ctx := make_ctx (a_target a) in
  let hsize := mach_header_size (container ctx) in
  (∃ seg, slice hsize (segment_size ctx) bs = ser_segment seg ctx ∧
     slice (hsize + seg_cmdsize seg) 24 bs = ser_symtab_command st (le ctx)) ∧
  sc_nsyms st = zlen syms ∧
  ∀ k n, zget syms k = Some n →
    slice (sc_symoff st + k * nlist_size ctx) (nlist_size ctx) bs = ser_nlist n ctx.

Lemma emitted_symbol_table a cpu rs bs :
  mach_emitted a cpu rs bs →
  symbol_table a bs (image_symtab (make_ctx (a_target a)) (contents a)) (mach_nlists (contents a)).
Proof.
  intros Hem. destruct (mach_emitted_image _ _ _ _ Hem) as [-> _]. split; [|split].
  - exists (image_segment (make_ctx (a_target a)) (contents a)).
    split; apply slice_at; [apply segment_at | apply ser_segment_len | apply symtab_command_at |
                            apply ser_symtab_command_len].
  - unfold mach_nlists, zlen. by rewrite length_imap.
  - intros k n Hk. apply slice_at; [by apply nlist_at | apply ser_nlist_len].
Qed.

Definition nlist_undefined (n : Nlist) : bool := n_sect n =? NO_SECT.

Lemma nlists_undefined c :
  zlen (mach_groups c) ≤ 255 →
  Forall (fun n => 0 ≤ n_sect n < 256) (mach_nlists c) ∧
  ∃ off : nat, (∀ j p, c_imports c !! j = Some p →
      mach_symbols c !! (off + j)%nat = Some (p.1, Sym_Undefined)) ∧
    List.filter nlist_undefined (mach_nlists c) =
      imap (fun j p => SymbolBuilder_create (symbol_builder (mach_symbols c) (off + j) (p.1, Sym_Undefined)))
        (c_imports c).
Proof.
  intros Hlen. pose proof N_values as (E1 & E2 & E3 & E4). set (A := symbols_from 0 0 (mach_groups c)).
  set (f := fun i p => SymbolBuilder_create (symbol_builder (mach_symbols c) i p)).
  assert (mach_nlists c = imap f A ++
    imap (fun j p => f (length A + j)%nat (p.1, Sym_Undefined)) (c_imports c)) as Es.
  { unfold mach_nlists. fold f. unfold mach_symbols at 1. fold A. rewrite imap_app. f_equal.
    by rewrite imap_fmap. }
  assert (∀ n, n ∈ imap f A → 1 ≤ n_sect n < 256) as HA.
  { intros n (i & p & -> & Hi)%elem_of_lookup_imap. apply list_elem_of_lookup_2 in Hi.
    destruct (defined_symbol_section c p Hi) as (s & abs & rel & gl & Ep & Hs).
    unfold f, symbol_builder. rewrite Ep.
    destruct (defined_nlist (u64 (strx_pos (mach_symbols c).*1 i)) s abs rel gl) as (_ & _ & -> & _); lia. }
  assert (∀ n, n ∈ imap (fun j p => f (length A + j)%nat (p.1, Sym_Undefined)) (c_imports c) →
    n_sect n = NO_SECT) as HB.
  { by intros n (i & p & -> & _)%elem_of_lookup_imap. }
  split; [|exists (length A); split].
  - rewrite Es. apply Forall_app. split; apply Forall_forall; intros n Hn;
      [specialize (HA n Hn) | specialize (HB n Hn)]; lia.
  - intros j p Hj. unfold mach_symbols. fold A. rewrite lookup_app_r by lia.
    replace (length A + j - length A)%nat with j by lia. by rewrite list_lookup_fmap, Hj.
  - rewrite Es, List.filter_app, filter_none, filter_all; [done| |].
    + apply Forall_forall. intros n Hn. unfold nlist_undefined. by apply Z.eqb_eq, HB.
    + apply Forall_forall. intros n Hn. unfold nlist_undefined. apply Z.eqb_neq. specialize (HA n Hn). lia.
Qed.

(** C25: the undefined symbols are the imports.  In an object of at most 255
    sections, the entries of the file's symbol table that belong to no section
    are, in order, the imports: each has the name of its import after an
    underscore in the string table (for names without a zero byte), is
    external, and has value 0. *)
Theorem mach_undefined_are_imports (a : Artifact) (cpu : Z) (rs : list (Z * RelocationInfo))
  (bs : list byte)
  (Hem : mach_emitted a cpu rs bs)
  (Hsec : 4 + zlen (in_slot SCustom (c_defs (contents a))) ≤ 255)
  (Hnul : ∀ n k, (n, k) ∈ c_imports (contents a) → no_nul n) :
  ∃ st syms, symbol_table a bs st syms ∧ Forall (fun n => 0 ≤ n_sect n < 256) syms ∧
    let undefined := List.filter (fun n => n_sect n =? NO_SECT) syms in
    ((fun n => cstring_at (sc_stroff st + n_strx n) bs) <$> undefined) =
      (fun n => x5f :: bytes_of n) <$> (c_imports (contents a)).*1 ∧
    Forall (fun n => n_type n = N_EXT ∧ n_desc n = 0 ∧ n_value n = 0) undefined.
Proof.
  set (c := contents a) in *.
  destruct (nlists_undefined c) as (Hr & off & Hoff & Hf).
  { unfold mach_groups. rewrite zlen_app, zlen_fmap. exact Hsec. }
  exists (image_symtab (make_ctx (a_target a)) c), (mach_nlists c).
  split; [by eapply emitted_symbol_table|]. split; [done|]. cbv zeta.
  change (fun n => n_sect n =? NO_SECT) with nlist_undefined. rewrite Hf. split.
  - apply list_eq. intros j. rewrite !list_lookup_fmap, list_lookup_imap.
    destruct (c_imports c !! j) as [[n k]|] eqn:Ej; [|done]. cbn. f_equal.
    pose proof (Hnul n k (list_elem_of_lookup_2 _ _ _ Ej)) as Hn. apply Hoff in Ej.
    destruct (symbol_entry_of _ _ _ _ _ _ _ Hem Ej Hn) as [(_ & _ & Hs) _]. exact Hs.
  - apply Forall_forall. by intros n (j & p & -> & _)%elem_of_lookup_imap.
Qed.

(** ** Zero-initialised data *)

(** C30: zero-initialised definitions overlap.  Every zero-initialised
    definition gets a symbol in [__bss] whose value is the address of that
    section, and the header of [__bss] says that it has no bytes, however much
    room the client asked for; only the segment's size in memory accounts for
    it. *)
Theorem mach_zero_init_overlap (a : Artifact) (cpu : Z) (rs : list (Z * RelocationInfo))
  (bs : list byte) (d : Definition_)
  (Hem : mach_emitted a cpu rs bs)
  (Hd : d ∈ c_defs (contents a))
  (Hz : slot d = SBss)
  (Hnul : no_nul (d_name d)) :
  ∃ k n hd, symbol_entry a bs k n (d_name d) ∧ n_sect n = 4 ∧
    zget (image_headers (make_ctx (a_target a)) (contents a) rs) 3 = Some hd ∧
    ms_size hd = 0 ∧ n_value n = ms_addr hd.
Proof.
  destruct (placed_elem 0 (in_slot SBss (c_defs (contents a))) 0 d) as (p & Hp & <-);
    [by apply in_slot_elem|].
  destruct (placed_entry a cpu rs bs SBss p Hem ltac:(done) Hp Hnul)
    as (k & n & g & Hg & He & Hse & _ & Hv & _ & H0 & Hsz).
  assert (gr_size g = 0) as Eg.
  { injection Hg as <-. unfold gr_size. by rewrite bss_bytes. }
  pose proof (zlen_nonneg (def_data (pl_def p))).
  exists k, n, (section_header (make_ctx (a_target a)) (contents a) rs 3 g).
  split; [exact He|]. split; [exact Hse|].
  split; [rewrite (zget_nat _ 3); by apply image_headers_lookup|].
  cbn [section_header ms_size ms_addr]. split; [done|]. rewrite Hv. cbn [slot_index]. lia.
Qed.
End MachRelocs.

(** ** Alignment exponents *)

(** C31: the exponent of an alignment.  [align_to_align_exp] returns the
    logarithm of every power of two a [u64] can hold, after at most 64 rounds
    of its loop, and panics on every other number. *)
Theorem align_to_align_exp_spec (E : Type) (align : Z) (Ha : 0 ≤ align < 2 ^ 64) :
  (∃ e, 0 ≤ e < 64 ∧ align = 2 ^ e ∧ align_to_align_exp (E:=E) align = Ok e) ∨
  ((∀ e, 0 ≤ e → align ≠ 2 ^ e) ∧ ∃ msg, align_to_align_exp (E:=E) align = Panic msg).
Proof.
  destruct (is_power_of_two align) eqn:Ep.
  - left. apply is_power_of_two_spec in Ep as (e & He & ->). exists e.
    assert (e < 64) by (apply (Z.pow_lt_mono_r_iff 2); lia).
    split; [lia|]. split; [done|]. by apply align_to_align_exp_ok.
  - right. split.
    + intros e He ->. assert (is_power_of_two (2 ^ e) = true) by (apply is_power_of_two_spec; eauto).
      congruence.
    + unfold align_to_align_exp. rewrite Ep. destruct (negb (align =? 0)); cbn; eauto.
Qed.

(** ** The symbol table *)
Section SymbolTable.
Context {GM : GoblinMach} {SI : StringInterner} {IM : IndexMapOps}.
Context {SIL : StringInternerLaws SI} {IML : IndexMapLaws IM}.

(** The symbols a sequence of insertions leaves: the first of each name, the
    empty name excepted. *)
Definition first_wins (l : list (string * SymbolType)) (p : string * SymbolType) :
  list (string * SymbolType) :=
  if decide (p.1 ∈ "" :: l.*1) then l else l ++ [p].

Lemma insert_again l t n k : stab_repr l t → n ∈ "" :: l.*1 → stab_repr l (insert t n k).
Proof.
  intros [Es Hnd Esy Ein Esz] Hn. unfold insert.
  destruct (si_get_or_intern (stab_strtable t) n) as [t' id] eqn:Ei.
  apply get_or_intern_spec in Ei as [Et Hid]. unfold intern in Et.
  rewrite Es, decide_True in Et by done. rewrite Et in Hid.
  rewrite si_len_spec, Es. pose proof (zget_range _ _ _ Hid) as Hr.
  destruct (Z.eqb_spec id (zlen ("" :: l.*1))); [lia|]. by split.
Qed.

Lemma insert_first_wins l t p :
  stab_repr l t → zlen l < 2 ^ 64 → stab_repr (first_wins l p) (insert t p.1 p.2).
Proof.
  intros Hr Hl. unfold first_wins. destruct p as [n k]. cbn [fst snd].
  case_decide; [by apply insert_again | by apply insert_repr].
Qed.

Lemma first_wins_len ks : ∀ l, zlen l ≤ zlen (fold_left first_wins ks l) ≤ zlen l + zlen ks.
Proof.
  induction ks as [|k ks IH]; intros l; cbn [fold_left]; [change (zlen (@nil (string * SymbolType))) with 0; lia|].
  specialize (IH (first_wins l k)). rewrite zlen_cons.
  assert (zlen l ≤ zlen (first_wins l k) ≤ zlen l + 1).
  { unfold first_wins. case_decide; rewrite ?zlen_app; change (zlen [k]) with 1; lia. }
  lia.
Qed.

(** C32: the symbol table.  After any sequence of insertions the table holds
    the first symbol inserted under each non-empty name, in the order of those
    insertions: [index] is a symbol's position, [offset] its offset in its
    section, both are missing for other names, [len] is their number, and
    [sizeof_strtable] is the length of the string table that will be written. *)
Theorem symbol_table_spec (ks : list (string * SymbolType)) (Hlen : zlen ks < 2 ^ 64) :
  let t := fold_left (fun t p => insert t p.1 p.2) ks SymbolTable_new in
  let l := fold_left first_wins ks [] in
  SymbolTable_len t = zlen l ∧
  sizeof_strtable t = u64 (zlen (strtable_bytes l.*1)) ∧
  (∀ n, SymbolTable_index t n = index_of n l.*1) ∧
  (∀ n, SymbolTable_offset t n = kind_offset <$> al_get l n) ∧
  (∀ n, n ∈ l.*1 ↔ n ∈ ks.*1 ∧ n ≠ ""%string) ∧ NoDup l.*1.
Proof.
  intros t l.
  assert (∀ ks l t, stab_repr l t → zlen l + zlen ks < 2 ^ 64 →
    stab_repr (fold_left first_wins ks l) (fold_left (fun t p => insert t p.1 p.2) ks t)) as Hall.
  { clear t l Hlen ks. induction ks as [|k ks IH]; intros l t Hr Hl; [done|]. cbn [fold_left].
    rewrite zlen_cons in Hl. pose proof (zlen_nonneg ks). apply IH.
    - apply insert_first_wins; [done|lia].
    - pose proof (first_wins_len [k] l) as Hf. cbn [fold_left] in Hf.
      change (zlen [k]) with 1 in Hf. lia. }
  assert (stab_repr l t) as Hr by (by apply Hall; [apply stab_repr_new|]).
  split; [by apply stab_len|]. split; [unfold sizeof_strtable; by rewrite (sr_size _ _ Hr), strtable_bytes_len|].
  split; [intros n; by apply SymbolTable_index_full|].
  split; [intros n; by apply SymbolTable_offset_full|].
  pose proof (sr_nodup _ _ Hr) as Hnd. apply NoDup_cons in Hnd as [Hne Hnd]. split; [|done].
  intros n.
  assert (∀ ks l, n ≠ ""%string → n ∈ (fold_left first_wins ks l).*1 ↔ n ∈ l.*1 ∨ n ∈ ks.*1) as Hin.
  { clear. induction ks as [|[m k] ks IH]; intros l Hn; cbn [fold_left]; [set_solver|].
    rewrite IH by done. unfold first_wins. cbn [fst]. case_decide; [|rewrite fmap_app]; set_solver. }
  destruct (decide (n = ""%string)) as [->|Hn]; [tauto|].
  unfold l. rewrite Hin by done. set_solver.
Qed.
End SymbolTable.
