(* ===== verification/EmitTheorems.v ===== *)
(** * What emission guarantees

    [emit], [emit_as], [write] and [write_as]: when they refuse, what they
    return for each binary format, and what reaches the file. *)

From stdpp Require Import base numbers list gmap strings.
From Stdlib Require Import ZArith Lia Strings.Byte.
From S2P Require Import Prelude Std External Instances Decl Artifact ArtifactInv ArtifactSpec.
From S2P Require Import Contents Target Emit.
From S2P Require ElfBuild ElfObject ElfImage ElfTheorems.
From S2P Require MachBuild MachObject MachLink MachImage MachTheorems.

Section EmitTheorems.
Context {TL : TargetLexicon} {SI : StringInterner} {IM : IndexMapOps}.
Context {G : GoblinElf} {GM : GoblinMach} {SC : Scroll} {OS : OsFile} {P : Profile}.
Context {SIL : StringInternerLaws SI} {IML : IndexMapLaws IM} {GL : GoblinElfLaws G}.
Context {GML : GoblinMachLaws GM} {SCL : ScrollLaws SC}.
Implicit Types (a : Artifact).

(** The declared names that need a definition and have none. *)
Definition undefined_name a (n : string) : Prop :=
  ∃ id d, zget (si_strings (a_strings a)) id = Some n ∧
    al_get (im_iter (a_declarations a)) id = Some (mkInternalDecl (Defined d) false).

Lemma emit_as_complete a format :
  undefined_symbols (E:=ArtifactError) a = Ok [] →
  emit_as a format =
  match format with
  | BF_Elf => map_err Goblin (ElfWrite.to_bytes a)
  | BF_Macho => map_err Io (MachWrite.to_bytes a)
  | BF_other _ => Err (UnsupportedBinaryFormat (binary_format (a_target a)))
  end.
Proof. intros H. unfold emit_as. by rewrite H. Qed.

(** Emission refuses exactly the incomplete artifacts.  For an artifact a
    client can build, [emit_as] fails with [UndefinedSymbols] exactly when
    some declared definition is missing, whatever the format; the error then
    lists precisely the missing names. *)
Theorem emit_refuses_undefined (a : Artifact) (format : BinaryFormat) (Hreach : reachable a) :
  ((∃ l, emit_as a format = Err (UndefinedSymbols l)) ↔ ∃ n, undefined_name a n) ∧
  (∀ l, emit_as a format = Err (UndefinedSymbols l) → ∀ n, n ∈ l ↔ undefined_name a n).
Proof.
  pose proof (reachable_wf _ Hreach) as Hwf.
  destruct (undefined_symbols_ok (E:=ArtifactError) a Hwf) as (l & Hl & Hspec).
  destruct l as [|m l].
  - assert (∀ l', emit_as a format ≠ Err (UndefinedSymbols l')) as Hno.
    { intros l'. rewrite emit_as_complete by done.
      destruct format; [destruct (ElfWrite.to_bytes a)|destruct (MachWrite.to_bytes a)|]; done. }
    split.
    + split; [by intros [l' Hl']; apply Hno in Hl'|].
      intros [n Hn]. by apply Hspec, elem_of_nil in Hn.
    + intros l' Hl'. by apply Hno in Hl'.
  - assert (emit_as a format = Err (UndefinedSymbols (m :: l))) as He
      by (unfold emit_as; by rewrite Hl).
    split.
    + split; [intros _; exists m; apply Hspec; left | eauto].
    + intros l' Hl'. rewrite He in Hl'. injection Hl' as <-. exact Hspec.
Qed.

(** Emission for an ELF target.  [emit] of a complete artifact whose
    target has the ELF format returns the image of the artifact's ELF object,
    under the conditions of the ELF backend. *)
Theorem emit_elf_image (a : Artifact) (machine : Z)
  (Hreach : reachable a)
  (Hformat : binary_format (a_target a) = BF_Elf)
  (Hdef : undefined_symbols (E:=ArtifactError) a = Ok [])
  (Hready : ElfObject.elf_ready (make_ctx (a_target a)) (a_name a) (contents a))
  (Hmach : ElfBuild.MachineTag_from (E:=goblin_error) (architecture (a_target a)) = Ok machine) :
  ∃ g, ElfObject.abs_object (E:=goblin_error) (make_ctx (a_target a)) (contents a) = Ok g ∧
    (ElfTheorems.fits a g →
     emit a = Ok (ElfImage.elf_image (make_ctx (a_target a)) machine
                    (ElfTheorems.file_strings a g) (a_name a) g)).
Proof.
  destruct (ElfTheorems.to_bytes_image a machine Hreach Hdef Hready Hmach) as (g & Hg & _ & _ & Hb & _).
  exists g. split; [done|]. intros Hf. unfold emit. rewrite Hformat, emit_as_complete by done.
  by rewrite Hb.
Qed.

(** Emission for a Mach-O target.  [emit] of a complete artifact whose
    target has the Mach-O format returns the image of the artifact's Mach-O
    object, under the conditions of the Mach-O backend. *)
Theorem emit_macho_image (a : Artifact) (cpu : Z) (rs : list (Z * RelocationInfo))
  (Hreach : reachable a)
  (Hformat : binary_format (a_target a) = BF_Macho)
  (Hdef : undefined_symbols (E:=ArtifactError) a = Ok [])
  (Hready : MachImage.mach_ready (contents a))
  (Hcpu : MachBuild.CpuType_from (E:=io_error) (architecture (a_target a)) = Ok cpu)
  (Hrs : MachLink.mach_relocs (E:=io_error) (MachObject.mach_symbols (contents a))
           (MachImage.mach_keys (contents a)) (c_links (contents a)) = Ok rs)
  (Hfit : MachImage.mach_file_len (make_ctx (a_target a)) (contents a) rs < 2 ^ 32) :
  emit a = Ok (MachImage.mach_image (make_ctx (a_target a)) cpu (contents a) rs).
Proof.
  unfold emit. rewrite Hformat, emit_as_complete by done.
  by rewrite (MachTheorems.mach_bytes_image a cpu rs).
Qed.

(** Unsupported formats.  Asking for a format other than ELF and Mach-O
    fails, and the error names the format of the target, not the one that was
    asked for. *)
Theorem emit_unsupported_format (a : Artifact) (name : string)
  (Hdef : undefined_symbols (E:=ArtifactError) a = Ok []) :
  emit_as a (BF_other name) = Err (UnsupportedBinaryFormat (binary_format (a_target a))).
Proof. by rewrite emit_as_complete. Qed.

(** Only whole objects are written.  [write_as] hands the file all the
    bytes of the object in a single [write_all], whose error it reports; when
    the object cannot be emitted the file is left alone and the error is that
    of emission. *)
Theorem write_whole_object (a : Artifact) (sink : File) (format : BinaryFormat) :
  (∃ bs, emit_as a format = Ok bs ∧ (write_as a sink format).1 = (file_write_all sink bs).1 ∧
     (write_as a sink format).2 =
       match (file_write_all sink bs).2 with None => Ok tt | Some e => Err (Io e) end) ∨
  ((write_as a sink format).1 = sink ∧ ¬ (∃ bs, emit_as a format = Ok bs) ∧
   (write_as a sink format).2 = let! _ := emit_as a format in Ok tt).
Proof.
  unfold write_as. destruct (emit_as a format) as [bs|e|m].
  - left. exists bs. split; [done|]. by destruct (file_write_all sink bs) as [sink' [e|]].
  - right. split; [done|]. split; [by intros [? ?]|done].
  - right. split; [done|]. split; [by intros [? ?]|done].
Qed.

(** ** Every branch of [write_as] *)

(** [bs] is the file of the artifact's object in the given format, and the
    artifact meets what the backend of that format asks for. *)
Definition object_image (a : Artifact) (format : BinaryFormat) (bs : list byte) : Prop :=
  let ctx := make_ctx (a_target a) in
  match format with
  | BF_Elf => ∃ machine g,
      ElfBuild.MachineTag_from (E:=goblin_error) (architecture (a_target a)) = Ok machine ∧
      ElfObject.elf_ready ctx (a_name a) (contents a) ∧
      ElfObject.abs_object (E:=goblin_error) ctx (contents a) = Ok g ∧ ElfTheorems.fits a g ∧
      bs = ElfImage.elf_image ctx machine (ElfTheorems.file_strings a g) (a_name a) g
  | BF_Macho => ∃ cpu rs,
      MachBuild.CpuType_from (E:=io_error) (architecture (a_target a)) = Ok cpu ∧
      MachImage.mach_ready (contents a) ∧
      MachLink.mach_relocs (E:=io_error) (MachObject.mach_symbols (contents a))
        (MachImage.mach_keys (contents a)) (c_links (contents a)) = Ok rs ∧
      MachImage.mach_file_len ctx (contents a) rs < 2 ^ 32 ∧
      bs = MachImage.mach_image ctx cpu (contents a) rs
  | BF_other _ => False
  end.

Lemma emit_as_image a format bs :
  reachable a → undefined_symbols (E:=ArtifactError) a = Ok [] → object_image a format bs →
  emit_as a format = Ok bs.
Proof.
  intros Hreach Hdef Hi. rewrite emit_as_complete by done. destruct format as [| |name]; [| |done].
  - destruct Hi as (machine & g & Hm & Hready & Hg & Hfits & ->).
    destruct (ElfTheorems.to_bytes_image a machine Hreach Hdef Hready Hm) as (g' & Hg' & _ & _ & Hb & _).
    rewrite Hg in Hg'. injection Hg' as <-. by rewrite Hb.
  - destruct Hi as (cpu & rs & Hc & Hready & Hrs & Hlen & ->).
    by rewrite (MachTheorems.mach_bytes_image a cpu rs).
Qed.

(** C12: every branch of [write_as].  For an artifact a client can build: when
    nothing is undefined and the artifact meets what the backend of the format
    asks for, the file receives exactly the image of its object in one
    [write_all], whose error is reported as an [Io] error; a format other than
    ELF and Mach-O leaves the file alone and is reported with the format of
    the target; and when a declared definition is missing the file is left
    alone and the error lists precisely the missing names. *)
Theorem write_as_branches (a : Artifact) (sink : File) (format : BinaryFormat)
  (Hreach : reachable a) :
  (undefined_symbols (E:=ArtifactError) a = Ok [] →
   (∀ bs, object_image a format bs →
      write_as a sink format =
        ((file_write_all sink bs).1,
         match (file_write_all sink bs).2 with None => Ok tt | Some e => Err (Io e) end)) ∧
   (∀ name, format = BF_other name →
      write_as a sink format = (sink, Err (UnsupportedBinaryFormat (binary_format (a_target a)))))) ∧
  ((∃ n, undefined_name a n) →
   ∃ l, write_as a sink format = (sink, Err (UndefinedSymbols l)) ∧
     ∀ n, n ∈ l ↔ undefined_name a n).
Proof.
  unfold write_as. split; [intros Hdef; split|].
  - intros bs Hi. rewrite (emit_as_image a format bs Hreach Hdef Hi).
    by destruct (file_write_all sink bs) as [sink' [e|]].
  - intros name ->. by rewrite emit_as_complete.
  - intros [n Hn]. pose proof (reachable_wf _ Hreach) as Hwf.
    destruct (undefined_symbols_ok (E:=ArtifactError) a Hwf) as (l & Hl & Hspec).
    exists l. split; [|exact Hspec]. unfold emit_as. rewrite Hl.
    destruct l; [by apply Hspec, elem_of_nil in Hn | done].
Qed.
End EmitTheorems.
