(* ===== verification/EmitOrder.v ===== *)
(** * Emission and the order of the calls

    The backends read an artifact through its iterators, its name and its
    target, so emission respects [artifact_equiv]; with the reordering of
    [ArtifactOrder.v], the bytes emitted do not depend on how a client
    interleaves declarations, definitions and links, nor on the order of the
    definitions. *)

From stdpp Require Import base numbers list gmap strings.
From Stdlib Require Import ZArith Lia Strings.Byte.
From S2P Require Import Prelude Std External Instances Decl Artifact ArtifactInv ArtifactSpec.
From S2P Require Import ArtifactOrder Target Emit.
From S2P Require ElfState ElfWrite MachState MachWrite.

Lemma omapM_ext {E A B} (f g : A → outcome E B) l : (∀ x, f x = g x) → omapM f l = omapM g l.
Proof. intros Hfg. induction l as [|x l IH]; cbn; [done|]. by rewrite Hfg, IH. Qed.

Section EmitOrder.
Context {TL : TargetLexicon} {SI : StringInterner} {IM : IndexMapOps}.
Context {G : GoblinElf} {GM : GoblinMach} {SC : Scroll} {OS : OsFile} {P : Profile}.
Context {SIL : StringInternerLaws SI} {IML : IndexMapLaws IM}.
Implicit Types (a : Artifact).

#[local] Instance a_name_proper : Proper (artifact_equiv ==> eq) a_name.
Proof. intros a b [[=] _]. done. Qed.
#[local] Instance a_target_proper : Proper (artifact_equiv ==> eq) a_target.
Proof. intros a b [[=] _]. done. Qed.

Lemma equiv_containers a b :
  artifact_equiv a b →
  (∀ i, si_resolve (a_strings a) i = si_resolve (a_strings b) i) ∧
  im_iter (a_declarations a) = im_iter (a_declarations b) ∧ a_imports a = a_imports b ∧
  a_links a = a_links b ∧ a_local_definitions a = a_local_definitions b ∧
  a_nonlocal_definitions a = a_nonlocal_definitions b.
Proof.
  intros [_ Hv]. split; [|by injection Hv].
  intros i. rewrite !si_resolve_spec. by injection Hv as -> _.
Qed.

#[local] Instance imports_proper {E} : Proper (artifact_equiv ==> eq) (imports (E:=E)).
Proof.
  intros a b (Hr & _ & Hi & _)%equiv_containers. unfold imports. rewrite Hi.
  apply list_fmap_ext. intros _ [id k] _. by rewrite Hr.
Qed.

#[local] Instance definitions_proper {E} : Proper (artifact_equiv ==> eq) (definitions (E:=E)).
Proof.
  intros a b (Hr & _ & _ & _ & Hl & Hn)%equiv_containers. unfold definitions. rewrite Hl, Hn.
  apply list_fmap_ext. intros _ d _. unfold Definition_from. by rewrite Hr.
Qed.

#[local] Instance links_proper {E} : Proper (artifact_equiv ==> eq) (links (E:=E)).
Proof.
  intros a b (Hr & Hd & _ & Hl & _)%equiv_containers. unfold links. rewrite Hl.
  apply list_fmap_ext. intros _ [[[from to] at_] r] _.
  unfold resolve_link. by rewrite !im_get_spec, Hd, !Hr.
Qed.

#[local] Instance undefined_symbols_proper {E} :
  Proper (artifact_equiv ==> eq) (undefined_symbols (E:=E)).
Proof.
  intros a b (Hr & Hd & _)%equiv_containers. unfold undefined_symbols. rewrite Hd.
  apply omapM_ext. intros [n d]. by rewrite Hr.
Qed.

#[local] Instance elf_bytes_proper : Proper (artifact_equiv ==> eq) ElfWrite.to_bytes.
Proof.
  intros a b Hab. unfold ElfWrite.to_bytes, ElfWrite.build, ElfState.Elf_new.
  by rewrite (definitions_proper _ _ Hab), (imports_proper _ _ Hab), (links_proper _ _ Hab),
    (a_name_proper _ _ Hab), (a_target_proper _ _ Hab).
Qed.

#[local] Instance mach_bytes_proper : Proper (artifact_equiv ==> eq) MachWrite.to_bytes.
Proof.
  intros a b Hab. unfold MachWrite.to_bytes, MachState.Mach_new, MachState.SegmentBuilder_new,
    MachState.build_relocations.
  by rewrite (definitions_proper _ _ Hab), (imports_proper _ _ Hab), (links_proper _ _ Hab),
    (a_target_proper _ _ Hab).
Qed.

#[local] Instance emit_as_proper : Proper (artifact_equiv ==> eq ==> eq) emit_as.
Proof.
  intros a b Hab f ? <-. unfold emit_as.
  by rewrite (undefined_symbols_proper _ _ Hab), (elf_bytes_proper _ _ Hab),
    (mach_bytes_proper _ _ Hab), (a_target_proper _ _ Hab).
Qed.

(** C36: the object does not depend on the order of the calls.  Let a client's
    calls on an artifact all succeed.  Then they also succeed with all the
    declarations first, then the definitions in any order, then the links; and
    every successful interleaving of the same declarations, the same links and
    any permutation of the definitions emits the same bytes, or the same
    error, for every format. *)
Theorem emission_order_independent (a a1 : Artifact) (os : list op)
  (Hreach : reachable a) (Hok : chain exec os a = (a1, Ok tt)) :
  (∀ defs, defs ≡ₚ define_calls os →
     ∃ a2, chain do_step (declare_calls os ++ defs ++ link_calls os) a = (a2, Ok tt) ∧
       ∀ format, emit_as a2 format = emit_as a1 format) ∧
  (∀ os' a2, chain exec os' a = (a2, Ok tt) →
     declare_calls os' = declare_calls os → define_calls os' ≡ₚ define_calls os →
     link_calls os' = link_calls os →
     ∀ format, emit_as a2 format = emit_as a1 format).
Proof.
  pose proof (reachable_wf _ Hreach) as Hwf. split.
  - intros defs Hdefs. destruct (chain_reorder os a a1 defs Hwf Hok Hdefs) as (a2 & H2 & Heq).
    exists a2. split; [done|]. intros format. by rewrite Heq.
  - intros os' a2 H2 Hd Hdef Hl format.
    destruct (chain_reorder os a a1 (define_calls os') Hwf Hok Hdef) as (b1 & Hb1 & E1).
    destruct (chain_reorder os' a a2 (define_calls os') Hwf H2) as (b2 & Hb2 & E2); [done|].
    rewrite Hd, Hl, Hb1 in Hb2. injection Hb2 as ->. by rewrite E1, E2.
Qed.
End EmitOrder.

Lemma is_ok_pair {S E} (r : S * outcome E unit) : is_ok r.2 = true → r = (r.1, Ok tt).
Proof. by destruct r as [s [[]|e|m]]. Qed.

(** ** Two ways to build the same program *)
Section OrderWitness.
Import ConcreteInstances.
#[local] Instance order_demo_profile : Profile := true.

Definition order_demo : Artifact := Artifact_new (x86_64_elf : Triple) "order.o".

(** Each symbol is defined where it is declared. *)
Definition order_calls : list op :=
  [ ODeclareWith "main" (Defined (DD_Function (global function))) [xe8; x00; x00; x00; x00; xc3];
    OImport "puts" IK_Function;
    OLink (mkLink "main" "puts" 1);
    ODeclareWith "helper" (Defined (DD_Function function)) [xc3];
    ODeclareWith "tab" (Defined (DD_Data data)) [x01; x02; x03; x04; x05; x06; x07; x08];
    OLink (mkLink "tab" "helper" 0) ].

(** Everything is declared, then linked, then defined from the last to the first. *)
Definition order_calls' : list op :=
  [ ODeclarations
      [ ("main"%string, Defined (DD_Function (global function))); ("puts"%string, Import IK_Function);
        ("helper"%string, Defined (DD_Function function)); ("tab"%string, Defined (DD_Data data)) ];
    OLink (mkLink "main" "puts" 1);
    OLinkWith (mkLink "tab" "helper" 0) Auto;
    ODefine "tab" [x01; x02; x03; x04; x05; x06; x07; x08];
    ODefineWithSymbols "helper" (Blob [xc3]) [];
    ODefine "main" [xe8; x00; x00; x00; x00; xc3] ].

Lemma emission_order_independent_witness :
  is_ok (chain exec order_calls order_demo).2 = true ∧
  is_ok (Emit.emit_as (chain exec order_calls order_demo).1 BF_Elf) = true ∧
  Emit.emit_as (chain exec order_calls' order_demo).1 BF_Elf =
  Emit.emit_as (chain exec order_calls order_demo).1 BF_Elf.
Proof.
  split; [by vm_compute|]. split; [by vm_compute|].
  destruct (emission_order_independent order_demo (chain exec order_calls order_demo).1 order_calls)
    as [_ H].
  - apply reach_new.
  - apply is_ok_pair. by vm_compute.
  - apply (H order_calls' (chain exec order_calls' order_demo).1).
    + apply is_ok_pair. by vm_compute.
    + by vm_compute.
    + assert (define_calls order_calls' = rev (define_calls order_calls)) as -> by by vm_compute.
      symmetry. apply Permutation_rev.
    + by vm_compute.
Defined.
End OrderWitness.
