(* ===== verification/MachWitnesses.v ===== *)
(** * A program emitted as Mach-O

    An example artifact with every kind of definition, and the theorems about
    the Mach-O backend and emission applied to it. *)

From stdpp Require Import base numbers list gmap strings.
From Stdlib Require Import ZArith Lia Strings.Byte.
From S2P Require Import Prelude Std Bytes External Instances Decl Artifact ArtifactInv ArtifactSpec.
From S2P Require Import Contents Target MachBuild MachState MachWrite MachSymtab MachPlace.
From S2P Require Import MachObject MachLink MachImage MachFile MachRead MachTheorems MachRelocs.
From S2P Require Emit ElfTheorems EmitTheorems.

Section Witnesses.
Import ConcreteInstances.
#[local] Instance mach_demo_profile : Profile := true.

Definition main_decl : FunctionDecl :=
  match with_align (E:=unit) (Some 32) (global function) with Ok d => d | _ => function end.

(** Functions, byte data, a string, zero-initialised data, a debug section
    with a symbol, an import, and links between them. *)
Definition mach_demo_ops : list op :=
  [ ODeclare "main" (Defined (DD_Function main_decl));
    ODeclare "helper" (Defined (DD_Function function));
    ODeclare "tab" (Defined (DD_Data data));
    ODeclare "msg" (Defined (DD_Data cstring));
    ODeclare "buf" (Defined (DD_Data (writable data)));
    ODeclare ".debug_info" (Defined (DD_Section (SectionDecl_new SK_Debug)));
    ODeclare "puts" (Import IK_Function);
    ODefine "main" [x55; xc3];
    ODefine "helper" [xc3];
    ODefine "tab" [x01; x02; x03; x04];
    ODefine "msg" [x68; x69; x00];
    ODefineZeroInit "buf" 4096;
    ODefineWithSymbols ".debug_info" (Blob [x11; x22; x33]) [("dbg"%string, 1)];
    OLink (mkLink "main" "helper" 1);
    OLink (mkLink "main" "puts" 1);
    OLink (mkLink "helper" "msg" 0);
    OLink (mkLink "tab" "main" 0);
    OLinkWith (mkLink ".debug_info" "main" 2) (Debug 8 0) ].

Definition mach_demo : Artifact :=
  (run exec mach_demo_ops
     (finish (ArtifactBuilder_name (ArtifactBuilder_new (x86_64_macho : Triple)) "test.o"))).1.

Definition mach_demo_relocs : list (Z * RelocationInfo) :=
  match mach_relocs (E:=io_error) (mach_symbols (contents mach_demo)) (mach_keys (contents mach_demo))
    (c_links (contents mach_demo)) with Ok rs => rs | _ => [] end.

Lemma mach_demo_calls_succeed :
  forallb is_ok (run exec mach_demo_ops
     (finish (ArtifactBuilder_name (ArtifactBuilder_new (x86_64_macho : Triple)) "test.o"))).2 = true.
Proof. vm_compute. reflexivity. Qed.

Lemma mach_demo_reachable : reachable mach_demo.
Proof. apply run_reachable, reach_finish. Qed.

(** The definitions and links of the example. *)
Definition demo_definition (n : string) (b : list byte) (d : DefinedDecl) : Definition_ :=
  mkDefinition n (Blob b) [] d.
Definition demo_debug : Definition_ :=
  mkDefinition ".debug_info" (Blob [x11; x22; x33]) [("dbg"%string, 1)]
    (DD_Section (SectionDecl_new SK_Debug)).
Definition demo_helper : Definition_ := demo_definition "helper" [xc3] (DD_Function function).
Definition demo_main : Definition_ := demo_definition "main" [x55; xc3] (DD_Function main_decl).
Definition demo_tab : Definition_ := demo_definition "tab" [x01; x02; x03; x04] (DD_Data data).
Definition demo_msg : Definition_ := demo_definition "msg" [x68; x69; x00] (DD_Data cstring).
Definition demo_buf : Definition_ :=
  mkDefinition "buf" (ZeroInit 4096) [] (DD_Data (writable data)).

Lemma mach_demo_defs :
  c_defs (contents mach_demo) = [demo_helper; demo_tab; demo_msg; demo_buf; demo_debug; demo_main].
Proof. vm_compute. reflexivity. Qed.

Lemma mach_demo_ready : mach_ready (contents mach_demo).
Proof.
  split.
  - rewrite mach_demo_defs. apply Forall_forall.
    repeat (constructor; [first [by exists 0 | by exists 5]|]). constructor.
  - rewrite mach_demo_defs. apply Forall_forall. vm_compute in_slot.
    constructor; [|constructor]. split; [apply (bool_decide_unpack _); by vm_compute | by vm_compute].
  - apply (bool_decide_unpack _). by vm_compute.
Qed.

Lemma mach_demo_defined : undefined_symbols (E:=ArtifactError) mach_demo = Ok [].
Proof.
  assert (match undefined_symbols (E:=ArtifactError) mach_demo with Ok [] => true | _ => false end =
    true) as H by (vm_compute; reflexivity).
  by destruct (undefined_symbols _) as [[|]| |].
Qed.

Lemma mach_demo_relocs_ok :
  mach_relocs (E:=io_error) (mach_symbols (contents mach_demo)) (mach_keys (contents mach_demo))
    (c_links (contents mach_demo)) = Ok mach_demo_relocs.
Proof.
  unfold mach_demo_relocs.
  assert (is_ok (mach_relocs (E:=io_error) (mach_symbols (contents mach_demo))
    (mach_keys (contents mach_demo)) (c_links (contents mach_demo))) = true) as H by (by vm_compute).
  by destruct (mach_relocs _ _ _).
Qed.

Definition mach_demo_bytes : list byte :=
  mach_image (make_ctx (a_target mach_demo)) 16777223 (contents mach_demo) mach_demo_relocs.

Lemma mach_to_bytes_image_witness : to_bytes mach_demo = Ok mach_demo_bytes.
Proof.
  apply (mach_to_bytes_image mach_demo 16777223 mach_demo_relocs).
  - exact mach_demo_reachable.
  - exact mach_demo_defined.
  - exact mach_demo_ready.
  - by vm_compute.
  - exact mach_demo_relocs_ok.
  - by vm_compute.
Defined.

(** The example is emitted. *)
Lemma mach_demo_emitted : mach_emitted mach_demo 16777223 mach_demo_relocs mach_demo_bytes.
Proof.
  pose proof mach_demo_defined as Hu.
  assert (CpuType_from (E:=io_error) (architecture (a_target mach_demo)) = Ok 16777223) as Hc
    by (by vm_compute).
  assert (mach_file_len (make_ctx (a_target mach_demo)) (contents mach_demo) mach_demo_relocs < 2 ^ 32)
    as Hf by (by vm_compute).
  split; [exact mach_demo_reachable | exact Hu | exact mach_demo_ready | exact Hc |
    exact mach_demo_relocs_ok | exact Hf |].
  exact (mach_bytes_image mach_demo 16777223 mach_demo_relocs mach_demo_reachable Hu mach_demo_ready Hc
    mach_demo_relocs_ok Hf).
Qed.

Lemma mach_load_commands_witness :
  slice 0 32 mach_demo_bytes =
    ser_mach_header (image_header (make_ctx (a_target mach_demo)) 16777223 (contents mach_demo))
      (make_ctx (a_target mach_demo)) ∧
  seg_nsects (image_segment (make_ctx (a_target mach_demo)) (contents mach_demo)) =
    zlen (image_headers (make_ctx (a_target mach_demo)) (contents mach_demo) mach_demo_relocs).
Proof.
  destruct (mach_load_commands _ _ _ _ mach_demo_emitted) as (H1 & _ & _ & _ & _ & _ & H2 & _).
  split; [exact H1 | exact H2].
Defined.

(** The example's definitions are where they are. *)
Lemma demo_elem d :
  d ∈ [demo_helper; demo_tab; demo_msg; demo_buf; demo_debug; demo_main] →
  d ∈ c_defs (contents mach_demo).
Proof. by rewrite mach_demo_defs. Qed.

Lemma demo_slot s : in_slot s (c_defs (contents mach_demo)) =
  in_slot s [demo_helper; demo_tab; demo_msg; demo_buf; demo_debug; demo_main].
Proof. by rewrite mach_demo_defs. Qed.

Lemma mach_definition_symbol_witness :
  ∃ k n, symbol_entry mach_demo mach_demo_bytes k n "main" ∧ n_sect n = 1 ∧ n_type n = 15.
Proof.
  destruct (mach_definition_symbol _ _ _ _ demo_main mach_demo_emitted)
    as (k & n & hd & He & Hs & Ht & _).
  - apply demo_elem. do 5 right. left.
  - discriminate.
  - apply (bool_decide_unpack _). reflexivity.
  - exists k, n. split; [exact He|]. split; [exact Hs | exact Ht].
Defined.

Lemma mach_definition_aligned_witness :
  ∃ k n hd, symbol_entry mach_demo mach_demo_bytes k n "main" ∧
    (n_value n - ms_addr hd) mod 32 = 0 ∧ (32 | 2 ^ ms_align hd).
Proof.
  destruct (mach_definition_aligned _ _ _ _ demo_main 0 mach_demo_emitted)
    as (k & n & hd & He & _ & Hm & Hd).
  - rewrite demo_slot. reflexivity.
  - discriminate.
  - apply (bool_decide_unpack _). reflexivity.
  - exists k, n, hd. split; [exact He|]. split; [exact Hm | exact Hd].
Defined.

Lemma mach_first_alignment_ignored_witness :
  ∃ hd, section_entry mach_demo mach_demo_bytes 1 hd ∧ ms_align hd = 3.
Proof.
  destruct (mach_first_alignment_ignored _ _ _ _ demo_tab mach_demo_emitted) as (hd & Hh & Ha).
  - rewrite demo_slot. reflexivity.
  - discriminate.
  - exists hd. split; [exact Hh | exact Ha].
Defined.

Lemma mach_demo_imports : c_imports (contents mach_demo) = [("puts"%string, IK_Function)].
Proof. vm_compute. reflexivity. Qed.

Lemma mach_import_symbol_witness :
  ∃ k n, symbol_entry mach_demo mach_demo_bytes k n "puts" ∧ n_type n = 1 ∧ n_sect n = 0.
Proof.
  destruct (mach_import_symbol _ _ _ _ "puts" IK_Function mach_demo_emitted) as (k & n & He & Ht & Hs & _).
  - rewrite mach_demo_imports. left.
  - apply (bool_decide_unpack _). reflexivity.
  - exists k, n. split; [exact He|]. split; [exact Ht | exact Hs].
Defined.

Lemma mach_undefined_are_imports_witness :
  ∃ st syms, symbol_table mach_demo mach_demo_bytes st syms ∧
    ((fun n => cstring_at (sc_stroff st + n_strx n) mach_demo_bytes) <$>
       List.filter (fun n => n_sect n =? NO_SECT) syms) = [[x5f; x70; x75; x74; x73]].
Proof.
  destruct (mach_undefined_are_imports _ _ _ _ mach_demo_emitted) as (st & syms & Ht & _ & Hn & _).
  - by vm_compute.
  - rewrite mach_demo_imports. intros n k Hin. apply list_elem_of_singleton in Hin as [= -> ->].
    apply (bool_decide_unpack _). reflexivity.
  - exists st, syms. split; [exact Ht|]. rewrite Hn, mach_demo_imports. by vm_compute.
Defined.


Lemma mach_relocation_fields_witness :
  ∃ r, RelocationBuilder_create (E:=unit) (mkRelocationBuilder 6 33 false 0 2) = Ok r ∧
    r_symbolnum r = 6 ∧ r_type r = 2.
Proof.
  destruct (mach_relocation_fields unit (mkRelocationBuilder 6 33 false 0 2))
    as (r & Hr & _ & Hs & _ & _ & _ & Ht & _); [cbn; lia | cbn; lia |].
  exists r. split; [exact Hr|]. split; [exact Hs | exact Ht].
Defined.

Lemma mach_relocation_table_witness :
  ∃ hd, ms_nreloc hd = zlen (link_relocs (contents mach_demo) 0).
Proof.
  destruct (zget_in_range (image_headers (make_ctx (a_target mach_demo)) (contents mach_demo)
    mach_demo_relocs) 0) as [hd Hhd]; [by vm_compute|].
  destruct (mach_relocation_table _ _ _ _ 0 hd mach_demo_emitted Hhd) as [H _].
  exists hd. exact H.
Defined.

Definition mach_demo_link : LinkAndDecl :=
  mkLinkAndDecl (mkBinding "main" (Defined (DD_Function main_decl)))
    (mkBinding "puts" (Import IK_Function)) 1 Auto.

Lemma mach_demo_link_in : mach_demo_link ∈ c_links (contents mach_demo).
Proof.
  let l := eval vm_compute in (c_links (contents mach_demo)) in
    replace (c_links (contents mach_demo)) with l by (vm_compute; reflexivity).
  right. left.
Qed.

Lemma mach_link_relocation_witness :
  ∃ ht q r, section_entry mach_demo mach_demo_bytes 0 ht ∧
    relocation_entry mach_demo mach_demo_bytes ht q r ∧
    r_type r = 2 ∧ r_pcrel r = 1 ∧ r_length r = 2.
Proof.
  destruct (mach_link_relocation _ _ _ _ mach_demo_link false 2 mach_demo_emitted)
    as (ht & q & r & kf & nf & hf & kt & nt & d & Hs & Hin & _ & _ & _ & _ & _ & Hp & Hl & _ & Ht & _).
  - exact mach_demo_link_in.
  - reflexivity.
  - lia.
  - reflexivity.
  - reflexivity.
  - by vm_compute.
  - split; apply (bool_decide_unpack _); reflexivity.
  - exists ht, q, r. split; [exact Hs|]. split; [exact Hin|]. split; [exact Ht|].
    split; [exact Hp | exact Hl].
Defined.

Lemma mach_zero_init_overlap_witness :
  ∃ k n hd, symbol_entry mach_demo mach_demo_bytes k n "buf" ∧ ms_size hd = 0 ∧
    n_value n = ms_addr hd.
Proof.
  destruct (mach_zero_init_overlap _ _ _ _ demo_buf mach_demo_emitted)
    as (k & n & hd & He & _ & _ & Hz & Hv).
  - apply demo_elem. do 3 right. left.
  - reflexivity.
  - apply (bool_decide_unpack _). reflexivity.
  - exists k, n, hd. split; [exact He|]. split; [exact Hz | exact Hv].
Defined.

Lemma align_to_align_exp_spec_witness :
  (∃ e, 0 ≤ e < 64 ∧ 4096 = 2 ^ e ∧ align_to_align_exp (E:=unit) 4096 = Ok e) ∨
  ((∀ e, 0 ≤ e → 4096 ≠ 2 ^ e) ∧ ∃ msg, align_to_align_exp (E:=unit) 4096 = Panic msg).
Proof. exact (align_to_align_exp_spec unit 4096 ltac:(lia)). Defined.

Lemma symbol_table_spec_witness :
  let ks := [("a"%string, Sym_Defined 0 0 0 true); (""%string, Sym_Undefined); ("b"%string, Sym_Undefined);
             ("a"%string, Sym_Undefined)] in
  SymbolTable_len (fold_left (fun t p => insert t p.1 p.2) ks SymbolTable_new) = 2.
Proof.
  destruct (symbol_table_spec [("a"%string, Sym_Defined 0 0 0 true); (""%string, Sym_Undefined);
    ("b"%string, Sym_Undefined); ("a"%string, Sym_Undefined)] ltac:(by vm_compute)) as [H _].
  exact H.
Defined.

(** ** Emission *)
(** A function is declared and never defined. *)
Definition incomplete_demo : Artifact :=
  (run exec [ODeclare "f" (Defined (DD_Function function))]
     (finish (ArtifactBuilder_name (ArtifactBuilder_new (x86_64_macho : Triple)) "test.o"))).1.

Lemma emit_refuses_undefined_witness :
  ∃ l, Emit.emit_as incomplete_demo BF_Macho = Err (UndefinedSymbols l).
Proof.
  destruct (EmitTheorems.emit_refuses_undefined incomplete_demo BF_Macho) as [[_ H] _].
  - apply run_reachable, reach_finish.
  - apply H. exists "f"%string, 0, (DD_Function function). split; vm_compute; reflexivity.
Defined.

Lemma emit_elf_image_witness : Emit.emit ElfTheorems.elf_demo = Ok ElfTheorems.elf_demo_bytes.
Proof.
  destruct (EmitTheorems.emit_elf_image ElfTheorems.elf_demo 62) as (g & Hg & Hb).
  - exact ElfTheorems.elf_demo_reachable.
  - reflexivity.
  - reflexivity.
  - exact ElfTheorems.elf_demo_ready.
  - reflexivity.
  - assert (g = ElfTheorems.elf_demo_object) as -> by (unfold ElfTheorems.elf_demo_object; by rewrite Hg).
    apply Hb, ElfTheorems.elf_demo_fits.
Defined.

Lemma emit_macho_image_witness : Emit.emit mach_demo = Ok mach_demo_bytes.
Proof.
  apply (EmitTheorems.emit_macho_image mach_demo 16777223 mach_demo_relocs).
  - exact mach_demo_reachable.
  - reflexivity.
  - exact mach_demo_defined.
  - exact mach_demo_ready.
  - by vm_compute.
  - exact mach_demo_relocs_ok.
  - by vm_compute.
Defined.

Lemma emit_unsupported_format_witness :
  Emit.emit_as mach_demo (BF_other "coff") = Err (UnsupportedBinaryFormat BF_Macho).
Proof. exact (EmitTheorems.emit_unsupported_format mach_demo "coff" mach_demo_defined). Defined.

Lemma mach_demo_image : EmitTheorems.object_image mach_demo BF_Macho mach_demo_bytes.
Proof.
  exists 16777223, mach_demo_relocs. split; [by vm_compute|]. split; [exact mach_demo_ready|].
  split; [exact mach_demo_relocs_ok|]. split; [by vm_compute | done].
Qed.

Definition empty_file : @File mem_file := @nil byte.

Lemma write_as_branches_witness :
  Emit.write_as mach_demo empty_file BF_Macho = ((mach_demo_bytes : @File mem_file), Ok tt) ∧
  Emit.write_as mach_demo empty_file (BF_other "coff") =
    (empty_file, Err (UnsupportedBinaryFormat BF_Macho)).
Proof.
  split.
  - destruct (EmitTheorems.write_as_branches mach_demo empty_file BF_Macho mach_demo_reachable) as [H _].
    destruct (H mach_demo_defined) as [Hi _]. exact (Hi _ mach_demo_image).
  - destruct (EmitTheorems.write_as_branches mach_demo empty_file (BF_other "coff") mach_demo_reachable)
      as [H _].
    destruct (H mach_demo_defined) as [_ Hu]. exact (Hu "coff"%string eq_refl).
Defined.
End Witnesses.
