(* ===== verification/EmitChecked.v ===== *)
(** * Emission under any setting of the overflow checks

    [emit_as] and [write_as] ([src/artifact.rs]) over the backends of
    [ElfChecked.v] and [MachChecked.v], and what a client may rely on in a
    development build, whose arithmetic is checked, and in a release build,
    whose arithmetic wraps. *)

From stdpp Require Import base numbers list gmap strings.
From Stdlib Require Import ZArith Lia Strings.Byte.
From S2P Require Import Prelude Std Overflow External Instances Decl Artifact ArtifactInv ArtifactSpec.
From S2P Require Import Contents Target Emit.
From S2P Require ElfTheorems ElfChecked ElfOverflow MachState MachObject MachImage MachTheorems.
From S2P Require MachChecked MachOverflow EmitTheorems MachWitnesses.

Section Emission.
Context {TL : TargetLexicon} {SI : StringInterner} {IM : IndexMapOps}.
Context {G : GoblinElf} {GM : GoblinMach} {SC : Scroll} {OS : OsFile} {P : Profile}.
Context {OC : OverflowChecks}.
Implicit Types (a : Artifact).

Definition emit_as_ck a (format : BinaryFormat) : outcome ArtifactError (list byte) :=
  let! undef := undefined_symbols a in
  match undef with
  | [] =>
      match format with
      | BF_Elf => map_err Goblin (ElfChecked.elf_to_bytes_ck a)
      | BF_Macho => map_err Io (MachChecked.mach_to_bytes_ck a)
      | BF_other _ => Err (UnsupportedBinaryFormat (binary_format (a_target a)))
      end
  | _ => Err (UndefinedSymbols undef)
  end.

Definition write_as_ck a (sink : File) (format : BinaryFormat) :
  File * outcome ArtifactError unit :=
  match emit_as_ck a format with
  | Ok bytes =>
      match file_write_all sink bytes with
      | (sink, None) => (sink, Ok tt)
      | (sink, Some e) => (sink, Err (Io e))
      end
  | Err e => (sink, Err e)
  | Panic m => (sink, Panic m)
  end.

End Emission.

Section EmitFollows.
Context {TL : TargetLexicon} {SI : StringInterner} {IM : IndexMapOps}.
Context {G : GoblinElf} {GM : GoblinMach} {SC : Scroll} {OS : OsFile} {P : Profile}.

Lemma map_err_follows {E E' A} (f : E → E') (F : OverflowChecks → outcome E A) y :
  follows F y → follows (fun OC => map_err f (F OC)) (map_err f y).
Proof.
  intros (os & Hos & HF). exists os. split; [done|]. intros OC. rewrite HF. unfold trapped.
  by destruct (first_checked os).
Qed.

Lemma emit_as_follows (a : Artifact) format :
  follows (fun OC => emit_as_ck a format) (emit_as a format).
Proof.
  unfold emit_as_ck, emit_as. apply follows_bind; [apply follows_same|].
  intros [|n l]; [|apply follows_same].
  destruct format; [apply map_err_follows, ElfChecked.elf_to_bytes_follows
    | apply map_err_follows, MachChecked.mach_to_bytes_follows | apply follows_same].
Qed.

End EmitFollows.

Section CheckedEmission.
Context {TL : TargetLexicon} {SI : StringInterner} {IM : IndexMapOps}.
Context {G : GoblinElf} {GM : GoblinMach} {SC : Scroll} {OS : OsFile} {P : Profile}.
Context {OC : OverflowChecks}.
Implicit Types (a : Artifact).
Context {SIL : StringInternerLaws SI} {IML : IndexMapLaws IM} {GL : GoblinElfLaws G}.
Context {GML : GoblinMachLaws GM} {SCL : ScrollLaws SC}.

Lemma emit_as_fits a format bs :
  reachable a → undefined_symbols (E:=ArtifactError) a = Ok [] →
  EmitTheorems.object_image a format bs →
  (format = BF_Macho → MachOverflow.mach_sums_fit (contents a)) →
  emit_as_ck a format = Ok bs.
Proof.
  intros Hreach Hdef Hi Hs. pose proof (EmitTheorems.emit_as_image a format bs Hreach Hdef Hi) as He.
  rewrite <- He. unfold emit_as_ck, emit_as. rewrite Hdef. cbn [obind].
  destruct format as [| |name]; [| |done].
  - destruct Hi as (machine & g & Hm & Hready & Hg & Hfits & _).
    by rewrite (ElfOverflow.elf_to_bytes_fits a machine g).
  - destruct Hi as (cpu & rs & Hc & Hready & Hrs & Hlen & _).
    by rewrite (MachOverflow.mach_to_bytes_fits a cpu rs) by auto.
Qed.

Lemma emit_bss_overflow a :
  (∀ op w x, overflow_checks op w x = true) → wf a → undefined_symbols (E:=ArtifactError) a = Ok [] →
  (∀ d, d ∈ c_defs (contents a) → 0 ≤ MachObject.zero_size d) →
  2 ^ 64 ≤ MachObject.bss_total (c_defs (contents a)) →
  emit_as_ck a BF_Macho = Panic (overflow_msg OpAdd).
Proof.
  intros Hc Hwf Hdef Hz Hge. unfold emit_as_ck. rewrite Hdef. cbn [obind].
  unfold MachChecked.mach_to_bytes_ck. by rewrite MachOverflow.Mach_new_overflows.
Qed.

(** C18: development builds emit what release builds emit.  For an artifact a
    client can build that leaves nothing undefined and meets what the backend of
    the format asks for, no operation of the ELF backend overflows, so that a
    build with overflow checks writes the same bytes, those of the artifact's
    object.  So does the Mach-O backend when the sums over numbers the client
    chose freely fit 64 bits: the size of the zero-initialised data, the offsets
    of the symbols of a section, the offsets of links.  The condition on the
    zero-initialised data is needed: when it has 2^64 bytes or more, a build
    with overflow checks panics. *)
Theorem checked_build_emits (a : Artifact) (format : BinaryFormat) (bs : list byte)
  (Hreach : reachable a)
  (Hdef : undefined_symbols (E:=ArtifactError) a = Ok [])
  (Himage : EmitTheorems.object_image a format bs) :
  ((format = BF_Macho → MachOverflow.mach_sums_fit (contents a)) →
   emit_as_ck a format = Ok bs ∧ emit_as a format = Ok bs) ∧
  ((∀ op w x, overflow_checks op w x = true) → format = BF_Macho →
   (∀ d, d ∈ c_defs (contents a) → 0 ≤ MachObject.zero_size d) →
   2 ^ 64 ≤ MachObject.bss_total (c_defs (contents a)) →
   emit_as_ck a format = Panic (overflow_msg OpAdd)).
Proof.
  split.
  - intros Hs. split; [by apply emit_as_fits | by apply EmitTheorems.emit_as_image].
  - intros Hc -> Hz Hge. apply emit_bss_overflow; try done. by apply reachable_wf.
Qed.
End CheckedEmission.

(** ** The theorems at work, in a build with overflow checks *)
Section CheckedWitnesses.
Import ConcreteInstances MachWitnesses MachObject MachImage MachOverflow.
#[local] Instance checked_profile : Profile := true.
#[local] Existing Instance checks_on.

Lemma mach_demo_sums : mach_sums_fit (contents mach_demo).
Proof. apply mach_sums_check_ok. vm_compute. reflexivity. Qed.

(** Two buffers of 2^63 bytes. *)
Definition bss_demo : Artifact :=
  (run exec
     [ODeclare "x" (Defined (DD_Data (writable data))); ODeclare "y" (Defined (DD_Data (writable data)));
      ODefineZeroInit "x" (2 ^ 63); ODefineZeroInit "y" (2 ^ 63)]
     (finish (ArtifactBuilder_name (ArtifactBuilder_new (x86_64_macho : Triple)) "test.o"))).1.

Lemma bss_demo_defs :
  c_defs (contents bss_demo) =
  [mkDefinition "x" (ZeroInit (2 ^ 63)) [] (DD_Data (writable data));
   mkDefinition "y" (ZeroInit (2 ^ 63)) [] (DD_Data (writable data))].
Proof. vm_compute. reflexivity. Qed.

Lemma bss_demo_image :
  EmitTheorems.object_image bss_demo BF_Macho
    (mach_image (make_ctx (a_target bss_demo)) 16777223 (contents bss_demo) []).
Proof.
  exists 16777223, []. split; [by vm_compute|]. split; [|split; [|split; [by vm_compute | done]]].
  - split.
    + rewrite bss_demo_defs. apply Forall_forall. repeat (constructor; [by exists 0|]). constructor.
    + rewrite bss_demo_defs. apply Forall_forall. vm_compute in_slot. constructor.
    + apply (bool_decide_unpack _). by vm_compute.
  - by vm_compute.
Qed.

Lemma checked_build_emits_witness :
  (emit_as_ck mach_demo BF_Macho = Ok mach_demo_bytes ∧
   emit_as mach_demo BF_Macho = Ok mach_demo_bytes) ∧
  emit_as_ck bss_demo BF_Macho = Panic "attempt to add with overflow".
Proof.
  split.
  - apply (checked_build_emits mach_demo BF_Macho mach_demo_bytes);
      [exact mach_demo_reachable | exact mach_demo_defined | exact mach_demo_image
      | intros _; exact mach_demo_sums].
  - apply (checked_build_emits bss_demo BF_Macho
      (mach_image (make_ctx (a_target bss_demo)) 16777223 (contents bss_demo) []));
      [apply run_reachable, reach_finish | | exact bss_demo_image | reflexivity | reflexivity | |].
    + assert (match undefined_symbols (E:=ArtifactError) bss_demo with Ok [] => true | _ => false end =
        true) as H by (vm_compute; reflexivity).
      by destruct (undefined_symbols _) as [[|]| |].
    + rewrite bss_demo_defs. apply Forall_forall. repeat (constructor; [done|]). constructor.
    + rewrite bss_demo_defs. by vm_compute.
Defined.
End CheckedWitnesses.
