(* ===== verification/MachCodec.v ===== *)
(** * Reading Mach-O structures

    The readers of [goblin::mach] as a class of operations with their law: a
    structure whose fields have the widths of the format reads back as it was
    written.  The concrete readers decode the layout of [mach-o/loader.h],
    [nlist.h] and [reloc.h] field by field, and check the magic number and the
    kind of the load commands. *)

From stdpp Require Import base numbers list gmap strings.
From Stdlib Require Import ZArith Lia Strings.Byte.
From S2P Require Import Prelude External Instances Codec.

(** ** Widths of the fields *)
Definition mach_header_typed (h : MachHeader) : Prop :=
  in_u 32 (mh_filetype h) ∧ in_u 32 (mh_flags h) ∧ in_u 32 (mh_cputype h) ∧
  in_u 32 (mh_cpusubtype h) ∧ in_u 32 (mh_ncmds h) ∧ in_u 32 (mh_sizeofcmds h).

Definition segment_typed (c : Ctx) (s : Segment) : Prop :=
  in_u 32 (seg_cmdsize s) ∧ in_word c (seg_vmsize s) ∧ in_word c (seg_fileoff s) ∧
  in_word c (seg_filesize s) ∧ in_u 32 (seg_maxprot s) ∧ in_u 32 (seg_initprot s) ∧
  in_u 32 (seg_nsects s).

Definition mach_section_typed (c : Ctx) (s : MachSection) : Prop :=
  length (ms_sectname s) = 16%nat ∧ length (ms_segname s) = 16%nat ∧ in_word c (ms_addr s) ∧
  in_word c (ms_size s) ∧ in_u 32 (ms_offset s) ∧ in_u 32 (ms_align s) ∧ in_u 32 (ms_reloff s) ∧
  in_u 32 (ms_nreloc s) ∧ in_u 32 (ms_flags s).

Definition symtab_command_typed (s : SymtabCommand) : Prop :=
  in_u 32 (sc_cmdsize s) ∧ in_u 32 (sc_symoff s) ∧ in_u 32 (sc_nsyms s) ∧ in_u 32 (sc_stroff s) ∧
  in_u 32 (sc_strsize s).

Definition nlist_typed (c : Ctx) (n : Nlist) : Prop :=
  in_u 32 (n_strx n) ∧ in_u 8 (n_type n) ∧ in_u 8 (n_sect n) ∧ in_u 16 (n_desc n) ∧
  in_word c (n_value n).

Definition relocation_typed (r : RelocationInfo) : Prop :=
  - 2 ^ 31 ≤ r_address r < 2 ^ 31 ∧ in_u 32 (r_info r).

(** ** The readers *)
Class GoblinMachRead := {
  des_mach_header : list byte → Ctx → option MachHeader;
  des_segment : list byte → Ctx → option Segment;
  des_mach_section : list byte → Ctx → option MachSection;
  des_symtab_command : list byte → Endianness → option SymtabCommand;
  des_nlist : list byte → Ctx → option Nlist;
  des_relocation : list byte → Endianness → option RelocationInfo
}.

(** Each reader undoes the writer of its structure; the constants the backend
    puts into the header have the widths of their fields, and those of the
    sections the values of [mach-o/loader.h]. *)
Class GoblinMachReadLaws (GM : GoblinMach) (R : GoblinMachRead) : Prop := {
  des_ser_mach_header : ∀ h c, mach_header_typed h → des_mach_header (ser_mach_header h c) c = Some h;
  des_ser_segment : ∀ s c, segment_typed c s → des_segment (ser_segment s c) c = Some s;
  des_ser_mach_section : ∀ s c,
    mach_section_typed c s → des_mach_section (ser_mach_section s c) c = Some s;
  des_ser_symtab_command : ∀ s e,
    symtab_command_typed s → des_symtab_command (ser_symtab_command s e) e = Some s;
  des_ser_nlist : ∀ n c, nlist_typed c n → des_nlist (ser_nlist n c) c = Some n;
  des_ser_relocation : ∀ r e, relocation_typed r → des_relocation (ser_relocation r e) e = Some r;
  MH_u32 : in_u 32 MH_OBJECT ∧ in_u 32 MH_SUBSECTIONS_VIA_SYMBOLS;
  CPU_TYPE_u32 : Forall (in_u 32) [CPU_TYPE_X86_64; CPU_TYPE_X86; CPU_TYPE_ARM64; CPU_TYPE_ARM;
    CPU_TYPE_SPARC; CPU_TYPE_POWERPC; CPU_TYPE_POWERPC64];
  S_values : S_REGULAR = 0 ∧ S_ZEROFILL = 1 ∧ S_CSTRING_LITERALS = 2 ∧ S_ATTR_DEBUG = 33554432 ∧
    S_ATTR_PURE_INSTRUCTIONS = 2147483648 ∧ S_ATTR_SOME_INSTRUCTIONS = 1024
}.

(** ** The readers of the Mach-O headers *)
Definition mach_magic (c : Ctx) : Z := match container c with C_Little => 4277009102 | C_Big => 4277009103 end.
Definition LC_SEGMENT_of (c : Ctx) : Z := match container c with C_Little => 1 | C_Big => 25 end.
Definition LC_SYMTAB : Z := 2.

(** A field that must have the given value. *)
Definition expect_field (e : Endianness) (n : nat) (x : Z) : reader unit := fun v =>
  '(y, v) ← field e n v; if y =? x then Some (tt, v) else None.

Definition raw_field (n : nat) : reader (list byte) := fun v =>
  if (length v <? n)%nat then None else Some (take n v, drop n v).

Definition read_mach_header (v : list byte) (c : Ctx) : option MachHeader :=
  let e := field (le c) 4 in
  '(_, v) ← expect_field (le c) 4 (mach_magic c) v; '(cputype, v) ← e v; '(cpusubtype, v) ← e v;
  '(filetype, v) ← e v; '(ncmds, v) ← e v; '(sizeofcmds, v) ← e v; '(flags, _) ← e v;
  Some (mkMachHeader filetype flags cputype cpusubtype ncmds sizeofcmds).

Definition read_segment (v : list byte) (c : Ctx) : option Segment :=
  let e := field (le c) 4 in
  '(_, v) ← expect_field (le c) 4 (LC_SEGMENT_of c) v; '(cmdsize, v) ← e v; '(_, v) ← skip 16 v;
  '(_, v) ← word c v; '(vmsize, v) ← word c v; '(fileoff, v) ← word c v; '(filesize, v) ← word c v;
  '(maxprot, v) ← e v; '(initprot, v) ← e v; '(nsects, _) ← e v;
  Some (mkSegment cmdsize vmsize fileoff filesize maxprot initprot nsects).

Definition read_mach_section (v : list byte) (c : Ctx) : option MachSection :=
  let e := field (le c) 4 in
  '(sectname, v) ← raw_field 16 v; '(segname, v) ← raw_field 16 v; '(addr, v) ← word c v;
  '(size, v) ← word c v; '(offset, v) ← e v; '(align, v) ← e v; '(reloff, v) ← e v;
  '(nreloc, v) ← e v; '(flags, _) ← e v;
  Some (mkMachSection sectname segname addr size offset align reloff nreloc flags).

Definition read_symtab_command (v : list byte) (en : Endianness) : option SymtabCommand :=
  let e := field en 4 in
  '(_, v) ← expect_field en 4 LC_SYMTAB v; '(cmdsize, v) ← e v; '(symoff, v) ← e v;
  '(nsyms, v) ← e v; '(stroff, v) ← e v; '(strsize, _) ← e v;
  Some (mkSymtabCommand cmdsize symoff nsyms stroff strsize).

Definition read_nlist (v : list byte) (c : Ctx) : option Nlist :=
  let e := field (le c) in
  '(strx, v) ← e 4%nat v; '(typ, v) ← e 1%nat v; '(sect, v) ← e 1%nat v; '(desc, v) ← e 2%nat v;
  '(value, _) ← word c v;
  Some (mkNlist strx typ sect desc value).

(** A 32-bit integer in two's complement. *)
Definition signed32 (x : Z) : Z := if x <? 2 ^ 31 then x else x - 2 ^ 32.

Definition read_relocation (v : list byte) (e : Endianness) : option RelocationInfo :=
  '(address, v) ← field e 4 v; '(info, _) ← field e 4 v;
  Some (mkRelocationInfo (signed32 address) info).

Definition mach_read : GoblinMachRead := {|
  des_mach_header := read_mach_header; des_segment := read_segment;
  des_mach_section := read_mach_section; des_symtab_command := read_symtab_command;
  des_nlist := read_nlist; des_relocation := read_relocation
|}.

(** ** They undo the writers *)
Lemma expect_field_enc e n x v :
  in_u (8 * Z.of_nat n) x → expect_field e n x (enc e n x ++ v) = Some (tt, v).
Proof. intros Hx. unfold expect_field. rewrite field_enc by done. cbn. by rewrite Z.eqb_refl. Qed.

Lemma raw_field_app n w v : length w = n → raw_field n (w ++ v) = Some (w, v).
Proof.
  intros <-. unfold raw_field. rewrite length_app.
  destruct (Nat.ltb_spec (length w + length v) (length w)); [lia|].
  by rewrite take_app_length, drop_app_length.
Qed.

Lemma name16_id l : length l = 16%nat → name16 l = l.
Proof. intros H. unfold name16. rewrite <- H at 1. apply take_app_length. Qed.

Lemma read_mach_header_ok h c :
  mach_header_typed h → read_mach_header (mach_header_bytes h c) c = Some h.
Proof.
  intros (H1 & H2 & H3 & H4 & H5 & H6). unfold read_mach_header, mach_header_bytes.
  fold (mach_magic c). rewrite expect_field_enc; [|by unfold mach_magic; destruct (container c)].
  cbn [mbind option_bind]. read_fields. by destruct h.
Qed.

Lemma read_segment_ok s c : segment_typed c s → read_segment (segment_bytes s c) c = Some s.
Proof.
  intros (H1 & H2 & H3 & H4 & H5 & H6 & H7). unfold read_segment, segment_bytes.
  assert (in_word c 0) as H0 by (apply in_word_small; lia).
  fold (LC_SEGMENT_of c). rewrite expect_field_enc; [|by unfold LC_SEGMENT_of; destruct (container c)].
  cbn [mbind option_bind]. read_fields. rewrite skip_app by apply length_enc. cbn [mbind option_bind].
  read_fields. by destruct s.
Qed.

Lemma read_mach_section_ok s c :
  mach_section_typed c s → read_mach_section (mach_section_bytes s c) c = Some s.
Proof.
  intros (H1 & H2 & H3 & H4 & H5 & H6 & H7 & H8 & H9). unfold read_mach_section, mach_section_bytes.
  rewrite !name16_id by done.
  do 2 (rewrite raw_field_app by done; cbn [mbind option_bind]).
  read_fields. by destruct s.
Qed.

Lemma read_symtab_command_ok s e :
  symtab_command_typed s → read_symtab_command (symtab_command_bytes s e) e = Some s.
Proof.
  intros (H1 & H2 & H3 & H4 & H5). unfold read_symtab_command, symtab_command_bytes.
  rewrite expect_field_enc by done. cbn [mbind option_bind]. read_fields. by destruct s.
Qed.

Lemma read_nlist_ok n c : nlist_typed c n → read_nlist (nlist_bytes n c) c = Some n.
Proof.
  intros (H1 & H2 & H3 & H4 & H5). unfold read_nlist, nlist_bytes. read_fields. by destruct n.
Qed.

Lemma signed32_wrap x : - 2 ^ 31 ≤ x < 2 ^ 31 → signed32 (wrap 32 x) = x.
Proof.
  intros Hx. pose proof (signed_wrap (mkCtx C_Little E_Little) x Hx) as H. exact H.
Qed.

Lemma read_relocation_ok r e :
  relocation_typed r → read_relocation (enc e 4 (r_address r) ++ enc e 4 (r_info r)) e = Some r.
Proof.
  intros [H1 H2]. unfold read_relocation.
  rewrite <- (enc_wrap e 4 (r_address r)). change (8 * Z.of_nat 4) with 32.
  rewrite field_enc by (by apply wrap_in_u). cbn [mbind option_bind].
  rewrite field_enc_end by done. cbn [mbind option_bind]. rewrite signed32_wrap by done.
  by destruct r.
Qed.

Lemma mach_read_laws : GoblinMachReadLaws mach_goblin mach_read.
Proof.
  split; intros; cbn [des_mach_header des_segment des_mach_section des_symtab_command des_nlist
    des_relocation mach_read ser_mach_header ser_segment ser_mach_section ser_symtab_command
    ser_nlist ser_relocation mach_goblin].
  - by apply read_mach_header_ok.
  - by apply read_segment_ok.
  - by apply read_mach_section_ok.
  - by apply read_symtab_command_ok.
  - by apply read_nlist_ok.
  - by apply read_relocation_ok.
  - split; by vm_compute.
  - repeat constructor; by vm_compute.
  - done.
Qed.
