(* ===== verification/MachTyped.v ===== *)
(** * The fields of a Mach-O file have their widths

    The model computes with integers; the file stores fields of 8, 16, 32 or
    64 bits.  Under the limits of the format (255 sections, addresses that fit
    the container) no field of the emitted structures is cut off. *)

From stdpp Require Import base numbers list gmap strings.
From Stdlib Require Import ZArith Lia Strings.Byte.
From S2P Require Import Prelude Std Bytes External Instances Decl Artifact ArtifactInv.
From S2P Require Import Contents Target MachBuild MachState MachWrite MachSymtab MachPlace.
From S2P Require Import MachObject MachLink MachImage MachFile MachRead MachTheorems MachRelocs.
From S2P Require Import Codec MachCodec.

Lemma lor_in_u k x y : 0 ≤ k → in_u k x → in_u k y → in_u k (Z.lor x y).
Proof.
  intros Hk Hx Hy.
  assert (Z.lor x y = wrap k (Z.lor x y)) as ->; [|by apply wrap_in_u]. unfold wrap.
  rewrite <- Z.land_ones, Z.land_lor_distr_l, !Z.land_ones by done.
  by rewrite !Z.mod_small.
Qed.

Lemma i32_range x : - 2 ^ 31 ≤ i32 x < 2 ^ 31.
Proof.
  unfold i32. pose proof (wrap_in_u 32 x ltac:(lia)) as H. unfold in_u in H.
  destruct (Z.ltb_spec (wrap 32 x) (2 ^ 31)); lia.
Qed.

Section MachTyped.
Context {TL : TargetLexicon} {SI : StringInterner} {IM : IndexMapOps}.
Context {G : GoblinElf} {GM : GoblinMach} {SC : Scroll} {P : Profile} {OS : OsFile}.
Context {SIL : StringInternerLaws SI} {IML : IndexMapLaws IM}.
Context {GML : GoblinMachLaws GM} {SCL : ScrollLaws SC}.
Context {R : GoblinMachRead} {RL : GoblinMachReadLaws GM R}.

(** The limits of the format: a symbol names its section in 8 bits, and the
    addresses of the zero-initialised data and of the symbols of client
    sections fit the container. *)
Record mach_limits (ctx : Ctx) (c : Contents) : Prop := {
  ml_sections : zlen (mach_groups c) ≤ 255;
  ml_bss : 0 ≤ bss_total (c_defs c) ∧ in_word ctx (segment_len c + bss_total (c_defs c));
  ml_symbols : ∀ d s, d ∈ c_defs c → s ∈ d_symbols d → 0 ≤ s.2 ∧ in_word ctx (segment_len c + s.2)
}.

(** ** Relocations *)
Lemma relocation_create_typed {E} b r : RelocationBuilder_create (E:=E) b = Ok r → relocation_typed r.
Proof.
  assert (∀ x, in_u 32 (u32 x)) as Hw by (intros; by apply wrap_in_u).
  unfold RelocationBuilder_create. intros H.
  assert (∃ len, r = mkRelocationInfo (i32 (rb_relocation_offset b))
    (Z.lor (Z.lor (Z.lor (Z.lor (u32 (rb_symbol b))
       (u32 (Z.shiftl (if rb_absolute b then 0 else 1) 24))) (u32 (Z.shiftl len 25)))
       (u32 (Z.shiftl 1 27))) (u32 (Z.shiftl (rb_r_type b) 28)))) as [len ->].
  { destruct (rb_size b =? 0); [|destruct (rb_size b =? 4); [|destruct (rb_size b =? 8); [|done]]];
      cbn [obind] in H; injection H as <-; by eexists. }
  split; [apply i32_range|]. cbn [r_info]. by repeat (apply lor_in_u; [lia| |apply Hw]).
Qed.

Lemma mach_link_typed {E} syms keys l i r :
  mach_link (E:=E) syms keys l = Ok (Some (i, r)) → relocation_typed r.
Proof.
  assert (∀ b j, (let! r := RelocationBuilder_create (E:=E) b in Ok (Some (j, r))) = Ok (Some (i, r)) →
    relocation_typed r) as Hc.
  { intros b j. destruct (RelocationBuilder_create b) as [r'| |] eqn:Er; cbn; try done.
    intros [= _ <-]. by eapply relocation_create_typed. }
  unfold mach_link. destruct (l_reloc l) as [|raw addend|size addend].
  1,2: destruct (link_reloc l) as [[absolute reloc]| |]; cbn [obind]; try done;
    destruct (al_get syms (b_name (l_from l))), (index_of (b_name (l_to l)) syms.*1); try done; apply Hc.
  destruct (is_section _); [done|]. destruct (index_of (b_name (l_to l)) syms.*1); [|done].
  destruct (index_of (b_name (l_from l)) keys); cbn [expect obind]; [apply Hc | done].
Qed.

Lemma link_relocs_typed c i : Forall relocation_typed (link_relocs c i).
Proof.
  apply Forall_forall. intros r Hr. unfold link_relocs in Hr.
  apply list_elem_of_omap in Hr as (l & _ & Hl).
  destruct (mach_link _ _ l) as [[[j r']|]| |] eqn:El; try done.
  destruct (j =? i); [|done]. injection Hl as <-. by eapply mach_link_typed.
Qed.

Section Emitted.
Variables (a : Artifact) (cpu : Z) (rs : list (Z * RelocationInfo)) (bs : list byte).
Hypothesis Hem : mach_emitted a cpu rs bs.
Hypothesis Hlim : mach_limits (make_ctx (a_target a)) (contents a).
Notation ctx := (make_ctx (a_target a)).
Notation c := (contents a).

(** Everything lies in a file of less than 2^32 bytes. *)
Lemma mach_pieces_in_file :
  0 ≤ segment_cmdsize ctx c < 2 ^ 32 ∧ 0 ≤ sizeof_commands ctx c < 2 ^ 32 ∧
  0 ≤ off_first ctx c < 2 ^ 32 ∧ 0 ≤ segment_len c < 2 ^ 32 ∧
  off_first ctx c + segment_len c < 2 ^ 32 ∧
  0 ≤ off_symbols ctx c < 2 ^ 32 ∧ 0 ≤ off_strings ctx c < 2 ^ 32 ∧
  0 ≤ off_relocs ctx c ∧ 0 ≤ reloc_count (mach_sections ctx c rs) ∧
  off_relocs ctx c + reloc_count (mach_sections ctx c rs) * 8 < 2 ^ 32 ∧
  0 ≤ strtable_len (symbol_names c) < 2 ^ 32 ∧ 0 ≤ zlen (mach_symbols c) < 2 ^ 32 ∧
  0 ≤ zlen (mach_groups c) < 2 ^ 32.
Proof.
  pose proof (mach_offsets ctx c rs) as Ho. pose proof (header_size_pos ctx) as Hh.
  pose proof (me_fits _ _ _ _ Hem) as Hf. pose proof (ml_sections _ _ Hlim).
  unfold mach_file_len, off_relocs, off_strings, off_symbols, off_first, sizeof_commands in *. lia.
Qed.

Lemma image_header_typed : mach_header_typed (image_header ctx cpu c).
Proof.
  pose proof mach_pieces_in_file as Hp. pose proof MH_u32 as [M1 M2].
  pose proof CPU_TYPE_u32 as Hc. rewrite !Forall_cons in Hc.
  pose proof (me_cpu _ _ _ _ Hem) as Ha. unfold mach_header_typed, image_header.
  cbn [mh_filetype mh_flags mh_cputype mh_cpusubtype mh_ncmds mh_sizeofcmds].
  split_and!; [done | done | | auto with typed..].
  unfold CpuType_from in Ha. destruct (architecture (a_target a)); simplify_eq; first [tauto | by vm_compute].
Qed.

Lemma image_segment_typed : segment_typed ctx (image_segment ctx c).
Proof.
  pose proof mach_pieces_in_file as Hp. destruct (ml_bss _ _ Hlim) as [Hb0 Hb].
  unfold segment_typed, image_segment. cbn [seg_cmdsize seg_vmsize seg_fileoff seg_filesize
    seg_maxprot seg_initprot seg_nsects].
  rewrite wrap_small by (by eapply in_word_u64). split_and!; auto with typed.
Qed.

Lemma image_symtab_typed : symtab_command_typed (image_symtab ctx c).
Proof.
  pose proof mach_pieces_in_file as Hp. unfold symtab_command_typed, image_symtab.
  cbn [sc_cmdsize sc_symoff sc_nsyms sc_stroff sc_strsize]. split_and!; auto with typed.
Qed.

(** ** Section headers *)
Lemma group_flags_u32 g : g ∈ mach_groups c → in_u 32 (gr_flags g).
Proof.
  pose proof S_values as (S1 & S2 & S3 & S4 & S5 & S6). unfold mach_groups. rewrite elem_of_app. intros [Hg|Hg].
  - repeat (apply elem_of_cons in Hg as [->|Hg];
      [cbn [gr_flags text_group data_group cstring_group bss_group default_group];
       rewrite ?S1, ?S2, ?S3, ?S5, ?S6; by vm_compute|]). by apply elem_of_nil in Hg.
  - apply list_elem_of_fmap in Hg as (d & -> & _). cbn. unfold custom_flags.
    destruct (section_kind d); rewrite ?S4; by vm_compute.
Qed.

Lemma name_field_len s : str_len s ≤ 16 → length (name_field s) = 16%nat.
Proof.
  intros Hs. unfold name_field. pose proof (str_len_nonneg s).
  assert (zlen (bytes_of s ++ zeros (16 - str_len s)) = 16) as Hl.
  { rewrite zlen_app, str_len_bytes, zlen_zeros; lia. }
  unfold zlen in Hl. lia.
Qed.

(** A section's bytes and relocations lie in the file. *)
Lemma section_in_file i g :
  mach_groups c !! i = Some g →
  0 ≤ group_base (mach_groups c) i ∧ 0 ≤ gr_size g ∧
  group_base (mach_groups c) i + gr_size g ≤ segment_len c ∧
  0 ≤ reloc_count (take i (mach_sections ctx c rs)) ∧ 0 ≤ zlen (relocs_of rs (Z.of_nat i)) ∧
  off_relocs ctx c + reloc_count (take i (mach_sections ctx c rs)) * 8 +
    zlen (relocs_of rs (Z.of_nat i)) * 8 < 2 ^ 32.
Proof.
  intros Hg. pose proof (section_bytes_at ctx cpu c rs _ _ Hg) as Hb.
  assert (0 ≤ group_base (mach_groups c) i).
  { apply zsum_nonneg. intros. apply zlen_nonneg. }
  assert (group_base (mach_groups c) i + gr_size g ≤ segment_len c).
  { unfold group_base, segment_len. rewrite <- (take_drop_middle _ _ _ Hg) at 2.
    rewrite fmap_app, zsum_app. cbn [fmap list_fmap zsum].
    pose proof (zsum_nonneg gr_size (drop (S i) (mach_groups c)) (fun g => zlen_nonneg (gr_bytes g))). lia. }
  pose proof (at_off_bound _ _ _ (section_relocs_at ctx cpu c rs _ _ Hg)) as Hr.
  rewrite mach_image_len, (zlen_concat_const _ 8) in Hr by (intros; apply ser_relocation_len).
  pose proof (me_fits _ _ _ _ Hem) as Hf.
  split_and!; [done | apply zlen_nonneg | done | | apply zlen_nonneg | lia].
  apply zsum_nonneg. intros. apply zlen_nonneg.
Qed.

Lemma image_headers_typed : Forall (mach_section_typed ctx) (image_headers ctx c rs).
Proof.
  pose proof mach_pieces_in_file as Hp. apply Forall_lookup. intros i h Hi.
  destruct (lookup_lt_is_Some_2 (mach_groups c) i) as [g Hg].
  { apply lookup_lt_Some in Hi. pose proof (image_headers_len ctx c rs) as El. unfold zlen in El. lia. }
  rewrite (image_headers_lookup _ _ _ _ _ Hg) in Hi. injection Hi as <-.
  pose proof (section_in_file _ _ Hg) as Hs. apply list_elem_of_lookup_2 in Hg.
  unfold mach_section_typed, section_header. cbn [ms_sectname ms_segname ms_addr ms_size ms_offset
    ms_align ms_reloff ms_nreloc ms_flags].
  split_and!; auto with typed.
  - apply name_field_len. by eapply group_sectnames, Hg; apply (me_ready _ _ _ _ Hem).
  - apply name_field_len. by eapply default_segnames.
  - by apply wrap_in_u.
  - destruct (zlen (relocs_of rs (Z.of_nat i)) =? 0); auto with typed.
  - by apply group_flags_u32.
Qed.

(** ** Symbols *)
Lemma symbol_value_typed n section abs rel global :
  (n, Sym_Defined section abs rel global) ∈ mach_symbols c →
  0 ≤ section < zlen (mach_groups c) ∧ in_word ctx abs.
Proof.
  pose proof mach_pieces_in_file as Hp. unfold mach_symbols. rewrite elem_of_app. intros [Hx|Hx].
  2: { by apply list_elem_of_fmap in Hx as (p & [=] & _). }
  apply symbols_from_inv in Hx as (i & g & Hg & Hx). rewrite !Z.add_0_l in Hx.
  pose proof (section_in_file _ _ Hg) as Hs. unfold gr_size in Hs.
  assert (0 ≤ Z.of_nat i < zlen (mach_groups c)) as Hi.
  { apply lookup_lt_Some in Hg. unfold zlen. lia. }
  assert (∀ sn sg fl min pad ds, 0 ≤ min → g = default_group sn sg fl min pad ds →
    0 ≤ section < zlen (mach_groups c) ∧ in_word ctx abs) as Hdef.
  { intros sn sg fl min pad ds Hm ->. cbn [gr_symbols gr_bytes default_group] in Hx, Hs.
    apply list_elem_of_fmap in Hx as (p & [= -> -> -> -> ->] & Hx). split; [done|].
    apply (placed_at pad) in Hx; [|done]. apply at_off_bound in Hx. rewrite Z.sub_0_r in Hx.
    pose proof (zlen_nonneg (def_data (pl_def p))). auto with typed. }
  assert (g ∈ mach_groups c) as Hin by by eapply list_elem_of_lookup_2.
  unfold mach_groups in Hin. rewrite elem_of_app in Hin. destruct Hin as [Hin|Hin].
  - repeat (apply elem_of_cons in Hin as [Hin|Hin]; [eapply Hdef; [|exact Hin]; lia|]).
    by apply elem_of_nil in Hin.
  - apply list_elem_of_fmap in Hin as (d & -> & [_ Hd]%in_slot_elem).
    cbn [gr_symbols custom_group] in Hx.
    apply list_elem_of_fmap in Hx as (s & [= -> -> -> -> ->] & Hx). split; [done|].
    destruct (ml_symbols _ _ Hlim d s Hd Hx) as [H0 Hw]. pose proof (in_word_u64 _ _ Hw) as Hw'.
    pose proof (zlen_nonneg (gr_bytes (custom_group d))).
    rewrite wrap_small by (unfold in_u in *; lia). unfold in_word, in_u in *. lia.
Qed.

Lemma mach_nlists_typed : Forall (nlist_typed ctx) (mach_nlists c).
Proof.
  pose proof mach_pieces_in_file as Hp. pose proof (ml_sections _ _ Hlim) as Hn.
  pose proof N_values as (E1 & E2 & E3 & E4).
  apply Forall_forall. intros n Hin. unfold mach_nlists in Hin.
  apply elem_of_lookup_imap in Hin as (i & [name k] & -> & Hi).
  pose proof (strx_pos_bound (symbol_names c) i) as Hx. unfold symbol_names in Hx, Hp.
  unfold symbol_builder. cbn [snd]. rewrite (wrap_small 64) by (unfold in_u; lia).
  destruct k as [section abs rel global|].
  - destruct (symbol_value_typed name section abs rel global) as [Hs Hv].
    { by eapply list_elem_of_lookup_2. }
    destruct (defined_nlist (strx_pos (mach_symbols c).*1 i) section abs rel global)
      as (N1 & N2 & N3 & N4 & N5); [lia|].
    unfold nlist_typed. rewrite N1, N2, N3, N4, N5, E2, E3.
    split_and!; auto with typed. by destruct global.
  - destruct (undefined_nlist (strx_pos (mach_symbols c).*1 i)) as (N1 & N2 & N3 & N4 & N5).
    unfold nlist_typed. rewrite N1, N2, N3, N4, N5, E2, E4. split_and!; auto with typed.
Qed.
End Emitted.

(** No field of a Mach-O file is cut off.  When the object has at most 255
    sections and the addresses of its zero-initialised data and of the symbols
    of client sections fit the container, every field of the header, the load
    commands, the section headers, the symbols and the relocations of an
    emitted file has the width the format gives it. *)
Theorem mach_fields_typed (a : Artifact) (cpu : Z) (rs : list (Z * RelocationInfo)) (bs : list byte)
  (Hem : mach_emitted a cpu rs bs)
  (Hlim : mach_limits (make_ctx (a_target a)) (contents a)) :
  let ctx := make_ctx (a_target a) in
  let c := contents a in
  mach_header_typed (image_header ctx cpu c) ∧ segment_typed ctx (image_segment ctx c) ∧
  symtab_command_typed (image_symtab ctx c) ∧
  Forall (mach_section_typed ctx) (image_headers ctx c rs) ∧
  Forall (nlist_typed ctx) (mach_nlists c) ∧
  ∀ i, Forall relocation_typed (link_relocs c i).
Proof.
  intros ctx c. split; [by eapply image_header_typed|]. split; [by eapply image_segment_typed|].
  split; [by eapply image_symtab_typed|]. split; [by eapply image_headers_typed|].
  split; [by eapply mach_nlists_typed | apply link_relocs_typed].
Qed.
End MachTyped.
