(* ===== verification/MachParse.v ===== *)
(** * Reading a whole Mach-O file back

    [parse_macho] reads an object file the way a linker does: header, segment
    command with its section headers, symbol table command, the contents and
    relocations of the sections, and the symbols with their names.  The
    theorem: reading what [mach::to_bytes] returned yields exactly the object
    of the artifact. *)

From stdpp Require Import base numbers list gmap strings.
From Stdlib Require Import ZArith Lia Strings.Byte.
From S2P Require Import Prelude Std Bytes External Instances Decl Artifact ArtifactInv.
From S2P Require Import Contents Target MachBuild MachState MachWrite MachSymtab MachPlace.
From S2P Require Import MachObject MachLink MachImage MachFile MachRead MachTheorems MachRelocs.
From S2P Require Import MachWitnesses Codec MachCodec MachTyped.

(** ** What is read *)
Record ReadMachSection := mkReadMachSection {
  rm_header : MachSection; rm_bytes : list byte; rm_relocs : list RelocationInfo
}.

Record ReadNlist := mkReadNlist { rn_name : list byte; rn_nlist : Nlist }.

Record MachFile := mkMachFile {
  mf_header : MachHeader; mf_segment : Segment; mf_sections : list ReadMachSection;
  mf_symtab : SymtabCommand; mf_symbols : list ReadNlist
}.

Section Parse.
Context {GM : GoblinMach} {R : GoblinMachRead}.

(** A section in memory only (by its type, the low byte of the flags) has no
    bytes in the file. *)
Definition mach_section_contents (bs : list byte) (h : MachSection) : list byte :=
  if Z.land (ms_flags h) 255 =? S_ZEROFILL then [] else slice (ms_offset h) (ms_size h) bs.

Definition read_mach_contents (ctx : Ctx) (bs : list byte) (h : MachSection) : option ReadMachSection :=
  relocs ← table (fun v => des_relocation v (le ctx)) (ms_reloff h) SIZEOF_RELOCATION_INFO
             (ms_nreloc h) bs;
  Some (mkReadMachSection h (mach_section_contents bs h) relocs).

Definition parse_macho (ctx : Ctx) (bs : list byte) : option MachFile :=
  let commands := mach_header_size (container ctx) in
  header ← des_mach_header (slice 0 commands bs) ctx;
  segment ← des_segment (slice commands (segment_size ctx) bs) ctx;
  headers ← table (fun v => des_mach_section v ctx) (commands + segment_size ctx)
              (mach_section_size ctx) (seg_nsects segment) bs;
  symtab ← des_symtab_command (slice (commands + seg_cmdsize segment)
             (mh_sizeofcmds header - seg_cmdsize segment) bs) (le ctx);
  sections ← mapM (read_mach_contents ctx bs) headers;
  nlists ← table (fun v => des_nlist v ctx) (sc_symoff symtab) (nlist_size ctx) (sc_nsyms symtab) bs;
  Some (mkMachFile header segment sections symtab
          ((fun n => mkReadNlist (cstring_at (sc_stroff symtab + n_strx n) bs) n) <$> nlists)).
End Parse.

Section RoundTrip.
Context {TL : TargetLexicon} {SI : StringInterner} {IM : IndexMapOps}.
Context {G : GoblinElf} {GM : GoblinMach} {SC : Scroll} {P : Profile} {OS : OsFile}.
Context {SIL : StringInternerLaws SI} {IML : IndexMapLaws IM}.
Context {GML : GoblinMachLaws GM} {SCL : ScrollLaws SC}.
Context {R : GoblinMachRead} {RL : GoblinMachReadLaws GM R}.

(** ** The file of an object, as read *)
Definition mach_file_of (ctx : Ctx) (cpu : Z) (c : Contents) (rs : list (Z * RelocationInfo)) :
  MachFile :=
  mkMachFile (image_header ctx cpu c) (image_segment ctx c)
    (imap (fun i g => mkReadMachSection (section_header ctx c rs i g) (gr_bytes g)
                        (link_relocs c (Z.of_nat i))) (mach_groups c))
    (image_symtab ctx c)
    (imap (fun i p => mkReadNlist (x5f :: bytes_of p.1)
                        (SymbolBuilder_create (symbol_builder (mach_symbols c) i p)))
       (mach_symbols c)).

Section Emitted.
Variables (a : Artifact) (cpu : Z) (rs : list (Z * RelocationInfo)) (bs : list byte).
Hypothesis Hem : mach_emitted a cpu rs bs.
Hypothesis Hlim : mach_limits (make_ctx (a_target a)) (contents a).
Hypothesis Hnul : Forall no_nul (symbol_names (contents a)).
Notation ctx := (make_ctx (a_target a)).
Notation c := (contents a).

Lemma mach_bytes_are : bs = mach_image ctx cpu c rs.
Proof. by destruct (mach_emitted_image _ _ _ _ Hem). Qed.

Lemma read_section_headers :
  table (fun v => des_mach_section v ctx) (mach_header_size (container ctx) + segment_size ctx)
    (mach_section_size ctx) (zlen (mach_groups c)) bs = Some (image_headers ctx c rs).
Proof.
  rewrite <- (image_headers_len ctx c rs).
  apply (table_ok _ (fun h => ser_mach_section h ctx)).
  - rewrite mach_bytes_are. apply mach_headers_at.
  - intros. apply ser_mach_section_len.
  - pose proof (image_headers_typed _ _ _ _ Hem Hlim) as Ht. rewrite Forall_forall in Ht.
    intros h Hh. by apply des_ser_mach_section, Ht.
Qed.

(** Only [__bss] is in memory alone, and it has no bytes. *)
Lemma zerofill_empty i g :
  mach_groups c !! i = Some g → Z.land (gr_flags g) 255 = S_ZEROFILL → gr_bytes g = [].
Proof.
  intros Hg%list_elem_of_lookup_2. pose proof S_values as (S1 & S2 & S3 & S4 & S5 & S6).
  rewrite S2. unfold mach_groups in Hg. rewrite elem_of_app in Hg. destruct Hg as [Hg|Hg].
  - repeat (apply elem_of_cons in Hg as [->|Hg];
      [cbn [gr_flags text_group data_group cstring_group bss_group default_group];
       rewrite ?S1, ?S2, ?S3, ?S5, ?S6; intros Hz; first [apply bss_bytes | by vm_compute in Hz]|]).
    by apply elem_of_nil in Hg.
  - apply list_elem_of_fmap in Hg as (d & -> & _). cbn. unfold custom_flags.
    destruct (section_kind d); rewrite ?S4; by intros.
Qed.

(** Section number [i]: its bytes and its relocations. *)
Lemma read_group i g :
  mach_groups c !! i = Some g →
  read_mach_contents ctx bs (section_header ctx c rs i g) =
  Some (mkReadMachSection (section_header ctx c rs i g) (gr_bytes g) (link_relocs c (Z.of_nat i))).
Proof.
  intros Hg. unfold read_mach_contents.
  assert (relocs_of rs (Z.of_nat i) = link_relocs c (Z.of_nat i)) as Er
    by (apply (relocs_of_links (E:=io_error)), (me_relocs _ _ _ _ Hem)).
  assert (table (fun v => des_relocation v (le ctx)) (ms_reloff (section_header ctx c rs i g))
    SIZEOF_RELOCATION_INFO (ms_nreloc (section_header ctx c rs i g)) bs =
    Some (link_relocs c (Z.of_nat i))) as ->.
  { unfold section_header. cbn [ms_reloff ms_nreloc]. rewrite Er, SIZEOF_RELOCATION_INFO_spec.
    destruct (Z.eqb_spec (zlen (link_relocs c (Z.of_nat i))) 0) as [E0|E0].
    { rewrite E0. by destruct (link_relocs c (Z.of_nat i)). }
    apply (table_ok _ (fun r => ser_relocation r (le ctx))).
    - rewrite mach_bytes_are, <- Er. by eapply section_relocs_at.
    - intros. apply ser_relocation_len.
    - pose proof (link_relocs_typed c (Z.of_nat i)) as Ht. rewrite Forall_forall in Ht.
      intros r Hr. by apply des_ser_relocation, Ht. }
  cbn [mbind option_bind]. do 2 f_equal. unfold mach_section_contents.
  assert (slice (ms_offset (section_header ctx c rs i g)) (ms_size (section_header ctx c rs i g)) bs =
    gr_bytes g) as ->.
  { cbn [section_header ms_offset ms_size]. rewrite mach_bytes_are. unfold gr_size.
    by apply at_off_slice, section_bytes_at. }
  cbn [section_header ms_flags].
  destruct (Z.land _ 255 =? S_ZEROFILL) eqn:Ez; [|done].
  apply Z.eqb_eq in Ez. symmetry. by eapply zerofill_empty.
Qed.

Lemma read_mach_symbols :
  table (fun v => des_nlist v ctx) (off_symbols ctx c) (nlist_size ctx) (zlen (mach_symbols c)) bs =
  Some (mach_nlists c).
Proof.
  rewrite <- (mach_nlists_len c). apply (table_ok _ (fun n => ser_nlist n ctx)).
  - rewrite mach_bytes_are. apply nlists_at.
  - intros. apply ser_nlist_len.
  - pose proof (mach_nlists_typed _ _ _ _ Hem Hlim) as Ht. rewrite Forall_forall in Ht.
    intros n Hn. by apply des_ser_nlist, Ht.
Qed.

(** The symbols under their names. *)
Lemma read_nlists :
  (fun n => mkReadNlist (cstring_at (off_strings ctx c + n_strx n) bs) n) <$> mach_nlists c =
  mf_symbols (mach_file_of ctx cpu c rs).
Proof.
  unfold mach_nlists. cbn [mach_file_of mf_symbols]. rewrite fmap_imap. apply imap_ext.
  intros i [n k] Hi. unfold compose. cbn [fst]. f_equal.
  assert (no_nul n) as Hn.
  { rewrite Forall_forall in Hnul. apply Hnul. unfold symbol_names. apply list_elem_of_fmap.
    exists (n, k). split; [done|]. by eapply list_elem_of_lookup_2. }
  destruct (symbol_entry_of _ _ _ _ _ _ _ Hem Hi Hn) as [(_ & _ & Hc) _]. exact Hc.
Qed.

Lemma read_mach_sections :
  mapM (read_mach_contents ctx bs) (image_headers ctx c rs) =
  Some (mf_sections (mach_file_of ctx cpu c rs)).
Proof.
  apply mapM_Some_2, Forall2_same_length_lookup_2.
  - pose proof (image_headers_len ctx c rs) as El. unfold zlen in El.
    cbn [mach_file_of mf_sections]. rewrite length_imap. lia.
  - intros i h r Hh Hr. cbn [mach_file_of mf_sections] in Hr. rewrite list_lookup_imap in Hr.
    destruct (mach_groups c !! i) as [g|] eqn:Hg; [|done]. injection Hr as <-.
    rewrite (image_headers_lookup _ _ _ _ _ Hg) in Hh. injection Hh as <-. by apply read_group.
Qed.

Lemma parse_macho_emitted : parse_macho ctx bs = Some (mach_file_of ctx cpu c rs).
Proof.
  assert (des_mach_header (slice 0 (mach_header_size (container ctx)) bs) ctx =
    Some (image_header ctx cpu c)) as H1.
  { rewrite mach_bytes_are, (slice_at _ _ _ _ (mach_header_at ctx cpu c rs)) by apply ser_mach_header_len.
    by eapply des_ser_mach_header, image_header_typed. }
  assert (des_segment (slice (mach_header_size (container ctx)) (segment_size ctx) bs) ctx =
    Some (image_segment ctx c)) as H2.
  { rewrite mach_bytes_are, (slice_at _ _ _ _ (segment_at ctx cpu c rs)) by apply ser_segment_len.
    by eapply des_ser_segment, image_segment_typed. }
  assert (des_symtab_command (slice (mach_header_size (container ctx) + segment_cmdsize ctx c)
    (sizeof_commands ctx c - segment_cmdsize ctx c) bs) (le ctx) = Some (image_symtab ctx c)) as H3.
  { rewrite mach_bytes_are, (slice_at _ _ _ _ (symtab_command_at ctx cpu c rs)).
    - by eapply des_ser_symtab_command, image_symtab_typed.
    - rewrite ser_symtab_command_len. unfold sizeof_commands. lia. }
  unfold parse_macho. rewrite (bind_with _ _ _ H1), (bind_with _ _ _ H2).
  rewrite (bind_with _ _ _ read_section_headers), (bind_with _ _ _ H3).
  rewrite (bind_with _ _ _ read_mach_sections), (bind_with _ _ _ read_mach_symbols).
  cbn [sc_stroff image_symtab]. by rewrite read_nlists.
Qed.
End Emitted.

(** C37: reading a Mach-O file back.  Reading an emitted file within the limits
    of the format, whose symbol names have no zero byte, yields exactly what
    the artifact stands for: the header for its processor; the segment; the
    four default sections and a section per client section, with names,
    addresses, flags, alignment and bytes, and the relocations of the links
    that belong to each, in order; and the symbols of the definitions, of the
    client sections and of the imports, under their names with an
    underscore. *)
Theorem mach_parse_roundtrip (a : Artifact) (cpu : Z) (rs : list (Z * RelocationInfo))
  (bs : list byte)
  (Hem : mach_emitted a cpu rs bs)
  (Hlim : mach_limits (make_ctx (a_target a)) (contents a))
  (Hnul : Forall no_nul (symbol_names (contents a))) :
  to_bytes a = Ok bs ∧
  parse_macho (make_ctx (a_target a)) bs =
    Some (mach_file_of (make_ctx (a_target a)) cpu (contents a) rs).
Proof. split; [apply Hem | by apply parse_macho_emitted]. Qed.
End RoundTrip.

Section ParseWitnesses.
Import ConcreteInstances.
#[local] Existing Instance mach_demo_profile.
#[local] Existing Instance mach_read.
#[local] Existing Instance mach_read_laws.

Lemma mach_demo_limits : mach_limits (make_ctx (a_target mach_demo)) (contents mach_demo).
Proof.
  split; [by vm_compute | by vm_compute |]. intros d s Hd Hs. rewrite mach_demo_defs in Hd.
  repeat (apply elem_of_cons in Hd as [->|Hd];
    [first [by apply elem_of_nil in Hs | apply list_elem_of_singleton in Hs as ->; by vm_compute]|]).
  by apply elem_of_nil in Hd.
Qed.

Lemma mach_demo_names : Forall no_nul (symbol_names (contents mach_demo)).
Proof.
  let l := eval vm_compute in (symbol_names (contents mach_demo)) in
  replace (symbol_names (contents mach_demo)) with l by (by vm_compute).
  repeat constructor; apply (bool_decide_unpack _); by vm_compute.
Qed.

Lemma mach_fields_typed_witness :
  Forall (nlist_typed (make_ctx (a_target mach_demo))) (mach_nlists (contents mach_demo)).
Proof.
  destruct (mach_fields_typed _ _ _ _ mach_demo_emitted mach_demo_limits) as (_ & _ & _ & _ & H & _).
  exact H.
Defined.

(** Reading the program finds its sections and symbols. *)
Lemma mach_parse_roundtrip_witness :
  ∃ f, parse_macho (make_ctx (a_target mach_demo)) mach_demo_bytes = Some f ∧
    (fun s => (ms_sectname (rm_header s), length (rm_relocs s))) <$> mf_sections f =
      (fun p => (name_field p.1, p.2)) <$>
        [("__text", 3%nat); ("__data", 1%nat); ("__cstring", 0%nat); ("__bss", 0%nat);
         ("__debug_info", 1%nat)]%string ∧
    (fun s => (rn_name s, n_sect (rn_nlist s), n_value (rn_nlist s))) <$> mf_symbols f =
      (fun '(n, s, v) => (bytes_of n, s, v)) <$>
        [("_helper"%string, 1, 0); ("_main"%string, 1, 32); ("_tab"%string, 2, 48);
         ("_msg"%string, 3, 56); ("_buf"%string, 4, 59); ("_dbg"%string, 5, 60);
         ("_puts"%string, 0, 0)].
Proof.
  destruct (mach_parse_roundtrip _ _ _ _ mach_demo_emitted mach_demo_limits mach_demo_names) as [_ H].
  eexists. split; [exact H|]. split; vm_compute; reflexivity.
Defined.
End ParseWitnesses.
