(* ===== verification/Clients.v ===== *)
(** * Two clients ([examples/simple.rs] and [examples/prototype.rs])

    Programs that build an object file through the public interface: their
    calls as data, and the programs that make the calls and write the file.
    What the operating system does (creating files, spawning processes and
    waiting for them) and the target triples are parameters; argument parsing,
    logging and the texts printed are left out. *)

From stdpp Require Import base numbers list gmap strings.
From Stdlib Require Import ZArith Lia Strings.Byte.
From S2P Require Import Prelude Std External Decl Artifact ArtifactInv.
From S2P Require Emit.

(** ** Bytes the programs define *)

(** [deadbeef]: reads [DEADBEEF] and adds one; the same in both programs. *)
Definition deadbeef_code : list byte :=
  [x55; x48; x89; xe5; x48; x8b; x05; x00; x00; x00; x00; x8b; x08; x83; xc1; x01; x89; xc8;
   x5d; xc3].

(** [main] of [simple.rs]. *)
Definition simple_main_code : list byte :=
  [x55; x48; x89; xe5; xb8; x00; x00; x00; x00; xe8; x00; x00; x00; x00; x89; xc6;
   x48; x8d; x3d; x00; x00; x00; x00; xb8; x00; x00; x00; x00; xe8; x00; x00; x00; x00;
   xb8; x00; x00; x00; x00; x5d; xc3].

(** [main] of [prototype.rs]. *)
Definition prototype_main_code : list byte :=
  [x55; x48; x89; xe5; x48; x83; xec; x10; xc7; x45; xfc; x00; x00; x00; x00;
   xb8; x00; x00; x00; x00; xe8; x00; x00; x00; x00; x48; x8d; x3d; x00; x00; x00; x00;
   x48; x8b; x0d; x00; x00; x00; x00; x8b; x11; x89; xc6; xb0; x00; xe8; x00; x00; x00; x00;
   x31; xd2; x89; x45; xf8; x89; xd0; x48; x83; xc4; x10; x5d; xc3].

Definition newline : string := String (Ascii.ascii_of_nat 10) EmptyString.
Definition nul : string := String Ascii.zero EmptyString.

Definition simple_string : list byte := bytes_of ("deadbeef: 0x%x" +:+ newline +:+ nul).
Definition prototype_string : list byte := bytes_of ("deadbeef: 0x%x - 0x%x" +:+ newline +:+ nul).

(** The DWARF sections of [deadbeef] in [prototype.rs]. *)
Definition debug_str : list byte :=
  bytes_of (("faerie" +:+ nul) +:+ ("/faerie/reference" +:+ nul) +:+ ("deadbeef.c" +:+ nul) +:+
            ("DEADBEEF" +:+ nul)).

Definition debug_abbrev : list byte :=
  [x01; x11; x01; x25; x0e; x13; x0b; x03; x0e; x1b; x0e; x00; x00;
   x02; x34; x00; x03; x0e; x49; x13; x3f; x19; x02; x18; x00; x00;
   x03; x24; x00; x03; x08; x0b; x0b; x3e; x0b; x00; x00; x00].

Definition debug_info_bytes : list byte :=
  [x30; x00; x00; x00; x04; x00; x00; x00; x00; x00; x08;
   x01; x00; x00; x00; x00; x02; x00; x00; x00; x00; x00; x00; x00; x00;
   x02; x00; x00; x00; x00; x2c; x00; x00; x00;
   x09; x03; x00; x00; x00; x00; x00; x00; x00; x00;
   x03; x69; x6e; x74; x00; x04; x05; x00].

(** [debug_info[i] = b] panics out of range. *)
Definition vec_set {E} (i : Z) (b : byte) (v : list byte) : outcome E (list byte) :=
  if (0 <=? i) && (i <? zlen v) then Ok (<[Z.to_nat i := b]> v) else Panic "index out of bounds".

(** With [--mach] the offsets into [.debug_str] are written out. *)
Definition debug_info {E} (mach : bool) : outcome E (list byte) :=
  if mach then
    let! v := vec_set 17 x19 debug_info_bytes in
    let! v := vec_set 21 x07 v in
    vec_set 26 x24 v
  else Ok debug_info_bytes.

(** ** [std::str::from_utf8]

    The bytes of a string are its valid sequences: one to four bytes, shortest
    form, no surrogates, nothing above [0x10ffff]. *)
Definition byte_in (lo hi : Z) (b : byte) : bool :=
  let x := Z.of_N (Byte.to_N b) in (lo <=? x) && (x <=? hi).

Fixpoint utf8_valid (bs : list byte) : bool :=
  match bs with
  | [] => true
  | b1 :: r1 =>
      if byte_in 0x00 0x7f b1 then utf8_valid r1
      else
        match r1 with
        | [] => false
        | b2 :: r2 =>
            if byte_in 0xc2 0xdf b1 then byte_in 0x80 0xbf b2 && utf8_valid r2
            else
              match r2 with
              | [] => false
              | b3 :: r3 =>
                  if byte_in 0xe0 0xef b1 then
                    byte_in (if byte_in 0xe0 0xe0 b1 then 0xa0 else 0x80)
                      (if byte_in 0xed 0xed b1 then 0x9f else 0xbf) b2 &&
                    byte_in 0x80 0xbf b3 && utf8_valid r3
                  else
                    match r3 with
                    | [] => false
                    | b4 :: r4 =>
                        byte_in 0xf0 0xf4 b1 &&
                        byte_in (if byte_in 0xf0 0xf0 b1 then 0x90 else 0x80)
                          (if byte_in 0xf4 0xf4 b1 then 0x8f else 0xbf) b2 &&
                        byte_in 0x80 0xbf b3 && byte_in 0x80 0xbf b4 && utf8_valid r4
                    end
              end
        end
  end.

Definition from_utf8 (bs : list byte) : option (list byte) :=
  if utf8_valid bs then Some bs else None.

(** [std::process::Output] *)
Record Output := mkOutput { out_status : Z; out_stdout : list byte }.

Section Clients.
Context {TL : TargetLexicon} {SI : StringInterner} {IM : IndexMapOps}.
Context {G : GoblinElf} {GM : GoblinMach} {SC : Scroll} {OS : OsFile} {P : Profile}.

(** Calls with [?]: stop at the first that fails. *)
Fixpoint try_ops (os : list op) (a : Artifact) : Artifact * outcome ArtifactError unit :=
  match os with
  | [] => (a, Ok tt)
  | o :: os =>
      match exec o a with
      | (a, Ok _) => try_ops os a
      | (a, r) => (a, r)
      end
  end.

(** The file afterwards, if it was created, and the result. *)
Abbreviation client := (option File * outcome ArtifactError unit)%type.

(** Create the file, make the calls, write the object, then go on. *)
Definition write_object (created : outcome ArtifactError File) (b : ArtifactBuilder)
  (calls : outcome ArtifactError (list op)) (next : outcome ArtifactError unit) : client :=
  match created with
  | Ok file =>
      match calls with
      | Ok os =>
          match try_ops os (finish b) with
          | (obj, Ok _) =>
              let '(file, r) := Emit.write obj file in
              (Some file, do! r in next)
          | (_, r) => (Some file, r)
          end
      | Err e => (Some file, Err e)
      | Panic m => (Some file, Panic m)
      end
  | Err e => (None, Err e)
  | Panic m => (None, Panic m)
  end.

(** ** [examples/simple.rs] *)
Definition simple_declarations : list (string * Decl) :=
  [ ("deadbeef"%string, into_decl function);
    ("main"%string, into_decl (global function));
    ("str.1"%string, into_decl cstring);
    ("DEADBEEF"%string, into_decl data_import);
    ("printf"%string, into_decl function_import) ].

Definition simple_calls : list op :=
  [ ODeclarations simple_declarations;
    ODefine "deadbeef" deadbeef_code;
    ODefine "main" simple_main_code;
    ODefine "str.1" simple_string;
    OLink (mkLink "main" "str.1" 19);
    OLink (mkLink "main" "printf" 29);
    OLink (mkLink "main" "deadbeef" 10);
    OLink (mkLink "deadbeef" "DEADBEEF" 7) ].

(** [main]; [triple] is [x86_64-unknown-unknown-unknown-elf]. *)
Definition simple_main (create : string → outcome ArtifactError File) (triple : Triple) : client :=
  write_object (create "test.o"%string)
    (ArtifactBuilder_name (ArtifactBuilder_new triple) "test.o") (Ok simple_calls) (Ok tt).

(** ** [examples/prototype.rs] *)
Record Args := mkArgs {
  arg_deadbeef : bool; arg_link : option string; arg_debug : bool; arg_mach : bool;
  arg_library : bool; arg_dwarf : bool; arg_filename : string; arg_linkline : list string
}.

Section Prototype.
(** [File::create], [Command::spawn] of a program with its arguments,
    [Child::wait_with_output], and the triples of the 64-bit x86 without
    system. *)
Context (create : string → outcome ArtifactError File).
Context {Child : Type} (spawn : string → list string → ArtifactError + Child).
Context (wait_with_output : Child → ArtifactError + Output).
Context (triple : BinaryFormat → Triple).

Definition prototype_target (args : Args) : Triple :=
  triple (if arg_mach args then BF_Macho else BF_Elf).

Definition prototype_builder (args : Args) : ArtifactBuilder :=
  ArtifactBuilder_library
    (ArtifactBuilder_name (ArtifactBuilder_new (prototype_target args)) (arg_filename args))
    (arg_library args).

Definition link (name output : string) (linkline : list string) : outcome ArtifactError unit :=
  match spawn "cc" (linkline ++ [name; "-o"; output]%string) with
  | inl e => Err e
  | inr child =>
      match wait_with_output child with
      | inl e => Err e
      | inr child =>
          do! expect (from_utf8 (out_stdout child)) "called `Result::unwrap()` on an `Err` value" in
          Ok tt
      end
  end.

(** Linking, if it was asked for. *)
Definition link_if (args : Args) : outcome ArtifactError unit :=
  match arg_link args with
  | Some output => link (arg_filename args) output (arg_linkline args)
  | None => Ok tt
  end.

(** The calls of [run]. *)
Definition run_calls : outcome ArtifactError (list op) :=
  let! static_ref := with_align (Some 64) (writable (global data)) in
  Ok [ ODeclarations
         [ ("deadbeef"%string, into_decl function);
           ("main"%string, into_decl (global function));
           ("str.1"%string, into_decl cstring);
           ("DEADBEEF"%string, into_decl data_import);
           ("STATIC"%string, into_decl (writable (global data)));
           ("STATIC_REF"%string, into_decl static_ref);
           ("printf"%string, into_decl function_import) ];
       ODefine "deadbeef" deadbeef_code;
       ODefine "main" prototype_main_code;
       ODefine "str.1" prototype_string;
       ODefine "STATIC" [xbe; xba; xfe; xca];
       ODefine "STATIC_REF" (zeros 8);
       ODeclare ".faerie" (into_decl (section SK_Data));
       ODefine ".faerie" (bytes_of "some data");
       OLink (mkLink "main" "deadbeef" 21);
       OLink (mkLink "main" "str.1" 28);
       OLink (mkLink "main" "STATIC_REF" 35);
       OLink (mkLink "main" "printf" 46);
       OLink (mkLink "deadbeef" "DEADBEEF" 7);
       OLink (mkLink "STATIC_REF" "STATIC" 0) ].

Definition prototype_run (args : Args) : client :=
  write_object (create (arg_filename args)) (prototype_builder args) run_calls (link_if args).

(** The links of [.debug_info] to the other debug sections, made for ELF. *)
Definition debug_links : list op :=
  [ OLinkWith (mkLink ".debug_info" ".debug_abbrev" 6) (Debug 4 0);
    OLinkWith (mkLink ".debug_info" ".debug_str" 12) (Debug 4 0);
    OLinkWith (mkLink ".debug_info" ".debug_str" 17) (Debug 4 25);
    OLinkWith (mkLink ".debug_info" ".debug_str" 21) (Debug 4 7);
    OLinkWith (mkLink ".debug_info" ".debug_str" 26) (Debug 4 36) ].

(** The calls of [deadbeef].  The bytes of [.debug_info] are the same whenever
    they are computed. *)
Definition deadbeef_calls (args : Args) : outcome ArtifactError (list op) :=
  let first :=
    [ ODeclare "DEADBEEF" (into_decl (read_only (global data)));
      ODefine "DEADBEEF" [xef; xbe; xad; xde] ] in
  if arg_dwarf args then
    let! info := debug_info (arg_mach args) in
    Ok (first ++
        [ ODeclare ".debug_abbrev" (into_decl (section SK_Debug));
          ODeclare ".debug_info" (into_decl (section SK_Debug));
          ODeclare ".debug_str" (into_decl (section SK_Debug));
          ODefine ".debug_str" debug_str;
          ODefine ".debug_abbrev" debug_abbrev ] ++
        (if arg_mach args then [] else debug_links) ++
        [ OLinkWith (mkLink ".debug_info" "DEADBEEF" 36) (Debug 8 0);
          ODefine ".debug_info" info ])
  else Ok first.

Definition prototype_deadbeef (args : Args) : client :=
  write_object (create (arg_filename args)) (prototype_builder args) (deadbeef_calls args)
    (link_if args).

(** [main]: the file, and the error it prints, if any; it ends normally even
    then. *)
Definition prototype_main (args : Args) : option File * outcome Empty_set (option ArtifactError) :=
  let '(file, res) := if arg_deadbeef args then prototype_deadbeef args else prototype_run args in
  (file,
   match res with
   | Ok _ => Ok None
   | Err err => Ok (Some err)
   | Panic m => Panic m
   end).
End Prototype.
End Clients.
