(* ===== verification/ClientTheorems.v ===== *)
(** * When a client gets its object file

    What making calls and writing the object come to when the calls succeed, and
    an executable condition under which an artifact is emitted. *)

From stdpp Require Import base numbers list gmap strings.
From Stdlib Require Import ZArith Lia Strings.Byte.
From S2P Require Import Prelude Std External Instances Decl Artifact ArtifactInv ArtifactSpec.
From S2P Require Import Contents Target Clients.
From S2P Require Emit ElfBuild ElfRepr ElfLink ElfObject ElfLayout ElfImage ElfTheorems EmitTheorems.
From S2P Require MachBuild MachObject MachLink MachImage MachTheorems MachWitnesses.
From S2P Require Overflow ElfOverflow MachOverflow EmitChecked.

(** ** Bounds on the string table of an ELF file *)
Lemma intern_strtab_len n l :
  ElfRepr.strtab_len (intern n l) ≤ ElfRepr.strtab_len l + (str_len n + 1).
Proof.
  unfold intern. case_decide.
  - pose proof (str_len_nonneg n). lia.
  - rewrite ElfRepr.strtab_len_snoc. lia.
Qed.

Lemma intern_all_strtab_len ns : ∀ l,
  ElfRepr.strtab_len (ElfObject.intern_all ns l) ≤
  ElfRepr.strtab_len l + zsum ((fun n => str_len n + 1) <$> ns).
Proof.
  induction ns as [|n ns IH]; intros l; cbn; [lia|].
  specialize (IH (intern n l)). pose proof (intern_strtab_len n l). unfold ElfObject.intern_all in IH. lia.
Qed.

(** The length of a file grows with its string table and nothing else. *)
Lemma elf_file_len_bound {G : GoblinElf} {GL : GoblinElfLaws G} ctx g strs :
  ElfLayout.file_len ctx strs g ≤
  ElfRepr.abs_end ctx g + ElfRepr.strtab_len strs + 64 +
  ElfLayout.symbol_count g * 28 + ElfLayout.reloc_count g * 24 + ElfLayout.header_count g * 64.
Proof.
  pose proof (ElfLayout.offsets_ordered ctx strs g) as Ho.
  assert (0 < ctx_size ctx ≤ 8) as Hk by lia.
  assert (∀ x k, 0 < k ≤ 8 → ElfLayout.round_up x k ≤ x + 7) as Hr.
  { intros x k Hx. destruct (ElfLayout.round_up_spec x k); lia. }
  assert (ElfLayout.off_symtab ctx strs g ≤ ElfLayout.off_strtab ctx g + ElfRepr.strtab_len strs + 7)
    by (apply Hr; lia).
  assert (ElfLayout.off_shndx ctx strs g ≤ ElfLayout.end_symtab ctx strs g + 7).
  { unfold ElfLayout.off_shndx. destruct (ElfLayout.needs_shndx g); [apply Hr; lia | lia]. }
  assert (ElfLayout.off_reloc ctx strs g ≤ ElfLayout.off_shndx ctx strs g + ElfLayout.size_shndx g + 7)
    by (apply Hr; lia).
  assert (ElfLayout.off_sh ctx strs g ≤
    ElfLayout.off_reloc ctx strs g + ElfLayout.reloc_count g * reloc_size true ctx + 7)
    by (apply Hr; lia).
  assert (ElfLayout.size_shndx g ≤ ElfLayout.symbol_count g * 4).
  { unfold ElfLayout.size_shndx. destruct (ElfLayout.needs_shndx g); lia. }
  unfold ElfLayout.file_len, ElfLayout.off_strtab in *.
  rewrite sym_size_spec, reloc_size_spec, shdr_size_spec in *. destruct (container ctx); lia.
Qed.

(** ** Writing an object whose calls succeed *)
Section Objects.
Context {TL : TargetLexicon} {SI : StringInterner} {IM : IndexMapOps}.
Context {G : GoblinElf} {GM : GoblinMach} {SC : Scroll} {OS : OsFile} {P : Profile}.
Context {SIL : StringInternerLaws SI} {IML : IndexMapLaws IM} {GL : GoblinElfLaws G}.
Context {GML : GoblinMachLaws GM} {SCL : ScrollLaws SC}.

(** The length of the ELF file of an object, the artifact's name aside. *)
Definition elf_budget (ctx : Ctx) (c : Contents) (g : ElfRepr.AbsElf) : Z :=
  ElfRepr.abs_end ctx g + ElfLayout.symbol_count g * 28 + ElfLayout.reloc_count g * 24 +
  ElfLayout.header_count g * 64 + 128 +
  zsum ((fun n => str_len n + 1) <$> concat (ElfObject.def_names <$> c_defs c) ++ (c_imports c).*1 ++
          (ElfLink.rela_name g <$> (ElfRepr.g_rels g).*1)).

(** The length of the string table, likewise. *)
Lemma file_strings_len a g :
  ElfRepr.strtab_len (ElfTheorems.file_strings a g) ≤
  64 + str_len (a_name a) +
  zsum ((fun n => str_len n + 1) <$> concat (ElfObject.def_names <$> c_defs (contents a)) ++
          (c_imports (contents a)).*1 ++ (ElfLink.rela_name g <$> (ElfRepr.g_rels g).*1)).
Proof.
  unfold ElfTheorems.file_strings, ElfLayout.final_strings, ElfObject.object_strings.
  set (names := concat _ ++ _).
  pose proof (intern_all_strtab_len ([".strtab"; ".symtab"; a_name a]%string ++ names) []) as Hi.
  rewrite fmap_app, zsum_app in Hi. cbn [fmap list_fmap zsum] in Hi.
  change (ElfRepr.strtab_len []) with 1 in Hi. change (str_len ".strtab") with 7 in Hi.
  change (str_len ".symtab") with 7 in Hi.
  set (strs := ElfObject.intern_all _ _) in *.
  pose proof (intern_strtab_len ".symtab_shndx" strs) as H1.
  change (str_len ".symtab_shndx") with 13 in H1.
  set (strs' := if ElfLayout.needs_shndx g then _ else _).
  assert (ElfRepr.strtab_len strs' ≤ ElfRepr.strtab_len strs + 14)
    by (unfold strs'; destruct (ElfLayout.needs_shndx g); lia).
  pose proof (intern_strtab_len ".note.GNU-stack" strs') as H2.
  change (str_len ".note.GNU-stack") with 15 in H2. cbn [fmap] in *. lia.
Qed.

Lemma elf_fits_budget a g :
  ElfLayout.header_count g < 2 ^ 32 → ElfLayout.symbol_count g < 2 ^ 32 →
  elf_budget (make_ctx (a_target a)) (contents a) g + str_len (a_name a) < 2 ^ 64 →
  ElfTheorems.fits a g.
Proof.
  intros Hh Hs Hb. split; [done|]. split; [done|].
  eapply Z.le_lt_trans; [apply elf_file_len_bound|]. unfold elf_budget in Hb.
  pose proof (file_strings_len a g). lia.
Qed.

Lemma try_ops_reachable os : ∀ a, reachable a → reachable (try_ops os a).1.
Proof.
  induction os as [|o os IH]; intros a Ha; cbn [try_ops]; [done|].
  pose proof (reach_op a o Ha) as H1. destruct (exec o a) as [a1 r]. cbn [fst] in H1.
  destruct r; [by apply IH | done | done].
Qed.

(** No call changes the name or the target. *)
Definition same_identity (a a' : Artifact) : Prop :=
  a_name a' = a_name a ∧ a_target a' = a_target a.

Lemma declare_identity a n d : same_identity a (declare a n d).1.
Proof.
  unfold declare, declare_imports. destruct (si_get_or_intern _ _), (im_or_insert _ _ _).
  destruct (absorb _ _) as [nd| |]; [|done..]. destruct nd; repeat case_match; done.
Qed.

Lemma declarations_identity ds : ∀ a, same_identity a (declarations a ds).1.
Proof.
  induction ds as [|[n d] ds IH]; intros a; cbn [declarations]; [done|].
  pose proof (declare_identity a n d) as H1. destruct (declare a n d) as [a1 [| |]]; [|done..].
  specialize (IH a1). unfold same_identity in *. cbn [fst] in *. intuition congruence.
Qed.

Lemma define_identity a n d s : same_identity a (define_with_symbols a n d s).1.
Proof. unfold define_with_symbols. destruct (si_get_or_intern _ _). repeat case_match; done. Qed.

Lemma link_identity a l r : same_identity a (link_with a l r).1.
Proof.
  unfold link_with. destruct (si_get_or_intern _ _), (si_get_or_intern _ _). repeat case_match; done.
Qed.

Lemma exec_identity o a : same_identity a (exec o a).1.
Proof.
  destruct o as [n d|ds|n d b|n k|n b|n z|n d s|l|l r]; cbn [exec];
    [apply declare_identity | apply declarations_identity | | apply declare_identity
    | apply define_identity.. | apply link_identity | apply link_identity].
  unfold declare_with. pose proof (declare_identity a n d) as H1.
  destruct (declare a n d) as [a1 [| |]]; [|done..].
  pose proof (define_identity a1 n (Blob b) []) as H2. unfold define.
  unfold same_identity in *. cbn [fst] in *. intuition congruence.
Qed.

Lemma try_ops_identity os : ∀ a, same_identity a (try_ops os a).1.
Proof.
  induction os as [|o os IH]; intros a; cbn [try_ops]; [done|].
  pose proof (exec_identity o a) as H1. destruct (exec o a) as [a1 [| |]]; [|done..].
  specialize (IH a1). unfold same_identity in *. cbn [fst] in *. intuition congruence.
Qed.

(** The calls of a client succeed and leave nothing undefined. *)
Definition calls_ok (b : ArtifactBuilder) (os : list op) : bool :=
  is_ok (try_ops os (finish b)).2 &&
  match undefined_symbols (E:=ArtifactError) (try_ops os (finish b)).1 with
  | Ok [] => true
  | _ => false
  end.

Lemma write_object_ok b os file next bs :
  calls_ok b os = true → let a := (try_ops os (finish b)).1 in
  Emit.emit a = Ok bs →
  write_object (Ok file) b (Ok os) next =
  (Some (file_write_all file bs).1,
   match (file_write_all file bs).2 with None => next | Some e => Err (Io e) end).
Proof.
  intros Hc a Hb. unfold write_object. unfold calls_ok in Hc. apply andb_true_iff in Hc as [Hc _].
  unfold a in Hb. destruct (try_ops os (finish b)) as [a' [[]| |]]; try done. cbn [fst] in Hb.
  unfold Emit.write, Emit.write_as. unfold Emit.emit in Hb. rewrite Hb.
  by destruct (file_write_all file bs) as [f' [e|]].
Qed.

Lemma calls_ok_defined b os :
  calls_ok b os = true →
  reachable (try_ops os (finish b)).1 ∧
  undefined_symbols (E:=ArtifactError) (try_ops os (finish b)).1 = Ok [].
Proof.
  intros Hc. split; [apply try_ops_reachable, reach_finish|].
  apply andb_true_iff in Hc as [_ Hu]. by destruct (undefined_symbols _) as [[|]| |].
Qed.

(** ** Decidable conditions for emission *)
Definition elf_check (ctx : Ctx) (c : Contents) : bool :=
  bool_decide (NoDup (ElfObject.sec_name <$> c_defs c)) &&
  bool_decide (NoDup (ElfObject.symbol_names c)) &&
  forallb (fun l => is_ok (ElfState.link_reloc (E:=unit) ctx l)) (c_links c) &&
  (zlen (c_defs c) + 4 <? 2 ^ 32) && (zlen (ElfObject.symbol_names c) <? 2 ^ 32) &&
  match ElfObject.abs_object (E:=goblin_error) ctx c with
  | Ok g => (ElfLayout.header_count g <? 2 ^ 32) && (ElfLayout.symbol_count g <? 2 ^ 32) &&
            (elf_budget ctx c g <? 2 ^ 63)
  | _ => false
  end.

Definition align_check (d : Definition_) : bool :=
  let a := default 1 (DefinedDecl_get_align (d_decl d)) in is_power_of_two a && (a <? 2 ^ 64).

Definition section_check (d : Definition_) : bool :=
  bool_decide (d_name d ∉ MachObject.default_names) &&
  (str_len (MachState.custom_sectname (d_name d)) <=? 16).

Definition mach_check (ctx : Ctx) (c : Contents) : bool :=
  forallb align_check (c_defs c) &&
  forallb section_check (MachObject.in_slot MachObject.SCustom (c_defs c)) &&
  bool_decide (NoDup (""%string :: (MachObject.mach_symbols c).*1)) &&
  match MachLink.mach_relocs (E:=io_error) (MachObject.mach_symbols c) (MachImage.mach_keys c)
          (c_links c) with
  | Ok rs => MachImage.mach_file_len ctx c rs <? 2 ^ 32
  | _ => false
  end.

Ltac split_checks H :=
  repeat (let H1 := fresh H in apply andb_true_iff in H as [H H1]).

Lemma elf_check_emits a machine :
  reachable a → undefined_symbols (E:=ArtifactError) a = Ok [] →
  binary_format (a_target a) = BF_Elf →
  ElfBuild.MachineTag_from (E:=goblin_error) (architecture (a_target a)) = Ok machine →
  a_name a ≠ ".strtab"%string ∧ a_name a ≠ ".symtab"%string → str_len (a_name a) < 2 ^ 63 →
  elf_check (make_ctx (a_target a)) (contents a) = true →
  ∃ g bs, Emit.emit a = Ok bs ∧ ElfTheorems.elf_emitted a machine g bs.
Proof.
  intros Hreach Hdef Hfmt Hmach Hname Hlen Hc. unfold elf_check in Hc.
  apply andb_true_iff in Hc as [Hc Hg]. split_checks Hc.
  apply bool_decide_eq_true in Hc, Hc3. apply Z.ltb_lt in Hc0, Hc1.
  assert (ElfObject.elf_ready (make_ctx (a_target a)) (a_name a) (contents a)) as Hready.
  { split; try done. intros l Hl. rewrite forallb_forall in Hc2. apply Hc2. by apply list_elem_of_In. }
  destruct (ElfTheorems.to_bytes_image a machine Hreach Hdef Hready Hmach) as (g & Eg & _ & _ & Hb & _).
  rewrite Eg in Hg. split_checks Hg. apply Z.ltb_lt in Hg, Hg0, Hg1.
  assert (ElfTheorems.fits a g) as Hf by (apply elf_fits_budget; lia).
  exists g. eexists. split.
  - unfold Emit.emit. rewrite Hfmt, EmitTheorems.emit_as_complete, Hb by done. done.
  - split; try done. by apply Hb.
Qed.

Lemma align_check_ok d : align_check d = true → MachPlace.align_valid (d_decl d).
Proof.
  unfold align_check. intros [Hp Hl]%andb_true_iff. apply is_power_of_two_spec in Hp as (k & Hk & Ek).
  apply Z.ltb_lt in Hl. exists k. split; [|done]. split; [done|].
  apply (Z.pow_lt_mono_r_iff 2); [lia|lia|]. by rewrite <- Ek.
Qed.

Lemma mach_check_emits a cpu :
  reachable a → undefined_symbols (E:=ArtifactError) a = Ok [] →
  binary_format (a_target a) = BF_Macho →
  MachBuild.CpuType_from (E:=io_error) (architecture (a_target a)) = Ok cpu →
  mach_check (make_ctx (a_target a)) (contents a) = true →
  ∃ rs bs, Emit.emit a = Ok bs ∧ MachTheorems.mach_emitted a cpu rs bs.
Proof.
  intros Hreach Hdef Hfmt Hcpu Hc. unfold mach_check in Hc.
  apply andb_true_iff in Hc as [Hc Hrs]. split_checks Hc. apply bool_decide_eq_true in Hc0.
  rewrite forallb_forall in Hc, Hc1.
  assert (MachImage.mach_ready (contents a)) as Hready.
  { split; [| |exact Hc0].
    - intros d Hd. apply align_check_ok, Hc. by apply list_elem_of_In.
    - intros d Hd. apply list_elem_of_In, Hc1 in Hd. apply andb_true_iff in Hd as [H1 H2].
      apply bool_decide_eq_true in H1. apply Z.leb_le in H2. done. }
  destruct (MachLink.mach_relocs _ _ _) as [rs| |] eqn:Ers; try done. apply Z.ltb_lt in Hrs.
  pose proof (MachTheorems.mach_bytes_image a cpu rs Hreach Hdef Hready Hcpu Ers Hrs) as Hb.
  exists rs. eexists. split.
  - unfold Emit.emit. rewrite Hfmt, EmitTheorems.emit_as_complete, Hb by done. done.
  - split; try done.
Qed.

(** What [emit] needs of a complete artifact. *)
Definition emit_check (a : Artifact) : bool :=
  let ctx := make_ctx (a_target a) in
  match binary_format (a_target a) with
  | BF_Elf =>
      is_ok (ElfBuild.MachineTag_from (E:=goblin_error) (architecture (a_target a))) &&
      bool_decide (a_name a ≠ ".strtab"%string ∧ a_name a ≠ ".symtab"%string) &&
      (str_len (a_name a) <? 2 ^ 63) && elf_check ctx (contents a)
  | BF_Macho =>
      is_ok (MachBuild.CpuType_from (E:=io_error) (architecture (a_target a))) &&
      mach_check ctx (contents a)
  | BF_other _ => false
  end.

(** [bs] is a well-formed object of the artifact, in the target's format. *)
Definition object_of (a : Artifact) (bs : list byte) : Prop :=
  match binary_format (a_target a) with
  | BF_Elf => ∃ machine g, ElfTheorems.elf_emitted a machine g bs
  | BF_Macho => ∃ cpu rs, MachTheorems.mach_emitted a cpu rs bs
  | BF_other _ => False
  end.

Lemma emit_check_emits a :
  reachable a → undefined_symbols (E:=ArtifactError) a = Ok [] → emit_check a = true →
  ∃ bs, Emit.emit a = Ok bs ∧ object_of a bs.
Proof.
  intros Hreach Hdef Hcheck.
  unfold emit_check, object_of in *. destruct (binary_format (a_target a)) eqn:Ef; [| |done].
  - split_checks Hcheck. apply Z.ltb_lt in Hcheck1. apply bool_decide_eq_true in Hcheck2.
    destruct (ElfBuild.MachineTag_from _) as [machine| |] eqn:Em; try done.
    destruct (elf_check_emits a machine) as (g & bs & Hb & He); [done..|]. eauto.
  - split_checks Hcheck.
    destruct (MachBuild.CpuType_from _) as [cpu| |] eqn:Em; try done.
    destruct (mach_check_emits a cpu) as (rs & bs & Hb & He); [done..|]. eauto.
Qed.

(** A build with overflow checks emits the same object, when no sum of the
    Mach-O backend over numbers the client chose overflows. *)
Definition sums_check (a : Artifact) : bool :=
  match binary_format (a_target a) with
  | BF_Macho => MachOverflow.mach_sums_check (contents a)
  | _ => true
  end.

Definition emitted_by_every_build (a : Artifact) (bs : list byte) : Prop :=
  ∀ OC : Overflow.OverflowChecks, EmitChecked.emit_as_ck a (binary_format (a_target a)) = Ok bs.

Lemma object_of_checked a bs : object_of a bs → sums_check a = true → emitted_by_every_build a bs.
Proof.
  unfold object_of, sums_check. intros Ho Hs OC.
  destruct (binary_format (a_target a)) eqn:Ef; [| |done].
  - destruct Ho as (machine & g & []). unfold EmitChecked.emit_as_ck. rewrite em_def. cbn [obind].
    rewrite (ElfOverflow.elf_to_bytes_fits a machine g) by done. by rewrite em_bytes.
  - destruct Ho as (cpu & rs & []). unfold EmitChecked.emit_as_ck. rewrite me_def. cbn [obind].
    rewrite (MachOverflow.mach_to_bytes_fits a cpu rs) by (done || by apply MachOverflow.mach_sums_check_ok).
    by rewrite me_bytes.
Qed.

(** C38: checked artifacts are emitted.  [emit_check] is an executable
    condition on an artifact's target, name and contents.  For every artifact a
    client can build in which nothing is left undefined and which passes it,
    [emit] returns bytes (it neither fails nor panics), and they are those of a
    well-formed object of the target's format. *)
Theorem checked_artifact_emits (a : Artifact)
  (Hreach : reachable a)
  (Hdef : undefined_symbols (E:=ArtifactError) a = Ok [])
  (Hcheck : emit_check a = true) :
  ∃ bs, Emit.emit a = Ok bs ∧ object_of a bs.
Proof. by apply emit_check_emits. Qed.
End Objects.

(** ** The theorem at work *)
Section ClientWitnesses.
Import ConcreteInstances.
#[local] Instance client_profile : Profile := true.

Lemma checked_artifact_emits_witness :
  ∃ bs, Emit.emit MachWitnesses.mach_demo = Ok bs ∧ object_of MachWitnesses.mach_demo bs.
Proof.
  apply (checked_artifact_emits MachWitnesses.mach_demo);
    [apply MachWitnesses.mach_demo_reachable | apply MachWitnesses.mach_demo_defined
    | vm_compute; reflexivity].
Defined.
End ClientWitnesses.
