(* ===== verification/ClientPrograms.v ===== *)
(** * The example clients produce object files

    Whatever file they are asked to write, the example programs make only
    calls that succeed and write the object their calls describe, with any
    implementation of the crates that has their documented behaviour.  The
    calls are run on what the containers of an artifact hold
    ([ArtifactOrder.v]), which does not depend on the crates, and the result is
    checked once and for all. *)

From stdpp Require Import base numbers list gmap strings.
From Stdlib Require Import ZArith Lia Strings.Byte.
From S2P Require Import Prelude Std External Instances Decl Artifact ArtifactInv ArtifactSpec.
From S2P Require Import ArtifactOrder Contents Target Clients ClientTheorems.
From S2P Require Emit ElfBuild ElfRepr ElfLink ElfObject ElfLayout.
From S2P Require MachBuild MachPlace MachObject MachLink MachImage MachOverflow.

(** ** Running calls on the contents of the containers *)
Definition v_empty : View := mkView [] [] [] [] [] [].

Definition v_name (v : View) (id : StringID) : string := default ""%string (zget (v_strs v) id).

Definition v_contents (v : View) : Contents :=
  mkContents
    ((fun d => mkDefinition (v_name v (id_name d)) (id_data d) (id_symbols d) (id_decl d)) <$>
       (v_local v ++ v_nonlocal v))
    (prod_map (v_name v) id <$> v_imports v)
    (omap (fun '(from, to, at_, r) =>
       fd ← al_get (v_decls v) from; td ← al_get (v_decls v) to;
       Some (mkLinkAndDecl (mkBinding (v_name v from) (idecl fd))
               (mkBinding (v_name v to) (idecl td)) at_ r)) (v_links v)).

Definition v_complete (v : View) : bool :=
  forallb (fun d => defined d.2 || is_import (idecl d.2)) (v_decls v).

Section Runs.
Context {TL : TargetLexicon} {SI : StringInterner} {IM : IndexMapOps}.
Context {G : GoblinElf} {OS : OsFile}.
Context {SIL : StringInternerLaws SI} {IML : IndexMapLaws IM}.

Lemma view_finish b : view (finish b) = v_empty.
Proof.
  unfold view, v_empty. cbn. unfold si_strings. by rewrite si_new_iter, im_new_iter.
Qed.

Lemma contents_view a : contents a = v_contents (view a).
Proof.
  assert (∀ id, name_of a id = v_name (view a) id) as Hn.
  { intros id. unfold name_of, v_name. by rewrite si_resolve_spec. }
  unfold contents, v_contents. f_equal.
  - apply list_fmap_ext. intros _ d _. by rewrite Hn.
  - apply list_fmap_ext. intros _ [id k] _. unfold prod_map. cbn. by rewrite Hn.
  - apply list_omap_ext, Forall_Forall2_diag, Forall_forall. intros [[[from to] at_] r] _.
    cbn. rewrite !im_get_spec. by rewrite !Hn.
Qed.

Lemma complete_view {E} a : v_complete (view a) = true → undefined_symbols (E:=E) a = Ok [].
Proof.
  unfold v_complete, undefined_symbols. rewrite forallb_forall. intros Hc.
  match goal with |- omapM _ ?l = _ => assert (l = []) as ->; [|done] end.
  cbn [v_decls view] in Hc. induction (im_iter (a_declarations a)) as [|d l IH]; [done|].
  rewrite filter_cons, IH by (intros x Hx; apply Hc; by right).
  pose proof (Hc d (or_introl eq_refl)). by destruct (defined d.2), (is_import (idecl d.2)).
Qed.

Lemma try_ops_chain os : ∀ a, try_ops os a = chain exec os a.
Proof.
  induction os as [|o os IH]; intros a; cbn; [done|].
  destruct (exec o a) as [a1 [[]| |]]; [apply IH | done..].
Qed.

(** Calls that succeed on the empty containers succeed on a new artifact. *)
Lemma try_ops_view b os v :
  v_run (call_steps os) v_empty = Some v → v_complete v = true →
  calls_ok b os = true ∧ contents (try_ops os (finish b)).1 = v_contents v.
Proof.
  intros Hv Hc. pose proof (chain_view (call_steps os) (finish b)) as [_ Hr].
  rewrite <- chain_calls, <- try_ops_chain, view_finish, Hv in Hr.
  unfold calls_ok. destruct (try_ops os (finish b)) as [a [[]| |]]; [|done..].
  injection Hr as ->. cbn [fst snd is_ok andb]. by rewrite complete_view, contents_view.
Qed.
End Runs.

(** ** Checking an object without the crates *)
Definition x86_64_ctx : Ctx := mkCtx C_Big E_Little.

Section Plans.
Context {TL : TargetLexicon} {SI : StringInterner} {IM : IndexMapOps}.
Context {G : GoblinElf} {GM : GoblinMach} {SC : Scroll} {OS : OsFile} {P : Profile}.
Context {SIL : StringInternerLaws SI} {IML : IndexMapLaws IM} {GL : GoblinElfLaws G}.
Context {GML : GoblinMachLaws GM} {SCL : ScrollLaws SC}.

(** A link from data, with the relocation it gets in a 64-bit object. *)
Definition explicit_link (l : LinkAndDecl) : LinkAndDecl :=
  match l_reloc l, b_decl (l_from l) with
  | Auto, Defined (DD_Data _) => mkLinkAndDecl (l_from l) (l_to l) (l_at l) (Raw R_X86_64_64 0)
  | _, _ => l
  end.

Lemma explicit_reloc {E} l :
  ElfState.link_reloc (E:=E) x86_64_ctx (explicit_link l) = ElfState.link_reloc x86_64_ctx l.
Proof.
  unfold explicit_link, ElfState.link_reloc. destruct (l_reloc l) as [|t x|z x] eqn:Er; [|by rewrite Er..].
  destruct (b_decl (l_from l)) as [k|[f|f|f]] eqn:Ef; rewrite ?Er, ?Ef; [done|done| |done].
  by rewrite ctx_is_big_spec.
Qed.

Lemma explicit_links {E} ls : ∀ g,
  ofold (ElfLink.abs_link (E:=E) x86_64_ctx) g (explicit_link <$> ls) =
  ofold (ElfLink.abs_link x86_64_ctx) g ls.
Proof.
  assert (∀ l, l_from (explicit_link l) = l_from l ∧ l_to (explicit_link l) = l_to l ∧
    l_at (explicit_link l) = l_at l) as Hf.
  { intros l. unfold explicit_link. by destruct (l_reloc l), (b_decl (l_from l)) as [|[]]. }
  induction ls as [|l ls IH]; intros g; cbn [fmap list_fmap ofold]; [done|].
  assert (ElfLink.abs_link (E:=E) x86_64_ctx g (explicit_link l) = ElfLink.abs_link x86_64_ctx g l) as ->.
  { unfold ElfLink.abs_link, ElfLink.abs_reloc. destruct (Hf l) as (-> & -> & ->).
    by rewrite explicit_reloc. }
  destruct (ElfLink.abs_link _ _ _); cbn [obind]; [apply IH | done..].
Qed.

(** [elf_check] with the sizes of the format's records bounded by numbers. *)
Definition elf_plan (c : Contents) : bool :=
  bool_decide (NoDup (ElfObject.sec_name <$> c_defs c)) &&
  bool_decide (NoDup (ElfObject.symbol_names c)) &&
  forallb (fun l => is_ok (ElfState.link_reloc (E:=unit) x86_64_ctx (explicit_link l))) (c_links c) &&
  (zlen (c_defs c) + 4 <? 2 ^ 32) && (zlen (ElfObject.symbol_names c) <? 2 ^ 32) &&
  match ElfObject.abs_object (E:=goblin_error) x86_64_ctx
          (mkContents (c_defs c) (c_imports c) (explicit_link <$> c_links c)) with
  | Ok g =>
      let headers := 5 + zlen (ElfRepr.g_secs g) + zlen (ElfRepr.g_rels g) in
      (headers <? 2 ^ 32) && (ElfLayout.symbol_count g <? 2 ^ 32) &&
      (64 + zsum (zlen <$> ElfRepr.g_code g) + ElfLayout.symbol_count g * 28 +
       ElfLayout.reloc_count g * 24 + headers * 64 + 128 +
       zsum ((fun n => str_len n + 1) <$> concat (ElfObject.def_names <$> c_defs c) ++ (c_imports c).*1 ++
               (ElfLink.rela_name g <$> (ElfRepr.g_rels g).*1)) <? 2 ^ 63)
  | _ => false
  end.

Lemma elf_plan_check c : elf_plan c = true → elf_check x86_64_ctx c = true.
Proof.
  unfold elf_plan, elf_check. unfold ElfObject.abs_object at 1. cbn [c_defs c_imports c_links].
  rewrite explicit_links. fold (ElfObject.abs_object (E:=goblin_error) x86_64_ctx c).
  rewrite !andb_true_iff. intros [[[[[H0 H1] H2] H3] H4] Hg]. split.
  { do 2 (split; [|done]). split; [done|]. rewrite forallb_forall in H2 |- *. intros l Hl.
    rewrite <- (explicit_reloc l). by apply H2. }
  clear H0 H1 H2 H3 H4. destruct (ElfObject.abs_object x86_64_ctx c) as [g| |]; [|done..].
  assert (ElfLayout.header_count g ≤ 5 + zlen (ElfRepr.g_secs g) + zlen (ElfRepr.g_rels g)) as Hh.
  { unfold ElfLayout.header_count. destruct (ElfLayout.needs_shndx g); lia. }
  pose proof (header_size_spec x86_64_ctx) as Hs. cbn [container x86_64_ctx] in Hs.
  rewrite !andb_true_iff, !Z.ltb_lt in *. unfold elf_budget, ElfRepr.abs_end. rewrite Hs.
  destruct Hg as [[H1 H2] H3]. split; [split; [lia | exact H2]|]. lia.
Qed.

Definition mach_plan (c : Contents) : bool :=
  forallb align_check (c_defs c) &&
  forallb section_check (MachObject.in_slot MachObject.SCustom (c_defs c)) &&
  bool_decide (NoDup (""%string :: (MachObject.mach_symbols c).*1)) &&
  match MachLink.mach_relocs (E:=io_error) (MachObject.mach_symbols c) (MachImage.mach_keys c)
          (c_links c) with
  | Ok rs =>
      (32 + 72 + zlen (MachObject.mach_groups c) * 80 + 24 + MachImage.segment_len c +
       zlen (MachObject.mach_symbols c) * 16 + MachSymtab.strtable_len (MachImage.symbol_names c) +
       MachImage.reloc_count (MachImage.mach_sections x86_64_ctx c rs) * 8 + 1 <? 2 ^ 32)
  | _ => false
  end && MachOverflow.mach_sums_check c.

Lemma mach_plan_check c :
  mach_plan c = true → mach_check x86_64_ctx c = true ∧ MachOverflow.mach_sums_check c = true.
Proof.
  unfold mach_plan, mach_check. rewrite !andb_true_iff. intros [[H Hr] Hs]. split; [|exact Hs].
  split; [exact H|]. destruct (MachLink.mach_relocs _ _ _) as [rs| |]; [|done..].
  rewrite Z.ltb_lt in *. unfold MachImage.mach_file_len, MachImage.off_relocs, MachImage.off_strings,
    MachImage.off_symbols, MachImage.off_first, MachImage.sizeof_commands, MachImage.segment_cmdsize.
  rewrite mach_header_size_spec, segment_size_spec, mach_section_size_spec, nlist_size_spec.
  cbn [container x86_64_ctx]. lia.
Qed.

(** The 64-bit little-endian x86 in a format. *)
Record x86_64_triple (t : Triple) (format : BinaryFormat) : Prop := {
  x86_width : pointer_width t = Some PW_U64;
  x86_endianness : endianness t = Some E_Little;
  x86_architecture : architecture t = X86_64;
  x86_format : binary_format t = format
}.

Lemma x86_64_make_ctx t f : x86_64_triple t f → make_ctx t = x86_64_ctx.
Proof. intros []. unfold make_ctx. by rewrite x86_width0, x86_endianness0. Qed.

(** What [emit] needs of the contents of an artifact for the x86. *)
Definition plan (format : BinaryFormat) (c : Contents) : bool :=
  match format with
  | BF_Elf => elf_plan c
  | BF_Macho => mach_plan c
  | BF_other _ => false
  end.

Definition name_ok (format : BinaryFormat) (name : string) : Prop :=
  format = BF_Elf →
  name ≠ ".strtab"%string ∧ name ≠ ".symtab"%string ∧ str_len name < 2 ^ 63.

Lemma plan_checks a f :
  x86_64_triple (a_target a) f → name_ok f (a_name a) → plan f (contents a) = true →
  emit_check a = true ∧ sums_check a = true.
Proof.
  intros Ht Hn Hp. unfold emit_check, sums_check. rewrite (x86_64_make_ctx _ _ Ht).
  destruct Ht as [_ _ -> ->]. destruct f as [| |?]; [| |done].
  - destruct (Hn eq_refl) as (H1 & H2 & H3%Z.ltb_lt). cbn in Hp. rewrite (elf_plan_check _ Hp), H3.
    by rewrite bool_decide_true.
  - destruct (mach_plan_check _ Hp) as [-> ->]. done.
Qed.

(** What the program leaves and returns after writing [bs]. *)
Definition written (created : outcome ArtifactError File) (bs : list byte)
  (next : outcome ArtifactError unit) : option File * outcome ArtifactError unit :=
  match created with
  | Ok file =>
      (Some (file_write_all file bs).1,
       match (file_write_all file bs).2 with None => next | Some e => Err (Io e) end)
  | Err e => (None, Err e)
  | Panic m => (None, Panic m)
  end.

(** A program whose calls and object pass the checks writes its object. *)
Lemma program_writes created b os next v f :
  v_run (call_steps os) v_empty = Some v → v_complete v = true → plan f (v_contents v) = true →
  x86_64_triple (ab_target b) f → name_ok f (default "faerie.o"%string (ab_name b)) →
  ∃ a bs, write_object created b (Ok os) next = written created bs next ∧
    a_name a = default "faerie.o"%string (ab_name b) ∧ a_target a = ab_target b ∧
    contents a = v_contents v ∧ object_of a bs ∧ emitted_by_every_build a bs.
Proof.
  intros Hv Hc Hp Ht Hn. destruct (try_ops_view b os v Hv Hc) as [Hok Hcon].
  destruct (try_ops_identity os (finish b)) as [En Et].
  destruct (calls_ok_defined _ _ Hok) as [Hr Hu].
  destruct (plan_checks (try_ops os (finish b)).1 f) as [Hchk Hsum];
    [by rewrite Et | by rewrite En | by rewrite Hcon|].
  destruct (emit_check_emits _ Hr Hu Hchk) as (bs & Hb & Ho).
  exists (try_ops os (finish b)).1, bs. split.
  - destruct created as [file|e|m]; [by apply write_object_ok | done | done].
  - rewrite En, Et. split; [done|]. split; [done|]. split; [done|]. split; [done|].
    by apply object_of_checked.
Qed.
End Plans.

(** What an object holds: each definition with its bytes, the imports and the
    links. *)
Definition outline (c : Contents) :
  list (string * list byte) * list string * list (string * string * Z) :=
  ((fun d => (d_name d, MachPlace.def_data d)) <$> c_defs c, (c_imports c).*1,
   (fun l => (b_name (l_from l), b_name (l_to l), l_at l)) <$> c_links c).

(** ** The programs *)
Section Programs.
Context {TL : TargetLexicon} {SI : StringInterner} {IM : IndexMapOps}.
Context {G : GoblinElf} {GM : GoblinMach} {SC : Scroll} {OS : OsFile} {P : Profile}.
Context {SIL : StringInternerLaws SI} {IML : IndexMapLaws IM} {GL : GoblinElfLaws G}.
Context {GML : GoblinMachLaws GM} {SCL : ScrollLaws SC}.

Definition simple_outline : list (string * list byte) * list string * list (string * string * Z) :=
  ([("deadbeef", deadbeef_code); ("str.1", simple_string); ("main", simple_main_code)],
   ["DEADBEEF"; "printf"],
   [("main", "str.1", 19); ("main", "printf", 29); ("main", "deadbeef", 10);
    ("deadbeef", "DEADBEEF", 7)])%string.

Lemma simple_runs :
  ∃ v, v_run (call_steps simple_calls) v_empty = Some v ∧ v_complete v = true ∧
    plan BF_Elf (v_contents v) = true ∧ outline (v_contents v) = simple_outline.
Proof.
  eexists. split; [vm_compute; reflexivity|]. split; [vm_compute; reflexivity|].
  split; vm_compute; reflexivity.
Qed.


(** [.debug_info]: its length and version, the offset of its abbreviations, the
    size of an address; then the compile unit with the offsets of the name of
    its producer, of its own and of its directory in [.debug_str]; then the
    variable with the offset of its name and its address; then its type.  The
    offsets are left to the linker for ELF. *)
Definition prototype_debug_info (mach : bool) : list byte :=
  let str_offset o := if mach then [o; x00; x00; x00] else zeros 4 in
  [x30; x00; x00; x00; x04; x00] ++ zeros 4 ++ [x08] ++
  [x01] ++ zeros 4 ++ [x02] ++ str_offset x19 ++ str_offset x07 ++
  [x02] ++ str_offset x24 ++ [x2c; x00; x00; x00; x09; x03] ++ zeros 8 ++
  [x03] ++ bytes_of "int" ++ [x00; x04; x05; x00].

(** What [prototype.rs] is meant to put into its object. *)
Definition prototype_outline (args : Args) :
  list (string * list byte) * list string * list (string * string * Z) :=
  let deadbeef := [("DEADBEEF", [xef; xbe; xad; xde])]%string in
  if arg_deadbeef args then
    if arg_dwarf args then
      ([(".debug_abbrev", debug_abbrev); (".debug_info", prototype_debug_info (arg_mach args));
        (".debug_str", debug_str)]%string ++ deadbeef, [],
       (if arg_mach args then []
        else [(".debug_info", ".debug_abbrev", 6); (".debug_info", ".debug_str", 12);
              (".debug_info", ".debug_str", 17); (".debug_info", ".debug_str", 21);
              (".debug_info", ".debug_str", 26)]%string) ++
       [(".debug_info", "DEADBEEF", 36)]%string)
    else (deadbeef, [], [])
  else
    ([("deadbeef", deadbeef_code); ("str.1", prototype_string); (".faerie", bytes_of "some data");
      ("main", prototype_main_code); ("STATIC", [xbe; xba; xfe; xca]); ("STATIC_REF", zeros 8)],
     ["DEADBEEF"; "printf"],
     [("main", "deadbeef", 21); ("main", "str.1", 28); ("main", "STATIC_REF", 35);
      ("main", "printf", 46); ("deadbeef", "DEADBEEF", 7); ("STATIC_REF", "STATIC", 0)])%string.

(** What linking reports: an error if [cc] cannot be started or waited for. *)
Definition cc_error {Child} (spawn : string → list string → ArtifactError + Child)
  (wait : Child → ArtifactError + Output) (argv : list string) : option ArtifactError :=
  match spawn "cc"%string argv with
  | inl e => Some e
  | inr child => match wait child with inl e => Some e | inr _ => None end
  end.

Lemma link_if_error {Child} (spawn : string → list string → ArtifactError + Child) wait args :
  (∀ child out, wait child = inr out → out_stdout out = []) →
  link_if spawn wait args =
  match arg_link args with
  | Some output =>
      from_option Err (Ok tt)
        (cc_error spawn wait (arg_linkline args ++ [arg_filename args; "-o"; output]%string))
  | None => Ok tt
  end.
Proof.
  intros Hout. unfold link_if, link, cc_error. destruct (arg_link args); [|done].
  destruct (spawn _ _) as [e|child]; [done|]. destruct (wait child) as [e|out] eqn:Ew; [done|].
  by rewrite (Hout _ _ Ew).
Qed.


(** The calls of [prototype.rs] succeed with any arguments. *)
Lemma prototype_runs args :
  ∃ os v, (if arg_deadbeef args then deadbeef_calls args else run_calls) = Ok os ∧
    v_run (call_steps os) v_empty = Some v ∧ v_complete v = true ∧
    plan (if arg_mach args then BF_Macho else BF_Elf) (v_contents v) = true ∧
    outline (v_contents v) = prototype_outline args.
Proof.
  destruct args as [[] ? ? [] ? [] ? ?], P; do 2 eexists;
    (split; [vm_compute; reflexivity|]); (split; [vm_compute; reflexivity|]);
    (split; [vm_compute; reflexivity|]); (split; vm_compute; reflexivity).
Qed.

End Programs.

(** ** The theorems at work *)
Section ProgramWitnesses.
Import ConcreteInstances.
#[local] Instance programs_profile : Profile := true.

Definition x86_64 (format : BinaryFormat) : Triple :=
  mkTriple (Some PW_U64) (Some E_Little) X86_64 format.


End ProgramWitnesses.
