(* ===== verification/Tests.v ===== *)
(** * The tests of the repository ([tests/artifact.rs], [tests/elf.rs])

    Each test as a program over the model that says whether its assertions
    hold, evaluated with the concrete instances: objects are emitted and read
    back with [parse] and [parse_macho] in place of [goblin::Object::parse].
    That all of them pass checks the model against the behaviour the tests
    fix.  The two tests that build [0x10000] symbols take their number as a
    parameter and are evaluated with a small one; [TestsLarge.v] proves them
    for the number of the tests. *)

From stdpp Require Import base numbers list gmap strings pretty.
From Stdlib Require Import ZArith Lia Strings.Byte.
From S2P Require Import Prelude Std Bytes External Instances Decl Artifact ArtifactInv ArtifactOrder.
From S2P Require Import Contents Target Codec ElfCodec MachCodec.
From S2P Require ElfParse MachParse Emit.

(** ** Scaffolding *)
Section Tests.
Import ConcreteInstances.
#[local] Instance test_profile : Profile := true.
#[local] Existing Instance elf_read.
#[local] Existing Instance mach_read.

(** [triple!("x86_64")] has no binary format of its own. *)
Definition x86_64 : Triple := mkTriple (Some PW_U64) (Some E_Little) X86_64 (BF_other "unknown").
Definition test_ctx : Ctx := mkCtx C_Big E_Little.

(** Calls that must all succeed, and one that must fail. *)
Definition succeeds (os : list op) (a : Artifact) : bool := is_ok (chain exec os a).2.
Definition after (os : list op) (a : Artifact) : Artifact := (chain exec os a).1.
Definition is_err {E A} (o : outcome E A) : bool := match o with Err _ => true | _ => false end.

Definition bytes1234 : list byte := [x01; x02; x03; x04].
Definition bytes4321 : list byte := [x04; x03; x02; x01].

Definition undefined_are (l : list string) (a : Artifact) : bool :=
  match Artifact.undefined_symbols (E:=unit) a with Ok l' => bool_decide (l' = l) | _ => false end.

Definition imports_count (a : Artifact) : Z := zlen (imports (E:=unit) a).

(** ** [tests/artifact.rs] *)
Definition duplicate_declarations_are_ok : bool :=
  succeeds [ODeclare "str.0" (into_decl data_import);
            ODeclare "str.0" (into_decl (read_only (local data)));
            ODefine "str.0" (bytes_of "hello world" ++ [x00])] (Artifact_new x86_64 "t.o") &&
  succeeds [ODeclarations
    [("str.0"%string, into_decl data_import);
     ("str.0"%string, into_decl (read_only (global data)));
     ("str.0"%string, into_decl data_import);
     ("str.0"%string, into_decl data_import);
     ("str.0"%string, into_decl (read_only (global data)));
     ("f"%string, into_decl function_import);
     ("f"%string, into_decl (global function));
     ("f"%string, into_decl function_import);
     ("f"%string, into_decl function_import);
     ("f"%string, into_decl (global function))]] (Artifact_new x86_64 "t.o").

Definition multiple_different_declarations_are_not_ok : bool :=
  let calls := [ODeclare "f" (into_decl function_import)] in
  let obj := Artifact_new x86_64 "t.o" in
  succeeds calls obj && is_err (declare (after calls obj) "f" (into_decl data)).2.

Definition multiple_different_conflicting_declarations_are_not_ok_and_do_not_overwrite : bool :=
  is_err (declarations (Artifact_new x86_64 "t.o")
    [("f"%string, into_decl function_import); ("f"%string, into_decl (global function));
     ("f"%string, into_decl function_import); ("f"%string, into_decl function_import);
     ("f"%string, into_decl function)]).2.

Definition import_declarations_fill_imports_correctly : bool :=
  let calls := [ODeclarations [("f"%string, into_decl function_import);
                               ("f"%string, into_decl function_import);
                               ("d"%string, into_decl data_import)]] in
  let obj := Artifact_new x86_64 "t.o" in
  succeeds calls obj && (imports_count (after calls obj) =? 2).

Definition import_declarations_work_with_redeclarations : bool :=
  let calls := [ODeclarations [("f"%string, into_decl function_import);
                               ("d"%string, into_decl data_import);
                               ("d"%string, into_decl data_import);
                               ("f"%string, into_decl (global function));
                               ("f"%string, into_decl function_import)]] in
  let obj := Artifact_new x86_64 "t.o" in
  succeeds calls obj && (imports_count (after calls obj) =? 1).

Definition import_helper_adds_declaration_only_once : bool :=
  let calls := [OImport "f" IK_Function] in
  let obj := Artifact_new x86_64 "t.o" in
  succeeds calls obj && (imports_count (after calls obj) =? 1).

Definition declare_f_g : list op :=
  [ODeclarations [("f"%string, into_decl (global function)); ("g"%string, into_decl function)]].

Definition reject_duplicate_definitions : bool :=
  let obj := Artifact_new x86_64 "t.o" in
  let calls := declare_f_g ++ [ODefine "g" bytes1234] in
  let obj1 := after calls obj in
  let r1 := define obj1 "g" bytes1234 in
  let r2 := define r1.1 "f" bytes4321 in
  let r3 := define r2.1 "g" bytes1234 in
  succeeds calls obj && is_err r1.2 && is_ok r2.2 && is_err r3.2 &&
  is_err (define r3.1 "f" bytes1234).2.

Definition undefined_symbols_test : bool :=
  let obj := after declare_f_g (Artifact_new x86_64 "t.o") in
  let obj1 := after [ODefine "g" bytes1234] obj in
  let obj2 := after [ODefine "f" bytes4321] obj1 in
  succeeds declare_f_g (Artifact_new x86_64 "t.o") && undefined_are ["f"; "g"]%string obj &&
  succeeds [ODefine "g" bytes1234] obj && undefined_are ["f"]%string obj1 &&
  succeeds [ODefine "f" bytes4321] obj1 && undefined_are [] obj2.

(** [Object::parse] of what [emit_as] returns. *)
Definition emitted_elf (a : Artifact) : option ElfParse.ElfFile :=
  match Emit.emit_as a BF_Elf with Ok bs => ElfParse.parse test_ctx bs | _ => None end.
Definition emitted_mach (a : Artifact) : option MachParse.MachFile :=
  match Emit.emit_as a BF_Macho with Ok bs => MachParse.parse_macho test_ctx bs | _ => None end.
Definition emitted_below (a : Artifact) (format : BinaryFormat) (size : Z) : bool :=
  match Emit.emit_as a format with Ok bs => zlen bs <? size | _ => false end.

Definition vary_output_formats : bool :=
  let obj := Artifact_new x86_64 "t.o" in
  is_err (Emit.emit obj) && bool_decide (is_Some (emitted_elf obj)) &&
  bool_decide (is_Some (emitted_mach obj)).

Definition bss : bool :=
  let size := 100000000000000 in
  let calls := [ODeclare "my_data" (into_decl (global data)); ODefineZeroInit "my_data" size] in
  let artifact := after calls (Artifact_new x86_64 "bss") in
  succeeds calls (Artifact_new x86_64 "bss") && emitted_below artifact BF_Elf size &&
  match emitted_elf artifact with
  | Some f => negb (bool_decide (length (ElfParse.ef_symbols f) = 0%nat))
  | None => false
  end && emitted_below artifact BF_Macho size &&
  match emitted_mach artifact with
  | Some f => seg_vmsize (MachParse.mf_segment f) =? size
  | None => false
  end.

Definition invalid_bss : bool :=
  let obj := Artifact_new x86_64 "bss" in
  let r1 := declare obj "my_func" (into_decl function) in
  let r2 := define_zero_init r1.1 "my_func" 100 in
  let r3 := declare r2.1 "my_section" (into_decl (section SK_Data)) in
  is_ok r1.2 && is_err r2.2 && is_ok r3.2 && is_err (define_zero_init r3.1 "my_section" 100).2.

(** ** [tests/elf.rs] *)
Definition elf_target : Triple := x86_64_elf.

(** What [goblin]'s [Sym] and [SectionHeader] say of their fields. *)
Definition st_type (s : Sym) : Z := Z.land (st_info s) 15.
Definition st_bind (s : Sym) : Z := Z.shiftr (st_info s) 4.
Definition st_visibility (s : Sym) : Z := Z.land (st_other s) 7.
Definition is_executable (h : SectionHeader) : bool := negb (Z.land (sh_flags h) SHF_EXECINSTR =? 0).
Definition sh_is_writable (h : SectionHeader) : bool := negb (Z.land (sh_flags h) SHF_WRITE =? 0).

Definition file_name_is_same_as_symbol_name_issue_31 : bool :=
  let calls := [ODeclare "a" (into_decl (global function)); ODefine "a" bytes1234] in
  let obj := Artifact_new elf_target "a" in
  succeeds calls obj &&
  match emitted_elf (after calls obj) with
  | Some f =>
      let syms := ElfParse.ef_symbols f in
      (zlen syms =? 4) &&
      match List.find (fun s => ElfParse.rs_shndx s =? SHN_ABS) syms with
      | Some s => bool_decide (ElfParse.rs_symbol_name s = bytes_of "a") &&
                  (st_type (ElfParse.rs_symbol s) =? STT_FILE)
      | None => false
      end &&
      match List.find (fun s => st_type (ElfParse.rs_symbol s) =? STT_FUNC) syms with
      | Some s => bool_decide (ElfParse.rs_symbol_name s = bytes_of "a")
      | None => false
      end
  | None => false
  end.

Definition link_symbol_pair_panic_issue_30 : bool :=
  let calls := [ODeclare "a" (into_decl (global function));
                ODeclareWith "b" (into_decl (global function)) bytes1234;
                OLink (mkLink "b" "a" 0)] in
  let obj := Artifact_new elf_target "t.o" in
  succeeds calls obj && undefined_are ["a"]%string (after calls obj) &&
  is_err (Emit.emit (after calls obj)).

(** [DeclTestCase] *)
Record DeclTestCase := mkDeclTestCase {
  tc_name : string; tc_decl : Decl; tc_pred : Sym → SectionHeader → bool
}.

Definition case_calls (t : DeclTestCase) : list op :=
  [ODeclare (tc_name t) (tc_decl t); ODefine (tc_name t) bytes1234].

Definition case_check (f : ElfParse.ElfFile) (t : DeclTestCase) : bool :=
  match List.find (fun s => bool_decide (ElfParse.rs_symbol_name s = bytes_of (tc_name t)))
          (ElfParse.ef_symbols f) with
  | Some s =>
      match zget (ElfParse.ef_sections f) (ElfParse.rs_shndx s) with
      | Some sect => tc_pred t (ElfParse.rs_symbol s) (ElfParse.rs_header sect)
      | None => false
      end
  | None => false
  end.

Definition decl_tests (tests : list DeclTestCase) : bool :=
  let calls := concat (case_calls <$> tests) in
  let obj := Artifact_new elf_target "a" in
  succeeds calls obj &&
  match emitted_elf (after calls obj) with
  | Some f => forallb (case_check f) tests
  | None => false
  end.

(** A symbol of the given type, binding and visibility in a section that is
    executable and writable or not. *)
Definition attributes (typ bind vis : Z) (exec write : bool) (s : Sym) (h : SectionHeader) : bool :=
  (st_type s =? typ) && (st_bind s =? bind) && (st_visibility s =? vis) &&
  Bool.eqb (is_executable h) exec && Bool.eqb (sh_is_writable h) write.

Definition aligned_decl {D} (o : outcome unit D) `{IntoDecl D} (d : D) : Decl :=
  into_decl (match o with Ok d => d | _ => d end).

Definition decl_attributes : bool := decl_tests
  [ mkDeclTestCase "weak_func" (into_decl (weak function))
      (attributes STT_FUNC STB_WEAK STV_DEFAULT true false);
    mkDeclTestCase "weak_data" (into_decl (weak data))
      (attributes STT_OBJECT STB_WEAK STV_DEFAULT false false);
    mkDeclTestCase "weak_data_writable" (into_decl (writable (weak data)))
      (attributes STT_OBJECT STB_WEAK STV_DEFAULT false true);
    mkDeclTestCase "weak_cstring" (into_decl (weak cstring))
      (attributes STT_OBJECT STB_WEAK STV_DEFAULT false false);
    mkDeclTestCase "hidden_func" (into_decl (hidden function))
      (attributes STT_FUNC STB_LOCAL STV_HIDDEN true false);
    mkDeclTestCase "hidden_data" (into_decl (hidden data))
      (attributes STT_OBJECT STB_LOCAL STV_HIDDEN false false);
    mkDeclTestCase "hidden_cstring" (into_decl (hidden cstring))
      (attributes STT_OBJECT STB_LOCAL STV_HIDDEN false false);
    mkDeclTestCase "protected_func" (into_decl (protected function))
      (attributes STT_FUNC STB_LOCAL STV_PROTECTED true false);
    mkDeclTestCase "protected_data" (into_decl (protected data))
      (attributes STT_OBJECT STB_LOCAL STV_PROTECTED false false);
    mkDeclTestCase "protected_cstring" (into_decl (protected cstring))
      (attributes STT_OBJECT STB_LOCAL STV_PROTECTED false false);
    mkDeclTestCase "ordinary_func" (into_decl function)
      (fun s h => attributes STT_FUNC STB_LOCAL STV_DEFAULT true false s h &&
                  (sh_addralign h =? 16));
    mkDeclTestCase "custom_align_func" (aligned_decl (with_align (Some 64) function) function)
      (fun _ h => sh_addralign h =? 64);
    mkDeclTestCase "custom_align_data" (aligned_decl (with_align (Some 128) data) data)
      (fun _ h => sh_addralign h =? 128) ].

(** [format!("func{}", i)] *)
Definition numbered (prefix : string) (i : nat) : string := prefix +:+ pretty (Z.of_nat i).

(** The test has [n = 0x10000], no [e_shnum] and 65541 section headers. *)
Definition extended_symtab_calls (n : nat) : list op :=
  (fun i => ODeclareWith (numbered "func" i) (into_decl (global function)) [xcc]) <$> seq 0 n.

Definition extended_symtab_issue_76 (n : nat) (shnum shdrs : Z) : bool :=
  let obj := finish (ArtifactBuilder_name (ArtifactBuilder_new elf_target) "extended_symtab.o") in
  succeeds (extended_symtab_calls n) obj &&
  match emitted_elf (after (extended_symtab_calls n) obj) with
  | Some f => (e_shnum (ElfParse.ef_header f) =? shnum) &&
              (zlen (ElfParse.ef_sections f) =? shdrs) &&
              bool_decide (length (ElfParse.ef_relocs f) = 0%nat) &&
              bool_decide (length (ElfParse.ef_symbols f) = (2 * n + 2)%nat)
  | None => false
  end.

(** The test has [n = 0x10000].  The pairs are inserted into a [BTreeMap]; the
    names are distinct, so the order of the pairs is that of the keys. *)
Definition custom_symbols (n : nat) : BTreeMap string Z :=
  fold_left (fun symbols i => bts_insert (numbered "sym" i, Z.of_nat i) symbols) (seq 0 n) [].

Definition custom_section_symbols (n : nat) : bool :=
  let calls := [ODeclare "test_section" (into_decl (with_datatype DT_Bytes (section SK_Data)));
                ODefineWithSymbols "test_section" (Blob (replicate n x00)) (custom_symbols n)] in
  let obj := finish (ArtifactBuilder_name (ArtifactBuilder_new elf_target)
                       "custom_section_symbols.o") in
  succeeds calls obj &&
  match emitted_elf (after calls obj) with
  | Some f =>
      forallb (fun '(name, value) =>
          match List.filter (fun s => bool_decide (ElfParse.rs_symbol_name s = bytes_of name))
                  (ElfParse.ef_symbols f) with
          | [s] => (st_value (ElfParse.rs_symbol s) =? value) &&
                   (st_type (ElfParse.rs_symbol s) =? STT_NOTYPE)
          | _ => false
          end) (custom_symbols n)
  | None => false
  end.

(** The tests pass. *)
Lemma artifact_tests_pass :
  forallb id
    [duplicate_declarations_are_ok; multiple_different_declarations_are_not_ok;
     multiple_different_conflicting_declarations_are_not_ok_and_do_not_overwrite;
     import_declarations_fill_imports_correctly; import_declarations_work_with_redeclarations;
     import_helper_adds_declaration_only_once; reject_duplicate_definitions;
     undefined_symbols_test; vary_output_formats; bss; invalid_bss] = true.
Proof. vm_compute. reflexivity. Qed.

Lemma elf_tests_pass :
  forallb id
    [file_name_is_same_as_symbol_name_issue_31; link_symbol_pair_panic_issue_30; decl_attributes;
     custom_section_symbols 16; extended_symtab_issue_76 16 20 20] = true.
Proof. vm_compute. reflexivity. Qed.
End Tests.
