(* ===== verification/TestsLarge.v ===== *)
(** * The tests with 0x10000 symbols, at their full size

    [extended_symtab_issue_76] and [custom_section_symbols] of [tests/elf.rs]
    build objects too large to evaluate.  What the specification says of the
    calls and what the parser reads back of any emitted file decide their
    assertions for every number of symbols below 2^20. *)

From stdpp Require Import base numbers list gmap strings pretty.
From Stdlib Require Import ZArith Lia Strings.Byte.
From S2P Require Import Prelude Std Bytes External Instances Decl Artifact ArtifactInv ArtifactSpec.
From S2P Require Import ArtifactOrder Contents Target ElfBuild ElfRepr ElfLink ElfObject ElfLayout.
From S2P Require Import ElfImage ElfFacts ElfTheorems Codec ElfCodec ElfTyped ElfParse Tests.
From S2P Require ElfWrite Emit EmitTheorems ClientTheorems.

(** ** Sums and names *)
Lemma zsum_le {A} (f : A → Z) (B : Z) l : (∀ x, x ∈ l → f x ≤ B) → zsum (f <$> l) ≤ zlen l * B.
Proof.
  induction l as [|x l IH]; intros H; cbn [fmap list_fmap zsum]; [done|].
  rewrite zlen_cons. specialize (IH ltac:(set_solver)). specialize (H x ltac:(set_solver)). cbn in *. lia.
Qed.

(** Names that a file holds and gives back. *)
Definition short_name (n : string) : Prop := str_len n < 256 ∧ no_nul n.

Definition short_name_check (n : string) : bool :=
  (str_len n <? 256) && bool_decide (x00 ∉ bytes_of n).

Lemma short_name_check_ok n : short_name_check n = true → short_name n.
Proof. intros [H1 H2]%andb_true_iff. split; [by apply Z.ltb_lt | by apply bool_decide_eq_true in H2]. Qed.

(** ** Calls and the specification *)
Section Calls.
Context {TL : TargetLexicon} {SI : StringInterner} {IM : IndexMapOps} {G : GoblinElf} {OS : OsFile}.
Context {SIL : StringInternerLaws SI} {IML : IndexMapLaws IM}.

(** Calls that all succeed can be made with [?]. *)
Lemma chain_run os : ∀ a,
  Forall (eq (Ok tt)) (run exec os a).2 → chain exec os a = ((run exec os a).1, Ok tt).
Proof.
  induction os as [|o os IH]; intros a; cbn [run chain]; [done|].
  destruct (exec o a) as [a1 r]. specialize (IH a1). destruct (run exec os a1) as [a2 rs].
  cbn [fst snd] in *. intros [<- H]%Forall_cons. auto.
Qed.

Lemma chain_labels os a : labels (chain exec os a).1 = labels a.
Proof. rewrite chain_calls. apply chain_view. Qed.

(** What a client's calls leave, read off the specification: if the calls
    succeed there, they succeed; and if every declared name is defined there,
    the contents are those definitions. *)
Lemma calls_contents b os (ds : list Definition_) :
  let s := (run spec_exec os spec_init).1 in let a := (run exec os (finish b)).1 in
  Forall (eq (Ok tt)) (run spec_exec os spec_init).2 →
  NoDup ds →
  (∀ d, d ∈ ds ↔ sp_defs s !! d_name d = Some (d_data d, d_symbols d) ∧
                 sp_decls s !! d_name d = Some (Defined (d_decl d))) →
  (∀ n k, sp_decls s !! n ≠ Some (Import k)) →
  (∀ n d, sp_decls s !! n = Some (Defined d) → is_Some (sp_defs s !! n)) →
  sp_links s = [] →
  chain exec os (finish b) = (a, Ok tt) ∧ reachable a ∧ undefined_symbols (E:=ArtifactError) a = Ok [] ∧
  c_defs (contents a) ≡ₚ ds ∧ c_imports (contents a) = [] ∧ c_links (contents a) = [].
Proof.
  intros s a Hok Hnd Hds Himp Hdef Hlinks.
  pose proof (reach_finish b) as Hr0. pose proof (reachable_wf _ Hr0) as Hwf0.
  destruct (run_refines os (finish b) spec_init Hwf0 (refines_finish b)) as [Hres Href].
  assert (reachable a) as Hr by by apply run_reachable. pose proof (reachable_wf _ Hr) as Hwf.
  split; [by apply chain_run; rewrite Hres|]. split; [done|].
  destruct (undefined_symbols_spec (E:=ArtifactError) a s Hwf Href) as (l & Hl & Hspec).
  split; [|split; [|split]].
  - rewrite Hl. f_equal. destruct l as [|n l]; [done|]. exfalso.
    destruct (proj1 (Hspec n) ltac:(by left)) as [Hn [d Hd]]. destruct (Hdef n d Hd) as [x Hx].
    congruence.
  - pose proof (definitions_NoDup (E:=unit) a Hwf) as HN. rewrite definitions_contents in HN by done.
    apply NoDup_Permutation; [by eapply NoDup_fmap_1 | done|]. intros d. rewrite Hds.
    rewrite <- (definitions_spec (E:=unit) a s d) by done. rewrite definitions_contents by done.
    rewrite list_elem_of_fmap. split; [intros H; eauto | intros (d' & [= ->] & H); done].
  - pose proof (imports_contents (E:=unit) a Hwf) as HI.
    destruct (c_imports (contents a)) as [|[n k] l'] eqn:Ei; [done|]. exfalso.
    apply (Himp n k), (imports_elem (E:=unit) a s n k Hwf Href). rewrite HI. by left.
  - pose proof (links_view (E:=unit) a s Hwf Href) as HL. rewrite links_contents, Hlinks in HL by done.
    apply Forall2_nil_inv_r in HL. by destruct (c_links (contents a)).
Qed.
End Calls.

(** ** Objects without imports and links *)
Section Large.
Import ConcreteInstances.
#[local] Existing Instance test_profile.
#[local] Existing Instance elf_read.
#[local] Existing Instance elf_read_laws.
Implicit Types (a : Artifact) (g : AbsElf).

Record unlinked a : Prop := {
  ul_reach : reachable a;
  ul_def : undefined_symbols (E:=ArtifactError) a = Ok [];
  ul_imports : c_imports (contents a) = [];
  ul_links : c_links (contents a) = []
}.

(** The bounds both tests keep. *)
Record small (ds : list Definition_) : Prop := {
  sm_defs : zlen ds < 2 ^ 20;
  sm_symbols : zlen (concat (def_symbol_names <$> ds)) < 2 ^ 20;
  sm_code : zsum (zlen <$> concat (def_code <$> ds)) < 2 ^ 32;
  sm_sections : NoDup (sec_name <$> ds);
  sm_distinct : NoDup (concat (def_symbol_names <$> ds));
  sm_names : ∀ n, n ∈ concat (def_names <$> ds) → short_name n;
  sm_typed : Forall (def_typed test_ctx) ds
}.

Lemma unlinked_object a g :
  unlinked a → abs_object (E:=goblin_error) test_ctx (contents a) = Ok g →
  obj_spec test_ctx (contents a) g ∧ g_rels g = [].
Proof.
  intros Hu Hg. destruct (abs_object_closed _ _ _ Hg) as (Hs & _). split; [done|].
  unfold abs_object, abs_imports in Hg. rewrite (ul_links _ Hu), (ul_imports _ Hu) in Hg.
  cbn [fold_left ofold] in Hg.
  injection Hg as <-. by rewrite abs_definitions_rels.
Qed.

Lemma concat_names_len ds :
  zlen (concat (def_names <$> ds)) = zlen ds + zlen (concat (def_symbol_names <$> ds)).
Proof.
  rewrite !zlen_concat. induction ds as [|d ds IH]; [done|].
  cbn [fmap list_fmap zsum] in *. unfold def_names at 1. rewrite !zlen_cons. cbn [fmap] in *. lia.
Qed.

Lemma unlinked_counts a g :
  unlinked a → obj_spec test_ctx (contents a) g → g_rels g = [] →
  zlen (g_secs g) = zlen (c_defs (contents a)) ∧
  zlen (g_syms g) = zlen (concat (def_symbol_names <$> c_defs (contents a))) ∧
  abs_end test_ctx g = 64 + zsum (zlen <$> concat (def_code <$> c_defs (contents a))).
Proof.
  intros Hu [E1 E2 E3 _] Hr. split; [|split].
  - unfold zlen. by rewrite E1, length_imap.
  - rewrite E3, (ul_imports _ Hu). cbn [fmap list_fmap]. rewrite app_nil_r.
    rewrite !zlen_concat. generalize 3. clear. induction (c_defs (contents a)) as [|d ds IH]; intros k; [done|].
    cbn [imap fmap list_fmap zsum]. f_equal.
    + rewrite <- (def_symbols_names (Z.of_nat 0 + k) d). unfold zlen. by rewrite length_fmap.
    + rewrite <- (IH (1 + k)). f_equal. f_equal. apply imap_ext. intros i x _. unfold compose.
      f_equal. lia.
  - unfold abs_end. by rewrite E2.
Qed.

Lemma names_budget ds :
  small ds → zsum ((fun n => str_len n + 1) <$> concat (def_names <$> ds)) ≤ 2 ^ 21 * 256.
Proof.
  intros []. etrans; [apply (zsum_le _ 256)|].
  - intros n Hn. destruct (sm_names0 n Hn). lia.
  - rewrite concat_names_len. lia.
Qed.

Lemma unlinked_fits a g :
  unlinked a → small (c_defs (contents a)) → a_target a = elf_target → short_name (a_name a) →
  obj_spec test_ctx (contents a) g → g_rels g = [] →
  fits a g ∧ fits_fields a g.
Proof.
  intros Hu Hsm Ht [Hn _] Hs Hr. pose proof (names_budget _ Hsm) as Hb.
  destruct (unlinked_counts a g Hu Hs Hr) as (H1 & H2 & H3).
  destruct Hsm as [Hd Hsy Hc _ _ _ _].
  assert (zsum ((fun n => str_len n + 1) <$> concat (def_names <$> c_defs (contents a)) ++
    (c_imports (contents a)).*1 ++ (rela_name g <$> (g_rels g).*1)) ≤ 2 ^ 21 * 256) as Hb'.
  { rewrite (ul_imports _ Hu), Hr. cbn [fmap list_fmap app]. by rewrite app_nil_r. }
  assert (symbol_count g < 2 ^ 22) as Hsc by (unfold symbol_count; lia).
  assert (header_count g < 2 ^ 22) as Hhc.
  { unfold header_count. rewrite Hr. change (zlen []) with 0. destruct (needs_shndx g); lia. }
  assert (reloc_count g = 0) as Hrc by (unfold reloc_count; by rewrite Hr).
  assert (fits a g) as Hf.
  { apply ClientTheorems.elf_fits_budget; [lia..|]. unfold ClientTheorems.elf_budget.
    rewrite Ht. change (make_ctx elf_target) with test_ctx. lia. }
  split; [done|]. pose proof (ClientTheorems.file_strings_len a g). split.
  - lia.
  - destruct Hf as (_ & _ & Hl). rewrite Ht in *. exact Hl.
  - rewrite Ht. change (symbol_count g < 2 ^ 32). lia.
Qed.

Lemma unlinked_names a g :
  unlinked a → small (c_defs (contents a)) → short_name (a_name a) → g_rels g = [] →
  Forall no_nul (all_names a g).
Proof.
  intros Hu Hsm [_ Hn] Hr. unfold all_names. rewrite (ul_imports _ Hu), Hr. cbn [fmap list_fmap].
  assert (∀ n, short_name_check n = true → no_nul n) as Hk by (intros n Hs; by apply short_name_check_ok).
  repeat rewrite Forall_app. split; [|split; [|split; [done|split; [done|split]]]].
  - repeat constructor; [by apply Hk.. | done].
  - apply Forall_forall. intros n Hin. by apply (sm_names _ Hsm).
  - destruct (needs_shndx g); repeat constructor. by apply Hk.
  - repeat constructor. by apply Hk.
Qed.

(** The file of such an object, read back. *)
Lemma unlinked_parses a :
  unlinked a → small (c_defs (contents a)) → a_target a = elf_target → short_name (a_name a) →
  a_name a ≠ ".strtab"%string ∧ a_name a ≠ ".symtab"%string →
  ∃ g machine strs, emitted_elf a = Some (elf_file_of test_ctx machine strs (a_name a) (contents a) g) ∧
    obj_spec test_ctx (contents a) g ∧ g_rels g = [].
Proof.
  intros Hu Hsm Ht Hn Hclash.
  assert (make_ctx (a_target a) = test_ctx) as Ectx by by rewrite Ht.
  assert (symbol_names (contents a) = concat (def_symbol_names <$> c_defs (contents a))) as Esy.
  { unfold symbol_names. rewrite (ul_imports _ Hu). apply app_nil_r. }
  assert (elf_ready (make_ctx (a_target a)) (a_name a) (contents a)) as Hrd.
  { split; rewrite ?Esy; try apply Hsm; [done | | |].
    - intros l. rewrite (ul_links _ Hu). by intros ?%elem_of_nil.
    - destruct Hsm. lia.
    - destruct Hsm. lia. }
  destruct (MachineTag_from (E:=goblin_error) (architecture (a_target a))) as [machine| |] eqn:Em;
    [|by rewrite Ht in Em..].
  destruct (to_bytes_image a machine (ul_reach _ Hu) (ul_def _ Hu) Hrd Em) as (g & Hg & _ & _ & Hb & _).
  rewrite Ectx in Hg. destruct (unlinked_object a g Hu Hg) as [Hs Hr].
  destruct (unlinked_fits a g) as [Hf Hff]; [done..|].
  exists g, machine, (file_strings a g). split; [|done].
  unfold emitted_elf. rewrite EmitTheorems.emit_as_complete by apply Hu.
  rewrite (Hb Hf). cbn [Emit.map_err]. rewrite <- Ectx.
  apply (parse_emitted a machine g); [|split| |]; rewrite ?Ectx; try done.
  - split; rewrite ?Ectx; try done; try apply Hu; [by rewrite <- Ectx | rewrite <- Ectx; by apply Hb].
  - apply Hsm.
  - by rewrite (ul_links _ Hu).
  - by apply unlinked_names.
Qed.

(** How many sections and symbols it has. *)
Lemma unlinked_file_counts a g machine strs :
  unlinked a → obj_spec test_ctx (contents a) g → g_rels g = [] →
  let f := elf_file_of test_ctx machine strs (a_name a) (contents a) g in
  let n := zlen (c_defs (contents a)) in
  e_shnum (ef_header f) = (if SHN_LORESERVE <=? n + 4 then 0 else n + 4) ∧
  zlen (ef_sections f) = n + (if SHN_LORESERVE <=? n + 4 then 5 else 4) ∧
  ef_relocs f = [] ∧
  zlen (ef_symbols f) = 2 + n + zlen (concat (def_symbol_names <$> c_defs (contents a))).
Proof.
  intros Hu Hs Hr f n. destruct (unlinked_counts a g Hu Hs Hr) as (H1 & H2 & _).
  assert (needs_shndx g = (SHN_LORESERVE <=? n + 4)) as En.
  { unfold needs_shndx. rewrite Hr, H1. change (zlen []) with 0. f_equal. lia. }
  cbn [f elf_file_of ef_header ef_sections ef_symbols ef_relocs]. split; [|split; [|split; [done|]]].
  - unfold file_header, header_count. cbn [e_shnum]. rewrite En, H1, Hr. fold n.
    change (zlen []) with 0. destruct (Z.leb_spec SHN_LORESERVE (n + 4)) as [|Hlt]; [done|].
    assert (0 ≤ n) by (unfold n, zlen; lia). change SHN_LORESERVE with 65280 in Hlt.
    rewrite wrap_small; [lia | unfold in_u; lia].
  - unfold file_sections. rewrite Hr, En. cbn [rela_headers zip_with]. unfold n, zlen.
    rewrite !length_app, length_imap. destruct (SHN_LORESERVE <=? _); cbn [length]; lia.
  - rewrite <- H2. unfold n. rewrite <- H1. unfold file_symbols, zlen.
    rewrite !length_app, length_imap, length_fmap. cbn [length]. lia.
Qed.

(** ** [extended_symtab_issue_76] *)
Definition int3 (n : string) : Definition_ :=
  mkDefinition n (Blob [xcc]) [] (DD_Function (global function)).

Definition declare_int3 (n : string) : op := ODeclareWith n (into_decl (global function)) [xcc].

(** The specification after functions under new, distinct names. *)
Lemma spec_functions ns : ∀ s,
  NoDup ns → (∀ n, n ∈ ns → sp_decls s !! n = None ∧ sp_defs s !! n = None) →
  let r := run spec_exec (declare_int3 <$> ns) s in
  Forall (eq (Ok tt)) r.2 ∧ sp_links r.1 = sp_links s ∧
  ∀ n, sp_decls r.1 !! n =
         (if decide (n ∈ ns) then Some (Defined (d_decl (int3 n))) else sp_decls s !! n) ∧
       sp_defs r.1 !! n = (if decide (n ∈ ns) then Some (Blob [xcc], []) else sp_defs s !! n).
Proof.
  induction ns as [|m ns IH]; intros s Hnd Hs; [done|]. apply NoDup_cons in Hnd as [Hm Hnd].
  destruct (Hs m ltac:(by left)) as [E1 E2].
  set (s1 := mkSpec (<[m := Defined (d_decl (int3 m))]> (sp_decls s))
               (<[m := (Blob [xcc], [])]> (sp_defs s)) (sp_links s)).
  assert (spec_exec (declare_int3 m) s = (s1, Ok tt)) as Hstep.
  { cbn [declare_int3 spec_exec]. unfold spec_declare. rewrite E1. unfold spec_define.
    cbn [sp_decls sp_defs]. rewrite lookup_insert_eq, E2. done. }
  rewrite fmap_cons. cbn [run]. rewrite Hstep.
  specialize (IH s1 Hnd) as IH. destruct IH as (Hok & Hl & Hlook).
  { intros n Hn. cbn [s1 sp_decls sp_defs]. rewrite !lookup_insert_ne by congruence. apply Hs. by right. }
  destruct (run spec_exec (declare_int3 <$> ns) s1) as [s2 rs]. cbn [fst snd] in *.
  split; [by constructor|]. split; [done|]. intros n. destruct (Hlook n) as [-> ->].
  cbn [s1 sp_decls sp_defs].
  destruct (decide (n = m)) as [->|Hne].
  - rewrite !lookup_insert_eq. destruct (decide (m ∈ ns)) as [|_]; [done|].
    destruct (decide (m ∈ m :: ns)) as [|[]]; [done | by left].
  - rewrite !lookup_insert_ne by done.
    destruct (decide (n ∈ ns)) as [Hi|Hi], (decide (n ∈ m :: ns)) as [Hj|Hj]; try done.
    + destruct Hj. by right.
    + by apply elem_of_cons in Hj as [].
Qed.

Lemma functions_contents b ns :
  NoDup ns → let a := (run exec (declare_int3 <$> ns) (finish b)).1 in
  chain exec (declare_int3 <$> ns) (finish b) = (a, Ok tt) ∧ unlinked a ∧
  c_defs (contents a) ≡ₚ int3 <$> ns.
Proof.
  intros Hnd a. destruct (spec_functions ns spec_init Hnd) as (Hok & Hl & Hlook); [done|].
  destruct (calls_contents b (declare_int3 <$> ns) (int3 <$> ns)) as (H1 & H2 & H3 & H4 & H5 & H6);
    [done | | | | | done | done..].
  - apply NoDup_fmap_2; [by intros x y [= ->] | done].
  - intros [n dat syms decl]. cbn [d_name d_data d_symbols d_decl]. destruct (Hlook n) as [-> ->].
    rewrite list_elem_of_fmap. split.
    + intros (m & [= -> -> -> ->] & Hin). by destruct (decide (m ∈ ns)).
    + case_decide; [|by intros []]. intros [[= <- <-] [= <-]]. by exists n.
  - intros n k. destruct (Hlook n) as [-> _]. by case_decide.
  - intros n d. destruct (Hlook n) as [-> ->]. by case_decide.
Qed.

Lemma int3_names ns :
  concat (def_symbol_names <$> (int3 <$> ns)) = ns ∧
  sec_name <$> (int3 <$> ns) = (fun n => ".text." +:+ n)%string <$> ns ∧
  concat (def_code <$> (int3 <$> ns)) = replicate (length ns) [xcc].
Proof.
  induction ns as [|n ns (H1 & H2 & H3)]; [done|]. cbn in *. rewrite H1, H2, H3. done.
Qed.

Lemma concat_fmap_perm {A B} (f : A → list B) l1 l2 :
  l1 ≡ₚ l2 → concat (f <$> l1) ≡ₚ concat (f <$> l2).
Proof.
  induction 1 as [|x l1 l2 _ IH|x y l|l1 l2 l3 _ IH1 _ IH2]; cbn; [done | by rewrite IH| | by etrans].
  by rewrite !app_assoc, (Permutation_app_comm (f y)).
Qed.

Lemma zsum_perm l1 l2 : l1 ≡ₚ l2 → zsum l1 = zsum l2.
Proof. induction 1; cbn [zsum]; lia. Qed.

Lemma zlen_perm {A} (l1 l2 : list A) : l1 ≡ₚ l2 → zlen l1 = zlen l2.
Proof. intros H. unfold zlen. by rewrite H. Qed.

Lemma small_perm ds1 ds2 : ds1 ≡ₚ ds2 → small ds1 → small ds2.
Proof.
  intros Hp []. split.
  - by rewrite <- (zlen_perm _ _ Hp).
  - by rewrite <- (zlen_perm _ _ (concat_fmap_perm def_symbol_names _ _ Hp)).
  - by rewrite <- (zsum_perm _ _ (fmap_Permutation zlen _ _ (concat_fmap_perm def_code _ _ Hp))).
  - by rewrite <- Hp.
  - by rewrite <- (concat_fmap_perm def_symbol_names _ _ Hp).
  - intros n Hn. apply sm_names0. by rewrite (concat_fmap_perm def_names _ _ Hp).
  - by rewrite <- Hp.
Qed.

Lemma short_text n : str_len n < 128 → no_nul n → short_name (".text." +:+ n).
Proof.
  intros Hl Hn. split.
  - unfold str_len in *. change (String.length (".text." +:+ n)) with (6 + String.length n)%nat. lia.
  - change (x00 ∉ bytes_of ".text." ++ bytes_of n). apply not_elem_of_app. split; [|done].
    by apply (bool_decide_unpack _).
Qed.

Lemma int3_small ns :
  NoDup ns → zlen ns < 2 ^ 20 → (∀ n, n ∈ ns → str_len n < 128 ∧ no_nul n) → small (int3 <$> ns).
Proof.
  intros Hnd Hl Hn. destruct (int3_names ns) as (E1 & E2 & E3). split; rewrite ?E1, ?E2, ?E3.
  - unfold zlen. by rewrite length_fmap.
  - done.
  - eapply Z.le_lt_trans; [apply (zsum_le _ 1)|].
    + intros x Hx. apply elem_of_replicate in Hx as [-> _]. done.
    + unfold zlen in *. rewrite length_replicate. lia.
  - apply NoDup_fmap_2; [intros x y [= H]; done | done].
  - done.
  - intros n Hin. apply list_elem_of_In, in_concat in Hin as (l & Hl1 & Hl2).
    apply list_elem_of_In, list_elem_of_fmap in Hl1 as (d & -> & Hd).
    apply list_elem_of_fmap in Hd as (m & -> & Hm). destruct (Hn m Hm) as [H1 H2].
    destruct Hl2 as [<-|[<-|[]]]; [by apply short_text | split; [|done]]. cbn. lia.
  - apply Forall_fmap, Forall_forall. intros n _. split; [|done]. cbn. by apply in_word_small.
Qed.

Lemma numbered_inj prefix : Inj (=) (=) (numbered prefix).
Proof.
  intros i j H. unfold numbered in H. apply (inj (String.append prefix)), (inj pretty) in H. lia.
Qed.

(** The names of [n] numbers from [z] on are short. *)
Fixpoint numbers_check (prefix : string) (z : Z) (n : nat) : bool :=
  match n with
  | O => true
  | S n =>
      let s := prefix +:+ pretty z in
      (str_len s <? 128) && bool_decide (x00 ∉ bytes_of s) && numbers_check prefix (Z.succ z) n
  end.

Lemma numbers_check_ok prefix n : ∀ z i,
  numbers_check prefix z n = true → (i < n)%nat →
  let s := prefix +:+ pretty (z + Z.of_nat i) in str_len s < 128 ∧ no_nul s.
Proof.
  induction n as [|n IH]; intros z i Hc Hi; [lia|]. cbn [numbers_check] in Hc.
  apply andb_true_iff in Hc as [[H1 H2]%andb_true_iff Hc]. destruct i as [|i].
  - rewrite Z.add_0_r. split; [by apply Z.ltb_lt | by apply bool_decide_eq_true in H2].
  - replace (z + Z.of_nat (S i)) with (Z.succ z + Z.of_nat i) by lia. apply IH; [done | lia].
Qed.

Lemma numbered_short prefix n s :
  numbers_check prefix 0 n = true → s ∈ numbered prefix <$> seq 0 n → str_len s < 128 ∧ no_nul s.
Proof.
  intros Hc (i & -> & Hi)%list_elem_of_fmap. apply elem_of_seq in Hi.
  apply (numbers_check_ok prefix n 0 i Hc). lia.
Qed.

(** The counts the test asserts, for any number of functions: the number of
    sections is in the header only below 0xff00; then there is one section
    more, for the section indices of the symbols. *)
Lemma extended_symtab_counts n :
  Z.of_nat n < 2 ^ 20 → numbers_check "func" 0 n = true →
  extended_symtab_issue_76 n
    (if SHN_LORESERVE <=? Z.of_nat n + 4 then 0 else Z.of_nat n + 4)
    (Z.of_nat n + (if SHN_LORESERVE <=? Z.of_nat n + 4 then 5 else 4)) = true.
Proof.
  intros Hn Hc. set (ns := numbered "func" <$> seq 0 n).
  assert (extended_symtab_calls n = declare_int3 <$> ns) as Ecalls.
  { unfold ns. by rewrite <- list_fmap_compose. }
  assert (zlen ns = Z.of_nat n) as Hlen by (unfold ns, zlen; by rewrite length_fmap, length_seq).
  assert (NoDup ns) as Hnd by (apply NoDup_fmap_2; [apply numbered_inj | apply NoDup_seq]).
  set (b := ArtifactBuilder_name (ArtifactBuilder_new elf_target) "extended_symtab.o").
  destruct (functions_contents b ns Hnd) as (Hch & Hu & Hp).
  set (a := (run exec (declare_int3 <$> ns) (finish b)).1) in *.
  assert (a_name a = "extended_symtab.o"%string ∧ a_target a = elf_target) as [Ea Et].
  { pose proof (chain_labels (declare_int3 <$> ns) (finish b)) as Hl. rewrite Hch in Hl.
    cbn [fst] in Hl. by injection Hl. }
  assert (small (c_defs (contents a))) as Hsm.
  { apply (small_perm (int3 <$> ns)); [done|]. apply int3_small; [done | lia |].
    intros s. by apply numbered_short. }
  destruct (unlinked_parses a) as (g & machine & strs & Hf & Hs & Hr); [done | done | done | | |].
  - rewrite Ea. by apply short_name_check_ok.
  - by rewrite Ea.
  - unfold extended_symtab_issue_76, succeeds, after. rewrite Ecalls. fold b. rewrite Hch. cbn [fst snd is_ok].
    rewrite Hf.
    destruct (unlinked_file_counts a g machine strs Hu Hs Hr) as (E1 & E2 & E3 & E4).
    rewrite (zlen_perm _ _ (concat_fmap_perm def_symbol_names _ _ Hp)) in E4.
    rewrite (proj1 (int3_names ns)) in E4. rewrite (zlen_perm _ _ Hp) in E1, E2, E4.
    unfold zlen in E1, E2, E4, Hlen. rewrite length_fmap in E1, E2, E4.
    rewrite Hlen in E1, E2, E4. rewrite E1, E3. unfold zlen. rewrite E2, !Z.eqb_refl. cbn [andb].
    apply andb_true_iff. split; apply bool_decide_eq_true; [done | lia].
Qed.

(** The test as it is: 0x10000 functions. *)
Lemma extended_symtab_issue_76_passes : extended_symtab_issue_76 (Z.to_nat 0x10000) 0 65541 = true.
Proof.
  pose proof (extended_symtab_counts (Z.to_nat 0x10000)) as H.
  rewrite Z2Nat.id in H by lia. apply H; [lia|]. vm_compute. reflexivity.
Qed.

(** ** [custom_section_symbols] *)
Definition custom_symbol (i : nat) : string * Z := (numbered "sym" i, Z.of_nat i).

Lemma custom_symbols_perm n : custom_symbols n ≡ₚ custom_symbol <$> seq 0 n.
Proof.
  unfold custom_symbols. induction n as [|n IH]; [done|].
  rewrite seq_S, fold_left_app, fmap_app. cbn [fold_left fmap list_fmap Nat.add].
  set (l := fold_left _ _ _) in *. rewrite bts_insert_fresh_perm, IH; [by rewrite Permutation_app_comm|].
  rewrite IH. intros (i & Hi & Hin)%list_elem_of_fmap. apply elem_of_seq in Hin.
  apply (f_equal fst), numbered_inj in Hi. lia.
Qed.

Lemma custom_symbols_names n : (custom_symbols n).*1 ≡ₚ numbered "sym" <$> seq 0 n.
Proof. rewrite custom_symbols_perm, <- list_fmap_compose. done. Qed.

Definition test_section (n : nat) : Definition_ :=
  mkDefinition "test_section" (Blob (replicate n x00)) (custom_symbols n)
    (DD_Section (with_datatype DT_Bytes (section SK_Data))).

Definition test_section_calls (n : nat) : list op :=
  [ODeclare "test_section" (into_decl (with_datatype DT_Bytes (section SK_Data)));
   ODefineWithSymbols "test_section" (Blob (replicate n x00)) (custom_symbols n)].

Lemma test_section_contents b n :
  let a := (run exec (test_section_calls n) (finish b)).1 in
  chain exec (test_section_calls n) (finish b) = (a, Ok tt) ∧ unlinked a ∧
  c_defs (contents a) = [test_section n].
Proof.
  intros a.
  assert (run spec_exec (test_section_calls n) spec_init =
    (mkSpec {["test_section"%string := Defined (d_decl (test_section n))]}
       {["test_section"%string := (d_data (test_section n), custom_symbols n)]} [], [Ok tt; Ok tt]))
    as Hs by reflexivity.
  destruct (calls_contents b (test_section_calls n) [test_section n]) as (H1 & H2 & H3 & H4 & H5 & H6).
  - rewrite Hs. by repeat constructor.
  - apply NoDup_singleton.
  - rewrite Hs. cbn [fst sp_defs sp_decls]. intros [m dat syms decl]. cbn [d_name d_data d_symbols d_decl].
    rewrite !lookup_singleton_Some, list_elem_of_singleton. unfold test_section. cbn [d_decl d_data].
    split; [by intros [= -> -> -> ->] | by intros [[<- [= <- <-]] [_ [= <-]]]].
  - rewrite Hs. cbn [fst sp_decls]. by intros m k [_ ?]%lookup_singleton_Some.
  - rewrite Hs. cbn [fst sp_decls sp_defs]. intros m d [<- _]%lookup_singleton_Some.
    by rewrite lookup_singleton_eq.
  - by rewrite Hs.
  - split; [done|]. split; [done|]. by apply Permutation_singleton_r.
Qed.

Lemma test_section_small n :
  Z.of_nat n < 2 ^ 20 → numbers_check "sym" 0 n = true → small [test_section n].
Proof.
  intros Hn Hc.
  assert (concat (def_symbol_names <$> [test_section n]) = (custom_symbols n).*1) as E
    by apply app_nil_r.
  assert (∀ s, s ∈ (custom_symbols n).*1 → str_len s < 128 ∧ no_nul s) as Hs.
  { intros s. rewrite custom_symbols_names. by apply numbered_short. }
  split; rewrite ?E.
  - done.
  - rewrite (zlen_perm _ _ (custom_symbols_names n)). unfold zlen. by rewrite length_fmap, length_seq.
  - cbn. unfold zlen. rewrite length_replicate. lia.
  - apply NoDup_singleton.
  - rewrite custom_symbols_names. apply NoDup_fmap_2; [apply numbered_inj | apply NoDup_seq].
  - intros s Hin. cbn [fmap list_fmap concat] in Hin. rewrite app_nil_r in Hin.
    apply elem_of_cons in Hin as [->|Hin]; [by apply short_name_check_ok|].
    destruct (Hs s Hin). split; [lia | done].
  - constructor; [|constructor]. split; [by apply in_word_small|]. cbn [test_section d_symbols].
    rewrite custom_symbols_perm. apply Forall_fmap, Forall_forall. intros i Hi%elem_of_seq.
    apply in_word_small. cbn. lia.
Qed.

(** The one element under a key. *)
Lemma filter_key {A} (f : A → list byte) l x :
  NoDup (f <$> l) → x ∈ l → List.filter (fun y => bool_decide (f y = f x)) l = [x].
Proof.
  induction l as [|y l IH]; intros Hnd Hx; [by apply elem_of_nil in Hx|].
  rewrite fmap_cons in Hnd. apply NoDup_cons in Hnd as [Hy Hnd].
  cbn [List.filter]. apply elem_of_cons in Hx as [->|Hx].
  - rewrite bool_decide_true by done. f_equal. clear -Hy.
    induction l as [|z l IH]; [done|]. rewrite fmap_cons in Hy. apply not_elem_of_cons in Hy as [Hz Hy].
    cbn [List.filter]. rewrite bool_decide_false by done. by apply IH.
  - rewrite bool_decide_false; [by apply IH|]. intros E. destruct Hy. rewrite E.
    by apply list_elem_of_fmap_2.
Qed.

(** The symbols of the file under the names of the test. *)
Lemma test_section_symbols a g strs n i :
  c_defs (contents a) = [test_section n] → c_imports (contents a) = [] →
  obj_spec test_ctx (contents a) g → a_name a = "custom_section_symbols.o"%string → (i < n)%nat →
  List.filter (fun s => bool_decide (rs_symbol_name s = bytes_of (numbered "sym" i)))
    (file_symbols strs (a_name a) g) =
  [named_symbol (numbered "sym" i)
     (object_symbol strs (numbered "sym" i, mkSymbolBuilder 0 0 ST_None 3 (Z.of_nat i)))].
Proof.
  intros Hd Him [E1 _ E3 _] Hn Hi. rewrite Hd in E1, E3. rewrite Him in E3.
  cbn [imap concat fmap list_fmap] in E1, E3. rewrite !app_nil_r in E3.
  unfold file_symbols. rewrite E1, E3, Hn. cbn [imap app].
  set (rest := _ <$> def_symbols _ _).
  assert (NoDup (rs_symbol_name <$> rest)) as Hnd.
  { unfold rest. rewrite <- list_fmap_compose.
    change (_ ∘ _) with (bytes_of ∘ (fst : string * SymbolBuilder → string)).
    rewrite (list_fmap_compose fst bytes_of). apply NoDup_fmap_2; [intros ? ?; apply bytes_of_inj|].
    rewrite def_symbols_names. change (NoDup (custom_symbols n).*1). rewrite custom_symbols_names.
    apply NoDup_fmap_2; [apply numbered_inj | apply NoDup_seq]. }
  cbn [List.filter].
  do 3 (rewrite bool_decide_false by (cbn [rs_symbol_name named_symbol]; by vm_compute)).
  apply (filter_key rs_symbol_name rest (named_symbol _ _) Hnd). unfold rest.
  apply list_elem_of_fmap. eexists (_, _). split; [done|]. cbn [def_symbols test_section d_decl d_symbols].
  apply list_elem_of_fmap. exists (custom_symbol i). split; [done|].
  rewrite custom_symbols_perm. apply list_elem_of_fmap_2, elem_of_seq. lia.
Qed.

(** Every symbol of the section is in the file once, with its value and no
    type, for any number of them. *)
Lemma custom_section_symbols_found n :
  Z.of_nat n < 2 ^ 20 → numbers_check "sym" 0 n = true → custom_section_symbols n = true.
Proof.
  intros Hn Hc.
  set (b := ArtifactBuilder_name (ArtifactBuilder_new elf_target) "custom_section_symbols.o").
  destruct (test_section_contents b n) as (Hch & Hu & Hd).
  set (a := (run exec (test_section_calls n) (finish b)).1) in *.
  assert (a_name a = "custom_section_symbols.o"%string ∧ a_target a = elf_target) as [Ea Et].
  { pose proof (chain_labels (test_section_calls n) (finish b)) as Hl. rewrite Hch in Hl.
    exact (conj (f_equal (fun l => l.1.1) Hl) (f_equal (fun l => l.1.2) Hl)). }
  destruct (unlinked_parses a) as (g & machine & strs & Hf & Hs & Hr);
    [done | rewrite Hd; by apply test_section_small | done | | |].
  - rewrite Ea. by apply short_name_check_ok.
  - by rewrite Ea.
  - unfold custom_section_symbols, succeeds, after. fold (test_section_calls n). fold b.
    rewrite Hch. cbn [fst snd is_ok andb]. rewrite Hf. cbn [elf_file_of ef_symbols].
    apply forallb_forall. intros p Hp. apply list_elem_of_In in Hp.
    rewrite custom_symbols_perm in Hp. apply list_elem_of_fmap in Hp as (i & -> & Hi%elem_of_seq).
    unfold custom_symbol. rewrite (test_section_symbols a g strs n i) by (done || apply Hu || lia).
    cbn [rs_symbol named_symbol]. unfold ElfWrite.clamp_shndx. case_match; cbn; by rewrite Z.eqb_refl.
Qed.

(** The test as it is: 0x10000 symbols. *)
Lemma custom_section_symbols_passes : custom_section_symbols (Z.to_nat 0x10000) = true.
Proof. apply custom_section_symbols_found; [lia|]. vm_compute. reflexivity. Qed.
End Large.
